(* ===== verification/_CoqProject ===== *)
-Q . S2P
Prelude.v
Loops.v
Paths.v
Float32.v
Feature.v
World.v
Fixture.v
Evolve.v
Stages.v
Machine.v
Batch.v
Interleave.v
EvolvePool.v
Commute.v
Supervisor.v
Round.v
Recheck.v
CodeWrapper.v
Billing.v
Ledger.v
Config.v
Tests.v
Request.v
