(* ===== verification/Prelude.v ===== *)
(** * PromptFuzz: the sanitization pipeline and the LLM request handler

    PromptFuzz asks a language model for fuzz drivers of a C/C++ library and
    keeps the drivers that survive a five-stage sanitization.  This
    development models the three Rust sources of the pipeline and proves
    what each part promises to the others.

    ** The program

    - src/execution/sanitize.rs.  [check_program_is_correct] runs the stages
      syntax, link, execute, fuzz and coverage on one candidate in its work
      directory and returns the first verdict ([ProgramError]) or none.  The
      coverage stage calls [evolve_corpus], which copies the inputs that
      cover new features to the shared corpus and persists the global
      feature set.  [check_programs_are_correct] is the supervisor of a
      round: it writes the candidates, has them checked by
      [concurrent_check] in batches of worker processes
      ([concurrent_check_batch]), reports the cost ([print_san_cost]) and
      cleans the work directories ([cleanup_sanitize_dir]).  [recheck_seed]
      runs the accepted seeds again on the grown corpus.
    - src/config.rs.  Constants, the flag sets of the three build profiles,
      the command line ([Config]), the per-library settings ([LibConfig]),
      the one-shot global cells set by [init_openai_env] and
      [parse_config], and the prompt templates.
    - src/request/openai.rs.  The handler [OpenAIHanler] with its
      [generate] and [infill] methods, the client cell ([get_client]), the
      retry loops around the chat and completion end points, the bill
      ([openai_billing]) and [strip_code_wrapper], which unwraps the
      model's answer.

    The parts meet in three places.  The stage handlers of a candidate run
    in a worker process of the supervisor's batch, and the coverage stage
    of every worker reads and writes the shared corpus and the global
    feature file.  The request layer reads the cells that config.rs sets
    and charges the bill.  The tests of sanitize.rs install the test
    configuration and drive the stage handlers.

    ** The files

    - Prelude (this file): results and faults, the state-and-failure monad
      [M] in which every handler is written, its notations, the relational
      ([steps]), invariant ([triple]), total-correctness ([succeeds]),
      typing ([returns]) and two-run ([agrees]) rules, and the tactics.  A Rust [Result] is [result]; [?] is [bind];
      a panic is the fault [Panic], an error value is [Report].
    - Loops: equivalence of computations and the collecting loop [map_m].
    - Paths: [std::path] on pairs of a directory and a file name.
    - Float32: [f32] as IEEE 754 binary32 over the Standard Library's
      [SpecFloat].
    - Feature: the global feature store as the interface [FeatureStore]
      with a set and a vector implementation; the merge-control data.
    - World: the state of the pipeline (work directories with files and
      cost log, shared corpus, global feature file, clock), [std::fs] on
      it, and the external tools as the interface [Toolchain].
    - Fixture: concrete toolchains and worlds on which the handlers
      evaluate.
    - Evolve: [evolve_corpus] and its loop (sanitize.rs 265-310), and the
      handler split at its last read of the shared state ([evolve_read],
      [evolve_write]).
    - Stages: the five stage handlers and [check_program_is_correct]
      (sanitize.rs 25-155).
    - Machine: [check_program_is_correct] as a transition system, one stage
      per step: the relation [step], its executable form [step_fn] and the
      run with fuel [run].
    - Batch: [concurrent_check] and [concurrent_check_batch] (194-262);
      the worker process is the interface [Harness].
    - Interleave: the workers of a batch as a pool of stage machines over
      one world ([pool_step]: any unfinished worker takes its next step),
      and two workers inside [evolve_corpus], interleaved and in order.
    - EvolvePool: any number of workers inside [evolve_corpus], each with
      its read ([evolve_parse] and the loop) and its write ([evolve_write])
      as steps of its own, taken in any order ([evolve_pool_step], with the
      executable schedules [evolve_pool_run]); the entries a worker has
      parsed stay in its phase as the history of the run.
    - Commute: what a worker sees of the world ([view], [sees], [alike]),
      computations local to a work directory ([local]), the tools that
      read nothing else ([LocalTools]), and the pool restricted to the
      stages before coverage ([early_step], with the executable schedules
      [early_run]).
    - Supervisor: [check_programs_are_correct], [print_san_cost],
      [cleanup_sanitize_dir] (157-192, 342-395).
    - Round: the supervisor, the batch and the stage handlers composed: a
      round over one new candidate from the written source file to the
      cleaned work directory, under the answers of the tools
      ([reaches_coverage]).
    - Recheck: [recheck_seed] (314-339); the verdicts of the seeds that
      failed are [ProgramError]s, as in the stages.
    - CodeWrapper: [strip_code_wrapper] with the string functions it calls
      (openai.rs 324-355).
    - Billing: the module [openai_billing] (openai.rs 96-192); the decimal
      text of an [f32] is the interface [F32Text].
    - Ledger: the specification of the bill, a ledger of unbounded totals
      changed by the events [Logged] and [Restarted], and the abstraction
      [absr] from the counters to it.
    - Config: config.rs.
    - Tests: the three tests of sanitize.rs (397-472) on the cells and the
      world ([TestProcess]).
    - Request: the handler, the client cell, the retry loops and the
      generate and infill entry points (openai.rs 24-94, 194-322) on the
      state [Process] (cells, bill, client cell, requests sent); the
      service is the interface [Backend].

    ** What is proved

    - Stages: the verdict and the exact final work directory, cost log,
      shared corpus and feature file for each of the six ways the pipeline
      can end; that the shared state only grows and that a candidate
      touches no work directory but its own, on every outcome, failures
      and panics included.
    - Evolve: the loop equals its specification on sets (the interesting
      inputs are those with a feature not seen so far), admits only novel
      inputs, does not depend on the implementation of the store, is
      idempotent; the handler succeeds with the expected world, and however
      it ends, at a failed copy too, the feature file is either as it was
      or holds what the worker computed with every interesting input
      copied.
    - Machine: the handler refines the machine (it returns the one final
      configuration the machine reaches); every run ends within five
      steps; a verdict has the variant of the stage that returned it.
    - Interleave: under every schedule the pool stops within five steps per
      candidate, writes only to the work directories of its candidates and
      loses nothing of the shared state; the sequential order of Batch is
      one schedule.  Two workers inside [evolve_corpus] lose the features
      of the first writer when the second reads before the first writes,
      and lose nothing one after the other.
    - EvolvePool: under every schedule, with failing tools and failing
      copies, the feature file keeps the features it started with and holds
      beyond them only features of parsed inputs that are in the shared
      corpus ([witnessed]); features of other workers can be lost, inputs
      cannot.  The handlers run one after the other are the in-order
      schedule; in that order and without failures the bound is attained
      (the file ends with every feature any worker parsed); every schedule
      ends within two steps per worker.
    - Commute: the stages before coverage are local, and computations
      local to different directories commute up to the clock and the
      recorded times; so do the steps of two workers of a pool.  Hence
      every schedule of the early stages of a batch ends with the same
      statuses and files, those each candidate reaches alone.  The coverage
      stage is not local: which inputs are admitted depends on the order.
    - Batch: [concurrent_check] equals checking the candidates one by one
      in input order, its batches are the chunks of at most [core]
      candidates, verdicts survive the encoding between worker and
      supervisor, a worker's operational error becomes a verdict, zero
      cores panic.
    - Supervisor: which directories a round keeps and what is left in
      them; the cost report names the slowest candidate; the panic of a
      round without candidates or without a cost; the shared corpus and
      the feature file only grow over any sequence of rounds, failed and
      panicked rounds included ([grows]).
    - Round: a round over a new candidate that the tools let through to
      coverage returns the coverage verdict, leaves the directory kept or
      removed as the verdict says, with the interesting inputs in the
      shared corpus and their features in the feature file; a candidate
      rejected at syntax or at execute leaves the shared state as it was.
      Each of them also covers the round in which no stage took any time:
      the cost report divides by the slowest stage time and the round
      panics with the directory uncleaned ([round_ends], [timed]).
    - Recheck: the accepted seeds after a recheck are those that pass; what
      happens to the seed directory, the archive and the queue; the stop at
      the first compile error.
    - CodeWrapper: the result for a fenced answer, a plain answer and an
      answer with an unclosed fence.
    - Billing: the usage file round trip, wrap-around and panic of the
      [u32] counters, the range invariant.
    - Ledger: the bill refines its ledger over every sequence of responses
      and restarts that fits in [u32]; without overflow checks it is the
      ledger modulo 2^32, with them it fails exactly when the ledger no
      longer fits.
    - Request: the number of requests of the retry loop, the response
      after [k] retries billed once, giving up after [RETRY_N]; a request
      before the cells are set panics; [generate] and [infill] return the
      unwrapped choices; completions are not billed.
    - Config: the cells after [init_openai_env], the panic of a second
      initialisation, the caching of the user prompt and of the minimize
      flag, the outcomes of [parse_config].
    - Tests: each test passes exactly when its set-up succeeds and the
      pipeline answers as the test expects; two of them expect nothing.
      Composed with Stages: [test_coverage_sanitize] passes in a crate
      that holds its two programs whenever the tools take both to the
      coverage stage and report uncovered branches for the second only.

    ** Bounds and modelling decisions

    - The workers of a batch are separate processes.  In Batch and
      Supervisor they run one after the other in spawn order, and the
      theorems of those files are about that schedule.  Interleave has
      every schedule at the grain of one stage per step, and at the grain
      of the read and the write of the feature file inside [evolve_corpus];
      [sequential_is_a_schedule] and [evolve_pool_in_order] connect them to
      the sequential order.  The pool of EvolvePool starts from a feature
      file that exists: a missing file is seeded by a tool
      ([tc_init_by_corpus]) whose answer the sources do not constrain.
    - The stage machine needs no fuel beyond the five stages
      ([step_stages_left]); [run] is given fuel and [run_final] shows that
      five is enough.
    - The external tools are functions of the world ([Toolchain]); their
      answers are arbitrary, their effects on the work directory are the
      ones the pipeline relies on.  The clock stands for what else they
      depend on.
    - Of the calls into [Deopt], the getters of paths are taken to
      succeed; [copy_file_to_shared_corpus] copies file by file and each
      copy can fail ([tc_copy]), which is what the order of copying and
      persisting in [evolve_corpus] protects against.  Writing the feature
      file does not fail.
    - The cost log of a work directory is a field of its own and is not a
      file of the directory; a cost that was never logged loads as zero.
    - Commutation is stated for tools that satisfy [LocalTools]: what a tool
      answers for a path depends on the entries of the directory of that
      path, the shared corpus and the feature file only.  The toolchains of
      Fixture satisfy it.  Times and the clock are left out of the
      comparison ([alike]), since they do depend on the order.
    - [usize] and [u8] indices are natural numbers: the lists they index
      are far below the machine bounds.  The token counters are kept at 32
      bits because their overflow is reachable.
    - Strings are byte strings.  [trim] recurses on the length of its
      argument and [replace] on the length plus one, which is enough for
      every scan to reach the end ([trim_fuel_done],
      [replace_fuel_enough]); [replace] is given for non-empty patterns,
      the only ones the sources use.
    - JSON and decimal text are interfaces with their round-trip laws
      ([Harness], [F32Text]), each with an instance that computes.

    ** Not modelled

    The wire format and the transport of the HTTP client, the scheduling of
    the async runtime, the clap parser, the logger, [Deopt] and the modules
    feedback, program and deopt, which the three sources only call: they
    are I/O or code outside src/, and enter as interfaces ([Toolchain],
    [Harness], [Backend], [F32Text]) or as results given to a section.
    The programs of testsuites/ are files of the world; what the real
    compiler and fuzzer say of them is not part of the sources. *)

From Stdlib Require Export ZArith Lia Ascii String.
From stdpp Require Export base tactics option list gmap strings.

(** ** Failures and results

    Rust code of the repository fails in two ways: a function returning
    [eyre::Result] propagates a report through [?], and [unwrap], [expect],
    indexing and integer division panic.  Both are values here. *)

Inductive fault : Type :=
| Report (msg : string)
| Panic (msg : string).

Inductive result (A : Type) : Type :=
| Ok (a : A)
| Err (e : fault).
Arguments Ok {A} a.
Arguments Err {A} e.

#[export] Instance fault_eq_dec : EqDecision fault.
Proof. solve_decision. Defined.

#[export] Instance result_eq_dec `{EqDecision A} : EqDecision (result A).
Proof. solve_decision. Defined.

Definition is_ok {A} (r : result A) : bool :=
  match r with Ok _ => true | Err _ => false end.

Definition is_panic {A} (r : result A) : bool :=
  match r with Err (Panic _) => true | _ => false end.

(** ** The state-and-failure monad

    A computation reads and writes a state [S] and ends in a result.  The
    state is returned on failure too: what a Rust function wrote to disk
    before it returned an error stays written. *)

Definition M (S A : Type) : Type := S -> result A * S.

Definition ret {S A} (a : A) : M S A := fun s => (Ok a, s).

Definition fail {S A} (e : fault) : M S A := fun s => (Err e, s).

Definition bind {S A B} (m : M S A) (k : A -> M S B) : M S B :=
  fun s => match m s with
           | (Ok a, s') => k a s'
           | (Err e, s') => (Err e, s')
           end.

Definition get {S} : M S S := fun s => (Ok s, s).

Definition gets {S A} (f : S -> A) : M S A := fun s => (Ok (f s), s).

Definition modify {S} (f : S -> S) : M S unit := fun s => (Ok tt, f s).

Definition lift {S A} (r : result A) : M S A := fun s => (r, s).

(** [err.to_string()] *)
Definition to_string (e : fault) : string :=
  match e with Report msg => msg | Panic msg => msg end.

(** A call whose [Result] is kept as a value instead of being propagated
    with [?]: reports are caught, panics unwind. *)
Definition attempt {S A} (m : M S A) : M S (result A) :=
  fun s => match m s with
           | (Ok a, s') => (Ok (Ok a), s')
           | (Err (Report msg), s') => (Ok (Err (Report msg)), s')
           | (Err (Panic msg), s') => (Err (Panic msg), s')
           end.

(** The panics of [Option::unwrap] and [Result::unwrap]. *)
Definition unwrap_none : fault := Panic "called `Option::unwrap()` on a `None` value".

Definition unwrap_err : fault := Panic "called `Result::unwrap()` on an `Err` value".

(** [o.unwrap()] *)
Definition unwrap {S A} (o : option A) : M S A :=
  match o with Some a => ret a | None => fail unwrap_none end.

(** The line feed of Rust's ["\n"]. *)
Definition newline : string := String "010"%char EmptyString.

Declare Scope sm_scope.
Delimit Scope sm_scope with sm.

Notation "'let*' x ':=' m 'in' k" := (bind m (fun x => k))
  (at level 10, x binder, m at level 100, k at level 200) : sm_scope.
Notation "'do*' m 'in' k" := (bind m (fun _ => k))
  (at level 10, m at level 100, k at level 200) : sm_scope.

#[global] Open Scope sm_scope.

(** A loop over a list, in order, stopping at the first failure: the shape
    of every [for x in xs { f(x)?; }] of the sources. *)
Fixpoint for_each {S A} (f : A -> M S unit) (xs : list A) : M S unit :=
  match xs with
  | [] => ret tt
  | x :: xs' => do* f x in for_each f xs'
  end.

(** ** Relational reasoning about computations

    [steps R m]: every run of [m], failed or not, moves the state along [R].
    With [R] a preorder this is closed under [ret] and [bind], which is how
    monotonicity and frame properties of whole pipelines are proved. *)

Definition steps {S A} (R : relation S) (m : M S A) : Prop :=
  forall s, R s (m s).2.

(** [hoare P m Q]: from a state in [P], [m] ends with a result and state in
    [Q]. *)
Definition hoare {S A} (P : S -> Prop) (m : M S A) (Q : result A -> S -> Prop) : Prop :=
  forall s, P s -> Q (m s).1 (m s).2.

(** [triple P m I Q]: from a state in [P], [m] leaves the state in [I]
    whatever its result, and in [Q a] when it returns [a].  [I] carries what
    must survive failures, [Q] what success adds. *)
Definition triple {S A} (P : S -> Prop) (m : M S A) (I : S -> Prop) (Q : A -> S -> Prop) : Prop :=
  hoare P m (fun r s => I s /\ forall a, r = Ok a -> Q a s).

(** [succeeds P m Q]: from a state in [P], [m] returns, and its value and
    state are in [Q]. *)
Definition succeeds {S A} (P : S -> Prop) (m : M S A) (Q : A -> S -> Prop) : Prop :=
  hoare P m (fun r s => exists a, r = Ok a /\ Q a s).

(** [returns m Q]: whatever the state, a value [m] returns is in [Q].  The
    typing judgement of computations: it looks at values only. *)
Definition returns {S A} (m : M S A) (Q : A -> Prop) : Prop :=
  forall s a s', m s = (Ok a, s') -> Q a.

Create HintDb sm discriminated.
Create Rewrite HintDb str.

Section Monad.
Context {S : Type}.
Implicit Types s : S.

Lemma bind_ok {A B} (m : M S A) (k : A -> M S B) s a s' :
  m s = (Ok a, s') -> bind m k s = k a s'.
Proof. unfold bind. by intros ->. Qed.

Lemma bind_err {A B} (m : M S A) (k : A -> M S B) s e s' :
  m s = (Err e, s') -> bind m k s = (Err e, s').
Proof. unfold bind. by intros ->. Qed.

Lemma bind_ret_l {A B} (a : A) (k : A -> M S B) s : bind (ret a) k s = k a s.
Proof. done. Qed.

Lemma bind_inv_ok {A B} (m : M S A) (k : A -> M S B) s b s2 :
  bind m k s = (Ok b, s2) ->
  exists a s1, m s = (Ok a, s1) /\ k a s1 = (Ok b, s2).
Proof.
  unfold bind. destruct (m s) as [[a|e] s1]; [eauto | done].
Qed.

Lemma bind_inv_err {A B} (m : M S A) (k : A -> M S B) s e s2 :
  bind m k s = (Err e, s2) ->
  m s = (Err e, s2) \/ exists a s1, m s = (Ok a, s1) /\ k a s1 = (Err e, s2).
Proof.
  unfold bind. destruct (m s) as [[a|e'] s1]; [eauto | intros [= -> ->]; eauto].
Qed.

(** Runs that returned, taken apart. *)
Lemma bind_ok_iff {A B} (m : M S A) (k : A -> M S B) s b s2 :
  bind m k s = (Ok b, s2) <-> exists a s1, m s = (Ok a, s1) /\ k a s1 = (Ok b, s2).
Proof.
  split; [apply bind_inv_ok|]. intros (a & s1 & Hm & Hk). by erewrite bind_ok.
Qed.

Lemma lift_ok_iff {A} (r : result A) (s : S) a s' :
  lift r s = (Ok a, s') <-> r = Ok a /\ s' = s.
Proof. unfold lift. naive_solver. Qed.

Lemma ret_ok_iff {A} (a : A) (s : S) a' s' :
  ret a s = (Ok a', s') <-> a' = a /\ s' = s.
Proof. unfold ret. naive_solver. Qed.

Lemma steps_mono {A} (R R' : relation S) (m : M S A) :
  (forall s s', R s s' -> R' s s') -> steps R m -> steps R' m.
Proof. intros HR Hm s. apply HR, Hm. Qed.

Section Steps.
Context (R : relation S) `{!PreOrder R}.

Lemma steps_ret {A} (a : A) : steps R (ret a).
Proof. by intros s. Qed.

Lemma steps_fail {A} e : steps R (@fail S A e).
Proof. by intros s. Qed.

Lemma steps_lift {A} (r : result A) : steps R (lift r).
Proof. by intros s. Qed.

Lemma steps_gets {A} (f : S -> A) : steps R (gets f).
Proof. by intros s. Qed.

Lemma steps_get : steps R get.
Proof. by intros s. Qed.

Lemma steps_bind {A B} (m : M S A) (k : A -> M S B) :
  steps R m -> (forall a, steps R (k a)) -> steps R (bind m k).
Proof.
  intros Hm Hk s. unfold bind. specialize (Hm s).
  destruct (m s) as [[a|e] s1]; simpl in *; [|done].
  etrans; [done | apply Hk].
Qed.

Lemma steps_attempt {A} (m : M S A) : steps R m -> steps R (attempt m).
Proof.
  intros Hm s. unfold attempt. specialize (Hm s).
  by destruct (m s) as [[a|[]] s1].
Qed.

Lemma steps_modify (f : S -> S) : (forall s, R s (f s)) -> steps R (modify f).
Proof. intros Hf s. apply Hf. Qed.

Lemma steps_for_each {A} (f : A -> M S unit) xs :
  (forall x, steps R (f x)) -> steps R (for_each f xs).
Proof.
  intros Hf. induction xs as [|x xs IH]; simpl.
  - apply steps_ret.
  - by apply steps_bind.
Qed.

End Steps.

Lemma hoare_ret {A} (a : A) (Q : result A -> S -> Prop) :
  hoare (Q (Ok a)) (ret a) Q.
Proof. by intros s. Qed.

Lemma hoare_bind {A B} (P : S -> Prop) (m : M S A) (k : A -> M S B)
    (Q : result A -> S -> Prop) (T : result B -> S -> Prop) :
  hoare P m Q ->
  (forall e s, Q (Err e) s -> T (Err e) s) ->
  (forall a, hoare (Q (Ok a)) (k a) T) ->
  hoare P (bind m k) T.
Proof.
  intros Hm He Hk s Hs. specialize (Hm s Hs). unfold bind.
  destruct (m s) as [[a|e] s1]; simpl in *; [by apply Hk | by apply He].
Qed.

Lemma hoare_weaken {A} (P P' : S -> Prop) (m : M S A) (Q Q' : result A -> S -> Prop) :
  hoare P' m Q' -> (forall s, P s -> P' s) -> (forall r s, Q' r s -> Q r s) ->
  hoare P m Q.
Proof. intros Hm HP HQ s Hs. apply HQ, Hm, HP, Hs. Qed.

(** *** Rules for [triple] *)

Lemma triple_ret {A} (a : A) (I : S -> Prop) (Q : A -> S -> Prop) :
  triple (fun s => I s /\ Q a s) (ret a) I Q.
Proof. intros s [HI HQ]. split; [done|]. by intros ? [= <-]. Qed.

Lemma triple_ret_pre {A} (P I : S -> Prop) (a : A) (Q : A -> S -> Prop) :
  (forall s, P s -> I s /\ Q a s) -> triple P (ret a) I Q.
Proof.
  intros HQ s Hs. destruct (HQ s Hs). split; [done|]. by intros ? [= <-].
Qed.

Lemma triple_fail {A} e (I : S -> Prop) (Q : A -> S -> Prop) :
  triple I (fail e) I Q.
Proof. intros s HI. by split. Qed.

Lemma triple_fail_pre {A} e (P I : S -> Prop) (Q : A -> S -> Prop) :
  (forall s, P s -> I s) -> triple P (fail e) I Q.
Proof. intros HI s Hs. split; [by apply HI | done]. Qed.

(** A predicate closed under the moves of a computation holds after it. *)
Lemma triple_stable {A} (R : relation S) (m : M S A) (P I : S -> Prop) :
  steps R m -> (forall s s', R s s' -> P s -> P s') -> (forall s, P s -> I s) ->
  triple P m I (fun _ => P).
Proof.
  intros Hm HP HI s Hs. specialize (Hm s).
  split; [apply HI | intros _ _]; by eapply HP.
Qed.

Lemma triple_bind {A B} (P I : S -> Prop) (m : M S A) (k : A -> M S B)
    (Q : A -> S -> Prop) (T : B -> S -> Prop) :
  triple P m I Q -> (forall a, triple (Q a) (k a) I T) -> triple P (bind m k) I T.
Proof.
  intros Hm Hk s Hs. destruct (Hm s Hs) as [HI HQ]. unfold bind.
  destruct (m s) as [[a|e] s1]; simpl in *; [|by split].
  by apply Hk, HQ.
Qed.

Lemma triple_weaken {A} (P P' I I' : S -> Prop) (m : M S A) (Q Q' : A -> S -> Prop) :
  triple P' m I' Q' ->
  (forall s, P s -> P' s) -> (forall s, I' s -> I s) ->
  (forall a s, Q' a s -> Q a s) ->
  triple P m I Q.
Proof.
  intros Hm HP HI HQ s Hs. destruct (Hm s (HP s Hs)) as [H1 H2].
  split; [by apply HI | intros a Ha; by apply HQ, H2].
Qed.

Lemma triple_pre {A} (P P' I : S -> Prop) (m : M S A) (Q : A -> S -> Prop) :
  triple P' m I Q -> (forall s, P s -> P' s) -> triple P m I Q.
Proof. intros Hm HP. eapply triple_weaken; eauto. Qed.

Lemma triple_post {A} (P I : S -> Prop) (m : M S A) (Q Q' : A -> S -> Prop) :
  triple P m I Q' -> (forall a s, Q' a s -> Q a s) -> triple P m I Q.
Proof. intros Hm HQ. eapply triple_weaken; eauto. Qed.

Lemma triple_pure {A} (phi : Prop) (P I : S -> Prop) (m : M S A) (Q : A -> S -> Prop) :
  (phi -> triple P m I Q) -> triple (fun s => phi /\ P s) m I Q.
Proof. intros Hm s [Hphi Hs]. by apply Hm. Qed.

Lemma triple_conj {A} (P I I' : S -> Prop) (m : M S A) (Q Q' : A -> S -> Prop) :
  triple P m I Q -> triple P m I' Q' ->
  triple P m (fun s => I s /\ I' s) (fun a s => Q a s /\ Q' a s).
Proof.
  intros H1 H2 s Hs. destruct (H1 s Hs) as [? ?], (H2 s Hs) as [? ?].
  split; [done|]. intros a Ha. auto.
Qed.

Lemma triple_gets {A} (f : S -> A) (I : S -> Prop) :
  triple I (gets f) I (fun a s => a = f s /\ I s).
Proof. intros s HI. split; [done|]. by intros ? [= <-]. Qed.

Lemma triple_modify (f : S -> S) (P I : S -> Prop) :
  (forall s, P s -> I (f s)) -> triple P (modify f) I (fun _ s => I s).
Proof. intros Hf s Hs. split; [by apply Hf|]. intros _ _. by apply Hf. Qed.

Lemma triple_lift {A} (r : result A) (I : S -> Prop) :
  triple I (lift r) I (fun a s => r = Ok a /\ I s).
Proof. intros s HI. split; [done|]. simpl. by intros a ->. Qed.

(** A computation that moves along a preorder keeps every state reachable
    from a fixed origin reachable. *)
Lemma triple_of_steps {A} (R : relation S) `{!Transitive R} (m : M S A) s0 :
  steps R m -> triple (R s0) m (R s0) (fun _ s => R s0 s).
Proof.
  intros Hm s Hs. assert (R s0 (m s).2) by (etrans; [done | apply Hm]).
  by split.
Qed.

Lemma steps_of_triple {A} (R : relation S) `{!Reflexive R} (m : M S A) :
  (forall s0, triple (R s0) m (R s0) (fun _ s => R s0 s)) -> steps R m.
Proof. intros Hm s. by apply (Hm s s). Qed.

Lemma triple_for_each {A} (f : A -> M S unit) xs (I : S -> Prop) :
  (forall x, x ∈ xs -> triple I (f x) I (fun _ s => I s)) ->
  triple I (for_each f xs) I (fun _ s => I s).
Proof.
  induction xs as [|x xs IH]; intros Hf; simpl.
  - eapply triple_pre; [apply triple_ret | done].
  - eapply triple_bind; [apply Hf; by left|].
    intros ?. apply IH. intros y Hy. apply Hf. by right.
Qed.

(** *** Rules for [succeeds] *)

Lemma succeeds_ret {A} (a : A) (Q : A -> S -> Prop) : succeeds (Q a) (ret a) Q.
Proof. intros s Hs. by exists a. Qed.

Lemma succeeds_ret_pre {A} (P : S -> Prop) (a : A) (Q : A -> S -> Prop) :
  (forall s, P s -> Q a s) -> succeeds P (ret a) Q.
Proof. intros HQ s Hs. exists a. split; [done | by apply HQ]. Qed.

Lemma succeeds_bind {A B} (P : S -> Prop) (m : M S A) (k : A -> M S B)
    (Q : A -> S -> Prop) (T : B -> S -> Prop) :
  succeeds P m Q -> (forall a, succeeds (Q a) (k a) T) -> succeeds P (bind m k) T.
Proof.
  intros Hm Hk s Hs. destruct (Hm s Hs) as (a & Ha & HQ). unfold bind.
  destruct (m s) as [[a'|e] s1]; simpl in *; [|done].
  injection Ha as ->. by apply Hk.
Qed.

Lemma succeeds_attempt {A} (P : S -> Prop) (m : M S A) (Q : A -> S -> Prop) :
  succeeds P m Q -> succeeds P (attempt m) (fun r s => exists a, r = Ok a /\ Q a s).
Proof.
  intros Hm s Hs. destruct (Hm s Hs) as (a & Ha & HQ). unfold attempt.
  destruct (m s) as [[a'|e] s1]; simpl in *; [|done].
  injection Ha as ->. eauto.
Qed.

(** A computation that ends with a report, seen through [attempt]. *)
Lemma succeeds_attempt_report {A} (P : S -> Prop) (m : M S A) msg (Q : S -> Prop) :
  hoare P m (fun r s => r = Err (Report msg) /\ Q s) ->
  succeeds P (attempt m) (fun r s => r = Err (Report msg) /\ Q s).
Proof.
  intros Hm s Hs. destruct (Hm s Hs) as [Hr HQ]. unfold attempt.
  destruct (m s) as [r s1]; simpl in *. subst r. eauto.
Qed.

Lemma hoare_bind_succeeds {A B} (P : S -> Prop) (m : M S A) (k : A -> M S B)
    (Q : A -> S -> Prop) (T : result B -> S -> Prop) :
  succeeds P m Q -> (forall a, hoare (Q a) (k a) T) -> hoare P (bind m k) T.
Proof.
  intros Hm Hk s Hs. destruct (Hm s Hs) as (a & Ha & HQ). unfold bind.
  destruct (m s) as [[a'|e] s1]; simpl in *; [|done].
  injection Ha as ->. by apply Hk.
Qed.

Lemma hoare_bind_fails {A B} (P : S -> Prop) (m : M S A) (k : A -> M S B) e
    (T : S -> Prop) :
  hoare P m (fun r s => r = Err e /\ T s) ->
  hoare P (bind m k) (fun r s => r = Err e /\ T s).
Proof.
  intros Hm s Hs. destruct (Hm s Hs) as [Hr HT]. unfold bind.
  destruct (m s) as [r s1]; simpl in *. by subst r.
Qed.

Lemma hoare_pure {A} (phi : Prop) (P : S -> Prop) (m : M S A) (Q : result A -> S -> Prop) :
  (phi -> hoare P m Q) -> hoare (fun s => phi /\ P s) m Q.
Proof. intros Hm s [Hphi Hs]. by apply Hm. Qed.

Lemma succeeds_weaken {A} (P P' : S -> Prop) (m : M S A) (Q Q' : A -> S -> Prop) :
  succeeds P' m Q' -> (forall s, P s -> P' s) -> (forall a s, Q' a s -> Q a s) ->
  succeeds P m Q.
Proof.
  intros Hm HP HQ s Hs. destruct (Hm s (HP s Hs)) as (a & Ha & H1). eauto.
Qed.

Lemma succeeds_pure {A} (phi : Prop) (P : S -> Prop) (m : M S A) (Q : A -> S -> Prop) :
  (phi -> succeeds P m Q) -> succeeds (fun s => phi /\ P s) m Q.
Proof. intros Hm s [Hphi Hs]. by apply Hm. Qed.

Lemma succeeds_exists {A X} (P : X -> S -> Prop) (m : M S A) (Q : A -> S -> Prop) :
  (forall x, succeeds (P x) m Q) -> succeeds (fun s => exists x, P x s) m Q.
Proof. intros Hm s [x Hs]. by apply (Hm x). Qed.

Lemma succeeds_gets {A} (f : S -> A) (P : S -> Prop) :
  succeeds P (gets f) (fun a s => a = f s /\ P s).
Proof. intros s Hs. by exists (f s). Qed.

Lemma succeeds_modify (f : S -> S) (P Q : S -> Prop) :
  (forall s, P s -> Q (f s)) -> succeeds P (modify f) (fun _ s => Q s).
Proof. intros Hf s Hs. exists tt. split; [done | by apply Hf]. Qed.

Lemma succeeds_run {A} (P : S -> Prop) (m : M S A) (Q : A -> S -> Prop) s :
  succeeds P m Q -> P s -> exists a s', m s = (Ok a, s') /\ Q a s'.
Proof.
  intros Hm Hs. destruct (Hm s Hs) as (a & Ha & HQ).
  exists a, (m s).2. split; [|done]. destruct (m s); simpl in *; by subst.
Qed.

Lemma succeeds_of_run {A} (P : S -> Prop) (m : M S A) v (Q : S -> Prop) :
  (forall s, P s -> exists s', m s = (Ok v, s') /\ Q s') ->
  succeeds P m (fun r s' => r = v /\ Q s').
Proof. intros Hm s Hs. destruct (Hm s Hs) as (s' & -> & HQ). by exists v. Qed.

Lemma succeeds_run_value {A} (P : S -> Prop) (m : M S A) v (Q : S -> Prop) s :
  succeeds P m (fun r s' => r = v /\ Q s') -> P s ->
  exists s', m s = (Ok v, s') /\ Q s'.
Proof.
  intros Hm Hs. destruct (succeeds_run _ _ _ s Hm Hs) as (a & s' & E & -> & HQ).
  eauto.
Qed.

Lemma triple_run {A} (P I : S -> Prop) (m : M S A) (Q : A -> S -> Prop) s a s' :
  triple P m I Q -> P s -> m s = (Ok a, s') -> Q a s'.
Proof. intros Hm Hs E. destruct (Hm s Hs) as [_ HQ]. rewrite E in HQ. by apply HQ. Qed.

End Monad.

#[export] Hint Resolve steps_ret steps_fail steps_lift steps_gets steps_get
  steps_modify : sm.

(** ** Rules for [returns] *)

Section Returns.
Context {S : Type}.

Lemma returns_ret {A} (a : A) (Q : A -> Prop) : Q a -> returns (S:=S) (ret a) Q.
Proof. by intros Ha s a' s' [= <- _]. Qed.

Lemma returns_fail {A} e (Q : A -> Prop) : returns (S:=S) (fail e) Q.
Proof. by intros s a s'. Qed.

Lemma returns_lift {A} (r : result A) (Q : A -> Prop) :
  (forall a, r = Ok a -> Q a) -> returns (S:=S) (lift r) Q.
Proof. intros Hr s a s' [= -> _]. by apply Hr. Qed.

Lemma returns_bind_val {A B} (m : M S A) (k : A -> M S B) (P : A -> Prop) (Q : B -> Prop) :
  returns m P -> (forall a, P a -> returns (k a) Q) -> returns (bind m k) Q.
Proof.
  intros Hm Hk s b s'. unfold bind. destruct (m s) as [[a|e] s1] eqn:E; [|done].
  apply (Hk a (Hm _ _ _ E)).
Qed.

Lemma returns_bind {A B} (m : M S A) (k : A -> M S B) (Q : B -> Prop) :
  (forall a, returns (k a) Q) -> returns (bind m k) Q.
Proof. intros Hk. apply (returns_bind_val m k (fun _ => True)); [done | auto]. Qed.

Lemma returns_weaken {A} (m : M S A) (P Q : A -> Prop) :
  returns m P -> (forall a, P a -> Q a) -> returns m Q.
Proof. intros Hm HPQ s a s' E. eauto. Qed.

Lemma returns_run {A} (m : M S A) (Q : A -> Prop) s a :
  returns m Q -> (m s).1 = Ok a -> Q a.
Proof. intros Hm E. destruct (m s) as [r s'] eqn:Em. simpl in E. subst. eauto. Qed.

End Returns.

(** ** Computations that agree on related states *)

(** From states related by [R] the computation gives the same result and
    related states. *)
Definition agrees {S A} (R : relation S) (m : M S A) : Prop :=
  forall s s', R s s' -> (m s).1 = (m s').1 /\ R (m s).2 (m s').2.

Section Agrees.
Context {S : Type} (R : relation S).

Lemma agrees_ret {A} (a : A) : agrees R (ret a).
Proof. by intros s s' HR. Qed.

Lemma agrees_fail {A} e : agrees R (@fail S A e).
Proof. by intros s s' HR. Qed.

Lemma agrees_lift {A} (r : result A) : agrees R (lift r).
Proof. by intros s s' HR. Qed.

Lemma agrees_gets {A} (f : S -> A) : (forall s s', R s s' -> f s = f s') -> agrees R (gets f).
Proof. intros Hf s s' HR. unfold gets. simpl. by rewrite (Hf s s'). Qed.

Lemma agrees_modify (f : S -> S) :
  (forall s s', R s s' -> R (f s) (f s')) -> agrees R (modify f).
Proof. intros Hf s s' HR. unfold modify. simpl. auto. Qed.

Lemma agrees_bind {A B} (m : M S A) (k : A -> M S B) :
  agrees R m -> (forall a, agrees R (k a)) -> agrees R (bind m k).
Proof.
  intros Hm Hk s s' HR. destruct (Hm s s' HR) as [Hr HR']. unfold bind.
  destruct (m s) as [[a|e] s1], (m s') as [[a'|e'] s1']; simplify_eq/=; [|done].
  by apply Hk.
Qed.

Lemma agrees_attempt {A} (m : M S A) : agrees R m -> agrees R (attempt m).
Proof.
  intros Hm s s' HR. destruct (Hm s s' HR) as [Hr HR']. unfold attempt.
  destruct (m s) as [[a|[]] s1], (m s') as [[a'|[]] s1']; by simplify_eq/=.
Qed.

Lemma agrees_run {A} (m : M S A) s s' :
  agrees R m -> R s s' -> (m s).1 = (m s').1 /\ R (m s).2 (m s').2.
Proof. auto. Qed.

End Agrees.

Create HintDb ag discriminated.
#[export] Hint Resolve agrees_ret agrees_fail agrees_lift agrees_attempt : ag.

(** Applies the rules along a handler. *)
Ltac ag_steps :=
  repeat first
    [ solve [eauto 3 with ag]
    | apply agrees_bind; [|intros ?]
    | progress (cbv zeta)
    | match goal with |- agrees _ (match ?x with _ => _ end) => destruct x end ].

(** ** Lists and maps *)

(** A measure summed over a list, when one element is replaced. *)
Lemma sum_list_with_insert {A} (f : A -> nat) (l : list A) i x y :
  l !! i = Some x ->
  (sum_list_with f (<[i := y]> l) + f x = sum_list_with f l + f y)%nat.
Proof.
  intros Hi. rewrite insert_take_drop by (by eapply lookup_lt_Some).
  rewrite <- (take_drop_middle l i x) at 3 by done.
  rewrite !sum_list_with_app. simpl. lia.
Qed.

(** A key written twice with another write in between: the first write is
    lost. *)
Lemma insert_insert_over `{Countable K} {A} (m : gmap K A) a b x y z :
  <[a := x]> (<[b := y]> (<[a := z]> m)) = <[a := x]> (<[b := y]> m).
Proof.
  apply map_eq. intros k. destruct (decide (k = a)) as [->|];
    [by rewrite !lookup_insert_eq | rewrite !(lookup_insert_ne _ a) by done].
  destruct (decide (k = b)) as [->|];
    [by rewrite !lookup_insert_eq | by rewrite !lookup_insert_ne by done].
Qed.

(** ** Byte strings

    Rust's [str] is modelled as Rocq's [string], a list of bytes. *)

Lemma string_app_nil_l (s : string) : ("" ++ s)%string = s.
Proof. reflexivity. Qed.

Lemma string_app_cons c (a b : string) :
  (String c a ++ b)%string = String c (a ++ b)%string.
Proof. reflexivity. Qed.

Lemma string_app_nil_r (s : string) : (s ++ "")%string = s.
Proof. induction s; rewrite ?string_app_cons, ?string_app_nil_l; congruence. Qed.

Lemma string_app_assoc (a b c : string) :
  (a ++ (b ++ c))%string = ((a ++ b) ++ c)%string.
Proof. induction a; rewrite ?string_app_cons, ?string_app_nil_l; congruence. Qed.

Lemma string_length_app (a b : string) :
  String.length (a ++ b) = String.length a + String.length b.
Proof.
  induction a; rewrite ?string_app_cons, ?string_app_nil_l; simpl; congruence.
Qed.

Lemma string_app_eq_nil (a b : string) :
  (a ++ b)%string = ""%string -> a = ""%string /\ b = ""%string.
Proof. by destruct a. Qed.

(** stdpp keeps [simpl] from unfolding string concatenation; [str_simpl]
    computes it on constructors. *)
Ltac str_simpl :=
  repeat progress (rewrite ?string_app_cons, ?string_app_nil_l; simpl).

#[export] Hint Rewrite string_app_nil_l string_app_cons string_app_nil_r
  string_length_app : str.

(** [sm_steps] breaks a [steps] goal down along the structure of the
    computation, leaving the primitive operations to the hint database. *)
Ltac sm_steps :=
  repeat first
    [ solve [eauto 2 with sm typeclass_instances]
    | apply steps_attempt
    | apply steps_bind; [apply _ | | intros ?]
    | apply steps_for_each; [apply _ | intros ?]
    | progress (intros; simpl)
    | match goal with
      | |- steps _ (match ?x with _ => _ end) => destruct x
      end ].

(** [run_step] runs the first operation of a [succeeds] goal with its
    specification from the hint database and moves what it learns about the
    returned value into the context. *)
Ltac run_step :=
  eapply succeeds_bind;
    [ solve [eauto with sm]
    | intros ?; simpl; try (apply succeeds_pure; intros ?; subst) ].

#[export] Hint Extern 3 (_ !! _ = Some _) => solve [by simplify_map_eq] : sm.
#[export] Hint Extern 3 (exists _, _ !! _ = Some _ /\ _) =>
  solve [eexists; split; [by simplify_map_eq | done]] : sm.
#[export] Hint Extern 3 (exists _, _ !! _ = Some _) =>
  solve [eexists; by simplify_map_eq] : sm.
