(* ===== verification/Loops.v ===== *)
(** * Computations up to extensional equality, and loops that collect

    Two computations are equivalent when they return the same result and
    state from every state.  [bind] respects the equivalence, so a loop of
    the sources can be rewritten into the list function it computes.
    [map_m] is the loop [for x in xs { out.push(f(x)?) }]. *)

From S2P Require Import Prelude.

#[export] Instance M_equiv {S A} : Equiv (M S A) := fun m1 m2 => forall s, m1 s = m2 s.

#[global] Arguments M_equiv : simpl never.

#[export] Instance M_equivalence {S A} : Equivalence (≡@{M S A}).
Proof.
  split.
  - by intros m s.
  - by intros m1 m2 H s.
  - intros m1 m2 m3 H1 H2 s. by rewrite H1.
Qed.

#[export] Instance bind_proper {S A B} :
  Proper ((≡) ==> pointwise_relation A (≡) ==> (≡)) (@bind S A B).
Proof.
  intros m1 m2 Hm k1 k2 Hk s. unfold bind. rewrite Hm.
  destruct (m2 s) as [[a|e] s']; [apply Hk | done].
Qed.

(** The loop that collects the values of [f] over [xs], stopping at the
    first failure. *)
Fixpoint map_m {S A B} (f : A -> M S B) (xs : list A) : M S (list B) :=
  match xs with
  | [] => ret []
  | x :: xs' => let* y := f x in let* ys := map_m f xs' in ret (y :: ys)
  end.

Section Laws.
Context {S : Type}.

Lemma bind_assoc {A B C} (m : M S A) (k : A -> M S B) (h : B -> M S C) :
  (let* y := (let* x := m in k x) in h y) ≡ (let* x := m in let* y := k x in h y).
Proof. intros s. unfold bind. by destruct (m s) as [[a|e] s']. Qed.

Lemma bind_ret_r {A} (m : M S A) : (let* x := m in ret x) ≡ m.
Proof. intros s. unfold bind, ret. by destruct (m s) as [[a|e] s']. Qed.

Lemma bind_ret_l_equiv {A B} (a : A) (k : A -> M S B) : (let* x := ret a in k x) ≡ k a.
Proof. by intros s. Qed.

Lemma bind_fail {A B} e (k : A -> M S B) : (let* x := fail e in k x) ≡ fail e.
Proof. by intros s. Qed.

Lemma map_m_app {A B} (f : A -> M S B) xs ys :
  map_m f (xs ++ ys)
  ≡ (let* l := map_m f xs in let* r := map_m f ys in ret (l ++ r)).
Proof.
  induction xs as [|x xs IH]; simpl.
  - rewrite bind_ret_l_equiv. by rewrite bind_ret_r.
  - rewrite bind_assoc. f_equiv. intros y. rewrite IH, !bind_assoc.
    f_equiv. intros l. rewrite bind_ret_l_equiv, bind_assoc.
    f_equiv. intros r. by rewrite bind_ret_l_equiv.
Qed.

(** Running a collecting loop over the chunks of a list and joining the
    results is running it over the list. *)
Lemma map_m_concat {A B} (f : A -> M S B) (xss : list (list A)) :
  (let* rs := map_m (map_m f) xss in ret (concat rs)) ≡ map_m f (concat xss).
Proof.
  induction xss as [|xs xss IH]; simpl.
  - by rewrite bind_ret_l_equiv.
  - rewrite map_m_app, !bind_assoc. f_equiv. intros l.
    rewrite <- IH, !bind_assoc. f_equiv. intros rs. by rewrite !bind_ret_l_equiv.
Qed.

Lemma map_m_length {A B} (f : A -> M S B) xs s ys s' :
  map_m f xs s = (Ok ys, s') -> length ys = length xs.
Proof.
  revert s ys s'. induction xs as [|x xs IH]; intros s ys s'; simpl.
  - by intros [= <- _].
  - intros (y & s1 & _ & H)%bind_inv_ok.
    apply bind_inv_ok in H as (l & s2 & Hl & [= <- _]). simpl. f_equal. by eapply IH.
Qed.

Lemma map_m_ext {A B} (f g : A -> M S B) xs :
  (forall x, x ∈ xs -> f x ≡ g x) -> map_m f xs ≡ map_m g xs.
Proof.
  induction xs as [|x xs IH]; intros H; simpl; [done|].
  rewrite (H x) by set_solver. f_equiv. intros y.
  rewrite IH; [done|]. intros ? ?. apply H. set_solver.
Qed.

Lemma steps_map_m_in {A B} (R : relation S) `{!PreOrder R} (f : A -> M S B) xs :
  (forall x, x ∈ xs -> steps R (f x)) -> steps R (map_m f xs).
Proof.
  induction xs as [|x xs IH]; intros Hf; simpl; [apply steps_ret; apply _|].
  apply steps_bind; [apply _ | apply Hf; set_solver | intros y].
  apply steps_bind; [apply _ | apply IH | intros ys; apply steps_ret; apply _].
  intros ? ?. apply Hf. set_solver.
Qed.

Lemma steps_map_m {A B} (R : relation S) `{!PreOrder R} (f : A -> M S B) xs :
  (forall x, steps R (f x)) -> steps R (map_m f xs).
Proof. intros Hf. apply steps_map_m_in; [apply _|auto]. Qed.

Lemma steps_equiv {A} (R : relation S) (m1 m2 : M S A) :
  m1 ≡ m2 -> steps R m1 -> steps R m2.
Proof. intros H H1 s. rewrite <- H. apply H1. Qed.

End Laws.

#[export] Hint Resolve steps_map_m : sm.

(** [m_norm] reassociates the binds at the head of both sides of an
    equivalence and runs the returns; [m_step] then compares the first
    operations and moves to what follows them. *)
Ltac m_norm :=
  repeat first [rewrite bind_assoc | rewrite bind_ret_l_equiv | rewrite bind_fail].

Tactic Notation "m_step" := m_norm; f_equiv; [.. | intros ?; cbv beta; m_norm].
Tactic Notation "m_step" "as" simple_intropattern(pat) := m_norm; f_equiv; [.. | intros pat; cbv beta; m_norm].
