(* ===== verification/Paths.v ===== *)
(** * Paths and file names

    The sources build paths with [std::path]: [get_file_dirname],
    [with_extension], [set_extension], [extension] and joining a directory
    with a file name.  A path is modelled as the pair of its directory and
    its file name; the functions on names follow the documented behaviour of
    the Rust standard library (the split at the last dot, the special cases
    of a leading dot and of [".."]). *)

From S2P Require Import Prelude.

Local Open Scope string_scope.

Record Path : Type := mkPath {
  p_dir : string;
  p_name : string;
}.

#[export] Instance Path_eq_dec : EqDecision Path.
Proof. solve_decision. Defined.

(** Whether a byte string contains a dot. *)
Fixpoint has_dot (s : string) : bool :=
  match s with
  | EmptyString => false
  | String c s' => if Ascii.eqb c "."%char then true else has_dot s'
  end.

(** Split at the last dot: [Some (before, after)], [after] free of dots. *)
Fixpoint rsplit_dot (s : string) : option (string * string) :=
  match s with
  | EmptyString => None
  | String c s' =>
      match rsplit_dot s' with
      | Some (before, after) => Some (String c before, after)
      | None => if Ascii.eqb c "."%char then Some (EmptyString, s') else None
      end
  end.

(** [Path::extension] on a file name. *)
Definition extension (name : string) : option string :=
  if String.eqb name ".." then None
  else match rsplit_dot name with
       | Some (EmptyString, _) => None
       | Some (_, after) => Some after
       | None => None
       end.

(** [Path::file_stem] on a file name. *)
Definition file_stem (name : string) : string :=
  if String.eqb name ".." then name
  else match rsplit_dot name with
       | Some (EmptyString, _) => name
       | Some (before, _) => before
       | None => name
       end.

(** [PathBuf::set_extension] on a file name. *)
Definition set_extension (name ext : string) : string :=
  if String.eqb ext "" then file_stem name
  else file_stem name ++ "." ++ ext.

Definition with_extension (p : Path) (ext : string) : Path :=
  mkPath (p_dir p) (set_extension (p_name p) ext).

Definition get_file_dirname (p : Path) : string := p_dir p.

(** [[dir, name].iter().collect::<PathBuf>()] *)
Definition path_join (dir name : string) : Path := mkPath dir name.

(** ** Lemmas *)

Lemma rsplit_dot_None s : rsplit_dot s = None <-> has_dot s = false.
Proof.
  induction s as [|c s IH]; simpl; [done|].
  destruct (rsplit_dot s) as [[b a]|].
  - destruct IH as [_ IH]. destruct (has_dot s); [|by specialize (IH eq_refl)].
    by destruct (Ascii.eqb c "."%char).
  - destruct IH as [IH _]. rewrite (IH eq_refl). by destruct (Ascii.eqb c "."%char).
Qed.

Lemma rsplit_dot_app a b :
  has_dot b = false -> rsplit_dot (a ++ "." ++ b) = Some (a, b).
Proof.
  intros Hb. change ("." ++ b) with (String "."%char b).
  induction a as [|c a IH]; str_simpl.
  - by rewrite (proj2 (rsplit_dot_None b) Hb).
  - by rewrite IH.
Qed.

Lemma rsplit_dot_after s b a : rsplit_dot s = Some (b, a) -> has_dot a = false.
Proof.
  revert b. induction s as [|c s IH]; intros b; simpl; [done|].
  destruct (rsplit_dot s) as [[b' a']|] eqn:E.
  - intros [= <- <-]. eauto.
  - destruct (Ascii.eqb c "."%char); [|done]. intros [= <- <-].
    by apply rsplit_dot_None.
Qed.

Lemma rsplit_dot_join s b a : rsplit_dot s = Some (b, a) -> s = b ++ "." ++ a.
Proof.
  revert b. induction s as [|c s IH]; intros b; simpl; [done|].
  destruct (rsplit_dot s) as [[b' a']|] eqn:E.
  - intros [= <- <-]. str_simpl. f_equal. by apply IH.
  - destruct (Ascii.eqb_spec c "."%char); [|done]. by intros [= <- <-]; subst.
Qed.

Lemma extension_app a b :
  a <> "" -> b <> "" -> has_dot b = false -> extension (a ++ "." ++ b) = Some b.
Proof.
  intros Ha Hb Hd. unfold extension. rewrite rsplit_dot_app by done.
  destruct (String.eqb_spec (a ++ "." ++ b) "..") as [E|_].
  - destruct a as [|c [|c' a]]; [done| |]; cbv [String.append] in E.
    + by simplify_eq.
    + injection E as _ _ E. by destruct a.
  - by destruct a.
Qed.

Lemma extension_no_dot name : has_dot name = false -> extension name = None.
Proof.
  intros H. unfold extension. rewrite (proj2 (rsplit_dot_None name) H).
  by destruct (String.eqb name "..").
Qed.

Lemma extension_Some_no_dot name e : extension name = Some e -> has_dot e = false.
Proof.
  unfold extension. destruct (String.eqb name ".."); [done|].
  destruct (rsplit_dot name) as [[b a]|] eqn:E; [|done].
  destruct b; [done|]. intros [= <-]. eapply rsplit_dot_after, E.
Qed.

Lemma file_stem_nonempty name : name <> "" -> file_stem name <> "".
Proof.
  intros Hn. unfold file_stem. destruct (String.eqb name ".."); [done|].
  destruct (rsplit_dot name) as [[[|c b] a]|]; done.
Qed.

(** The extension of a name set by [set_extension]: ["1.cc"] with ["out"]
    has extension ["out"], and so has ["1.cc"] with ["cov.out"]. *)
Lemma extension_set_extension name e :
  name <> "" -> e <> "" -> has_dot e = false ->
  extension (set_extension name e) = Some e.
Proof.
  intros Hn He Hd. unfold set_extension.
  destruct (String.eqb_spec e "") as [|_]; [done|].
  apply extension_app; auto using file_stem_nonempty.
Qed.

Lemma extension_set_extension_dotted name pre e :
  name <> "" -> e <> "" -> has_dot e = false ->
  extension (set_extension name (pre ++ "." ++ e)) = Some e.
Proof.
  intros Hn He Hd. unfold set_extension.
  destruct (String.eqb_spec (pre ++ "." ++ e) "") as [E|_].
  { by apply string_app_eq_nil in E as [_ ?]. }
  rewrite (string_app_assoc (file_stem name)), (string_app_assoc _ pre).
  apply extension_app; [|done..].
  intros [E _]%string_app_eq_nil. by apply string_app_eq_nil in E as [_ ?].
Qed.

Lemma has_dot_app_dot a b : has_dot (a ++ "." ++ b) = true.
Proof.
  change ("." ++ b) with (String "."%char b). induction a as [|c a IH]; str_simpl.
  - done.
  - by destruct (Ascii.eqb c ".").
Qed.

Lemma has_dot_set_extension name e : e <> "" -> has_dot (set_extension name e) = true.
Proof.
  intros He. unfold set_extension. destruct (String.eqb_spec e ""); [done|].
  apply has_dot_app_dot.
Qed.

(** A name produced by [set_extension] differs from every name without a
    dot, such as [corpus] and [merge_control_file]. *)
Lemma set_extension_neq name e s :
  e <> "" -> has_dot s = false -> set_extension name e <> s.
Proof.
  intros He Hs E. apply (has_dot_set_extension name) in He. congruence.
Qed.

Lemma neq_set_extension name e s :
  e <> "" -> has_dot s = false -> s <> set_extension name e.
Proof. intros He Hs E. by eapply set_extension_neq. Qed.

#[export] Hint Resolve set_extension_neq neq_set_extension : sm.
