(* ===== verification/Float32.v ===== *)
(** * Machine numbers: [f32]

    The sanitization timings and the billing counter of the sources are Rust
    [f32] values.  They are modelled as IEEE 754 binary32 numbers with the
    Standard Library's specification of floating-point arithmetic
    ([SpecFloat], precision 24, maximal exponent 128, rounding to nearest
    even), so every operation below computes the value the hardware
    computes. *)

From Stdlib Require Import Floats.SpecFloat.
From S2P Require Import Prelude.

Definition f32 : Type := spec_float.

Definition f32_prec : Z := 24.
Definition f32_emax : Z := 128.

Definition f32_zero : f32 := S754_zero false.

Definition f32_add (x y : f32) : f32 := SFadd f32_prec f32_emax x y.

Definition f32_mul (x y : f32) : f32 := SFmul f32_prec f32_emax x y.

Definition f32_div (x y : f32) : f32 := SFdiv f32_prec f32_emax x y.

(** [x > y]; false when either is NaN. *)
Definition f32_gt (x y : f32) : bool := SFltb y x.

(** The conversion [n as f32] of an unsigned integer. *)
Definition f32_of_Z (n : Z) : f32 := binary_normalize f32_prec f32_emax n 0 false.

Definition f32_is_nan (x : f32) : bool :=
  match x with S754_nan => true | _ => false end.

#[export] Instance f32_eq_dec : EqDecision f32.
Proof. solve_decision. Defined.

#[export] Instance f32_inhabited : Inhabited f32 := populate f32_zero.

(** ** Lemmas *)

Lemma f32_gt_irrefl x : f32_gt x x = false.
Proof.
  unfold f32_gt, SFltb, SFcompare.
  destruct x as [[]|[]| |[] m e]; try done;
    by rewrite Z.compare_refl, ?Pos.compare_cont_refl, ?Pos.compare_refl.
Qed.

Lemma f32_gt_nan_l x : f32_gt S754_nan x = false.
Proof. unfold f32_gt, SFltb. by destruct x as [| | |[]]. Qed.

Lemma f32_gt_nan_r x : f32_gt x S754_nan = false.
Proof. unfold f32_gt, SFltb. by destruct x as [| | |[]]. Qed.

Lemma f32_gt_zero_zero s : f32_gt (S754_zero s) f32_zero = false.
Proof. done. Qed.

(** [>] is transitive, also across zeros, infinities and NaN. *)
Lemma f32_gt_trans x y z : f32_gt x y = true -> f32_gt y z = true -> f32_gt x z = true.
Proof.
  unfold f32_gt, SFltb, SFcompare.
  destruct x as [[]|[]| |[] mx ex], y as [[]|[]| |[] my ey], z as [[]|[]| |[] mz ez];
    try done;
    change (Pcompare ?a ?b Eq) with (Pos.compare a b);
    repeat match goal with
           | |- context [Z.compare ?a ?b] => destruct (Z.compare_spec a b)
           | |- context [Pos.compare ?a ?b] => destruct (Pos.compare_spec a b)
           end;
    simpl; try done; lia.
Qed.
