(* ===== verification/Feature.v ===== *)
(** * Coverage features: the global feature store and the merge-control data

    [GlobalFeature] and [CorporaFeatures] are defined in
    feedback/clang_coverage of the repository, which is not among the sources
    under src/; src/execution/sanitize.rs only calls them.  This file states
    what the caller relies on as an interface ([FeatureStore]) with two
    implementations, and models the merge-control data as the ordered list of
    (file, features) pairs the specification describes. *)

From S2P Require Import Prelude.
From stdpp Require Import sets.

(** A coverage feature: an integer token emitted by libFuzzer. *)
Definition Feature : Type := N.

(** ** The store interface

    [insert_feature] is insert-if-new: it reports whether the feature was
    absent.  [fs_elems] is the abstraction to a mathematical set. *)
Class FeatureStore (T : Type) : Type := {
  fs_elems : T -> gset Feature;
  fs_empty : T;
  insert_feature : Feature -> T -> bool * T;
  fs_empty_elems : fs_elems fs_empty = ∅;
  insert_feature_fresh : forall fe g,
    (insert_feature fe g).1 = bool_decide (fe ∉ fs_elems g);
  insert_feature_elems : forall fe g,
    fs_elems (insert_feature fe g).2 = {[fe]} ∪ fs_elems g;
}.

(** The store as a finite set. *)
Definition GlobalFeature : Type := gset Feature.

Definition gf_insert (fe : Feature) (g : GlobalFeature) : bool * GlobalFeature :=
  if decide (fe ∈ g) then (false, g) else (true, {[fe]} ∪ g).

(** The store as a duplicate-free vector, new features pushed at the end. *)
Definition vec_insert (fe : Feature) (g : list Feature) : bool * list Feature :=
  if decide (fe ∈ g) then (false, g) else (true, g ++ [fe]).

(** ** Merge-control data

    One libFuzzer merge-control file parsed: for every input of the local
    corpus, in file order, its path and the features it covers. *)
Record CorporaFeatures : Type := mkCorpora {
  cf_entries : list (string * list Feature);
}.

Definition get_size (c : CorporaFeatures) : nat := length (cf_entries c).

Definition get_nth_feature (c : CorporaFeatures) (i : nat) : list Feature :=
  default [] (snd <$> cf_entries c !! i).

Definition get_nth_file (c : CorporaFeatures) (i : nat) : string :=
  default EmptyString (fst <$> cf_entries c !! i).

#[export] Instance CorporaFeatures_eq_dec : EqDecision CorporaFeatures.
Proof. solve_decision. Defined.

(** ** The interface is implemented *)

Lemma gf_insert_fresh fe g : (gf_insert fe g).1 = bool_decide (fe ∉ g).
Proof.
  unfold gf_insert. destruct (decide (fe ∈ g)) as [Hin|Hin]; simpl.
  - by rewrite bool_decide_eq_false_2; [|intros H; apply H].
  - by rewrite bool_decide_eq_true_2.
Qed.

Lemma gf_insert_elems fe g : (gf_insert fe g).2 = {[fe]} ∪ g.
Proof. unfold gf_insert. destruct (decide (fe ∈ g)); simpl; set_solver. Qed.

#[export] Program Instance gset_store : FeatureStore GlobalFeature := {|
  fs_elems g := g;
  fs_empty := ∅;
  insert_feature := gf_insert;
|}.
Next Obligation. done. Qed.
Next Obligation. apply gf_insert_fresh. Qed.
Next Obligation. apply gf_insert_elems. Qed.

Lemma vec_insert_fresh fe g :
  (vec_insert fe g).1 = bool_decide (fe ∉ (list_to_set g : gset Feature)).
Proof.
  unfold vec_insert. destruct (decide (fe ∈ g)) as [Hin|Hin]; simpl.
  - rewrite bool_decide_eq_false_2; [done|]. set_solver.
  - rewrite bool_decide_eq_true_2; [done|]. set_solver.
Qed.

Lemma vec_insert_elems fe g :
  list_to_set (vec_insert fe g).2 = ({[fe]} ∪ list_to_set g : gset Feature).
Proof.
  unfold vec_insert. destruct (decide (fe ∈ g)); simpl.
  - set_solver.
  - rewrite list_to_set_app_L. set_solver.
Qed.

#[export] Program Instance vec_store : FeatureStore (list Feature) := {|
  fs_elems g := list_to_set g;
  fs_empty := [];
  insert_feature := vec_insert;
|}.
Next Obligation. done. Qed.
Next Obligation. apply vec_insert_fresh. Qed.
Next Obligation. apply vec_insert_elems. Qed.

(** The vector store never holds a feature twice. *)
Lemma vec_insert_NoDup fe g : NoDup g -> NoDup (vec_insert fe g).2.
Proof.
  intros Hnd. unfold vec_insert. destruct (decide (fe ∈ g)); simpl; [done|].
  apply NoDup_app. split_and!; [done | set_solver | apply NoDup_singleton].
Qed.

Lemma get_nth_feature_lookup c i file fs :
  cf_entries c !! i = Some (file, fs) -> get_nth_feature c i = fs.
Proof. unfold get_nth_feature. by intros ->. Qed.

Lemma get_nth_file_lookup c i file fs :
  cf_entries c !! i = Some (file, fs) -> get_nth_file c i = file.
Proof. unfold get_nth_file. by intros ->. Qed.
