(* ===== verification/World.v ===== *)
(** * The world the pipeline runs in

    State of the sanitization pipeline of src/execution/sanitize.rs: the work
    directories with their files and cost logs, the shared corpus, the
    persisted global feature set, and a clock standing for everything the
    external tools depend on that the model does not track.  The external
    tools themselves (the compiler, the candidate binary, libFuzzer, the
    coverage tools, the AST transformer) are the fields of the [Toolchain]
    interface: functions of the world whose results the pipeline classifies.
    The effects the pipeline relies on (a compiled binary appears in the work
    directory, the fuzzer fills the local corpus, the merge writes its
    control file) are applied by the operations of this file. *)

From S2P Require Import Prelude Paths Float32 Feature.

Local Open Scope string_scope.

(** ** Verdicts *)

(** execution/logger.rs [ProgramError]: why a candidate was rejected. *)
Inductive ProgramError : Type :=
| Syntax (msg : string)
| Link (msg : string)
| Execute (msg : string)
| Fuzzer (msg : string)
| Hang (msg : string)
| Coverage (msg : string).

#[export] Instance ProgramError_eq_dec : EqDecision ProgramError.
Proof. solve_decision. Defined.

(** The build profiles of [Executor::compile] that sanitize.rs selects. *)
Inductive Compile : Type := FUZZER | COVERAGE | Minimize.

#[export] Instance Compile_eq_dec : EqDecision Compile.
Proof. solve_decision. Defined.

(** What [std::process::Output] carries that the sources read. *)
Record Output : Type := mkOutput {
  out_success : bool;
  out_stderr : string;
}.

(** ** Files *)

Inductive node : Type :=
| File
| ControlFile (c : CorporaFeatures)
| Dir (files : gset string).

#[export] Instance node_eq_dec : EqDecision node.
Proof. solve_decision. Defined.

Definition is_dir (n : node) : bool :=
  match n with Dir _ => true | _ => false end.

(** A work directory: its entries by name, and the records of its cost
    log. *)
Record WorkDir : Type := mkWorkDir {
  wd_files : gmap string node;
  wd_cost : gmap string f32;
}.

Record World : Type := mkWorld {
  w_work : gmap string WorkDir;
  w_shared : gset string;
  w_global : option GlobalFeature;
  w_clock : N;
}.

Definition set_work (f : gmap string WorkDir -> gmap string WorkDir) (w : World) : World :=
  mkWorld (f (w_work w)) (w_shared w) (w_global w) (w_clock w).

Definition set_shared (f : gset string -> gset string) (w : World) : World :=
  mkWorld (w_work w) (f (w_shared w)) (w_global w) (w_clock w).

Definition set_global (g : option GlobalFeature) (w : World) : World :=
  mkWorld (w_work w) (w_shared w) g (w_clock w).

Definition tick (w : World) : World :=
  mkWorld (w_work w) (w_shared w) (w_global w) (N.succ (w_clock w)).

Definition set_files (f : gmap string node -> gmap string node) (d : WorkDir) : WorkDir :=
  mkWorkDir (f (wd_files d)) (wd_cost d).

Definition set_cost (f : gmap string f32 -> gmap string f32) (d : WorkDir) : WorkDir :=
  mkWorkDir (wd_files d) (f (wd_cost d)).

(** The features persisted so far; nothing when the file does not exist. *)
Definition global_elems (w : World) : gset Feature := default ∅ (w_global w).

(** The entry at a path. *)
Definition entry (p : Path) (w : World) : option node :=
  d ← w_work w !! p_dir p; wd_files d !! p_name p.

(** [Path::exists] *)
Definition path_exists (p : Path) (w : World) : bool :=
  bool_decide (is_Some (entry p w)).

(** Whether the cost log of a work directory has a record under [key]. *)
Definition has_cost (dir key : string) (w : World) : Prop :=
  is_Some (d ← w_work w !! dir; wd_cost d !! key).

Definition enoent : fault := Report "No such file or directory".

(** An external tool ran: its answer is a function of the world, and the
    clock advances. *)
Definition tool {A} (f : World -> A) : M World A :=
  fun w => (Ok (f w), tick w).

(** A tool that may fail with a report. *)
Definition tool_result {A} (f : World -> result A) : M World A :=
  fun w => (f w, tick w).

(** [std::fs::write] and the files written by tools. *)
Definition write_entry (p : Path) (n : node) : M World unit :=
  fun w => match w_work w !! p_dir p with
           | Some d => (Ok tt, set_work <[p_dir p := set_files <[p_name p := n]> d]> w)
           | None => (Err enoent, w)
           end.

(** [std::fs::remove_file] *)
Definition remove_file (p : Path) : M World unit :=
  fun w => match w_work w !! p_dir p with
           | Some d =>
               match wd_files d !! p_name p with
               | Some (Dir _) => (Err (Report "Is a directory"), w)
               | Some _ => (Ok tt, set_work <[p_dir p := set_files (delete (p_name p)) d]> w)
               | None => (Err enoent, w)
               end
           | None => (Err enoent, w)
           end.

(** [std::fs::remove_dir_all] on a subdirectory of a work directory. *)
Definition remove_dir_all (p : Path) : M World unit :=
  fun w => match w_work w !! p_dir p with
           | Some d =>
               match wd_files d !! p_name p with
               | Some (Dir _) => (Ok tt, set_work <[p_dir p := set_files (delete (p_name p)) d]> w)
               | Some _ => (Err (Report "Not a directory"), w)
               | None => (Err enoent, w)
               end
           | None => (Err enoent, w)
           end.

(** [std::fs::remove_dir_all] on a work directory itself. *)
Definition remove_work_dir (dir : string) : M World unit :=
  fun w => match w_work w !! dir with
           | Some _ => (Ok tt, set_work (delete dir) w)
           | None => (Err enoent, w)
           end.

Arguments set_extension : simpl never.

(** deopt/utils.rs [create_dir_if_nonexist] *)
Definition create_dir_if_nonexist (p : Path) : M World unit :=
  fun w => if path_exists p w then (Ok tt, w) else write_entry p (Dir ∅) w.

(** deopt/utils.rs [read_sort_dir]: the entries of a directory, sorted by
    name. *)
Definition read_sort_dir (dir : string) : M World (list (string * node)) :=
  fun w => match w_work w !! dir with
           | Some d => (Ok (map_to_list (wd_files d)), w)
           | None => (Err enoent, w)
           end.

(** ** The cost log (execution/logger.rs [TimeUsage]) *)

Record TimeUsage : Type := mkTimeUsage { tu_dir : string }.

Definition TimeUsage_new (dir : string) : TimeUsage := mkTimeUsage dir.

(** ** The external tools *)

(** Coverage data as [collect_code_coverage] returns it; opaque here. *)
Definition CodeCoverage : Type := N.

Class Toolchain : Type := {
  (** seconds elapsed since the logger of this directory was created *)
  tc_elapsed : string -> string -> World -> f32;
  (** [clang++ -fsyntax-only]; [None] when the process cannot be started *)
  tc_syntax : Path -> World -> option Output;
  (** execution/ast.rs [remove_duplicate_definition] *)
  tc_remove_duplicate_definition : Path -> World -> result unit;
  (** [Executor::compile]: the compiler's verdict on the sources *)
  tc_compile : Compile -> Path -> World -> result unit;
  (** program/transform.rs [Transformer]: construction and its two passes *)
  tc_transformer_new : Path -> World -> result unit;
  tc_add_fd_sanitizer : Path -> World -> result unit;
  tc_preprocess : Path -> World -> result unit;
  (** the library's init file, when its configuration names one *)
  tc_init_file : option string;
  (** [Executor::execute_pool]: the binary over every shared input *)
  tc_execute_pool : Path -> World -> option ProgramError;
  tc_execute_pool_kind : forall p w e,
    tc_execute_pool p w = Some e ->
    (exists m, e = Hang m) \/ (exists m, e = Execute m);
  (** [Executor::execute_fuzzer]: verdict and the inputs libFuzzer wrote *)
  tc_execute_fuzzer : Path -> World -> result unit * gset string;
  (** [Executor::collect_code_coverage] *)
  tc_collect_code_coverage : Path -> World -> result CodeCoverage;
  (** feedback/clang_coverage [sanitize_by_fuzzer_coverage] *)
  tc_sanitize_by_fuzzer_coverage : Path -> CodeCoverage -> World -> result bool;
  (** feedback/clang_coverage [dump_fuzzer_coverage] *)
  tc_dump_fuzzer_coverage : Path -> World -> result string;
  (** [GlobalFeature::init_by_corpus] *)
  tc_init_by_corpus : Path -> World -> result GlobalFeature;
  (** [Executor::minimize_by_control_file]: libFuzzer's merge; the control
      file it wrote, if any *)
  tc_minimize : Path -> Path -> World -> result (option CorporaFeatures);
  (** [std::fs::copy] of one input to the shared corpus *)
  tc_copy : string -> World -> result unit;
}.

Section Operations.
Context `{Toolchain}.

(** [TimeUsage::log]: append the elapsed time under [key]. *)
Definition TimeUsage_log (t : TimeUsage) (key : string) : M World unit :=
  let* secs := tool (tc_elapsed (tu_dir t) key) in
  fun w => match w_work w !! tu_dir t with
           | Some d => (Ok tt, set_work <[tu_dir t := set_cost <[key := secs]> d]> w)
           | None => (Err enoent, w)
           end.

(** [TimeUsage::load]: the time recorded under [key], zero when none. *)
Definition TimeUsage_load (t : TimeUsage) (key : string) : M World f32 :=
  fun w => match w_work w !! tu_dir t with
           | Some d => (Ok (default f32_zero (wd_cost d !! key)), w)
           | None => (Err enoent, w)
           end.

(** [Executor::compile]: on success the binary [out] exists. *)
Definition compile (src out : Path) (profile : Compile) : M World unit :=
  do* tool_result (tc_compile profile src) in
  write_entry out File.

(** [Executor::execute_pool] *)
Definition execute_pool (binary : Path) : M World (option ProgramError) :=
  tool (tc_execute_pool binary).

(** Files written into a subdirectory, when it exists. *)
Definition add_to_dir (p : Path) (found : gset string) : M World unit :=
  fun w => match entry p w with
           | Some (Dir files) => write_entry p (Dir (files ∪ found)) w
           | _ => (Ok tt, w)
           end.

(** [Executor::execute_fuzzer]: libFuzzer adds the inputs it found to the
    first corpus directory, whether or not it ends with a crash. *)
Definition execute_fuzzer (binary corpus_dir : Path) : M World unit :=
  let* '(res, found) := tool (tc_execute_fuzzer binary) in
  do* add_to_dir corpus_dir found in
  lift res.

(** [Deopt::copy_library_init_file] *)
Definition copy_library_init_file (dir : string) : M World unit :=
  match tc_init_file with
  | Some name => write_entry (path_join dir name) File
  | None => ret tt
  end.

(** [Executor::minimize_by_control_file] *)
Definition minimize_by_control_file (binary corpus control_file : Path) : M World unit :=
  let* written := tool_result (tc_minimize binary corpus) in
  match written with
  | Some c => write_entry control_file (ControlFile c)
  | None => ret tt
  end.

(** [CorporaFeatures::parse] *)
Definition CorporaFeatures_parse (control_file : Path) : M World CorporaFeatures :=
  fun w => match entry control_file w with
           | Some (ControlFile c) => (Ok c, w)
           | Some _ => (Err (Report "malformed merge control file"), w)
           | None => (Err enoent, w)
           end.

(** One input copied to the shared corpus under its base name. *)
Definition copy_to_shared (file : string) : M World unit :=
  do* tool_result (tc_copy file) in
  modify (set_shared (fun s => s ∪ {[file]})).

(** [Deopt::copy_file_to_shared_corpus]: the files are copied one after
    the other, and the first copy that fails ends the call with the files
    before it in place. *)
Definition copy_file_to_shared_corpus (files : list string) : M World unit :=
  for_each copy_to_shared files.

End Operations.

(** ** How the operations move the world

    [stays dir w w']: from [w] to [w'] only the work directory [dir] was
    written to, no work directory appeared or disappeared, no record of
    its cost log was lost, the persisted features and the shared corpus only
    grew, and time did not go back.
    Every operation of a worker on its own directory moves the world along
    this preorder. *)

Record stays (dir : string) (w w' : World) : Prop := mkStays {
  stays_other : forall d, d <> dir -> w_work w' !! d = w_work w !! d;
  stays_dir : is_Some (w_work w !! dir) <-> is_Some (w_work w' !! dir);
  stays_cost : forall key, has_cost dir key w -> has_cost dir key w';
  stays_global : global_elems w ⊆ global_elems w';
  stays_global_file : is_Some (w_global w) -> is_Some (w_global w');
  stays_shared : w_shared w ⊆ w_shared w';
  stays_clock : (w_clock w <= w_clock w')%N;
}.

#[export] Instance stays_preorder dir : PreOrder (stays dir).
Proof.
  split.
  - intros w. by split.
  - intros w1 w2 w3 [o1 d1 k1 g1 f1 s1 c1] [o2 d2 k2 g2 f2 s2 c2]. split.
    + intros d Hd. by rewrite o2, o1.
    + by rewrite d1.
    + auto.
    + set_solver.
    + auto.
    + set_solver.
    + lia.
Qed.

Lemma stays_tick dir w : stays dir w (tick w).
Proof. split; simpl; try done. lia. Qed.

Lemma stays_set_work dir d d' w :
  w_work w !! dir = Some d ->
  (forall key, is_Some (wd_cost d !! key) -> is_Some (wd_cost d' !! key)) ->
  stays dir w (set_work <[dir := d']> w).
Proof.
  intros Hd Hc. split; simpl; try done.
  - intros d0 Hne. by rewrite lookup_insert_ne.
  - by rewrite lookup_insert_eq, Hd.
  - intros key. unfold has_cost. simpl. rewrite lookup_insert_eq, Hd. apply Hc.
Qed.

Lemma stays_set_files dir d f w :
  w_work w !! dir = Some d -> stays dir w (set_work <[dir := set_files f d]> w).
Proof. intros Hd. by eapply stays_set_work. Qed.

Lemma stays_set_shared dir f w :
  (forall s, s ⊆ f s) -> stays dir w (set_shared f w).
Proof. intros Hf. by split; simpl. Qed.

Lemma stays_set_global dir g w :
  global_elems w ⊆ g -> stays dir w (set_global (Some g) w).
Proof. intros Hg. by split; simpl. Qed.

Section Moves.
Context `{Toolchain}.

Lemma steps_tool dir {A} (f : World -> A) : steps (stays dir) (tool f).
Proof. intros w. apply stays_tick. Qed.

Lemma steps_tool_result dir {A} (f : World -> result A) : steps (stays dir) (tool_result f).
Proof. intros w. apply stays_tick. Qed.

Lemma steps_write_entry dir p n : p_dir p = dir -> steps (stays dir) (write_entry p n).
Proof.
  intros <- w. unfold write_entry.
  destruct (w_work w !! p_dir p) eqn:E; simpl; [|done].
  by apply stays_set_files.
Qed.

Lemma steps_remove_file dir p : p_dir p = dir -> steps (stays dir) (remove_file p).
Proof.
  intros <- w. unfold remove_file.
  destruct (w_work w !! p_dir p) as [d|] eqn:E; simpl; [|done].
  destruct (wd_files d !! p_name p) as [[]|]; simpl; try done;
    by apply stays_set_files.
Qed.

Lemma steps_remove_dir_all dir p : p_dir p = dir -> steps (stays dir) (remove_dir_all p).
Proof.
  intros <- w. unfold remove_dir_all.
  destruct (w_work w !! p_dir p) as [d|] eqn:E; simpl; [|done].
  destruct (wd_files d !! p_name p) as [[]|]; simpl; try done;
    by apply stays_set_files.
Qed.

Lemma steps_create_dir_if_nonexist dir p :
  p_dir p = dir -> steps (stays dir) (create_dir_if_nonexist p).
Proof.
  intros Hp w. unfold create_dir_if_nonexist.
  destruct (path_exists p w); [done|]. by apply steps_write_entry.
Qed.

Lemma steps_TimeUsage_log dir t key : tu_dir t = dir -> steps (stays dir) (TimeUsage_log t key).
Proof.
  intros <-. unfold TimeUsage_log. apply steps_bind; [apply _ | apply steps_tool |].
  intros secs w. destruct (w_work w !! tu_dir t) as [d|] eqn:E; simpl; [|done].
  eapply stays_set_work; [done|]. intros k Hk. simpl.
  destruct (decide (key = k)) as [->|]; [by rewrite lookup_insert_eq|].
  by rewrite lookup_insert_ne.
Qed.

Lemma steps_TimeUsage_load dir t key : steps (stays dir) (TimeUsage_load t key).
Proof. intros w. unfold TimeUsage_load. by destruct (w_work w !! tu_dir t). Qed.

Lemma steps_compile dir src out profile :
  p_dir out = dir -> steps (stays dir) (compile src out profile).
Proof.
  intros Ho. unfold compile. apply steps_bind; [apply _ | apply steps_tool_result |].
  intros _. by apply steps_write_entry.
Qed.

Lemma steps_execute_pool dir binary : steps (stays dir) (execute_pool binary).
Proof. apply steps_tool. Qed.

Lemma steps_add_to_dir dir p found :
  p_dir p = dir -> steps (stays dir) (add_to_dir p found).
Proof.
  intros Hp w. unfold add_to_dir. destruct (entry p w) as [[]|]; simpl; try done.
  by apply steps_write_entry.
Qed.

Lemma steps_execute_fuzzer dir binary corpus_dir :
  p_dir corpus_dir = dir -> steps (stays dir) (execute_fuzzer binary corpus_dir).
Proof.
  intros Hc. unfold execute_fuzzer.
  apply steps_bind; [apply _ | apply steps_tool |]. intros [res found].
  apply steps_bind; [apply _ | by apply steps_add_to_dir |].
  intros ?. apply steps_lift; apply _.
Qed.

Lemma steps_copy_library_init_file dir : steps (stays dir) (copy_library_init_file dir).
Proof.
  unfold copy_library_init_file. destruct tc_init_file.
  - by apply steps_write_entry.
  - apply steps_ret; apply _.
Qed.

Lemma steps_minimize_by_control_file dir binary corpus control_file :
  p_dir control_file = dir ->
  steps (stays dir) (minimize_by_control_file binary corpus control_file).
Proof.
  intros Hc. unfold minimize_by_control_file.
  apply steps_bind; [apply _ | apply steps_tool_result |].
  intros [c|]; [by apply steps_write_entry | apply steps_ret; apply _].
Qed.

Lemma steps_CorporaFeatures_parse dir control_file :
  steps (stays dir) (CorporaFeatures_parse control_file).
Proof.
  intros w. unfold CorporaFeatures_parse.
  by destruct (entry control_file w) as [[]|].
Qed.

Lemma steps_copy_to_shared dir file : steps (stays dir) (copy_to_shared file).
Proof.
  unfold copy_to_shared.
  assert (steps (stays dir) (modify (set_shared (fun s => s ∪ {[file]})))).
  { intros w. apply stays_set_shared. set_solver. }
  apply steps_bind; [apply _ | apply steps_tool_result | done].
Qed.

Lemma steps_copy_file_to_shared_corpus dir files :
  steps (stays dir) (copy_file_to_shared_corpus files).
Proof. apply steps_for_each; [apply _|]. intros file. apply steps_copy_to_shared. Qed.

End Moves.

#[export] Hint Resolve steps_tool steps_tool_result steps_write_entry
  steps_remove_file steps_remove_dir_all steps_create_dir_if_nonexist
  steps_TimeUsage_log steps_TimeUsage_load steps_compile steps_execute_pool
  steps_execute_fuzzer steps_copy_library_init_file
  steps_minimize_by_control_file steps_CorporaFeatures_parse
  steps_copy_file_to_shared_corpus : sm.

#[export] Hint Extern 1 (p_dir _ = _) => reflexivity : sm.
#[export] Hint Extern 1 (tu_dir _ = _) => reflexivity : sm.

(** ** What the operations leave alone

    [keeps f w w']: the observation [f] of the world is the same in [w'] as
    in [w].  The operations on work directories never write the shared
    corpus or the global feature file; only [copy_file_to_shared_corpus] and
    the write of the feature file do. *)

Definition keeps {X} (f : World -> X) : relation World := fun w w' => f w' = f w.

#[export] Instance keeps_preorder {X} (f : World -> X) : PreOrder (keeps f).
Proof. split; [done | intros w1 w2 w3 H12 H23; unfold keeps in *; congruence]. Qed.

(** The shared state of a library: the feature file and the shared corpus. *)
Definition shared_state (w : World) : option GlobalFeature * gset string :=
  (w_global w, w_shared w).

(** Closes [steps (keeps f) op] for an operation that writes only work
    directories and the clock. *)
Ltac keeps_prim :=
  intros w; unfold keeps; cbv beta delta
    [tool tool_result write_entry remove_file remove_dir_all remove_work_dir
     create_dir_if_nonexist read_sort_dir CorporaFeatures_parse shared_state];
  repeat case_match; done.

Section Keeps.
Context `{Toolchain}.

Lemma keeps_tool {A} (f : World -> A) : steps (keeps shared_state) (tool f).
Proof. keeps_prim. Qed.

Lemma keeps_tool_result {A} (f : World -> result A) :
  steps (keeps shared_state) (tool_result f).
Proof. keeps_prim. Qed.

Lemma keeps_write_entry p n : steps (keeps shared_state) (write_entry p n).
Proof. keeps_prim. Qed.

Lemma keeps_remove_file p : steps (keeps shared_state) (remove_file p).
Proof. keeps_prim. Qed.

Lemma keeps_remove_dir_all p : steps (keeps shared_state) (remove_dir_all p).
Proof. keeps_prim. Qed.

Lemma keeps_remove_work_dir dir : steps (keeps shared_state) (remove_work_dir dir).
Proof. keeps_prim. Qed.

Lemma keeps_create_dir_if_nonexist p :
  steps (keeps shared_state) (create_dir_if_nonexist p).
Proof. keeps_prim. Qed.

Lemma keeps_read_sort_dir dir : steps (keeps shared_state) (read_sort_dir dir).
Proof. keeps_prim. Qed.

Lemma keeps_CorporaFeatures_parse p : steps (keeps shared_state) (CorporaFeatures_parse p).
Proof. keeps_prim. Qed.

Lemma keeps_TimeUsage_log t key : steps (keeps shared_state) (TimeUsage_log t key).
Proof.
  unfold TimeUsage_log. apply steps_bind; [apply _ | apply keeps_tool |].
  intros secs. keeps_prim.
Qed.

Lemma keeps_TimeUsage_load t key : steps (keeps shared_state) (TimeUsage_load t key).
Proof. unfold TimeUsage_load. keeps_prim. Qed.

Lemma keeps_compile src out profile : steps (keeps shared_state) (compile src out profile).
Proof.
  unfold compile. apply steps_bind; [apply _ | apply keeps_tool_result |].
  intros ?. apply keeps_write_entry.
Qed.

Lemma keeps_execute_pool binary : steps (keeps shared_state) (execute_pool binary).
Proof. apply keeps_tool. Qed.

Lemma keeps_add_to_dir p found : steps (keeps shared_state) (add_to_dir p found).
Proof.
  intros w. unfold add_to_dir. destruct (entry p w) as [[]|]; simpl; try done.
  apply keeps_write_entry.
Qed.

Lemma keeps_execute_fuzzer binary corpus_dir :
  steps (keeps shared_state) (execute_fuzzer binary corpus_dir).
Proof.
  unfold execute_fuzzer. apply steps_bind; [apply _ | apply keeps_tool |].
  intros [res found]. apply steps_bind; [apply _ | apply keeps_add_to_dir |].
  intros ?. apply steps_lift; apply _.
Qed.

Lemma keeps_copy_library_init_file dir :
  steps (keeps shared_state) (copy_library_init_file dir).
Proof.
  unfold copy_library_init_file. destruct tc_init_file.
  - apply keeps_write_entry.
  - apply steps_ret; apply _.
Qed.

Lemma keeps_minimize_by_control_file binary corpus control_file :
  steps (keeps shared_state) (minimize_by_control_file binary corpus control_file).
Proof.
  unfold minimize_by_control_file.
  apply steps_bind; [apply _ | apply keeps_tool_result |].
  intros [c|]; [apply keeps_write_entry | apply steps_ret; apply _].
Qed.

End Keeps.

#[export] Hint Resolve keeps_tool keeps_tool_result keeps_write_entry
  keeps_remove_file keeps_remove_dir_all keeps_remove_work_dir
  keeps_create_dir_if_nonexist keeps_read_sort_dir keeps_CorporaFeatures_parse
  keeps_TimeUsage_log keeps_TimeUsage_load keeps_compile keeps_execute_pool
  keeps_execute_fuzzer keeps_copy_library_init_file
  keeps_minimize_by_control_file : sm.

(** ** The shared state only grows

    [grows w w']: the persisted features and the shared corpus of [w] are
    still in [w'].  Every move of the two kinds above is of this kind. *)

Record grows (w w' : World) : Prop := mkGrows {
  grows_global : global_elems w ⊆ global_elems w';
  grows_shared : w_shared w ⊆ w_shared w';
}.

#[export] Instance grows_preorder : PreOrder grows.
Proof.
  split; [by split|]. intros w1 w2 w3 [g1 s1] [g2 s2]. split; set_solver.
Qed.

Lemma stays_grows dir w w' : stays dir w w' -> grows w w'.
Proof. by intros [_ _ _ g _ s _]. Qed.

Lemma keeps_grows w w' : keeps shared_state w w' -> grows w w'.
Proof. intros [= Hg Hs]. by split; unfold global_elems; rewrite ?Hg, ?Hs. Qed.

Lemma steps_stays_grows {A} dir (m : M World A) : steps (stays dir) m -> steps grows m.
Proof. apply steps_mono, stays_grows. Qed.

Lemma steps_keeps_grows {A} (m : M World A) : steps (keeps shared_state) m -> steps grows m.
Proof. apply steps_mono, keeps_grows. Qed.

(** ** Running the operations

    [at_dir dir F K S G w]: in [w] the work directory [dir] holds exactly
    the entries [F], its cost log has records exactly under the keys [K],
    the shared corpus is [S] and the feature file holds [G].  The lemmas
    below run each operation from such a world: they say that it returns,
    what it returns, and which world of this form it leaves. *)

Definition at_dir (dir : string) (F : gmap string node) (K : gset string)
    (S : gset string) (G : option GlobalFeature) (w : World) : Prop :=
  (exists C, w_work w !! dir = Some (mkWorkDir F C) /\ dom C = K) /\
  w_shared w = S /\ w_global w = G.

Lemma at_dir_tick dir F K S G w : at_dir dir F K S G w -> at_dir dir F K S G (tick w).
Proof. done. Qed.

Lemma at_dir_set_files dir F K S G w C f :
  w_work w !! dir = Some (mkWorkDir F C) -> dom C = K ->
  w_shared w = S -> w_global w = G ->
  at_dir dir (f F) K S G (set_work <[dir := set_files f (mkWorkDir F C)]> w).
Proof.
  intros Hd HK HS HG. split; [|done]. exists C. simpl.
  by rewrite lookup_insert_eq.
Qed.

Lemma at_dir_eq dir F F' K K' S S' G G' w :
  F = F' -> K = K' -> S = S' -> G = G' ->
  at_dir dir F K S G w -> at_dir dir F' K' S' G' w.
Proof. by intros -> -> -> ->. Qed.

Lemma at_dir_entry dir F K S G w name :
  at_dir dir F K S G w -> entry (mkPath dir name) w = F !! name.
Proof. intros [(C & Hd & _) _]. unfold entry. simpl. by rewrite Hd. Qed.

Lemma at_dir_has_cost dir F K S G w key :
  at_dir dir F K S G w -> key ∈ K -> has_cost dir key w.
Proof.
  intros [(C & Hd & <-) _] Hk. unfold has_cost. rewrite Hd. simpl.
  by apply elem_of_dom.
Qed.

Section Run.
Context `{Toolchain}.
Context (dir : string) (F : gmap string node) (K S : gset string)
  (G : option GlobalFeature).

Lemma succeeds_tool {A} (f : World -> A) a :
  (forall w, at_dir dir F K S G w -> f w = a) ->
  succeeds (at_dir dir F K S G) (tool f) (fun r w => r = a /\ at_dir dir F K S G w).
Proof. intros Hf w Hw. exists (f w). simpl. auto using at_dir_tick. Qed.

Lemma succeeds_tool_result {A} (f : World -> result A) a :
  (forall w, at_dir dir F K S G w -> f w = Ok a) ->
  succeeds (at_dir dir F K S G) (tool_result f) (fun r w => r = a /\ at_dir dir F K S G w).
Proof. intros Hf w Hw. exists a. simpl. auto using at_dir_tick. Qed.

Lemma succeeds_write_entry name n :
  succeeds (at_dir dir F K S G) (write_entry (mkPath dir name) n)
        (fun _ => at_dir dir (<[name := n]> F) K S G).
Proof.
  intros w [(C & Hd & HK) [HS HG]]. exists tt. unfold write_entry. simpl.
  rewrite Hd. simpl. split; [done|].
  by apply (at_dir_set_files dir F K S G w C <[name := n]>).
Qed.

Lemma succeeds_remove_file name :
  (exists n, F !! name = Some n /\ is_dir n = false) ->
  succeeds (at_dir dir F K S G) (remove_file (mkPath dir name))
        (fun _ => at_dir dir (delete name F) K S G).
Proof.
  intros (n & Hn & Hf) w [(C & Hd & HK) [HS HG]]. exists tt.
  unfold remove_file. simpl. rewrite Hd. simpl. rewrite Hn.
  destruct n; try done; (split; [done|]);
    by apply (at_dir_set_files dir F K S G w C (delete name)).
Qed.

Lemma succeeds_remove_dir_all name :
  (exists files, F !! name = Some (Dir files)) ->
  succeeds (at_dir dir F K S G) (remove_dir_all (mkPath dir name))
        (fun _ => at_dir dir (delete name F) K S G).
Proof.
  intros (files & Hn) w [(C & Hd & HK) [HS HG]]. exists tt.
  unfold remove_dir_all. simpl. rewrite Hd. simpl. rewrite Hn.
  split; [done|]. by apply (at_dir_set_files dir F K S G w C (delete name)).
Qed.

Lemma succeeds_create_dir_if_nonexist name :
  succeeds (at_dir dir F K S G) (create_dir_if_nonexist (mkPath dir name))
        (fun _ => at_dir dir (if F !! name is Some _ then F else <[name := Dir ∅]> F) K S G).
Proof.
  intros w Hw. unfold create_dir_if_nonexist, path_exists.
  rewrite (at_dir_entry _ _ _ _ _ _ _ Hw).
  destruct (F !! name) eqn:E.
  - rewrite bool_decide_eq_true_2 by eauto. by exists tt.
  - rewrite bool_decide_eq_false_2 by (by intros [? ?]).
    by apply succeeds_write_entry.
Qed.

Lemma succeeds_TimeUsage_log key :
  succeeds (at_dir dir F K S G) (TimeUsage_log (TimeUsage_new dir) key)
        (fun _ => at_dir dir F ({[key]} ∪ K) S G).
Proof.
  intros w [(C & Hd & HK) [HS HG]]. exists tt.
  unfold TimeUsage_log, bind, tool. simpl. rewrite Hd. split; [done|].
  split; [|done]. eexists. simpl. rewrite lookup_insert_eq. split; [done|].
  simpl. by rewrite dom_insert_L, HK.
Qed.

Lemma succeeds_compile src name profile :
  (forall w, at_dir dir F K S G w -> tc_compile profile src w = Ok tt) ->
  succeeds (at_dir dir F K S G) (compile src (mkPath dir name) profile)
        (fun _ => at_dir dir (<[name := File]> F) K S G).
Proof.
  intros Hc. unfold compile. eapply succeeds_bind; [by apply succeeds_tool_result|].
  intros ?. simpl. apply succeeds_pure. intros _. apply succeeds_write_entry.
Qed.

Lemma succeeds_execute_pool binary v :
  (forall w, at_dir dir F K S G w -> tc_execute_pool binary w = v) ->
  succeeds (at_dir dir F K S G) (execute_pool binary)
        (fun r w => r = v /\ at_dir dir F K S G w).
Proof. apply succeeds_tool. Qed.

Lemma succeeds_set_global g :
  succeeds (at_dir dir F K S G) (modify (set_global (Some g)))
        (fun _ => at_dir dir F K S (Some g)).
Proof. apply succeeds_modify. by intros w [HC [HS HG]]. Qed.

Lemma succeeds_CorporaFeatures_parse name c :
  F !! name = Some (ControlFile c) ->
  succeeds (at_dir dir F K S G) (CorporaFeatures_parse (mkPath dir name))
        (fun r w => r = c /\ at_dir dir F K S G w).
Proof.
  intros Hn w Hw. exists c. unfold CorporaFeatures_parse.
  by rewrite (at_dir_entry _ _ _ _ _ _ _ Hw), Hn.
Qed.

Lemma succeeds_path_exists name :
  succeeds (at_dir dir F K S G) (gets (path_exists (mkPath dir name)))
        (fun r w => r = bool_decide (is_Some (F !! name)) /\ at_dir dir F K S G w).
Proof.
  intros w Hw. eexists. split; [done|]. split; [|done].
  unfold path_exists. by rewrite (at_dir_entry _ _ _ _ _ _ _ Hw).
Qed.

End Run.

Section RunMore.
Context `{Toolchain}.
Context (dir : string) (F : gmap string node) (K S : gset string)
  (G : option GlobalFeature).

Lemma succeeds_minimize_by_control_file binary corpus name c :
  (forall w, at_dir dir F K S G w -> tc_minimize binary corpus w = Ok (Some c)) ->
  succeeds (at_dir dir F K S G) (minimize_by_control_file binary corpus (mkPath dir name))
        (fun _ => at_dir dir (<[name := ControlFile c]> F) K S G).
Proof.
  intros Hm. unfold minimize_by_control_file.
  eapply succeeds_bind; [by apply succeeds_tool_result|].
  intros ?. simpl. apply succeeds_pure. intros ->. apply succeeds_write_entry.
Qed.

Lemma succeeds_copy_library_init_file :
  succeeds (at_dir dir F K S G) (copy_library_init_file dir)
        (fun _ => at_dir dir (if tc_init_file is Some name then <[name := File]> F else F)
                    K S G).
Proof.
  unfold copy_library_init_file. destruct tc_init_file.
  - apply succeeds_write_entry.
  - by apply succeeds_ret_pre.
Qed.

Lemma fails_compile src name profile msg :
  (forall w, at_dir dir F K S G w -> tc_compile profile src w = Err (Report msg)) ->
  hoare (at_dir dir F K S G) (compile src (mkPath dir name) profile)
        (fun r w => r = Err (Report msg) /\ at_dir dir F K S G w).
Proof.
  intros Hc w Hw. unfold compile, bind, tool_result. by rewrite (Hc w Hw).
Qed.

Lemma succeeds_add_to_dir name files found :
  F !! name = Some (Dir files) ->
  succeeds (at_dir dir F K S G) (add_to_dir (mkPath dir name) found)
        (fun _ => at_dir dir (<[name := Dir (files ∪ found)]> F) K S G).
Proof.
  intros Hn w Hw. unfold add_to_dir.
  rewrite (at_dir_entry _ _ _ _ _ _ _ Hw), Hn. by apply succeeds_write_entry.
Qed.

(** libFuzzer ended normally or with a report: either way the inputs it
    found are in the corpus directory. *)
Lemma succeeds_execute_fuzzer binary name files res found :
  F !! name = Some (Dir files) ->
  (forall w, at_dir dir F K S G w -> tc_execute_fuzzer binary w = (res, found)) ->
  is_panic res = false ->
  succeeds (at_dir dir F K S G) (attempt (execute_fuzzer binary (mkPath dir name)))
        (fun r w => r = res /\ at_dir dir (<[name := Dir (files ∪ found)]> F) K S G w).
Proof.
  intros Hn Hf Hp. destruct res as [[]|[msg|msg]]; [| |done].
  - assert (succeeds (at_dir dir F K S G) (execute_fuzzer binary (mkPath dir name))
              (fun _ => at_dir dir (<[name := Dir (files ∪ found)]> F) K S G)) as Hin.
    { unfold execute_fuzzer. eapply succeeds_bind; [by apply succeeds_tool|].
      intros [res found']. simpl. apply succeeds_pure. intros [= -> ->].
      eapply succeeds_bind; [by apply succeeds_add_to_dir|].
      intros ? w Hw. by exists tt. }
    intros w Hw.
    destruct (succeeds_attempt _ _ _ Hin w Hw) as (a & Ha & [] & -> & Hw'). eauto.
  - apply succeeds_attempt_report. unfold execute_fuzzer.
    eapply hoare_bind_succeeds; [by apply succeeds_tool|].
    intros [res found']. simpl. apply hoare_pure. intros [= -> ->].
    eapply hoare_bind_succeeds; [by apply succeeds_add_to_dir|].
    intros ? w Hw. done.
Qed.

End RunMore.

(** ** Copies to the shared corpus *)

Section Copy.
Context `{Toolchain}.

Lemma succeeds_copy_to_shared dir F K S G file :
  (forall w, tc_copy file w = Ok tt) ->
  succeeds (at_dir dir F K S G) (copy_to_shared file)
        (fun _ => at_dir dir F K (S ∪ {[file]}) G).
Proof.
  intros Hc. unfold copy_to_shared.
  eapply succeeds_bind; [by apply succeeds_tool_result | intros []; simpl].
  apply succeeds_pure. intros _. apply succeeds_modify.
  intros w [HC [HS HG]]. split; [done|]. simpl. by rewrite HS.
Qed.

Lemma succeeds_copy_file_to_shared_corpus dir F K S G files :
  (forall file w, tc_copy file w = Ok tt) ->
  succeeds (at_dir dir F K S G) (copy_file_to_shared_corpus files)
        (fun _ => at_dir dir F K (S ∪ list_to_set files) G).
Proof.
  intros Hc. unfold copy_file_to_shared_corpus.
  revert S. induction files as [|file files IH]; intros S; simpl.
  - apply succeeds_ret_pre. intros w. apply at_dir_eq; set_solver.
  - eapply succeeds_bind; [by apply succeeds_copy_to_shared | intros []].
    eapply succeeds_weaken; [apply IH | done |]. intros [] w.
    apply at_dir_eq; set_solver.
Qed.

(** A copy writes to the shared corpus only, whether it succeeds or not;
    when it succeeds every file is there. *)
Lemma copy_to_shared_frame file w :
  w_work (copy_to_shared file w).2 = w_work w /\
  w_global (copy_to_shared file w).2 = w_global w.
Proof. unfold copy_to_shared, bind, tool_result. by destruct (tc_copy file w). Qed.

Lemma copy_file_to_shared_corpus_frame files w :
  w_work (copy_file_to_shared_corpus files w).2 = w_work w /\
  w_global (copy_file_to_shared_corpus files w).2 = w_global w.
Proof.
  unfold copy_file_to_shared_corpus. revert w.
  induction files as [|file files IH]; intros w; [done|]. simpl.
  destruct (copy_to_shared_frame file w) as [Hw Hg]. unfold bind.
  destruct (copy_to_shared file w) as [[[]|e] w1]; simpl in *; [|done].
  destruct (IH w1) as [Hw1 Hg1]. by rewrite Hw1, Hg1.
Qed.

Lemma copy_to_shared_ok file w w' :
  copy_to_shared file w = (Ok tt, w') -> w_shared w' = w_shared w ∪ {[file]}.
Proof.
  unfold copy_to_shared, bind, tool_result. simpl.
  destruct (tc_copy file w); [|done]. by intros [= <-].
Qed.

Lemma copy_file_to_shared_corpus_ok files w w' :
  copy_file_to_shared_corpus files w = (Ok tt, w') ->
  w_shared w' = w_shared w ∪ list_to_set files.
Proof.
  unfold copy_file_to_shared_corpus. revert w.
  induction files as [|file files IH]; intros w; simpl.
  - intros [= <-]. set_solver.
  - intros Hrun. apply bind_inv_ok in Hrun as ([] & w1 & Hc & Hrun).
    rewrite (IH _ Hrun), (copy_to_shared_ok _ _ _ Hc). set_solver.
Qed.

End Copy.

#[export] Hint Resolve succeeds_write_entry succeeds_remove_file succeeds_remove_dir_all
  succeeds_create_dir_if_nonexist succeeds_TimeUsage_log succeeds_compile
  succeeds_execute_pool succeeds_copy_file_to_shared_corpus succeeds_set_global
  succeeds_CorporaFeatures_parse succeeds_path_exists succeeds_minimize_by_control_file
  succeeds_copy_library_init_file succeeds_tool succeeds_tool_result
  succeeds_execute_fuzzer : sm.
