(* ===== verification/Fixture.v ===== *)
(** * Concrete toolchains and worlds

    A [Scenario] fixes the answer of every external tool; it gives an
    instance of the [Toolchain] interface on which the handlers of the
    development evaluate.  The theorems are proved for every toolchain; the
    instances here show that their hypotheses can be met, by computation. *)

From S2P Require Import Prelude Paths Float32 Feature World.

Local Open Scope string_scope.
Local Open Scope list_scope.

Record Scenario : Type := mkScenario {
  sc_syntax : option Output;
  sc_dedup : result unit;
  sc_compile : Compile -> result unit;
  sc_transform : result unit;
  sc_init_file : option string;
  sc_execute : option (bool * string);
  sc_fuzz : result unit * gset string;
  sc_coverage : result CodeCoverage;
  sc_uncovered : result bool;
  sc_dump : result string;
  sc_seed_features : result GlobalFeature;
  sc_merge : result (option CorporaFeatures);
  sc_copy : string -> result unit;
}.

Definition scenario_verdict (e : option (bool * string)) : option ProgramError :=
  match e with
  | Some (true, msg) => Some (Hang msg)
  | Some (false, msg) => Some (Execute msg)
  | None => None
  end.

Lemma scenario_verdict_kind e v :
  scenario_verdict e = Some v ->
  (exists m, v = Hang m) \/ (exists m, v = Execute m).
Proof. destruct e as [[[] msg]|]; intros [= <-]; eauto. Defined.

#[export] Instance scenario_toolchain (s : Scenario) : Toolchain := {|
  tc_elapsed _ _ w := f32_of_Z (Z.of_N (w_clock w));
  tc_syntax _ _ := sc_syntax s;
  tc_remove_duplicate_definition _ _ := sc_dedup s;
  tc_compile profile _ _ := sc_compile s profile;
  tc_transformer_new _ _ := sc_transform s;
  tc_add_fd_sanitizer _ _ := sc_transform s;
  tc_preprocess _ _ := sc_transform s;
  tc_init_file := sc_init_file s;
  tc_execute_pool _ _ := scenario_verdict (sc_execute s);
  tc_execute_pool_kind _ _ := scenario_verdict_kind (sc_execute s);
  tc_execute_fuzzer _ _ := sc_fuzz s;
  tc_collect_code_coverage _ _ := sc_coverage s;
  tc_sanitize_by_fuzzer_coverage _ _ _ := sc_uncovered s;
  tc_dump_fuzzer_coverage _ _ := sc_dump s;
  tc_init_by_corpus _ _ := sc_seed_features s;
  tc_minimize _ _ _ := sc_merge s;
  tc_copy file _ := sc_copy s file;
|}.

(** A toolchain that treats the candidates of different work directories
    differently: each call is answered by the scenario of the directory of
    the file it is about.  Its copies to the shared corpus succeed. *)
#[export] Instance routed_toolchain (f : string -> Scenario) (init : option string) :
    Toolchain := {|
  tc_elapsed _ _ w := f32_of_Z (Z.of_N (w_clock w));
  tc_syntax p _ := sc_syntax (f (p_dir p));
  tc_remove_duplicate_definition p _ := sc_dedup (f (p_dir p));
  tc_compile profile p _ := sc_compile (f (p_dir p)) profile;
  tc_transformer_new p _ := sc_transform (f (p_dir p));
  tc_add_fd_sanitizer p _ := sc_transform (f (p_dir p));
  tc_preprocess p _ := sc_transform (f (p_dir p));
  tc_init_file := init;
  tc_execute_pool p _ := scenario_verdict (sc_execute (f (p_dir p)));
  tc_execute_pool_kind p _ := scenario_verdict_kind (sc_execute (f (p_dir p)));
  tc_execute_fuzzer p _ := sc_fuzz (f (p_dir p));
  tc_collect_code_coverage p _ := sc_coverage (f (p_dir p));
  tc_sanitize_by_fuzzer_coverage p _ _ := sc_uncovered (f (p_dir p));
  tc_dump_fuzzer_coverage p _ := sc_dump (f (p_dir p));
  tc_init_by_corpus p _ := sc_seed_features (f (p_dir p));
  tc_minimize p _ _ := sc_merge (f (p_dir p));
  tc_copy _ _ := Ok tt;
|}.

(** A toolchain with another clock: the elapsed times are [elapsed], the
    tools answer as before. *)
Definition with_elapsed (elapsed : string -> string -> World -> f32) (tc : Toolchain) :
    Toolchain := {|
  tc_elapsed := elapsed;
  tc_syntax := @tc_syntax tc;
  tc_remove_duplicate_definition := @tc_remove_duplicate_definition tc;
  tc_compile := @tc_compile tc;
  tc_transformer_new := @tc_transformer_new tc;
  tc_add_fd_sanitizer := @tc_add_fd_sanitizer tc;
  tc_preprocess := @tc_preprocess tc;
  tc_init_file := @tc_init_file tc;
  tc_execute_pool := @tc_execute_pool tc;
  tc_execute_pool_kind := @tc_execute_pool_kind tc;
  tc_execute_fuzzer := @tc_execute_fuzzer tc;
  tc_collect_code_coverage := @tc_collect_code_coverage tc;
  tc_sanitize_by_fuzzer_coverage := @tc_sanitize_by_fuzzer_coverage tc;
  tc_dump_fuzzer_coverage := @tc_dump_fuzzer_coverage tc;
  tc_init_by_corpus := @tc_init_by_corpus tc;
  tc_minimize := @tc_minimize tc;
  tc_copy := @tc_copy tc;
|}.

(** A toolchain with other copies to the shared corpus: a copy is answered
    by [copy], the tools answer as before. *)
Definition with_copies (copy : string -> World -> result unit) (tc : Toolchain) :
    Toolchain := {|
  tc_elapsed := @tc_elapsed tc;
  tc_syntax := @tc_syntax tc;
  tc_remove_duplicate_definition := @tc_remove_duplicate_definition tc;
  tc_compile := @tc_compile tc;
  tc_transformer_new := @tc_transformer_new tc;
  tc_add_fd_sanitizer := @tc_add_fd_sanitizer tc;
  tc_preprocess := @tc_preprocess tc;
  tc_init_file := @tc_init_file tc;
  tc_execute_pool := @tc_execute_pool tc;
  tc_execute_pool_kind := @tc_execute_pool_kind tc;
  tc_execute_fuzzer := @tc_execute_fuzzer tc;
  tc_collect_code_coverage := @tc_collect_code_coverage tc;
  tc_sanitize_by_fuzzer_coverage := @tc_sanitize_by_fuzzer_coverage tc;
  tc_dump_fuzzer_coverage := @tc_dump_fuzzer_coverage tc;
  tc_init_by_corpus := @tc_init_by_corpus tc;
  tc_minimize := @tc_minimize tc;
  tc_copy := copy;
|}.

(** The merge-control data of the running example: three inputs, the second
    covering nothing the first does not. *)
Definition demo_corpora : CorporaFeatures :=
  mkCorpora [("in_a", [1; 2; 3]%N); ("in_b", [2; 3]%N); ("in_c", [3; 7]%N)].

(** Every tool succeeds and the candidate covers its target. *)
Definition all_pass : Scenario := {|
  sc_syntax := Some (mkOutput true "");
  sc_dedup := Ok tt;
  sc_compile _ := Ok tt;
  sc_transform := Ok tt;
  sc_init_file := None;
  sc_execute := None;
  sc_fuzz := (Ok tt, {["in_a"; "in_b"; "in_c"]});
  sc_coverage := Ok 0%N;
  sc_uncovered := Ok false;
  sc_dump := Ok "coverage summary";
  sc_seed_features := Ok ∅;
  sc_merge := Ok (Some demo_corpora);
  sc_copy _ := Ok tt;
|}.

Definition with_syntax (o : option Output) (s : Scenario) : Scenario :=
  mkScenario o (sc_dedup s) (sc_compile s) (sc_transform s) (sc_init_file s)
    (sc_execute s) (sc_fuzz s) (sc_coverage s) (sc_uncovered s) (sc_dump s)
    (sc_seed_features s) (sc_merge s) (sc_copy s).

Definition with_compile (c : Compile -> result unit) (s : Scenario) : Scenario :=
  mkScenario (sc_syntax s) (sc_dedup s) c (sc_transform s) (sc_init_file s)
    (sc_execute s) (sc_fuzz s) (sc_coverage s) (sc_uncovered s) (sc_dump s)
    (sc_seed_features s) (sc_merge s) (sc_copy s).

Definition with_execute (e : option (bool * string)) (s : Scenario) : Scenario :=
  mkScenario (sc_syntax s) (sc_dedup s) (sc_compile s) (sc_transform s)
    (sc_init_file s) e (sc_fuzz s) (sc_coverage s) (sc_uncovered s) (sc_dump s)
    (sc_seed_features s) (sc_merge s) (sc_copy s).

Definition with_fuzz (f : result unit * gset string) (s : Scenario) : Scenario :=
  mkScenario (sc_syntax s) (sc_dedup s) (sc_compile s) (sc_transform s)
    (sc_init_file s) (sc_execute s) f (sc_coverage s) (sc_uncovered s) (sc_dump s)
    (sc_seed_features s) (sc_merge s) (sc_copy s).

Definition with_uncovered (u : result bool) (s : Scenario) : Scenario :=
  mkScenario (sc_syntax s) (sc_dedup s) (sc_compile s) (sc_transform s)
    (sc_init_file s) (sc_execute s) (sc_fuzz s) (sc_coverage s) u (sc_dump s)
    (sc_seed_features s) (sc_merge s) (sc_copy s).

Definition with_merge (m : result (option CorporaFeatures)) (s : Scenario) : Scenario :=
  mkScenario (sc_syntax s) (sc_dedup s) (sc_compile s) (sc_transform s)
    (sc_init_file s) (sc_execute s) (sc_fuzz s) (sc_coverage s) (sc_uncovered s)
    (sc_dump s) (sc_seed_features s) m (sc_copy s).

Definition with_copy (c : string -> result unit) (s : Scenario) : Scenario :=
  mkScenario (sc_syntax s) (sc_dedup s) (sc_compile s) (sc_transform s)
    (sc_init_file s) (sc_execute s) (sc_fuzz s) (sc_coverage s) (sc_uncovered s)
    (sc_dump s) (sc_seed_features s) (sc_merge s) c.

(** The work directory of candidate 1 holding its source, a shared corpus
    of one seed, and a feature file with two features. *)
Definition demo_dir : string := "output/lib/work/1".

Definition demo_path : Path := mkPath demo_dir "1.cc".

Definition demo_world : World := {|
  w_work := {[ demo_dir := mkWorkDir {[ "1.cc" := File ]} ∅ ]};
  w_shared := {[ "seed0" ]};
  w_global := Some {[ 1%N; 2%N ]};
  w_clock := 0;
|}.

(** Three candidates in their work directories: the first is accepted,
    the second does not parse, libFuzzer crashes on the third. *)
Definition demo_paths : list Path :=
  [mkPath "work/1" "1.cc"; mkPath "work/2" "2.cc"; mkPath "work/3" "3.cc"].

Definition demo_scenarios (dir : string) : Scenario :=
  if decide (dir = "work/2") then with_syntax (Some (mkOutput false "expected ';'")) all_pass
  else if decide (dir = "work/3")
       then with_fuzz (Err (Report "heap-buffer-overflow"), {["crash-1"]}) all_pass
       else all_pass.

Definition demo_toolchain : Toolchain := routed_toolchain demo_scenarios None.

Definition demo_batch_world : World := {|
  w_work := {[ "work/1" := mkWorkDir {[ "1.cc" := File ]} ∅;
               "work/2" := mkWorkDir {[ "2.cc" := File ]} ∅;
               "work/3" := mkWorkDir {[ "3.cc" := File ]} ∅ ]};
  w_shared := {[ "seed0" ]};
  w_global := Some {[ 1%N; 2%N ]};
  w_clock := 0;
|}.

Lemma demo_world_at :
  at_dir demo_dir {["1.cc" := File]} ∅ {["seed0"]} (Some {[1; 2]}%N) demo_world.
Proof. split; [|done]. by exists ∅. Qed.
