(* ===== verification/Evolve.v ===== *)
(** * Corpus evolution (src/execution/sanitize.rs, [evolve_corpus])

    After a candidate has been fuzzed, the inputs of its local corpus that
    cover a feature the global store has not seen are copied to the shared
    corpus, and the store is persisted.  The loop that decides which inputs
    are interesting is stated over any implementation of the [FeatureStore]
    interface and proved equal to a specification on sets; the handler
    [evolve_corpus] runs it against the world. *)

From S2P Require Import Prelude Loops Paths Float32 Feature World Fixture.
From stdpp Require Import sets.

Local Open Scope string_scope.
Local Open Scope list_scope.

(** ** The loop (lines 290-303) *)

Section Loop.
Context `{FeatureStore T}.

(** The inner loop: insert every feature of one input, remembering whether
    any insertion was new. *)
Fixpoint insert_features (features : list Feature) (g : T) (has_new : bool) : bool * T :=
  match features with
  | [] => (has_new, g)
  | fe :: rest =>
      let '(fresh, g') := insert_feature fe g in
      insert_features rest g' (if fresh then true else has_new)
  end.

(** One iteration of the outer loop, on the input of index [i]. *)
Definition evolve_step (c : CorporaFeatures) (st : T * list string) (i : nat) : T * list string :=
  let '(g, intrestings) := st in
  let '(has_new, g') := insert_features (get_nth_feature c i) g false in
  (g', if has_new then intrestings ++ [get_nth_file c i] else intrestings).

(** [for i in 0..corpus_size { ... }] *)
Definition evolve_loop (c : CorporaFeatures) (g : T) : T * list string :=
  foldl (evolve_step c) (g, []) (seq 0 (get_size c)).

End Loop.

(** ** Specification of the loop on sets *)

(** All features of the entries. *)
Definition all_features (entries : list (string * list Feature)) : gset Feature :=
  ⋃ ((fun e => list_to_set (snd e)) <$> entries).

(** The files that bring a feature not seen before them: an input is
    interesting when its features are not all in the store as it stands
    after the inputs that precede it. *)
Fixpoint interesting (entries : list (string * list Feature)) (G : gset Feature) : list string :=
  match entries with
  | [] => []
  | (file, fs) :: rest =>
      (if decide (list_to_set fs ⊆ G) then [] else [file])
        ++ interesting rest (G ∪ list_to_set fs)
  end.

(** ** The handler (lines 265-310) *)

Section Handler.
Context `{Toolchain}.

(** The store is read from [global_feature.json] when the file exists and
    seeded from the shared corpus otherwise (lines 272-278). *)
Definition load_global_feature (fuzzer_binary : Path) : M World GlobalFeature :=
  fun w => match w_global w with
           | Some g => (Ok g, w)
           | None => tool_result (tc_init_by_corpus fuzzer_binary) w
           end.

Definition evolve_corpus (program_path : Path) : M World unit :=
  let work_dir := get_file_dirname program_path in
  let time_logger := TimeUsage_new work_dir in
  let fuzzer_binary := with_extension program_path "evo.out" in
  do* compile program_path fuzzer_binary Minimize in
  let* global_featuers := load_global_feature fuzzer_binary in
  let corpus := path_join work_dir "corpus" in
  let control_file := path_join work_dir "merge_control_file" in
  do* minimize_by_control_file fuzzer_binary corpus control_file in
  let* control_exists := gets (path_exists control_file) in
  if negb control_exists then fail (Panic "merge_control_file does not exist!") else
  let* corpora_features := CorporaFeatures_parse control_file in
  let '(global_featuers, intrestings) := evolve_loop corpora_features global_featuers in
  do* copy_file_to_shared_corpus intrestings in
  do* modify (set_global (Some global_featuers)) in
  do* remove_file control_file in
  TimeUsage_log time_logger "update".

(** [evolve_corpus] in two steps: what a worker computes in its own memory,
    and what it then writes to the state shared by all workers. *)

(** Lines 265-303: up to the end of the loop.  The features read from the
    file and the inputs found interesting are in the memory of the worker. *)
Definition evolve_read (program_path : Path) : M World (GlobalFeature * list string) :=
  let work_dir := get_file_dirname program_path in
  let fuzzer_binary := with_extension program_path "evo.out" in
  do* compile program_path fuzzer_binary Minimize in
  let* global_featuers := load_global_feature fuzzer_binary in
  let corpus := path_join work_dir "corpus" in
  let control_file := path_join work_dir "merge_control_file" in
  do* minimize_by_control_file fuzzer_binary corpus control_file in
  let* control_exists := gets (path_exists control_file) in
  if negb control_exists then fail (Panic "merge_control_file does not exist!") else
  let* corpora_features := CorporaFeatures_parse control_file in
  ret (evolve_loop corpora_features global_featuers).

(** Lines 304-309: the inputs are copied and the features written back. *)
Definition evolve_write (program_path : Path) (st : GlobalFeature * list string) :
    M World unit :=
  let work_dir := get_file_dirname program_path in
  let time_logger := TimeUsage_new work_dir in
  let control_file := path_join work_dir "merge_control_file" in
  let '(global_featuers, intrestings) := st in
  do* copy_file_to_shared_corpus intrestings in
  do* modify (set_global (Some global_featuers)) in
  do* remove_file control_file in
  TimeUsage_log time_logger "update".

End Handler.

(** ** The loop meets its specification *)

(** One insertion seen from the flag: the input is new at this feature or
    at a later one. *)
Lemma flag_step (fe : Feature) (F G : gset Feature) b :
  (if bool_decide (fe ∉ G) then true else b) || bool_decide (F ⊈ {[fe]} ∪ G)
  = b || bool_decide ({[fe]} ∪ F ⊈ G).
Proof.
  destruct (decide (fe ∈ G)) as [Hin|Hin].
  - rewrite (bool_decide_eq_false_2 (fe ∉ G)) by (intros ?; done).
    f_equal. apply bool_decide_ext. set_solver.
  - rewrite (bool_decide_eq_true_2 (fe ∉ G)) by done.
    rewrite (bool_decide_eq_true_2 (_ ∪ _ ⊈ _)) by set_solver.
    by rewrite orb_true_r.
Qed.

Section LoopFacts.
Context `{FeatureStore T}.
Implicit Types (g : T) (fs : list Feature) (G : gset Feature).

Lemma insert_features_elems fs g b :
  fs_elems (insert_features fs g b).2 = fs_elems g ∪ list_to_set fs.
Proof.
  revert g b. induction fs as [|fe fs IH]; intros g b; simpl.
  - set_solver.
  - destruct (insert_feature fe g) as [fresh g'] eqn:E.
    rewrite IH. pose proof (insert_feature_elems fe g) as Hg.
    rewrite E in Hg. simpl in Hg. rewrite Hg. set_solver.
Qed.

Lemma insert_features_flag fs g b :
  (insert_features fs g b).1 = b || bool_decide (list_to_set fs ⊈ fs_elems g).
Proof.
  revert g b. induction fs as [|fe fs IH]; intros g b; simpl.
  - rewrite bool_decide_eq_false_2; [by rewrite orb_false_r | set_solver].
  - destruct (insert_feature fe g) as [fresh g'] eqn:E.
    pose proof (insert_feature_elems fe g) as Hg.
    pose proof (insert_feature_fresh fe g) as Hf.
    rewrite E in Hg, Hf. simpl in Hg, Hf. rewrite IH, Hg, Hf.
    apply flag_step.
Qed.

(** The store only grows, step by step and over the loop. *)
Lemma evolve_step_grows c (st : T * list string) i :
  fs_elems st.1 ⊆ fs_elems (evolve_step c st i).1.
Proof.
  destruct st as [g l]. unfold evolve_step.
  pose proof (insert_features_elems (get_nth_feature c i) g false) as Hg.
  destruct (insert_features (get_nth_feature c i) g false) as [b g']. simpl in *.
  rewrite Hg. set_solver.
Qed.

Lemma evolve_loop_grows c g : fs_elems g ⊆ fs_elems (evolve_loop c g).1.
Proof.
  unfold evolve_loop. generalize (seq 0 (get_size c)). generalize (@nil string).
  intros l ids. revert g l. induction ids as [|i ids IH]; intros g l; [done|].
  change (fs_elems g ⊆ fs_elems (foldl (evolve_step c) (evolve_step c (g, l) i) ids).1).
  pose proof (evolve_step_grows c (g, l) i) as Hs.
  destruct (evolve_step c (g, l) i) as [g' l']. etrans; [exact Hs | apply IH].
Qed.

(** The outer loop, started at any index: the entries from there on are
    processed as [interesting] prescribes. *)
Lemma evolve_fold pre rest g acc :
  let st := foldl (evolve_step (mkCorpora (pre ++ rest))) (g, acc)
                  (seq (length pre) (length rest)) in
  fs_elems st.1 = fs_elems g ∪ all_features rest /\
  st.2 = acc ++ interesting rest (fs_elems g).
Proof.
  revert pre g acc. induction rest as [|[file fs] rest IH]; intros pre g acc; simpl.
  - unfold all_features. simpl. split; [set_solver | by rewrite app_nil_r].
  - unfold get_nth_feature, get_nth_file. simpl.
    rewrite list_lookup_middle by done. simpl.
    destruct (insert_features fs g false) as [has_new g'] eqn:E.
    pose proof (insert_features_elems fs g false) as Hg.
    pose proof (insert_features_flag fs g false) as Hb.
    rewrite E in Hg, Hb. simpl in Hg, Hb.
    specialize (IH (pre ++ [(file, fs)]) g'
      (if has_new then acc ++ [file] else acc)).
    rewrite <- app_assoc, length_app, Nat.add_1_r in IH. simpl in IH.
    destruct IH as [IH1 IH2]. rewrite IH1, IH2, Hg. split.
    + unfold all_features. simpl. set_solver.
    + subst has_new. case_bool_decide; case_decide; try done.
      by rewrite <- app_assoc.
Qed.

Lemma evolve_loop_spec (c : CorporaFeatures) g :
  fs_elems (evolve_loop c g).1 = fs_elems g ∪ all_features (cf_entries c) /\
  (evolve_loop c g).2 = interesting (cf_entries c) (fs_elems g).
Proof.
  destruct c as [entries]. apply (evolve_fold [] entries g []).
Qed.

End LoopFacts.

(** ** Facts about the specification *)

Lemma all_features_cons file fs entries :
  all_features ((file, fs) :: entries) = list_to_set fs ∪ all_features entries.
Proof. done. Qed.

Lemma all_features_nil : all_features [] = ∅.
Proof. done. Qed.

(** An input is interesting exactly when it has a feature that is neither
    in the store nor among the features of the inputs before it. *)
Lemma interesting_iff entries G file :
  file ∈ interesting entries G <->
  exists pre fs post, entries = pre ++ ((file, fs) :: post) /\
    list_to_set fs ⊈ G ∪ all_features pre.
Proof.
  revert G. induction entries as [|[f fs0] rest IH]; intros G; simpl.
  - split; [by intros ?%elem_of_nil | by intros ([|??] & ? & ? & ? & _)].
  - rewrite elem_of_app, IH. split.
    + intros [Hin|(pre & fs & post & -> & Hn)].
      * case_decide; [by apply elem_of_nil in Hin|].
        apply list_elem_of_singleton in Hin as ->.
        exists [], fs0, rest. split; [done|]. rewrite all_features_nil. set_solver.
      * exists ((f, fs0) :: pre), fs, post. split; [done|].
        rewrite all_features_cons. set_solver.
    + intros ([|[f' fs'] pre] & fs & post & [= -> -> ->] & Hn).
      * left. rewrite all_features_nil in Hn. rewrite decide_False by set_solver. by left.
      * right. exists pre, fs, post. split; [done|].
        rewrite all_features_cons in Hn. set_solver.
Qed.

Lemma interesting_novel entries G file :
  file ∈ interesting entries G ->
  exists fs, (file, fs) ∈ entries /\ list_to_set fs ⊈ G.
Proof.
  revert G. induction entries as [|[f fs] entries IH]; intros G; simpl.
  - by intros ?%elem_of_nil.
  - intros [Hin|Hin]%elem_of_app.
    + case_decide; [by apply elem_of_nil in Hin|].
      apply list_elem_of_singleton in Hin as ->. exists fs. split; [by left | done].
    + destruct (IH _ Hin) as (fs' & Hfs & Hnew).
      exists fs'. split; [by right | set_solver].
Qed.

Lemma interesting_covered entries G :
  all_features entries ⊆ G -> interesting entries G = [].
Proof.
  revert G. induction entries as [|[f fs] entries IH]; intros G; simpl; [done|].
  rewrite all_features_cons. intros Hsub.
  rewrite decide_True by set_solver. apply IH. set_solver.
Qed.

(** ** The handler moves the world along [stays] *)

Lemma stays_set_global_from dir w0 w g :
  stays dir w0 w -> global_elems w0 ⊆ g -> stays dir w0 (set_global (Some g) w).
Proof. intros [] Hg. by split. Qed.

Section HandlerFacts.
Context `{Toolchain}.

Lemma load_global_feature_triple dir w0 binary :
  triple (stays dir w0) (load_global_feature binary) (stays dir w0)
         (fun g w => global_elems w0 ⊆ g /\ stays dir w0 w).
Proof.
  intros w Hw. unfold load_global_feature.
  destruct (w_global w) as [g|] eqn:E; simpl.
  - split; [done|]. intros ? [= <-]. split; [|done].
    pose proof (stays_global _ _ _ Hw) as Hg. unfold global_elems in Hg at 2.
    by rewrite E in Hg.
  - assert (stays dir w0 (tick w)) by (etrans; [done | apply stays_tick]).
    split; [done|]. intros g _. split; [|done].
    pose proof (stays_global _ _ _ Hw) as Hg. unfold global_elems in Hg at 2.
    rewrite E in Hg. set_solver.
Qed.

Lemma steps_evolve_corpus p : steps (stays (p_dir p)) (evolve_corpus p).
Proof.
  apply steps_of_triple; [apply _|]. intros w0. unfold evolve_corpus.
  eapply triple_bind; [apply triple_of_steps; [apply _ | eauto with sm] | intros ?; simpl].
  eapply triple_bind; [apply load_global_feature_triple | intros g; simpl].
  apply triple_pure. intros Hg.
  eapply triple_bind; [apply triple_of_steps; [apply _ | eauto with sm] | intros ?; simpl].
  eapply triple_bind; [apply triple_gets | intros ex; simpl].
  destruct (negb ex); [eapply triple_pre; [apply triple_fail | by intros ? [_ ?]]|].
  eapply triple_bind.
  { eapply triple_pre;
      [apply (triple_of_steps (stays (p_dir p))); eauto with sm | by intros ? [_ ?]]. }
  intros c. simpl. destruct (evolve_loop c g) as [g' files] eqn:E.
  pose proof (evolve_loop_grows c g) as Hg'. rewrite E in Hg'. simpl in Hg'.
  assert (triple (stays (p_dir p) w0) (modify (set_global (Some g')))
            (stays (p_dir p) w0) (fun _ => stays (p_dir p) w0)) as Hset.
  { apply triple_modify. intros w Hw. apply stays_set_global_from; [done | set_solver]. }
  repeat first
    [ exact Hset
    | apply triple_of_steps; [apply _ | by eauto with sm]
    | eapply triple_bind;
        [first [exact Hset | apply triple_of_steps; [apply _ | by eauto with sm]]
        | intros ?; simpl] ].
Qed.

End HandlerFacts.

#[export] Hint Resolve steps_evolve_corpus : sm.

(** ** Reading and writing the feature file *)

Section EvolveSteps.
Context `{Toolchain}.

Lemma evolve_corpus_split p :
  evolve_corpus p ≡ (let* st := evolve_read p in evolve_write p st).
Proof.
  unfold evolve_corpus, evolve_read, evolve_write.
  m_step. m_step as g. m_step. m_step as ex.
  destruct (negb ex); [by m_norm|]. m_step as c. by destruct (evolve_loop c g).
Qed.

Lemma keeps_load_global_feature binary :
  steps (keeps shared_state) (load_global_feature binary).
Proof.
  intros w. unfold load_global_feature. destruct (w_global w); [done|].
  apply keeps_tool_result.
Qed.

Lemma keeps_evolve_read p : steps (keeps shared_state) (evolve_read p).
Proof.
  unfold evolve_read. pose proof keeps_load_global_feature. sm_steps.
Qed.

(** What a worker holds after a successful read: the loop run on the
    features the file held and on the control file of its own merge. *)
Lemma evolve_read_inv p w g0 st w' :
  w_global w = Some g0 ->
  evolve_read p w = (Ok st, w') ->
  shared_state w' = shared_state w /\ exists c, st = evolve_loop c g0.
Proof.
  intros Hg Hrun. split.
  { pose proof (keeps_evolve_read p w) as Hk. by rewrite Hrun in Hk. }
  unfold evolve_read in Hrun.
  apply bind_inv_ok in Hrun as ([] & w1 & Hc & Hrun).
  pose proof (keeps_compile p (with_extension p "evo.out") Minimize w) as Hk.
  rewrite Hc in Hk. injection Hk as Hg1 _. rewrite Hg in Hg1.
  apply bind_inv_ok in Hrun as (g & w1' & Hl & Hrun).
  unfold load_global_feature in Hl. rewrite Hg1 in Hl. injection Hl as <- <-.
  apply bind_inv_ok in Hrun as ([] & w2 & _ & Hrun).
  apply bind_inv_ok in Hrun as (ex & w2' & _ & Hrun).
  destruct (negb ex); [done|].
  apply bind_inv_ok in Hrun as (c & w3 & _ & Hrun).
  injection Hrun as <- _. by exists c.
Qed.

(** Writing ends in one of two ways: with the feature file as it was,
    when a copy failed, or with the new features in the file and every
    file of the worker in the shared corpus, whether or not the clean-up
    that follows succeeds. *)
Lemma evolve_write_global p g files w :
  let w' := (evolve_write p (g, files) w).2 in
  (w_global w' = w_global w /\ (evolve_write p (g, files) w).1 <> Ok tt) \/
  shared_state w' = (Some g, w_shared w ∪ list_to_set files).
Proof.
  cbv zeta. unfold evolve_write.
  destruct (copy_file_to_shared_corpus_frame files w) as [_ Hg].
  destruct (copy_file_to_shared_corpus files w) as [[[]|e] w1] eqn:Hc.
  - right. erewrite bind_ok by done.
    apply copy_file_to_shared_corpus_ok in Hc as <-.
    unfold bind at 1, modify at 1.
    match goal with |- shared_state (?m ?w0).2 = _ =>
      assert (steps (keeps shared_state) m) as Hk by sm_steps; apply (Hk w0) end.
  - left. erewrite bind_err by done. done.
Qed.

Lemma evolve_write_shared p g files w w' :
  evolve_write p (g, files) w = (Ok tt, w') ->
  shared_state w' = (Some g, w_shared w ∪ list_to_set files).
Proof.
  intros Hrun. destruct (evolve_write_global p g files w) as [[_ Hn]|Hs].
  - by rewrite Hrun in Hn.
  - by rewrite Hrun in Hs.
Qed.

(** A worker that runs [evolve_corpus] alone, from the file to the file:
    what it wrote is what its own read computed. *)
Lemma evolve_corpus_inv p w g0 w' :
  w_global w = Some g0 ->
  evolve_corpus p w = (Ok tt, w') ->
  exists c,
    (evolve_read p w).1 = Ok (evolve_loop c g0) /\
    w_global w' = Some (g0 ∪ all_features (cf_entries c)) /\
    w_shared w' = w_shared w ∪ list_to_set (interesting (cf_entries c) g0).
Proof.
  intros Hg Hrun. rewrite evolve_corpus_split in Hrun.
  apply bind_inv_ok in Hrun as (st & w1 & Hr & Hw).
  destruct (evolve_read_inv p w g0 st w1 Hg Hr) as [[= Hg1 Hs1] [c ->]].
  exists c. rewrite Hr. split; [done|].
  destruct (evolve_loop_spec c g0) as [Hgc Hfc].
  destruct (evolve_loop c g0) as [g files]. simpl in Hgc, Hfc.
  apply evolve_write_shared in Hw as [= -> ->]. by rewrite Hgc, Hfc, Hs1.
Qed.

End EvolveSteps.

(** ** Running the handler *)

Section HandlerRuns.
Context `{Toolchain}.

Lemma succeeds_load_global_feature dir F K S g0 binary :
  succeeds (at_dir dir F K S (Some g0)) (load_global_feature binary)
    (fun r w => r = g0 /\ at_dir dir F K S (Some g0) w).
Proof.
  intros w Hw. exists g0. unfold load_global_feature.
  destruct Hw as (HC & HS & HG). by rewrite HG.
Qed.

Lemma succeeds_seed_global_feature dir F K S g0 binary :
  (forall w, tc_init_by_corpus binary w = Ok g0) ->
  succeeds (at_dir dir F K S None) (load_global_feature binary)
    (fun r w => r = g0 /\ at_dir dir F K S None w).
Proof.
  intros Hi w Hw. exists g0. unfold load_global_feature, tool_result.
  destruct Hw as (HC & HS & HG). by rewrite HG, Hi.
Qed.

(** The files, cost keys, shared corpus and feature file after a run of
    [evolve_corpus] in which the compiler and the merge succeed, from a
    feature file holding [g0] or, when there is none, from the store [g0]
    seeded from the shared corpus. *)
Lemma succeeds_evolve_corpus dir name F K S G g0 c :
  let p := mkPath dir name in
  (forall w, tc_compile Minimize p w = Ok tt) ->
  (forall w, tc_minimize (with_extension p "evo.out") (path_join dir "corpus") w
             = Ok (Some c)) ->
  G = Some g0 \/ (G = None /\ forall w, tc_init_by_corpus (with_extension p "evo.out") w = Ok g0) ->
  (forall file w, tc_copy file w = Ok tt) ->
  succeeds (at_dir dir F K S G) (evolve_corpus p)
    (fun _ => at_dir dir
       (delete "merge_control_file" (<[set_extension name "evo.out" := File]> F))
       ({["update"]} ∪ K)
       (S ∪ list_to_set (interesting (cf_entries c) g0))
       (Some (g0 ∪ all_features (cf_entries c)))).
Proof.
  intros p Hc Hm HG Hcp. unfold evolve_corpus. simpl. run_step.
  eapply succeeds_bind.
  { destruct HG as [->|[-> Hi]];
      [apply succeeds_load_global_feature | by apply succeeds_seed_global_feature]. }
  intros g. simpl. apply succeeds_pure. intros ->.
  do 2 run_step. rewrite lookup_insert_eq. simpl. run_step.
  destruct (evolve_loop c g0) as [g' files] eqn:E.
  pose proof (evolve_loop_spec c g0) as [Hg Hf]. rewrite E in Hg, Hf.
  simpl in Hg, Hf. subst g' files.
  do 3 run_step. rewrite delete_insert_eq. apply succeeds_TimeUsage_log.
Qed.

End HandlerRuns.

#[export] Hint Resolve succeeds_load_global_feature : sm.

(** ** Properties of corpus evolution *)

Lemma not_subseteq_witness (fs : list Feature) (G : gset Feature) :
  list_to_set fs ⊈ G -> exists fe, fe ∈ fs /\ fe ∉ G.
Proof.
  intros Hn. destruct (decide (Exists (fun fe => fe ∉ G) fs)) as [He|He].
  - by apply Exists_exists in He.
  - destruct Hn. intros fe Hfe%elem_of_list_to_set.
    destruct (decide (fe ∈ G)) as [|Hne]; [done|].
    destruct He. apply Exists_exists. eauto.
Qed.

Section LoopClaims.
Context `{FeatureStore T}.

(** The loop of [evolve_corpus] does not depend on how the feature store
    is implemented: run on two stores that hold the same features (a hash
    set and a vector, say), it admits the same files in the same order and
    leaves the same features in both. *)
Theorem evolve_loop_store_independent `{FeatureStore T'} c (g : T) (g' : T') :
  fs_elems g = fs_elems g' ->
  (evolve_loop c g).2 = (evolve_loop c g').2 /\
  fs_elems (evolve_loop c g).1 = fs_elems (evolve_loop c g').1.
Proof.
  intros Hg. destruct (evolve_loop_spec c g) as [-> ->].
  destruct (evolve_loop_spec c g') as [-> ->]. by rewrite Hg.
Qed.

(** C12: The files [evolve_corpus] selects for the shared corpus are exactly
    the inputs of the merge-control file that, at their turn, cover a
    feature the global store does not hold: a feature that was not in the
    store at the start of the loop and that no input before them in the
    control file has. *)
Theorem evolve_admits_only_novel c (g : T) file :
  file ∈ (evolve_loop c g).2 <->
  exists pre fs post fe,
    cf_entries c = pre ++ ((file, fs) :: post) /\
    fe ∈ fs /\ (fe ∉ fs_elems g) /\ (fe ∉ all_features pre).
Proof.
  destruct (evolve_loop_spec c g) as [_ ->]. rewrite interesting_iff. split.
  - intros (pre & fs & post & Hc & Hnew).
    destruct (not_subseteq_witness _ _ Hnew) as (fe & Hfe & Hne).
    exists pre, fs, post, fe. set_solver.
  - intros (pre & fs & post & fe & Hc & Hfe & Hg & Hp).
    exists pre, fs, post. split; [done|]. set_solver.
Qed.

(** C30: evolving twice is evolving once: run again on the store it has just
    produced, over the same merge-control data, the loop admits no file and
    leaves the features of the store as they are. *)
Theorem evolve_loop_idempotent c (g : T) :
  (evolve_loop c (evolve_loop c g).1).2 = [] /\
  fs_elems (evolve_loop c (evolve_loop c g).1).1 = fs_elems (evolve_loop c g).1.
Proof.
  destruct (evolve_loop_spec c (evolve_loop c g).1) as [-> ->].
  destruct (evolve_loop_spec c g) as [-> _]. split.
  - apply interesting_covered. set_solver.
  - set_solver.
Qed.

(** The order in which the features of one input are inserted does not
    matter: two orderings of the same features report the same novelty and
    leave the same features in the store. *)
Theorem insert_features_order_irrelevant fs fs' (g : T) b :
  fs ≡ₚ fs' ->
  (insert_features fs g b).1 = (insert_features fs' g b).1 /\
  fs_elems (insert_features fs g b).2 = fs_elems (insert_features fs' g b).2.
Proof.
  intros Hp. rewrite !insert_features_flag, !insert_features_elems.
  assert (list_to_set fs = (list_to_set fs' : gset Feature)) as ->; [|done].
  apply set_eq. intros x. by rewrite !elem_of_list_to_set, Hp.
Qed.

End LoopClaims.

Lemma evolve_loop_store_independent_witness :
  (evolve_loop demo_corpora ({[1; 2]}%N : GlobalFeature)).2
  = (evolve_loop demo_corpora ([1; 2]%N : list Feature)).2.
Proof.
  apply (evolve_loop_store_independent demo_corpora
           ({[1; 2]}%N : GlobalFeature) ([1; 2]%N : list Feature)).
  vm_compute. reflexivity.
Defined.

Lemma evolve_admits_only_novel_witness :
  "in_c" ∈ (evolve_loop demo_corpora ({[1; 2]}%N : GlobalFeature)).2.
Proof.
  apply (evolve_admits_only_novel demo_corpora ({[1; 2]}%N : GlobalFeature) "in_c").
  exists [("in_a", [1; 2; 3]%N); ("in_b", [2; 3]%N)], [3; 7]%N, [], 7%N.
  split; [reflexivity|]. split_and!; apply (bool_decide_unpack _); vm_compute; exact I.
Defined.

Lemma insert_features_order_irrelevant_witness :
  (insert_features [3; 7]%N ({[1; 2]}%N : GlobalFeature) false).1
  = (insert_features [7; 3]%N ({[1; 2]}%N : GlobalFeature) false).1.
Proof.
  apply (insert_features_order_irrelevant [3; 7]%N [7; 3]%N).
  apply Permutation_swap.
Defined.

Section HandlerClaims.
Context `{Toolchain}.

(** C7: [evolve_corpus] persists the feature store only after the files
    that brought the new features have been copied: in whatever way the
    handler ends, normally, at a failed copy or at an error before or
    after, either the feature file is as it was, or it holds the features
    the worker computed and every file the worker found interesting is in
    the shared corpus. *)
Theorem evolve_persists_after_copy p w :
  let w' := (evolve_corpus p w).2 in
  w_global w' = w_global w \/
  exists g' files,
    (evolve_read p w).1 = Ok (g', files) /\
    w_global w' = Some g' /\ list_to_set files ⊆ w_shared w'.
Proof.
  cbv zeta. rewrite (evolve_corpus_split p w).
  pose proof (keeps_evolve_read p w) as Hk.
  destruct (evolve_read p w) as [[[g' files]|e] w1] eqn:Hr.
  - erewrite bind_ok by done. injection Hk as Hk _.
    pose proof (evolve_write_global p g' files w1) as Hw. cbv zeta in Hw.
    set (w' := (evolve_write p (g', files) w1).2) in *.
    destruct Hw as [[Hg _]|[= Hg Hs]].
    + left. simpl in *. congruence.
    + right. exists g', files. split_and!; [done..|]. rewrite Hs. set_solver.
  - left. erewrite bind_err by done. by injection Hk.
Qed.

(** C2: When the compiler, the merge and the copies succeed and the work
    directory exists, [evolve_corpus] returns normally; afterwards the feature file
    holds the features it held (or, when there was no file, the features
    seeded from the shared corpus) together with all features of the
    merge-control file, the shared corpus has gained exactly the interesting
    inputs, the control file is gone and the cost log has a record for
    [update]. *)
Theorem evolve_corpus_succeeds dir name F K S G g0 c w :
  let p := mkPath dir name in
  at_dir dir F K S G w ->
  (forall w', tc_compile Minimize p w' = Ok tt) ->
  (forall w', tc_minimize (with_extension p "evo.out") (path_join dir "corpus") w'
              = Ok (Some c)) ->
  G = Some g0 \/
    (G = None /\ forall w', tc_init_by_corpus (with_extension p "evo.out") w' = Ok g0) ->
  (forall file w', tc_copy file w' = Ok tt) ->
  exists w', evolve_corpus p w = (Ok tt, w') /\
    w_global w' = Some (g0 ∪ all_features (cf_entries c)) /\
    w_shared w' = S ∪ list_to_set (interesting (cf_entries c) g0) /\
    entry (path_join dir "merge_control_file") w' = None /\
    has_cost dir "update" w'.
Proof.
  intros p Hw Hc Hm HG Hcp.
  destruct (succeeds_run _ _ _ w (succeeds_evolve_corpus dir name F K S G g0 c Hc Hm HG Hcp) Hw)
    as ([] & w' & Hrun & Hw').
  exists w'. split; [done|]. destruct Hw' as (HC & HS & HG'). split_and!; try done.
  - unfold path_join. rewrite (at_dir_entry _ _ _ _ _ _ _ (conj HC (conj HS HG'))).
    apply lookup_delete_eq.
  - eapply at_dir_has_cost; [exact (conj HC (conj HS HG'))|]. set_solver.
Qed.

End HandlerClaims.

Lemma evolve_corpus_succeeds_witness :
  exists w', @evolve_corpus (scenario_toolchain all_pass) demo_path demo_world = (Ok tt, w') /\
    w_global w' = Some ({[1; 2]}%N ∪ all_features (cf_entries demo_corpora)) /\
    w_shared w' = {["seed0"]} ∪ list_to_set (interesting (cf_entries demo_corpora) {[1; 2]}%N) /\
    entry (path_join demo_dir "merge_control_file") w' = None /\
    has_cost demo_dir "update" w'.
Proof.
  apply (@evolve_corpus_succeeds (scenario_toolchain all_pass) demo_dir "1.cc"
           {["1.cc" := File]} ∅ {["seed0"]} (Some {[1; 2]}%N) {[1; 2]}%N demo_corpora
           demo_world).
  - split; [|done]. by exists ∅.
  - reflexivity.
  - reflexivity.
  - by left.
  - reflexivity.
Defined.

(** A copy that fails ends the handler before the feature file is written:
    here the second interesting input cannot be copied, the first is in the
    shared corpus, and the file still holds the features it held. *)
Example evolve_failed_copy_keeps_file :
  let tc := scenario_toolchain
              (with_copy (fun file => if decide (file = "in_c")
                                      then Err (Report "No space left on device")
                                      else Ok tt) all_pass) in
  let r := @evolve_corpus tc demo_path demo_world in
  r.1 = Err (Report "No space left on device") /\
  w_global r.2 = Some {[1; 2]}%N /\
  w_shared r.2 = {["seed0"; "in_a"]}.
Proof. cbv zeta. split_and!; apply (bool_decide_unpack _); vm_compute; exact I. Qed.
