(* ===== verification/Stages.v ===== *)
(** * The five stages (src/execution/sanitize.rs, lines 25-155)

    Syntax, link, execute, fuzz and coverage, each a handler on the world
    returning the verdict of its stage, and [check_program_is_correct], which
    runs them in order and stops at the first verdict. *)

From S2P Require Import Prelude Paths Float32 Feature World Fixture Evolve.

Local Open Scope string_scope.
Local Open Scope list_scope.

Section Stages.
Context `{Toolchain}.

(** Lines 27-43. *)
Definition is_program_syntax_correct (program_path : Path) : M World (option ProgramError) :=
  let time_logger := TimeUsage_new (get_file_dirname program_path) in
  let* output := tool (tc_syntax program_path) in
  match output with
  | None => fail (Panic "failed to execute the syntax check process")
  | Some output =>
      do* TimeUsage_log time_logger "syntax" in
      let success := out_success output in
      if success then ret None
      else
        let err_msg := out_stderr output in
        ret (Some (Syntax err_msg))
  end.

(** Lines 46-60. *)
Definition is_program_link_correct (program_path : Path) : M World (option ProgramError) :=
  let time_logger := TimeUsage_new (get_file_dirname program_path) in
  do* tool_result (tc_remove_duplicate_definition program_path) in
  let binary_out := with_extension program_path "out" in
  let* res := attempt (compile program_path binary_out FUZZER) in
  do* TimeUsage_log time_logger "link" in
  match res with
  | Err err =>
      let err_msg := to_string err in
      ret (Some (Link err_msg))
  | Ok _ => ret None
  end.

(** Lines 63-82. *)
Definition is_program_execute_correct (program_path : Path) : M World (option ProgramError) :=
  let time_logger := TimeUsage_new (get_file_dirname program_path) in
  do* tool_result (tc_transformer_new program_path) in
  do* tool_result (tc_add_fd_sanitizer program_path) in
  do* tool_result (tc_preprocess program_path) in
  let binary_out := with_extension program_path "out" in
  do* copy_library_init_file (get_file_dirname program_path) in
  do* compile program_path binary_out FUZZER in
  let* has_err := execute_pool binary_out in
  do* TimeUsage_log time_logger "execute" in
  ret has_err.

(** Lines 85-105. *)
Definition is_program_fuzz_correct (program_path : Path) : M World (option ProgramError) :=
  let work_dir := get_file_dirname program_path in
  let time_logger := TimeUsage_new work_dir in
  let binary_out := with_extension program_path "out" in
  let corpus_dir := path_join work_dir "corpus" in
  do* create_dir_if_nonexist corpus_dir in
  let* res := attempt (execute_fuzzer binary_out corpus_dir) in
  do* TimeUsage_log time_logger "fuzz" in
  match res with
  | Err err => ret (Some (Fuzzer (to_string err)))
  | Ok _ => ret None
  end.

Definition coverage_message : string :=
  "The program cannot cover the callees along the path that contains maximum callees.".

(** Lines 107-136. *)
Definition is_program_coverage_correct (program_path : Path) : M World (option ProgramError) :=
  let work_dir := get_file_dirname program_path in
  let time_logger := TimeUsage_new work_dir in
  let fuzzer_binary := with_extension program_path "cov.out" in
  do* compile program_path fuzzer_binary COVERAGE in
  let corpus_dir := path_join work_dir "corpus" in
  let* coverage := tool_result (tc_collect_code_coverage fuzzer_binary) in
  let* has_err := tool_result (tc_sanitize_by_fuzzer_coverage program_path coverage) in
  do* TimeUsage_log time_logger "coverage" in
  do* evolve_corpus program_path in
  do* remove_dir_all corpus_dir in
  if negb has_err then ret None
  else
    let* err_msg := tool_result (tc_dump_fuzzer_coverage fuzzer_binary) in
    ret (Some (Coverage (coverage_message +:+ newline +:+ err_msg))).

(** Lines 138-155. *)
Definition check_program_is_correct (seed_path : Path) : M World (option ProgramError) :=
  let* r := is_program_syntax_correct seed_path in
  if r is Some err then ret (Some err) else
  let* r := is_program_link_correct seed_path in
  if r is Some err then ret (Some err) else
  let* r := is_program_execute_correct seed_path in
  if r is Some err then ret (Some err) else
  let* r := is_program_fuzz_correct seed_path in
  if r is Some err then ret (Some err) else
  let* r := is_program_coverage_correct seed_path in
  if r is Some err then ret (Some err) else
  ret None.

End Stages.

(** The verdicts of the syntax and fuzz stages as functions of what the
    tool reported. *)
Definition syntax_verdict (o : Output) : option ProgramError :=
  if out_success o then None else Some (Syntax (out_stderr o)).

Definition fuzz_verdict (res : result unit) : option ProgramError :=
  match res with Ok _ => None | Err err => Some (Fuzzer (to_string err)) end.

(** The entries of a work directory once the init file of the library, if
    it has one, and the fuzzer binary are in place; and once the coverage
    and minimize binaries are there too. *)
Definition with_fuzzer (name : string) (init : option string) (F : gmap string node) :
    gmap string node :=
  <[set_extension name "out" := File]> (if init is Some i then <[i := File]> F else F).

Definition with_binaries (name : string) (init : option string) (F : gmap string node) :
    gmap string node :=
  <[set_extension name "evo.out" := File]>
    (<[set_extension name "cov.out" := File]> (with_fuzzer name init F)).

(** The records of the cost log after the first [n] stages. *)
Definition stage_keys (n : nat) : gset string :=
  list_to_set (take n ["syntax"; "link"; "execute"; "fuzz"; "coverage"; "update"]).

Definition coverage_verdict (has_err : bool) (summary : string) : option ProgramError :=
  if has_err then Some (Coverage (coverage_message +:+ newline +:+ summary)) else None.

(** ** Every stage stays within its work directory *)

Section StageFacts.
Context `{Toolchain}.

Lemma steps_is_program_syntax_correct p :
  steps (stays (p_dir p)) (is_program_syntax_correct p).
Proof. unfold is_program_syntax_correct. sm_steps. Qed.

Lemma steps_is_program_link_correct p :
  steps (stays (p_dir p)) (is_program_link_correct p).
Proof. unfold is_program_link_correct. sm_steps. Qed.

Lemma steps_is_program_execute_correct p :
  steps (stays (p_dir p)) (is_program_execute_correct p).
Proof. unfold is_program_execute_correct. sm_steps. Qed.

Lemma steps_is_program_fuzz_correct p :
  steps (stays (p_dir p)) (is_program_fuzz_correct p).
Proof. unfold is_program_fuzz_correct. sm_steps. Qed.

Lemma steps_is_program_coverage_correct p :
  steps (stays (p_dir p)) (is_program_coverage_correct p).
Proof. unfold is_program_coverage_correct. sm_steps. Qed.

Lemma steps_check_program_is_correct p :
  steps (stays (p_dir p)) (check_program_is_correct p).
Proof.
  unfold check_program_is_correct.
  pose proof (steps_is_program_syntax_correct p).
  pose proof (steps_is_program_link_correct p).
  pose proof (steps_is_program_execute_correct p).
  pose proof (steps_is_program_fuzz_correct p).
  pose proof (steps_is_program_coverage_correct p).
  sm_steps.
Qed.

(** C8: Whatever the verdict of a candidate, and also when the pipeline
    aborts with an operational error or a panic, the persisted global
    feature set after [check_program_is_correct] contains the one before it,
    and the shared corpus has lost no file: both only grow. *)
Theorem sanitization_grows_shared_state p w :
  global_elems w ⊆ global_elems (check_program_is_correct p w).2 /\
  w_shared w ⊆ w_shared (check_program_is_correct p w).2.
Proof.
  destruct (steps_check_program_is_correct p w). by split.
Qed.

(** C11: Sanitizing the candidate at path [p] writes to no work directory
    but its own: every other work directory has, after
    [check_program_is_correct], exactly the files and cost records it had
    before, and no work directory was created or removed. *)
Theorem sanitization_confined_to_work_dir p w d :
  let w' := (check_program_is_correct p w).2 in
  (d <> p_dir p -> w_work w' !! d = w_work w !! d) /\
  (is_Some (w_work w' !! d) <-> is_Some (w_work w !! d)).
Proof.
  destruct (steps_check_program_is_correct p w) as [Ho Hd _ _ _ _]. simpl.
  split; [apply Ho|]. destruct (decide (d = p_dir p)) as [->|Hne].
  - by rewrite Hd.
  - by rewrite Ho.
Qed.

End StageFacts.

#[export] Hint Resolve steps_is_program_syntax_correct
  steps_is_program_link_correct steps_is_program_execute_correct
  steps_is_program_fuzz_correct steps_is_program_coverage_correct
  steps_check_program_is_correct : sm.

(** ** Running the stages

    What each stage returns and leaves behind, from a world seen through
    [at_dir], when the tools it calls answer as stated. *)

Section StageRuns.
Context `{Toolchain}.
Context (dir name : string) (F : gmap string node) (K S : gset string)
  (G : option GlobalFeature).
Let p := mkPath dir name.
Let out := set_extension name "out".

Lemma succeeds_syntax o :
  (forall w, tc_syntax p w = Some o) ->
  succeeds (at_dir dir F K S G) (is_program_syntax_correct p)
    (fun r w => r = syntax_verdict o /\ at_dir dir F ({["syntax"]} ∪ K) S G w).
Proof.
  intros Hs. unfold is_program_syntax_correct. simpl. do 2 run_step.
  unfold syntax_verdict. destruct (out_success o); by apply succeeds_ret_pre.
Qed.

Lemma succeeds_link :
  (forall w, tc_remove_duplicate_definition p w = Ok tt) ->
  (forall w, tc_compile FUZZER p w = Ok tt) ->
  succeeds (at_dir dir F K S G) (is_program_link_correct p)
    (fun r w => r = None /\ at_dir dir (<[out := File]> F) ({["link"]} ∪ K) S G w).
Proof.
  intros Hd Hc. unfold is_program_link_correct. simpl. run_step.
  eapply succeeds_bind; [apply succeeds_attempt; by apply succeeds_compile|].
  intros r. simpl. apply succeeds_exists. intros []. apply succeeds_pure. intros ->.
  run_step. by apply succeeds_ret_pre.
Qed.

Lemma succeeds_link_rejects msg :
  (forall w, tc_remove_duplicate_definition p w = Ok tt) ->
  (forall w, tc_compile FUZZER p w = Err (Report msg)) ->
  succeeds (at_dir dir F K S G) (is_program_link_correct p)
    (fun r w => r = Some (Link msg) /\ at_dir dir F ({["link"]} ∪ K) S G w).
Proof.
  intros Hd Hc. unfold is_program_link_correct. simpl. run_step.
  eapply succeeds_bind; [apply succeeds_attempt_report; by apply fails_compile|].
  intros r. simpl. apply succeeds_pure. intros ->.
  run_step. by apply succeeds_ret_pre.
Qed.

Lemma succeeds_execute v :
  (forall w, tc_transformer_new p w = Ok tt) ->
  (forall w, tc_add_fd_sanitizer p w = Ok tt) ->
  (forall w, tc_preprocess p w = Ok tt) ->
  (forall w, tc_compile FUZZER p w = Ok tt) ->
  (forall w, tc_execute_pool (mkPath dir out) w = v) ->
  succeeds (at_dir dir F K S G) (is_program_execute_correct p)
    (fun r w => r = v /\
       at_dir dir (with_fuzzer name tc_init_file F) ({["execute"]} ∪ K) S G w).
Proof.
  intros Ht Ha Hp Hc He. unfold is_program_execute_correct, with_fuzzer. simpl.
  do 7 run_step. by apply succeeds_ret_pre.
Qed.

(** The compiler rejects the transformed source: the stage ends with the
    compiler's report, not with a verdict, and logs no time. *)
Lemma fails_execute_compile msg :
  (forall w, tc_transformer_new p w = Ok tt) ->
  (forall w, tc_add_fd_sanitizer p w = Ok tt) ->
  (forall w, tc_preprocess p w = Ok tt) ->
  (forall w, tc_compile FUZZER p w = Err (Report msg)) ->
  hoare (at_dir dir F K S G) (is_program_execute_correct p)
    (fun r w => r = Err (Report msg) /\
       at_dir dir (if tc_init_file is Some init then <[init := File]> F else F) K S G w).
Proof.
  intros Ht Ha Hp Hc. unfold is_program_execute_correct. simpl.
  do 4 (eapply hoare_bind_succeeds; [solve [eauto with sm] | intros ?; simpl;
        try (apply hoare_pure; intros ?; subst)]).
  apply hoare_bind_fails. by apply fails_compile.
Qed.

Lemma succeeds_fuzz res found :
  F !! "corpus" = None ->
  (forall w, tc_execute_fuzzer (mkPath dir out) w = (res, found)) ->
  is_panic res = false ->
  succeeds (at_dir dir F K S G) (is_program_fuzz_correct p)
    (fun r w => r = fuzz_verdict res /\
       at_dir dir (<["corpus" := Dir found]> F) ({["fuzz"]} ∪ K) S G w).
Proof.
  intros Hn Hf Hp. unfold is_program_fuzz_correct. simpl.
  run_step. rewrite Hn.
  eapply succeeds_bind.
  { eapply (succeeds_execute_fuzzer _ _ _ _ _ _ "corpus" ∅); [by simplify_map_eq|done..]. }
  intros r. simpl. apply succeeds_pure. intros ->.
  rewrite insert_insert_eq, (left_id_L ∅ (∪)).
  run_step. destruct res; by apply succeeds_ret_pre.
Qed.

Lemma succeeds_coverage files cov has_err summary g0 c :
  F !! "corpus" = Some (Dir files) ->
  (forall w, tc_compile COVERAGE p w = Ok tt) ->
  (forall w, tc_collect_code_coverage (mkPath dir (set_extension name "cov.out")) w = Ok cov) ->
  (forall w, tc_sanitize_by_fuzzer_coverage p cov w = Ok has_err) ->
  (forall w, tc_dump_fuzzer_coverage (mkPath dir (set_extension name "cov.out")) w = Ok summary) ->
  (forall w, tc_compile Minimize p w = Ok tt) ->
  (forall w, tc_minimize (with_extension p "evo.out") (path_join dir "corpus") w
             = Ok (Some c)) ->
  G = Some g0 \/
    (G = None /\ forall w, tc_init_by_corpus (with_extension p "evo.out") w = Ok g0) ->
  (forall file w, tc_copy file w = Ok tt) ->
  succeeds (at_dir dir F K S G) (is_program_coverage_correct p)
    (fun r w => r = coverage_verdict has_err summary /\
       at_dir dir
         (delete "corpus" (delete "merge_control_file"
            (<[set_extension name "evo.out" := File]>
               (<[set_extension name "cov.out" := File]> F))))
         ({["update"]} ∪ ({["coverage"]} ∪ K))
         (S ∪ list_to_set (interesting (cf_entries c) g0))
         (Some (g0 ∪ all_features (cf_entries c))) w).
Proof.
  intros Hn Hc Hcov Hs Hdump Hm Hmerge HG Hcp. unfold is_program_coverage_correct. simpl.
  do 4 run_step.
  eapply succeeds_bind; [by eapply (succeeds_evolve_corpus dir name)|]. intros ?. simpl.
  eapply succeeds_bind.
  { apply succeeds_remove_dir_all. exists files.
    rewrite lookup_delete_ne, !lookup_insert_ne by eauto with sm. done. }
  intros ?. simpl. destruct has_err; simpl.
  - run_step. by apply succeeds_ret_pre.
  - by apply succeeds_ret_pre.
Qed.

End StageRuns.

#[export] Hint Resolve succeeds_syntax succeeds_link succeeds_link_rejects
  succeeds_execute succeeds_fuzz : sm.


(** ** Running the pipeline

    The verdict of [check_program_is_correct] and the world it leaves, stage
    by stage.  The hypotheses of this section say how the tools answer on
    the candidate; each theorem uses those of the stages it runs. *)

(** Closes a run that ends by returning its verdict. *)
Ltac verdict_done :=
  apply succeeds_ret_pre; intros ? Hw'; split; [done|];
  revert Hw'; apply at_dir_eq; try done; unfold stage_keys; simpl;
  clear; set_solver.

(** Decides an equation between maps built from inserts and deletes by
    comparing them key by key. *)
Ltac map_norm :=
  apply map_eq; intros ?;
  repeat first [rewrite lookup_delete | rewrite lookup_insert | case_decide];
  subst; try done; try congruence.

Section Pipeline.
Context `{Toolchain}.
Context (dir name : string) (F : gmap string node) (K Sh : gset string)
  (G : option GlobalFeature).
Let p := mkPath dir name.
Let out := mkPath dir (set_extension name "out").
Let cov_out := mkPath dir (set_extension name "cov.out").

Context (fresh : F !! "corpus" = None).
Context (init_not_corpus : tc_init_file <> Some "corpus").

Lemma with_fuzzer_corpus : with_fuzzer name tc_init_file F !! "corpus" = None.
Proof.
  unfold with_fuzzer. rewrite lookup_insert_ne by eauto with sm.
  destruct tc_init_file as [init|]; [|done]. rewrite lookup_insert_ne; [done|].
  congruence.
Qed.

(** A candidate the compiler's syntax check refuses is rejected with a
    [Syntax] verdict carrying the compiler's diagnostics, and no later stage
    runs: the work directory holds the files it held, only the syntax stage
    is timed, and the shared corpus and feature file are untouched. *)
Theorem check_rejects_at_syntax diagnostics w :
  (forall w, tc_syntax p w = Some (mkOutput false diagnostics)) ->
  at_dir dir F K Sh G w ->
  exists w', check_program_is_correct p w = (Ok (Some (Syntax diagnostics)), w') /\
    at_dir dir F (stage_keys 1 ∪ K) Sh G w'.
Proof.
  intros Hs Hw. eapply (succeeds_run_value _ _ _ _ w); [|exact Hw].
  unfold check_program_is_correct. run_step. unfold syntax_verdict. simpl.
  verdict_done.
Qed.

Context (stderr : string).
Context (syntax_passes : forall w, tc_syntax p w = Some (mkOutput true stderr)).
Context (dedup_passes : forall w, tc_remove_duplicate_definition p w = Ok tt).

(** A candidate that passes the syntax check but that the compiler
    cannot build and link under the fuzzer profile is rejected with a [Link]
    verdict carrying the compiler's message; no binary is left in the work
    directory and two stages are timed. *)
Theorem check_rejects_at_link msg w :
  (forall w, tc_compile FUZZER p w = Err (Report msg)) ->
  at_dir dir F K Sh G w ->
  exists w', check_program_is_correct p w = (Ok (Some (Link msg)), w') /\
    at_dir dir F (stage_keys 2 ∪ K) Sh G w'.
Proof.
  intros Hc Hw. eapply (succeeds_run_value _ _ _ _ w); [|exact Hw].
  unfold check_program_is_correct. do 2 run_step.
  verdict_done.
Qed.

Context (links : forall w, tc_compile FUZZER p w = Ok tt).
Context (transformer_passes : forall w, tc_transformer_new p w = Ok tt).
Context (fd_sanitizer_passes : forall w, tc_add_fd_sanitizer p w = Ok tt).
Context (preprocess_passes : forall w, tc_preprocess p w = Ok tt).

Lemma with_fuzzer_twice :
  with_fuzzer name tc_init_file (<[set_extension name "out" := File]> F)
  = with_fuzzer name tc_init_file F.
Proof.
  unfold with_fuzzer. destruct tc_init_file; [apply insert_insert_over|].
  apply insert_insert_eq.
Qed.

(** A candidate that builds but fails on an input of the shared corpus
    is rejected with the verdict of [execute_pool] ([Execute] or [Hang]); the
    fuzzer binary and the library's init file are in the work directory,
    three stages are timed, and fuzzing is not started: there is no corpus
    directory. *)
Theorem check_rejects_at_execute e w :
  (forall w, tc_execute_pool out w = Some e) ->
  at_dir dir F K Sh G w ->
  exists w', check_program_is_correct p w = (Ok (Some e), w') /\
    at_dir dir (with_fuzzer name tc_init_file F) (stage_keys 3 ∪ K) Sh G w' /\
    entry (path_join dir "corpus") w' = None.
Proof.
  intros He Hw.
  enough (exists w', check_program_is_correct p w = (Ok (Some e), w') /\
    at_dir dir (with_fuzzer name tc_init_file F) (stage_keys 3 ∪ K) Sh G w')
    as (w' & Hr & Hw').
  { exists w'. split_and!; [done..|]. unfold path_join.
    rewrite (at_dir_entry _ _ _ _ _ _ _ Hw'). apply with_fuzzer_corpus. }
  eapply (succeeds_run_value _ _ _ _ w); [|exact Hw].
  unfold check_program_is_correct. do 3 run_step. rewrite with_fuzzer_twice.
  verdict_done.
Qed.

Context (executes : forall w, tc_execute_pool out w = None).

(** The first three stages pass and leave the fuzzer binary. *)
Ltac run_to_fuzz :=
  unfold check_program_is_correct; do 3 run_step; rewrite with_fuzzer_twice.

(** C36: A candidate that passes syntax, link and execution but on which
    libFuzzer ends with an error is rejected with a [Fuzzer] verdict carrying
    the error's text; its local corpus directory stays in the work directory
    with the inputs libFuzzer found, four stages are timed, and the shared
    corpus and feature file are untouched. *)
Theorem check_rejects_at_fuzz msg found w :
  (forall w, tc_execute_fuzzer out w = (Err (Report msg), found)) ->
  at_dir dir F K Sh G w ->
  exists w', check_program_is_correct p w = (Ok (Some (Fuzzer msg)), w') /\
    at_dir dir (<["corpus" := Dir found]> (with_fuzzer name tc_init_file F))
      (stage_keys 4 ∪ K) Sh G w'.
Proof.
  intros Hfuzz Hw. eapply (succeeds_run_value _ _ _ _ w); [|exact Hw].
  run_to_fuzz.
  eapply succeeds_bind; [eapply succeeds_fuzz; eauto using with_fuzzer_corpus|].
  intros r. simpl. apply succeeds_pure. intros ->. simpl.
  verdict_done.
Qed.

Context (found : gset string).
Context (fuzzes : forall w, tc_execute_fuzzer out w = (Ok tt, found)).
Context (cov : CodeCoverage) (summary : string) (c : CorporaFeatures)
  (g0 : GlobalFeature).
Context (cov_links : forall w, tc_compile COVERAGE p w = Ok tt).
Context (collects : forall w, tc_collect_code_coverage cov_out w = Ok cov).
Context (dumps : forall w, tc_dump_fuzzer_coverage cov_out w = Ok summary).
Context (min_links : forall w, tc_compile Minimize p w = Ok tt).
Context (merges : forall w,
  tc_minimize (with_extension p "evo.out") (path_join dir "corpus") w = Ok (Some c)).
Context (loads : G = Some g0 \/
  (G = None /\ forall w, tc_init_by_corpus (with_extension p "evo.out") w = Ok g0)).
Context (copies : forall file w, tc_copy file w = Ok tt).

Lemma accepted_files :
  delete "corpus" (delete "merge_control_file"
    (<[set_extension name "evo.out" := File]>
       (<[set_extension name "cov.out" := File]>
          (<["corpus" := Dir found]> (with_fuzzer name tc_init_file F)))))
  = delete "merge_control_file" (with_binaries name tc_init_file F).
Proof.
  unfold with_binaries. apply map_eq. intros k.
  destruct (decide (k = "corpus")) as [->|Hk].
  - rewrite lookup_delete_eq, lookup_delete_ne, !lookup_insert_ne by eauto with sm.
    by rewrite with_fuzzer_corpus.
  - rewrite lookup_delete_ne by done.
    destruct (decide (k = "merge_control_file")) as [->|Hk'];
      [by rewrite !lookup_delete_eq | rewrite !(lookup_delete_ne _ "merge_control_file") by done].
    destruct (decide (k = set_extension name "evo.out")) as [->|];
      [by rewrite !lookup_insert_eq | rewrite !(lookup_insert_ne _ (set_extension name "evo.out")) by done].
    destruct (decide (k = set_extension name "cov.out")) as [->|];
      [by rewrite !lookup_insert_eq | rewrite !(lookup_insert_ne _ (set_extension name "cov.out")) by done].
    by rewrite lookup_insert_ne.
Qed.

(** The pipeline run to its end, for either answer of the coverage check. *)
Lemma succeeds_check has_err :
  (forall w, tc_sanitize_by_fuzzer_coverage p cov w = Ok has_err) ->
  succeeds (at_dir dir F K Sh G) (check_program_is_correct p)
    (fun r w => r = coverage_verdict has_err summary /\
       at_dir dir (delete "merge_control_file" (with_binaries name tc_init_file F))
         (stage_keys 6 ∪ K)
         (Sh ∪ list_to_set (interesting (cf_entries c) g0))
         (Some (g0 ∪ all_features (cf_entries c))) w).
Proof.
  intros Hs. run_to_fuzz.
  eapply succeeds_bind; [eapply succeeds_fuzz; eauto using with_fuzzer_corpus|].
  intros r. simpl. apply succeeds_pure. intros ->. simpl.
  eapply succeeds_bind.
  { eapply (succeeds_coverage _ _ _ _ _ _ found); eauto. apply lookup_insert_eq. }
  intros r. simpl. apply succeeds_pure. intros ->.
  rewrite accepted_files.
  assert (stage_keys 6 ∪ K = {["update"]} ∪ ({["coverage"]} ∪ ({["fuzz"]} ∪
    ({["execute"]} ∪ ({["link"]} ∪ ({["syntax"]} ∪ K)))))) as <-.
  { unfold stage_keys. simpl. set_solver. }
  destruct has_err; simpl; by apply succeeds_ret_pre.
Qed.

(** C1: A candidate that passes the five stages is accepted: the verdict
    is [None]; the work directory holds its three binaries, no corpus
    directory and no control file; all six records of the cost log are
    written; the shared corpus has gained the interesting inputs of the
    candidate's corpus and the feature file their features. *)
Theorem check_accepts w :
  (forall w, tc_sanitize_by_fuzzer_coverage p cov w = Ok false) ->
  at_dir dir F K Sh G w ->
  exists w', check_program_is_correct p w = (Ok None, w') /\
    at_dir dir (delete "merge_control_file" (with_binaries name tc_init_file F))
      (stage_keys 6 ∪ K)
      (Sh ∪ list_to_set (interesting (cf_entries c) g0))
      (Some (g0 ∪ all_features (cf_entries c))) w'.
Proof.
  intros Hs Hw. eapply (succeeds_run_value _ _ _ _ w); [|exact Hw].
  apply (succeeds_check false Hs).
Qed.

(** C3: A candidate that does not cover its target is rejected with a
    [Coverage] verdict, yet its corpus has already been merged: the shared
    corpus and the feature file are updated exactly as for an accepted
    candidate, and the corpus directory is removed. *)
Theorem check_rejects_at_coverage w :
  (forall w, tc_sanitize_by_fuzzer_coverage p cov w = Ok true) ->
  at_dir dir F K Sh G w ->
  exists w',
    check_program_is_correct p w
    = (Ok (Some (Coverage (coverage_message +:+ newline +:+ summary))), w') /\
    w_shared w' = Sh ∪ list_to_set (interesting (cf_entries c) g0) /\
    w_global w' = Some (g0 ∪ all_features (cf_entries c)) /\
    entry (path_join dir "corpus") w' = None.
Proof.
  intros Hs Hw.
  destruct (succeeds_run_value _ _ _ _ w (succeeds_check true Hs) Hw) as (w' & Hr & Hw').
  exists w'. split; [done|]. pose proof Hw' as (_ & HS & HG). split_and!; [done..|].
  unfold path_join. rewrite (at_dir_entry _ _ _ _ _ _ _ Hw'), <- accepted_files.
  apply lookup_delete_eq.
Qed.

End Pipeline.

(** ** The pipeline on the running example *)

Lemma check_rejects_at_syntax_witness :
  exists w',
    @check_program_is_correct
      (scenario_toolchain (with_syntax (Some (mkOutput false "expected ';'")) all_pass))
      demo_path demo_world = (Ok (Some (Syntax "expected ';'")), w') /\
    at_dir demo_dir {["1.cc" := File]} (stage_keys 1 ∪ ∅) {["seed0"]}
      (Some {[1; 2]}%N) w'.
Proof.
  eapply (@check_rejects_at_syntax
            (scenario_toolchain (with_syntax (Some (mkOutput false "expected ';'")) all_pass))
            demo_dir "1.cc" {["1.cc" := File]} ∅);
    first [reflexivity | exact demo_world_at | discriminate | by left].
Defined.

Lemma check_rejects_at_link_witness :
  exists w',
    @check_program_is_correct
      (scenario_toolchain (with_compile (fun _ => Err (Report "undefined reference")) all_pass))
      demo_path demo_world = (Ok (Some (Link "undefined reference")), w') /\
    at_dir demo_dir {["1.cc" := File]} (stage_keys 2 ∪ ∅) {["seed0"]}
      (Some {[1; 2]}%N) w'.
Proof.
  eapply (@check_rejects_at_link
            (scenario_toolchain (with_compile (fun _ => Err (Report "undefined reference")) all_pass))
            demo_dir "1.cc" {["1.cc" := File]} ∅);
    first [reflexivity | exact demo_world_at | discriminate | by left].
Defined.

Lemma check_rejects_at_execute_witness :
  exists w',
    @check_program_is_correct
      (scenario_toolchain (with_execute (Some (true, "timeout")) all_pass))
      demo_path demo_world = (Ok (Some (Hang "timeout")), w') /\
    at_dir demo_dir (with_fuzzer "1.cc" None {["1.cc" := File]}) (stage_keys 3 ∪ ∅)
      {["seed0"]} (Some {[1; 2]}%N) w' /\
    entry (path_join demo_dir "corpus") w' = None.
Proof.
  eapply (@check_rejects_at_execute
            (scenario_toolchain (with_execute (Some (true, "timeout")) all_pass))
            demo_dir "1.cc" {["1.cc" := File]} ∅);
    first [reflexivity | exact demo_world_at | discriminate | by left].
Defined.

Lemma check_rejects_at_fuzz_witness :
  exists w',
    @check_program_is_correct
      (scenario_toolchain (with_fuzz (Err (Report "heap-buffer-overflow"), {["crash-1"]}) all_pass))
      demo_path demo_world = (Ok (Some (Fuzzer "heap-buffer-overflow")), w') /\
    at_dir demo_dir
      (<["corpus" := Dir {["crash-1"]}]> (with_fuzzer "1.cc" None {["1.cc" := File]}))
      (stage_keys 4 ∪ ∅) {["seed0"]} (Some {[1; 2]}%N) w'.
Proof.
  eapply (@check_rejects_at_fuzz
            (scenario_toolchain (with_fuzz (Err (Report "heap-buffer-overflow"), {["crash-1"]}) all_pass))
            demo_dir "1.cc" {["1.cc" := File]} ∅);
    first [reflexivity | exact demo_world_at | discriminate | by left].
Defined.

Lemma check_accepts_witness :
  exists w',
    @check_program_is_correct (scenario_toolchain all_pass) demo_path demo_world
    = (Ok None, w') /\
    at_dir demo_dir
      (delete "merge_control_file" (with_binaries "1.cc" None {["1.cc" := File]}))
      (stage_keys 6 ∪ ∅)
      ({["seed0"]} ∪ list_to_set (interesting (cf_entries demo_corpora) {[1; 2]}%N))
      (Some ({[1; 2]}%N ∪ all_features (cf_entries demo_corpora))) w'.
Proof.
  eapply (@check_accepts
           (scenario_toolchain all_pass)
           demo_dir "1.cc" {["1.cc" := File]} ∅);
    first [reflexivity | exact demo_world_at | discriminate | by left].
Defined.

Lemma check_rejects_at_coverage_witness :
  exists w',
    @check_program_is_correct (scenario_toolchain (with_uncovered (Ok true) all_pass))
      demo_path demo_world
    = (Ok (Some (Coverage (coverage_message +:+ newline +:+ "coverage summary"))), w') /\
    w_shared w' = {["seed0"]} ∪ list_to_set (interesting (cf_entries demo_corpora) {[1; 2]}%N) /\
    w_global w' = Some ({[1; 2]}%N ∪ all_features (cf_entries demo_corpora)) /\
    entry (path_join demo_dir "corpus") w' = None.
Proof.
  eapply (@check_rejects_at_coverage
           (scenario_toolchain (with_uncovered (Ok true) all_pass))
           demo_dir "1.cc" {["1.cc" := File]} ∅);
    first [reflexivity | exact demo_world_at | discriminate | by left].
Defined.
