(* ===== verification/Machine.v ===== *)
(** * The pipeline as a transition system

    An abstract view of the StageRunner of src/execution/sanitize.rs: a
    candidate is at one of the five stages, or it has a verdict, or its
    worker has aborted with an error.  One transition runs the handler of
    the current stage.  [check_program_is_correct] is proved to implement
    this machine: what it returns is the one final configuration the machine
    reaches, and the machine reaches it from every configuration on the way,
    in at most five transitions.  The kind of a verdict tells the stage that
    gave it. *)

From stdpp Require Import relations.
From S2P Require Import Prelude Loops Paths Float32 Feature World Fixture Evolve Stages.

Local Open Scope string_scope.

(** ** Configurations *)

Inductive Stage : Type := StSyntax | StLink | StExecute | StFuzz | StCoverage.

#[export] Instance Stage_eq_dec : EqDecision Stage.
Proof. solve_decision. Defined.

Definition next_stage (s : Stage) : option Stage :=
  match s with
  | StSyntax => Some StLink
  | StLink => Some StExecute
  | StExecute => Some StFuzz
  | StFuzz => Some StCoverage
  | StCoverage => None
  end.

Inductive Status : Type :=
| Running (s : Stage)
| Finished (verdict : option ProgramError)
| Aborted (e : fault).

Definition Conf : Type := Status * World.

Definition final (c : Conf) : Prop :=
  match c.1 with Running _ => False | _ => True end.

#[export] Instance final_dec c : Decision (final c).
Proof. unfold final. destruct c.1; apply _. Defined.

(** The stages a candidate still has to run. *)
Definition status_left (st : Status) : nat :=
  match st with
  | Running StSyntax => 5
  | Running StLink => 4
  | Running StExecute => 3
  | Running StFuzz => 2
  | Running StCoverage => 1
  | _ => 0
  end.

Definition stages_left (c : Conf) : nat := status_left c.1.

(** The stage that gives verdicts of this kind. *)
Definition stage_of (err : ProgramError) : Stage :=
  match err with
  | Syntax _ => StSyntax
  | Link _ => StLink
  | Execute _ | Hang _ => StExecute
  | Fuzzer _ => StFuzz
  | Coverage _ => StCoverage
  end.

(** What the status becomes when the handler of stage [s] returns [r]. *)
Definition advance (s : Stage) (r : result (option ProgramError)) : Status :=
  match r with
  | Ok None => from_option Running (Finished None) (next_stage s)
  | Ok (Some err) => Finished (Some err)
  | Err e => Aborted e
  end.

(** The configuration a run of a handler ends in. *)
Definition outcome (r : result (option ProgramError) * World) : Conf :=
  (match r.1 with Ok verdict => Finished verdict | Err e => Aborted e end, r.2).

Section Machine.
Context `{Toolchain}.

Definition run_stage (s : Stage) : Path -> M World (option ProgramError) :=
  match s with
  | StSyntax => is_program_syntax_correct
  | StLink => is_program_link_correct
  | StExecute => is_program_execute_correct
  | StFuzz => is_program_fuzz_correct
  | StCoverage => is_program_coverage_correct
  end.

(** ** Transitions *)

Inductive step (p : Path) : relation Conf :=
| step_pass s w w' :
    run_stage s p w = (Ok None, w') ->
    step p (Running s, w) (from_option Running (Finished None) (next_stage s), w')
| step_reject s w err w' :
    run_stage s p w = (Ok (Some err), w') ->
    step p (Running s, w) (Finished (Some err), w')
| step_abort s w e w' :
    run_stage s p w = (Err e, w') ->
    step p (Running s, w) (Aborted e, w').

(** The machine as a function, and run with fuel. *)
Definition step_fn (p : Path) (c : Conf) : option Conf :=
  match c.1 with
  | Running s => Some (advance s (run_stage s p c.2).1, (run_stage s p c.2).2)
  | _ => None
  end.

Fixpoint run (fuel : nat) (p : Path) (c : Conf) : Conf :=
  match fuel with
  | O => c
  | S fuel' => match step_fn p c with Some c' => run fuel' p c' | None => c end
  end.

(** The handlers of a list of stages, one after the other, stopping at the
    first verdict: the shape of [check_program_is_correct]. *)
Fixpoint pipeline (stages : list Stage) (p : Path) : M World (option ProgramError) :=
  match stages with
  | [] => ret None
  | s :: stages' =>
      let* r := run_stage s p in
      if r is Some err then ret (Some err) else pipeline stages' p
  end.

(** The stages from [s] on. *)
Definition stages_from (s : Stage) : list Stage :=
  match s with
  | StSyntax => [StSyntax; StLink; StExecute; StFuzz; StCoverage]
  | StLink => [StLink; StExecute; StFuzz; StCoverage]
  | StExecute => [StExecute; StFuzz; StCoverage]
  | StFuzz => [StFuzz; StCoverage]
  | StCoverage => [StCoverage]
  end.

End Machine.

(** ** The machine is deterministic and runs out of stages *)

Section MachineFacts.
Context `{Toolchain}.
Implicit Types (p : Path) (c : Conf) (s : Stage) (w : World).

Lemma step_fn_step p c c' : step p c c' <-> step_fn p c = Some c'.
Proof.
  split.
  - intros [s w w' E|s w err w' E|s w e w' E]; unfold step_fn; simpl; by rewrite E.
  - destruct c as [[s| |] w]; unfold step_fn; simpl; [|done..]. intros [= <-].
    destruct (run_stage s p w) as [[[err|]|e] w'] eqn:E; simpl; by econstructor.
Qed.

Lemma step_deterministic p c c1 c2 : step p c c1 -> step p c c2 -> c1 = c2.
Proof. rewrite !step_fn_step. congruence. Qed.

Lemma final_nf p c : final c -> nf (step p) c.
Proof. intros Hf [c' Hs]. by destruct Hs. Qed.

Lemma step_progress p c : final c \/ red (step p) c.
Proof.
  destruct (step_fn p c) as [c'|] eqn:E.
  - right. exists c'. by apply step_fn_step.
  - left. unfold step_fn in E. unfold final. by destruct c.1.
Qed.

Lemma step_stages_left p c c' : step p c c' -> (stages_left c' < stages_left c)%nat.
Proof. intros [[] ? ? _|[] ? ? ? _|[] ? ? ? _]; unfold stages_left, status_left; simpl; lia. Qed.

Lemma nsteps_stages_left p n c c' :
  nsteps (step p) n c c' -> (n + stages_left c' <= stages_left c)%nat.
Proof.
  induction 1 as [|n c1 c2 c3 Hs _ IH]; [lia|]. apply step_stages_left in Hs. lia.
Qed.

(** From a configuration on the way to a final one, the final one is still
    reached, and it is the only final one. *)
Lemma rtc_step_final p c c1 c2 :
  rtc (step p) c c1 -> rtc (step p) c c2 -> final c2 -> rtc (step p) c1 c2.
Proof.
  intros H1. revert c2. induction H1 as [|x y z Hxy _ IH]; intros c2 H2 Hf; [done|].
  destruct H2 as [|x y' z' Hxy' H2].
  - destruct (final_nf p x Hf). by exists y.
  - apply IH; [|done]. by rewrite (step_deterministic p x y y').
Qed.

Lemma rtc_final_unique p c c1 c2 :
  rtc (step p) c c1 -> final c1 -> rtc (step p) c c2 -> final c2 -> c1 = c2.
Proof.
  intros H1 Hf1 H2 Hf2. pose proof (rtc_step_final p c c1 c2 H1 H2 Hf2) as H12.
  inversion H12 as [|x y z Hs _]; [done|]. subst. destruct (final_nf p c1 Hf1). by exists y.
Qed.

(** ** The handler follows the machine *)

Lemma pipeline_cons s stages p w :
  (forall w', rtc (step p) (from_option Running (Finished None) (next_stage s), w')
                (outcome (pipeline stages p w'))) ->
  rtc (step p) (Running s, w) (outcome (pipeline (s :: stages) p w)).
Proof.
  intros Hrest. simpl. unfold bind.
  destruct (run_stage s p w) as [[[err|]|e] w'] eqn:E.
  - apply rtc_once. by apply step_reject.
  - eapply rtc_l; [by apply step_pass | apply Hrest].
  - apply rtc_once. by apply step_abort.
Qed.

Lemma pipeline_from s p w :
  rtc (step p) (Running s, w) (outcome (pipeline (stages_from s) p w)).
Proof.
  destruct s; simpl stages_from; repeat (apply pipeline_cons; intros ?); apply rtc_refl.
Qed.

Lemma check_program_is_correct_pipeline p :
  check_program_is_correct p = pipeline (stages_from StSyntax) p.
Proof. reflexivity. Qed.

Lemma outcome_final r : final (outcome r).
Proof. unfold final, outcome. simpl. by destruct r.1. Qed.

Lemma run_rtc fuel p c : rtc (step p) c (run fuel p c).
Proof.
  revert c. induction fuel as [|fuel IH]; intros c; simpl; [done|].
  destruct (step_fn p c) as [c'|] eqn:E; [|done].
  eapply rtc_l; [by apply step_fn_step | apply IH].
Qed.

Lemma run_final fuel p c : (stages_left c <= fuel)%nat -> final (run fuel p c).
Proof.
  revert c. induction fuel as [|fuel IH]; intros c Hc; simpl.
  - unfold stages_left, status_left, final in *. by destruct c.1 as [[]| |]; try lia.
  - destruct (step_fn p c) as [c'|] eqn:E.
    + apply IH. apply step_fn_step, step_stages_left in E. lia.
    + unfold step_fn in E. unfold final. by destruct c.1.
Qed.

End MachineFacts.

(** ** The kind of a verdict tells its stage *)

(** The verdicts stage [s] can give. *)
Definition verdict_at (s : Stage) (verdict : option ProgramError) : Prop :=
  forall err, verdict = Some err -> stage_of err = s.

Ltac returns_step :=
  first [ apply returns_fail
        | apply returns_ret; by intros ? [= <-]
        | apply returns_bind; intros ?
        | match goal with |- returns (match ?x with _ => _ end) _ => destruct x end ].

Section Typing.
Context `{Toolchain}.

Lemma returns_execute_pool binary : returns (execute_pool binary) (verdict_at StExecute).
Proof.
  intros w v w' [= <- _] err Hv.
  by destruct (tc_execute_pool_kind _ _ _ Hv) as [[m ->]|[m ->]].
Qed.

Lemma run_stage_typed s p : returns (run_stage s p) (verdict_at s).
Proof.
  destruct s; simpl;
    [unfold is_program_syntax_correct | unfold is_program_link_correct
    | unfold is_program_execute_correct | unfold is_program_fuzz_correct
    | unfold is_program_coverage_correct ]; simpl.
  3:{ do 5 returns_step.
      eapply returns_bind_val; [apply returns_execute_pool|]. intros v Hv.
      returns_step. by apply returns_ret. }
  all: repeat returns_step.
Qed.

End Typing.

(** ** The handler implements the machine *)

Section MachineClaims.
Context `{Toolchain}.
Implicit Types (p : Path) (c : Conf) (w : World).

(** C14: [check_program_is_correct] implements the machine: the
    configuration it ends in is the one final configuration the machine
    reaches from the syntax stage, and it is what the machine computes with
    fuel for five transitions. *)
Theorem check_program_is_correct_refines p w c :
  (rtc (step p) (Running StSyntax, w) c /\ final c
   <-> c = outcome (check_program_is_correct p w)) /\
  run 5 p (Running StSyntax, w) = outcome (check_program_is_correct p w).
Proof.
  pose proof (pipeline_from StSyntax p w) as Hrun.
  rewrite <- check_program_is_correct_pipeline in Hrun.
  pose proof (outcome_final (check_program_is_correct p w)) as Hfin.
  split; [split|].
  - intros [Hc Hf]. by apply (rtc_final_unique p (Running StSyntax, w)).
  - by intros ->.
  - apply (rtc_final_unique p (Running StSyntax, w)); [apply run_rtc | | done..].
    by apply run_final.
Qed.

(** Every run of the machine leads to the verdict: after [n]
    transitions from the syntax stage, whatever they were, at most [5 - n]
    more end in the configuration [check_program_is_correct] returns. *)
Theorem pipeline_reaches_outcome p w n c :
  nsteps (step p) n (Running StSyntax, w) c ->
  exists m, (n + m <= 5)%nat /\
    nsteps (step p) m c (outcome (check_program_is_correct p w)).
Proof.
  intros Hn. pose proof (pipeline_from StSyntax p w) as Hrun.
  rewrite <- check_program_is_correct_pipeline in Hrun.
  assert (rtc (step p) c (outcome (check_program_is_correct p w))) as Hc.
  { eapply rtc_step_final; [by eapply rtc_nsteps_2 | done | apply outcome_final]. }
  apply rtc_nsteps_1 in Hc as [m Hm]. exists m. split; [|done].
  pose proof (nsteps_stages_left p _ _ _ (nsteps_trans _ _ _ _ _ Hn Hm)) as Hb.
  unfold stages_left at 2 in Hb. simpl in Hb. lia.
Qed.

(** C20: a verdict has the kind of the stage that gave it: when
    [check_program_is_correct] rejects a candidate, the machine ran up to
    the stage named by the kind of the verdict and that stage rejected. *)
Theorem verdict_tells_stage p w err :
  (check_program_is_correct p w).1 = Ok (Some err) ->
  exists w1,
    rtc (step p) (Running StSyntax, w) (Running (stage_of err), w1) /\
    step p (Running (stage_of err), w1)
      (Finished (Some err), (check_program_is_correct p w).2).
Proof.
  intros Hv. pose proof (pipeline_from StSyntax p w) as Hrun.
  rewrite <- check_program_is_correct_pipeline in Hrun.
  unfold outcome in Hrun. rewrite Hv in Hrun.
  apply rtc_inv_r in Hrun as [[=]|(c & Hc & Hs)].
  inversion Hs as [s w1 w' E Hc1 Hfin|s w1 err' w' E|]; subst.
  - by destruct s.
  - pose proof (run_stage_typed s p w1 _ _ E err eq_refl) as ->. by exists w1.
Qed.

End MachineClaims.

(** ** The machine on an example *)

Definition crash_toolchain : Toolchain :=
  scenario_toolchain (with_fuzz (Err (Report "heap-buffer-overflow"), {["crash-1"]}) all_pass).

Lemma pipeline_reaches_outcome_witness :
  exists m, (1 + m <= 5)%nat /\
    nsteps (@step crash_toolchain demo_path) m
      (@run crash_toolchain 1 demo_path (Running StSyntax, demo_world))
      (outcome (@check_program_is_correct crash_toolchain demo_path demo_world)).
Proof.
  apply (@pipeline_reaches_outcome crash_toolchain demo_path demo_world 1).
  apply nsteps_once, step_fn_step. reflexivity.
Defined.

Lemma verdict_tells_stage_witness :
  exists w1,
    rtc (@step crash_toolchain demo_path) (Running StSyntax, demo_world) (Running StFuzz, w1) /\
    @step crash_toolchain demo_path (Running StFuzz, w1)
      (Finished (Some (Fuzzer "heap-buffer-overflow")),
       (@check_program_is_correct crash_toolchain demo_path demo_world).2).
Proof.
  apply (@verdict_tells_stage crash_toolchain demo_path demo_world
           (Fuzzer "heap-buffer-overflow")).
  vm_compute. reflexivity.
Defined.
