(* ===== verification/Batch.v ===== *)
(** * Batches of worker processes (src/execution/sanitize.rs, lines 194-262)

    [concurrent_check] cuts the list of candidates into batches of at most
    [core] and hands each batch to [concurrent_check_batch], which starts one
    worker process per candidate and decodes what each worker wrote to its
    standard error.  A worker is the [harness] binary running
    [check_program_is_correct]; the workers of a batch run here one after the
    other, in the order in which they are started. *)

From S2P Require Import Prelude Loops Paths Float32 Feature World Fixture Evolve Stages.

Local Open Scope string_scope.
Local Open Scope list_scope.

(** ** The worker and its error channel *)

(** What the supervisor relies on from the [harness] binary and from serde:
    whether the process could be started, and the encoding of a verdict on
    standard error, which decoding inverts. *)
Class Harness : Type := {
  hs_spawn : Path -> World -> bool;
  hs_encode : ProgramError -> string;
  hs_decode : string -> option ProgramError;
  hs_decode_encode e : hs_decode (hs_encode e) = Some e;
}.

Definition rem_by_zero : fault :=
  Panic "attempt to calculate the remainder with a divisor of zero".

Section Batch.
Context `{Toolchain} `{Harness}.

(** [harness <library> check <program>]: the pipeline in a process of its
    own.  The verdict leaves on standard error with a failing exit status;
    an operational error or a panic of the worker ends it with a failing
    status and its message. *)
Definition harness_check (program : Path) : M World Output :=
  fun w =>
    match check_program_is_correct program w with
    | (Ok None, w') => (Ok (mkOutput true ""), w')
    | (Ok (Some err), w') => (Ok (mkOutput false (hs_encode err)), w')
    | (Err e, w') => (Ok (mkOutput false (to_string e)), w')
    end.

(** Lines 201-222: the children of the indices below [core] that the batch
    has. *)
Fixpoint spawn_loop (programs : list Path) (indices : list nat) (childs : list Output) :
    M World (list Output) :=
  match indices with
  | [] => ret childs
  | i :: rest =>
      if bool_decide (length programs <= i)%nat then ret childs
      else
        match programs !! i with
        | None => fail unwrap_none
        | Some program =>
            let* started := tool (hs_spawn program) in
            if started : bool then
              let* child := harness_check program in
              spawn_loop programs rest (childs ++ [child])
            else fail (Panic "failed to execute the concurrent transform process")
        end
  end.

(** Lines 226-237: the verdict the supervisor reads off a finished child. *)
Definition decode_output (output : Output) : option ProgramError :=
  if negb (out_success output) then
    let err_msg := out_stderr output in
    match hs_decode err_msg with
    | Some err => Some err
    | None => Some (Fuzzer err_msg)
    end
  else None.

(** Lines 223-240. *)
Fixpoint wait_loop (programs : list Path) (childs : list (nat * Output))
    (has_errs : list (option ProgramError)) : M World (list (option ProgramError)) :=
  match childs with
  | [] => ret has_errs
  | (i, output) :: rest =>
      match programs !! i with
      | None => fail unwrap_none
      | Some _ => wait_loop programs rest (has_errs ++ [decode_output output])
      end
  end.

(** Lines 195-242. *)
Definition concurrent_check_batch (programs : list Path) (core : nat) :
    M World (list (option ProgramError)) :=
  let* childs := spawn_loop programs (seq 0 core) [] in
  wait_loop programs (zip (seq 0 (length childs)) childs) [].

(** Lines 251-260: the loop of [concurrent_check] from candidate [i] on,
    [len] being the number of candidates. *)
Fixpoint check_loop (len core : nat) (i : nat) (programs : list Path)
    (has_errs : list (option ProgramError)) (batch : list Path) :
    M World (list (option ProgramError)) :=
  match programs with
  | [] => ret has_errs
  | program :: rest =>
      let i' := (i + 1)%nat in
      let batch := batch ++ [program] in
      if bool_decide (core = 0)%nat then fail rem_by_zero
      else if bool_decide (i' mod core = 0)%nat || bool_decide (i' = len) then
        let* res := concurrent_check_batch batch core in
        check_loop len core i' rest (has_errs ++ res) []
      else check_loop len core i' rest has_errs batch
  end.

(** Lines 245-262. *)
Definition concurrent_check (programs : list Path) (core : nat) :
    M World (list (option ProgramError)) :=
  check_loop (length programs) core 0 programs [] [].

(** ** Reference definitions *)

(** A worker started and run to its end. *)
Definition spawn_run (program : Path) : M World Output :=
  let* started := tool (hs_spawn program) in
  if started : bool then harness_check program
  else fail (Panic "failed to execute the concurrent transform process").

(** One candidate, checked on its own: start the worker, let it run, decode
    its output. *)
Definition check_one (program : Path) : M World (option ProgramError) :=
  let* child := spawn_run program in
  ret (decode_output child).

End Batch.

(** The list cut into consecutive pieces of [n] elements, the last one
    shorter when [n] does not divide the length. *)
Fixpoint chunks_fuel {A} (fuel n : nat) (xs : list A) : list (list A) :=
  match fuel, xs with
  | O, _ | _, [] => []
  | S fuel', _ => take n xs :: chunks_fuel fuel' n (drop n xs)
  end.

Definition chunks {A} (n : nat) (xs : list A) : list (list A) :=
  chunks_fuel (length xs) n xs.

(** [within D w w']: from [w] to [w'] only the work directories of [D] were
    written, no work directory appeared or disappeared, and the shared
    corpus and the feature set grew. *)
Record within (D : gset string) (w w' : World) : Prop := mkWithin {
  within_other : forall d, d ∉ D -> w_work w' !! d = w_work w !! d;
  within_dirs : forall d, is_Some (w_work w !! d) <-> is_Some (w_work w' !! d);
  within_global : global_elems w ⊆ global_elems w';
  within_shared : w_shared w ⊆ w_shared w';
}.

(** ** Chunks *)

Section Chunks.
Context {A : Type}.
Implicit Types xs : list A.

Lemma chunks_fuel_enough fuel n xs :
  (0 < n)%nat -> (length xs <= fuel)%nat -> chunks_fuel fuel n xs = chunks n xs.
Proof.
  intros Hn. unfold chunks. remember (length xs) as m eqn:Hm.
  revert fuel xs Hm. induction (lt_wf m) as [m _ IH]. intros fuel xs -> Hf.
  destruct xs as [|x xs]; [by destruct fuel|].
  destruct fuel as [|fuel]; simpl in *; [lia|]. f_equal.
  assert (length (drop n (x :: xs)) <= length xs)%nat as Hd.
  { rewrite length_drop. simpl. lia. }
  rewrite (IH (length (drop n (x :: xs)))) by (done || lia).
  by rewrite <- (IH (length (drop n (x :: xs))) ltac:(lia) (length xs)).
Qed.

Lemma chunks_nil n : chunks n (@nil A) = [].
Proof. done. Qed.

Lemma chunks_unfold n xs :
  (0 < n)%nat -> xs <> [] -> chunks n xs = take n xs :: chunks n (drop n xs).
Proof.
  intros Hn Hxs. destruct xs as [|x xs]; [done|]. unfold chunks at 1. simpl.
  f_equal. apply chunks_fuel_enough; [done|]. rewrite length_drop. simpl. lia.
Qed.

(** A piece that is full, or that is all there is, is the first chunk. *)
Lemma chunks_app n xs ys :
  (0 < n)%nat -> xs <> [] -> (length xs <= n)%nat ->
  length xs = n \/ ys = [] ->
  chunks n (xs ++ ys) = xs :: chunks n ys.
Proof.
  intros Hn Hxs Hle Hfull. rewrite chunks_unfold by (done || by destruct xs).
  destruct Hfull as [<- | ->].
  - by rewrite take_app_length, drop_app_length.
  - rewrite app_nil_r, take_ge, drop_ge by done. done.
Qed.

Lemma concat_chunks n xs : (0 < n)%nat -> concat (chunks n xs) = xs.
Proof.
  intros Hn. remember (length xs) as m eqn:Hm. revert xs Hm.
  induction (lt_wf m) as [m _ IH]. intros xs ->.
  destruct xs as [|x xs]; [done|]. rewrite chunks_unfold by done.
  simpl concat. rewrite (IH (length (drop n (x :: xs)))); [apply take_drop| |done].
  rewrite length_drop. simpl. lia.
Qed.

Lemma chunks_bounded n xs :
  (0 < n)%nat -> Forall (fun b => (0 < length b <= n)%nat) (chunks n xs).
Proof.
  intros Hn. remember (length xs) as m eqn:Hm. revert xs Hm.
  induction (lt_wf m) as [m _ IH]. intros xs ->.
  destruct xs as [|x xs]; [constructor|]. rewrite chunks_unfold by done.
  constructor.
  - rewrite length_take. simpl. lia.
  - apply (IH (length (drop n (x :: xs)))); [|done]. rewrite length_drop. simpl. lia.
Qed.

End Chunks.

Lemma succ_mod i n :
  (0 < n)%nat ->
  ((i + 1) mod n = if decide (i mod n + 1 = n) then 0 else i mod n + 1)%nat.
Proof.
  intros Hn. pose proof (Nat.div_mod_eq i n) as Hi.
  pose proof (Nat.mod_upper_bound i n ltac:(lia)) as Hr.
  case_decide as Hc.
  - symmetry. apply (Nat.mod_unique _ _ (i / n + 1)); nia.
  - symmetry. apply (Nat.mod_unique _ _ (i / n)); nia.
Qed.

(** ** The loops of a batch as list functions *)

Section BatchFacts.
Context `{Toolchain} `{Harness}.

Lemma spawn_loop_spec programs k n childs :
  spawn_loop programs (seq k n) childs
  ≡ (let* cs := map_m spawn_run (take n (drop k programs)) in ret (childs ++ cs)).
Proof.
  revert k childs. induction n as [|n IH]; intros k childs; simpl.
  { by rewrite bind_ret_l_equiv, app_nil_r. }
  case_bool_decide as Hk.
  { rewrite drop_ge by done. simpl. by rewrite bind_ret_l_equiv, app_nil_r. }
  destruct (lookup_lt_is_Some_2 programs k ltac:(lia)) as [p Hp].
  rewrite Hp, (drop_S _ _ _ Hp). simpl. unfold spawn_run at 1.
  m_step as []; [|by m_norm].
  m_step. rewrite IH. m_step. m_norm. by rewrite <- app_assoc.
Qed.

Lemma wait_loop_spec programs k childs has_errs :
  (k + length childs <= length programs)%nat ->
  wait_loop programs (zip (seq k (length childs)) childs) has_errs
  ≡ ret (has_errs ++ map decode_output childs).
Proof.
  revert k has_errs. induction childs as [|c cs IH]; intros k has_errs Hlen; simpl.
  { by rewrite app_nil_r. }
  simpl in Hlen. destruct (lookup_lt_is_Some_2 programs k ltac:(lia)) as [p ->].
  rewrite IH by lia. by rewrite <- app_assoc.
Qed.

Lemma map_m_fmap {A B C} (f : A -> M World B) (g : B -> C) xs :
  map_m (fun x => let* y := f x in ret (g y)) xs
  ≡ (let* ys := map_m f xs in ret (map g ys)).
Proof.
  induction xs as [|x xs IH]; simpl; [by m_norm|].
  m_step. rewrite IH. m_step. by m_norm.
Qed.

(** A batch is its first [core] candidates checked one by one. *)
Lemma concurrent_check_batch_spec programs core :
  concurrent_check_batch programs core ≡ map_m check_one (take core programs).
Proof.
  unfold concurrent_check_batch.
  unfold check_one. rewrite map_m_fmap.
  rewrite spawn_loop_spec, drop_0. m_norm. intros w. unfold bind.
  destruct (map_m spawn_run (take core programs) w) as [[cs|e] w'] eqn:E; [|done].
  apply map_m_length in E. rewrite length_take in E. simpl.
  apply wait_loop_spec. lia.
Qed.

Lemma check_loop_spec len core i rest has_errs batch :
  (0 < core)%nat -> len = (i + length rest)%nat ->
  (rest <> [] -> (i mod core)%nat = length batch) -> (rest = [] -> batch = []) ->
  check_loop len core i rest has_errs batch
  ≡ (let* rs := map_m (fun b => concurrent_check_batch b core) (chunks core (batch ++ rest))
     in ret (has_errs ++ concat rs)).
Proof.
  intros Hc. revert i has_errs batch.
  induction rest as [|p rest IH]; intros i has_errs batch Hlen Hmod Hend.
  { rewrite Hend by done. simpl. by rewrite bind_ret_l_equiv, app_nil_r. }
  simpl check_loop. rewrite bool_decide_eq_false_2 by lia.
  specialize (Hmod ltac:(done)). simpl in Hlen.
  pose proof (Nat.mod_upper_bound i core ltac:(lia)) as Hlt.
  pose proof (succ_mod i core Hc) as Hs.
  rewrite (cons_middle p batch rest), app_assoc.
  assert (length (batch ++ [p]) = i mod core + 1)%nat as Hb.
  { rewrite length_app. simpl. lia. }
  destruct (bool_decide _ || bool_decide _) eqn:Hflush.
  - apply orb_true_iff in Hflush. rewrite !bool_decide_eq_true in Hflush.
    rewrite chunks_app; [|done|by destruct batch|lia|].
    + simpl map_m. m_step.
      rewrite IH; [|lia|intros ?; destruct rest; simpl in *; [done|case_decide; lia]|done].
      simpl app. m_step. simpl. by rewrite app_assoc.
    + destruct Hflush as [Hf|Hf]; [left; case_decide; lia|right].
      destruct rest; [done|simpl in Hlen; lia].
  - apply orb_false_iff in Hflush as [Hf%bool_decide_eq_false Hl%bool_decide_eq_false].
    apply IH; [lia|intros _; case_decide; lia|intros ->; simpl in Hlen; lia].
Qed.

Lemma concurrent_check_chunks programs core :
  (0 < core)%nat ->
  concurrent_check programs core
  ≡ (let* rs := map_m (fun b => concurrent_check_batch b core) (chunks core programs)
     in ret (concat rs)).
Proof.
  intros Hc. unfold concurrent_check.
  rewrite check_loop_spec; [done..| |done]. intros _. by rewrite Nat.Div0.mod_0_l.
Qed.

Lemma concurrent_check_spec programs core :
  (0 < core)%nat -> concurrent_check programs core ≡ map_m check_one programs.
Proof.
  intros Hc. rewrite concurrent_check_chunks by done.
  rewrite <- (concat_chunks core programs Hc) at 2. rewrite <- map_m_concat.
  f_equiv. apply map_m_ext. intros b Hb. rewrite concurrent_check_batch_spec.
  pose proof (chunks_bounded core programs Hc) as Hall.
  rewrite Forall_forall in Hall. by rewrite take_ge by (apply Hall in Hb; lia).
Qed.

Lemma concurrent_check_ok_length programs core w res w' :
  concurrent_check programs core w = (Ok res, w') -> length res = length programs.
Proof.
  destruct core as [|core].
  - destruct programs; [by intros [= <- _]|done].
  - rewrite (concurrent_check_spec programs (S core) ltac:(lia) w). apply map_m_length.
Qed.

End BatchFacts.

(** ** What a batch run leaves alone *)

#[export] Instance within_preorder D : PreOrder (within D).
Proof.
  split.
  - intros w. by split.
  - intros w1 w2 w3 [o1 d1 g1 s1] [o2 d2 g2 s2]. split.
    + intros d Hd. by rewrite o2, o1.
    + intros d. by rewrite d1.
    + set_solver.
    + set_solver.
Qed.

Lemma stays_within dir D w w' : dir ∈ D -> stays dir w w' -> within D w w'.
Proof.
  intros Hd [o e _ g _ s _]. split; [|  |done..].
  - intros d Hn. apply o. set_solver.
  - intros d. destruct (decide (d = dir)) as [->|Hne]; [done|]. by rewrite o.
Qed.

Lemma within_tick D w : within D w (tick w).
Proof. by split. Qed.

Section BatchFrame.
Context `{Toolchain} `{Harness}.

Lemma steps_harness_check R p :
  steps R (check_program_is_correct p) -> steps R (harness_check p).
Proof.
  intros Hs w. specialize (Hs w). unfold harness_check.
  by destruct (check_program_is_correct p w) as [[[e|]|e] w'].
Qed.

Lemma steps_check_one D p : p_dir p ∈ D -> steps (within D) (check_one p).
Proof.
  intros Hp. unfold check_one, spawn_run.
  assert (steps (within D) (harness_check p)).
  { apply steps_harness_check. intros w. apply (stays_within (p_dir p)); [done|].
    apply steps_check_program_is_correct. }
  assert (forall A (f : World -> A), steps (within D) (tool f)).
  { intros A f w. apply within_tick. }
  sm_steps.
Qed.

Lemma steps_concurrent_check programs core :
  steps (within (list_to_set (p_dir <$> programs))) (concurrent_check programs core).
Proof.
  destruct core as [|core].
  - intros w. unfold concurrent_check. by destruct programs.
  - eapply steps_equiv; [symmetry; apply concurrent_check_spec; lia|].
    apply steps_map_m_in; [apply _|]. intros p Hp. apply steps_check_one.
    apply elem_of_list_to_set, list_elem_of_fmap. eauto.
Qed.

End BatchFrame.

(** ** The contract of the batch supervisor *)

Section BatchClaims.
Context `{Toolchain} `{Harness}.

(** C4: With at least one core, [concurrent_check] is the candidates checked
    one worker after the other in input order: it returns the same verdicts
    in the same order, fails in the same way, and leaves the same world,
    whatever the batch size. *)
Theorem concurrent_check_in_order programs core :
  (0 < core)%nat ->
  concurrent_check programs core ≡ map_m check_one programs.
Proof. apply concurrent_check_spec. Qed.

(** [concurrent_check] hands the candidates to [concurrent_check_batch]
    in consecutive batches that together are the input list, none empty and
    none larger than [core]: no more than [core] workers are ever started
    before the supervisor joins them. *)
Theorem concurrent_check_bounded_batches programs core :
  (0 < core)%nat ->
  concurrent_check programs core
  ≡ (let* rs := map_m (fun b => concurrent_check_batch b core) (chunks core programs)
     in ret (concat rs)) /\
  concat (chunks core programs) = programs /\
  Forall (fun b => (0 < length b <= core)%nat) (chunks core programs).
Proof.
  intros Hc. split_and!.
  - by apply concurrent_check_chunks.
  - by apply concat_chunks.
  - by apply chunks_bounded.
Qed.

(** When [concurrent_check] returns, it returns one verdict per
    candidate. *)
Theorem concurrent_check_length programs core w res :
  (concurrent_check programs core w).1 = Ok res ->
  length res = length programs.
Proof.
  destruct (concurrent_check programs core w) as [r w'] eqn:E. simpl. intros ->.
  by eapply concurrent_check_ok_length.
Qed.

(** With zero cores and at least one candidate, [concurrent_check]
    panics on the remainder by zero before any worker is started: the world
    is untouched. *)
Theorem concurrent_check_zero_cores programs w :
  programs <> [] ->
  concurrent_check programs 0 w = (Err rem_by_zero, w).
Proof. by destruct programs. Qed.

(** A batch never panics on its index lookups: the only way
    [concurrent_check_batch] fails is that a worker process could not be
    started. *)
Theorem concurrent_check_batch_failure programs core w e :
  (concurrent_check_batch programs core w).1 = Err e ->
  e = Panic "failed to execute the concurrent transform process".
Proof.
  rewrite (concurrent_check_batch_spec programs core w).
  destruct (map_m check_one (take core programs) w) as [r w'] eqn:E.
  simpl. intros ->. revert w E.
  generalize (take core programs). intros ps.
  induction ps as [|p ps IH]; intros w; simpl; [done|].
  intros [Hp|(v & w1 & _ & Hrest)]%bind_inv_err.
  - unfold check_one, spawn_run in Hp.
    apply bind_inv_err in Hp as [Hp|(c & w1 & Hc & [=])].
    apply bind_inv_err in Hp as [[=]|([] & w1 & [= _ <-] & Hp)]; [|by injection Hp].
    unfold harness_check in Hp.
    by destruct (check_program_is_correct p (tick w)) as [[[?|]|?] ?].
  - apply bind_inv_err in Hrest as [Hrest|(vs & w2 & _ & [=])]. eauto.
Qed.

(** A worker that could be started and whose pipeline returned. *)
Lemma check_one_run p w v w' :
  hs_spawn p w = true ->
  check_program_is_correct p (tick w) = (Ok v, w') ->
  check_one p w = (Ok v, w').
Proof.
  intros Hs Hr. unfold check_one, spawn_run, harness_check, bind, tool. rewrite Hs, Hr.
  destruct v as [e|]; [|done]. unfold decode_output, ret. simpl.
  by rewrite hs_decode_encode.
Qed.


(** An operational error or a panic of a worker is not lost and does
    not stop the supervisor: the candidate gets a verdict, which is
    [Fuzzer] with the raw message whenever that message does not decode. *)
Theorem worker_error_becomes_verdict p w e :
  hs_spawn p w = true ->
  (check_program_is_correct p (tick w)).1 = Err e ->
  exists err,
    check_one p w = (Ok (Some err), (check_program_is_correct p (tick w)).2) /\
    (hs_decode (to_string e) = None -> err = Fuzzer (to_string e)).
Proof.
  intros Hs. unfold check_one, spawn_run, harness_check, bind, tool. rewrite Hs.
  destruct (check_program_is_correct p (tick w)) as [r w']. simpl. intros ->.
  unfold decode_output, ret. simpl. destruct (hs_decode (to_string e)); naive_solver.
Qed.

(** [concurrent_check] writes only to the work directories of its
    candidates, creates and removes no work directory, and loses neither a
    file of the shared corpus nor a feature of the global set, on every
    outcome and for every number of cores. *)
Theorem concurrent_check_confined programs core w d :
  let w' := (concurrent_check programs core w).2 in
  (d ∉ p_dir <$> programs -> w_work w' !! d = w_work w !! d) /\
  (is_Some (w_work w !! d) <-> is_Some (w_work w' !! d)) /\
  global_elems w ⊆ global_elems w' /\ w_shared w ⊆ w_shared w'.
Proof.
  destruct (steps_concurrent_check programs core w) as [Ho Hd Hg Hs]. simpl.
  split_and!; [|done..]. intros Hn. apply Ho. by rewrite elem_of_list_to_set.
Qed.

End BatchClaims.

(** ** The batch on the running example *)

(** A one-letter tag and the message: an error channel that decodes what
    it encodes and nothing a tool prints. *)
Definition demo_encode (e : ProgramError) : string :=
  match e with
  | Syntax m => String "S" m
  | Link m => String "L" m
  | Execute m => String "E" m
  | Fuzzer m => String "F" m
  | Hang m => String "H" m
  | Coverage m => String "C" m
  end.

Definition demo_decode (s : string) : option ProgramError :=
  match s with
  | String "S" m => Some (Syntax m)
  | String "L" m => Some (Link m)
  | String "E" m => Some (Execute m)
  | String "F" m => Some (Fuzzer m)
  | String "H" m => Some (Hang m)
  | String "C" m => Some (Coverage m)
  | _ => None
  end.

#[export] Program Instance demo_harness (spawns : bool) : Harness := {|
  hs_spawn _ _ := spawns;
  hs_encode := demo_encode;
  hs_decode := demo_decode;
|}.
Next Obligation. by intros _ []. Qed.

Definition demo_verdicts : list (option ProgramError) :=
  [None; Some (Syntax "expected ';'"); Some (Fuzzer "heap-buffer-overflow")].

Lemma concurrent_check_in_order_witness :
  @concurrent_check demo_toolchain (demo_harness true) demo_paths 2
  ≡ map_m (@check_one demo_toolchain (demo_harness true)) demo_paths.
Proof. apply (@concurrent_check_in_order demo_toolchain (demo_harness true) demo_paths 2). lia. Defined.

Lemma concurrent_check_bounded_batches_witness :
  @concurrent_check demo_toolchain (demo_harness true) demo_paths 2
  ≡ (let* rs := map_m (fun b => @concurrent_check_batch demo_toolchain (demo_harness true) b 2)
                  (chunks 2 demo_paths)
     in ret (concat rs)) /\
  concat (chunks 2 demo_paths) = demo_paths /\
  Forall (fun b => (0 < length b <= 2)%nat) (chunks 2 demo_paths).
Proof.
  apply (@concurrent_check_bounded_batches demo_toolchain (demo_harness true) demo_paths 2).
  lia.
Defined.

Lemma concurrent_check_length_witness : length demo_verdicts = length demo_paths.
Proof.
  apply (@concurrent_check_length demo_toolchain (demo_harness true) demo_paths 2
           demo_batch_world demo_verdicts).
  vm_compute. reflexivity.
Defined.

Lemma concurrent_check_zero_cores_witness :
  @concurrent_check demo_toolchain (demo_harness true) demo_paths 0 demo_batch_world
  = (Err rem_by_zero, demo_batch_world).
Proof.
  apply (@concurrent_check_zero_cores demo_toolchain (demo_harness true) demo_paths).
  discriminate.
Defined.

Lemma concurrent_check_batch_failure_witness :
  Panic "failed to execute the concurrent transform process"
  = Panic "failed to execute the concurrent transform process".
Proof.
  apply (@concurrent_check_batch_failure demo_toolchain (demo_harness false) demo_paths 2
           demo_batch_world).
  vm_compute. reflexivity.
Defined.


Lemma worker_error_becomes_verdict_witness :
  exists err,
    @check_one (scenario_toolchain (with_merge (Err (Report "merge failed")) all_pass))
      (demo_harness true) demo_path demo_world
    = (Ok (Some err),
       (@check_program_is_correct
          (scenario_toolchain (with_merge (Err (Report "merge failed")) all_pass))
          demo_path (tick demo_world)).2) /\
    (@hs_decode (demo_harness true) (to_string (Report "merge failed")) = None ->
     err = Fuzzer (to_string (Report "merge failed"))).
Proof.
  apply (@worker_error_becomes_verdict
           (scenario_toolchain (with_merge (Err (Report "merge failed")) all_pass))
           (demo_harness true) demo_path demo_world (Report "merge failed"));
    [reflexivity|].
  vm_compute. reflexivity.
Defined.
