(* ===== verification/Interleave.v ===== *)
(** * Workers that run at the same time

    The workers of a batch are processes of their own
    (src/execution/sanitize.rs, [concurrent_check_batch]): between two file
    operations of one worker the others may run.  This file looks at two
    grains of interleaving.

    At the grain of stages, a pool of workers takes the transitions of the
    pipeline machine in any order.  Whatever the order, a worker writes only
    to its own work directory, the pool ends with a verdict for every
    candidate after at most five transitions each, and running the workers
    one after the other, as Batch.v does, is one of the schedules.

    At the grain of files, [evolve_corpus] reads the global feature file,
    runs the merge, and writes the file back.  Two workers that both read
    before either writes lose the features of the first writer. *)

From stdpp Require Import relations.
From S2P Require Import Prelude Loops Paths Float32 Feature World Fixture Evolve Stages.
From S2P Require Import Machine Batch.

Local Open Scope string_scope.
Local Open Scope list_scope.

(** ** The pool *)

(** The workers with their candidates, and the world they share. *)
Definition Pool : Type := list (Path * Status) * World.

Definition pool_start (programs : list Path) : list (Path * Status) :=
  (fun p => (p, Running StSyntax)) <$> programs.

Definition pool_dirs (ws : list (Path * Status)) : gset string :=
  list_to_set (p_dir <$> ws.*1).

(** The transitions the pool can still take. *)
Definition pool_left (ws : list (Path * Status)) : nat :=
  sum_list_with (fun x => status_left x.2) ws.

Definition pool_final (ws : list (Path * Status)) : Prop :=
  Forall (fun x => status_left x.2 = 0%nat) ws.

Section Pool.
Context `{Toolchain}.

(** Any worker that is running may take its next transition. *)
Inductive pool_step : relation Pool :=
| pool_step_at i p st st' ws w w' :
    ws !! i = Some (p, st) ->
    step p (st, w) (st', w') ->
    pool_step (ws, w) (<[i := (p, st')]> ws, w').

(** The schedule of Batch.v: every worker runs to its end before the next
    one starts. *)
Fixpoint run_in_order (programs : list Path) (w : World) : list (Path * Status) * World :=
  match programs with
  | [] => ([], w)
  | p :: rest =>
      let c := outcome (check_program_is_correct p w) in
      let '(ws, w') := run_in_order rest c.2 in
      ((p, c.1) :: ws, w')
  end.

(** ** Two workers at the feature file *)

(** Two workers that evolve the corpus at the same time, each reading the
    feature file before the other has written it. *)
Definition evolve_interleaved (a b : Path) : M World unit :=
  let* st_a := evolve_read a in
  let* st_b := evolve_read b in
  do* evolve_write a st_a in
  evolve_write b st_b.

(** The same two workers, one after the other. *)
Definition evolve_in_order (a b : Path) : M World unit :=
  do* evolve_corpus a in
  evolve_corpus b.

End Pool.

(** ** The pool under every schedule *)

Section PoolFacts.
Context `{Toolchain}.
Implicit Types (ws : list (Path * Status)) (w : World).

Lemma run_stage_stays s p : steps (stays (p_dir p)) (run_stage s p).
Proof. destruct s; simpl; eauto with sm. Qed.

Lemma step_stays p c c' : step p c c' -> stays (p_dir p) c.2 c'.2.
Proof.
  intros [s w w' E|s w err w' E|s w e w' E]; simpl;
    pose proof (run_stage_stays s p w) as Hs; by rewrite E in Hs.
Qed.

Lemma pool_left_insert ws i p st st' :
  ws !! i = Some (p, st) ->
  (pool_left (<[i := (p, st')]> ws) + status_left st = pool_left ws + status_left st')%nat.
Proof.
  intros Hi. apply (sum_list_with_insert (fun x => status_left x.2) ws i (p, st) (p, st') Hi).
Qed.

Lemma pool_step_paths ws w ws' w' : pool_step (ws, w) (ws', w') -> ws'.*1 = ws.*1.
Proof.
  inversion 1 as [i p st st' ? ? ? Hi Hs]; subst.
  rewrite list_fmap_insert. simpl. apply list_insert_id.
  by rewrite list_lookup_fmap, Hi.
Qed.

Lemma pool_step_within ws w ws' w' :
  pool_step (ws, w) (ws', w') -> within (pool_dirs ws) w w'.
Proof.
  inversion 1 as [i p st st' ? ? ? Hi Hs]; subst.
  apply (stays_within (p_dir p)); [|apply (step_stays p _ _ Hs)].
  unfold pool_dirs. apply elem_of_list_to_set, list_elem_of_fmap.
  exists p. split; [done|]. apply list_elem_of_fmap. exists (p, st).
  split; [done|]. by eapply list_elem_of_lookup_2.
Qed.

Lemma pool_step_left ws w ws' w' :
  pool_step (ws, w) (ws', w') -> (pool_left ws' < pool_left ws)%nat.
Proof.
  inversion 1 as [i p st st' ? ? ? Hi Hs]; subst.
  pose proof (pool_left_insert ws i p st st' Hi).
  apply step_stages_left in Hs. unfold stages_left in Hs. simpl in Hs. lia.
Qed.

Lemma pool_dirs_paths ws ws' : ws'.*1 = ws.*1 -> pool_dirs ws' = pool_dirs ws.
Proof.
  intros Hp. unfold pool_dirs. by rewrite Hp.
Qed.

(** The invariant of all schedules. *)
Lemma pool_rtc_inv c c' :
  rtc pool_step c c' ->
  c'.1.*1 = c.1.*1 /\ within (pool_dirs c.1) c.2 c'.2.
Proof.
  induction 1 as [[ws w]|[ws w] [ws1 w1] [ws2 w2] Hs _ [Hp Hw]]; simpl in *; [done|].
  pose proof (pool_step_paths _ _ _ _ Hs) as Hp1. split; [congruence|].
  etrans; [by eapply pool_step_within|]. by rewrite <- (pool_dirs_paths ws ws1).
Qed.

Lemma pool_nsteps_left n c c' :
  nsteps pool_step n c c' -> (n + pool_left c'.1 <= pool_left c.1)%nat.
Proof.
  induction 1 as [|n [ws w] [ws1 w1] c3 Hs _ IH]; [lia|].
  apply pool_step_left in Hs. simpl in *. lia.
Qed.

(** A pool is stuck only when every worker has its verdict. *)
Lemma pool_progress ws w : pool_final ws \/ red pool_step (ws, w).
Proof.
  destruct (decide (pool_final ws)) as [|Hn]; [by left | right].
  apply not_Forall_Exists in Hn; [|apply _].
  apply Exists_exists in Hn as ([p st] & Hin & Hleft). simpl in Hleft.
  apply list_elem_of_lookup_1 in Hin as [i Hi].
  destruct (step_progress p (st, w)) as [Hf|[[st' w'] Hs]].
  - unfold final in Hf. simpl in Hf. by destruct st.
  - eexists. by eapply pool_step_at.
Qed.

Lemma pool_left_start programs : pool_left (pool_start programs) = (5 * length programs)%nat.
Proof.
  unfold pool_left, pool_start. induction programs as [|p ps IH]; [done|].
  rewrite fmap_cons. change (sum_list_with ?f (?x :: ?l)) with (f x + sum_list_with f l)%nat.
  rewrite IH. simpl. lia.
Qed.

(** Transitions of one worker, and of the others, as transitions of the
    pool. *)
Lemma pool_step_head p ws c c' :
  step p c c' -> pool_step ((p, c.1) :: ws, c.2) ((p, c'.1) :: ws, c'.2).
Proof.
  destruct c as [st w], c' as [st' w']. intros Hs.
  by apply (pool_step_at 0 p st st' ((p, st) :: ws)).
Qed.

Lemma pool_step_tail x c c' :
  pool_step c c' -> pool_step (x :: c.1, c.2) (x :: c'.1, c'.2).
Proof.
  inversion 1 as [i p st st' ws w w' Hi Hs]; subst.
  by apply (pool_step_at (S i) p st st' (x :: ws)).
Qed.

Lemma run_in_order_cons p ps w :
  let c := outcome (check_program_is_correct p w) in
  run_in_order (p :: ps) w
  = ((p, c.1) :: (run_in_order ps c.2).1, (run_in_order ps c.2).2).
Proof. simpl. by destruct (run_in_order ps _). Qed.

Lemma run_in_order_schedule programs w :
  rtc pool_step (pool_start programs, w) (run_in_order programs w).
Proof.
  revert w. induction programs as [|p ps IH]; intros w; [done|].
  rewrite run_in_order_cons. cbv zeta.
  pose proof (pipeline_from StSyntax p w) as Hrun.
  rewrite <- check_program_is_correct_pipeline in Hrun.
  set (c := outcome (check_program_is_correct p w)) in *.
  etrans.
  - apply (rtc_congruence (fun c : Conf => ((p, c.1) :: pool_start ps, c.2)) pool_step _ _
             (pool_step_head p (pool_start ps)) Hrun).
  - apply (rtc_congruence (fun c0 : Pool => ((p, c.1) :: c0.1, c0.2)) pool_step _ _
             (pool_step_tail (p, c.1)) (IH c.2)).
Qed.

End PoolFacts.

(** ** What holds of every schedule, and what does not *)

Section InterleaveClaims.
Context `{Toolchain}.

(** C19: whatever the order in which the workers of a pool take their
    transitions, the candidates stay the same, only their work directories
    are written, no work directory appears or disappears, and the shared
    corpus and the persisted features lose nothing. *)
Theorem pool_confined programs w ws' w' :
  rtc pool_step (pool_start programs, w) (ws', w') ->
  ws'.*1 = programs /\ within (list_to_set (p_dir <$> programs)) w w'.
Proof.
  intros [Hp Hw]%pool_rtc_inv. simpl in *.
  assert ((pool_start programs).*1 = programs) as Hs.
  { unfold pool_start. rewrite <- list_fmap_compose. apply list_fmap_id. }
  unfold pool_dirs in Hw. by rewrite Hs in Hp, Hw.
Qed.



(** C15: two workers that both read the feature file before either writes
    it lose features: when the interleaved run succeeds from a file holding
    [g0], each worker has run its loop on [g0], the inputs both found
    interesting are in the shared corpus, and the file holds [g0] and the
    features of the second writer only. *)
Theorem evolve_lost_update a b w g0 :
  w_global w = Some g0 ->
  (evolve_interleaved a b w).1 = Ok tt ->
  exists ca cb,
    (evolve_read a w).1 = Ok (evolve_loop ca g0) /\
    (evolve_read b (evolve_read a w).2).1 = Ok (evolve_loop cb g0) /\
    w_global (evolve_interleaved a b w).2 = Some (g0 ∪ all_features (cf_entries cb)) /\
    w_shared (evolve_interleaved a b w).2
    = w_shared w ∪ list_to_set (interesting (cf_entries ca) g0)
        ∪ list_to_set (interesting (cf_entries cb) g0).
Proof.
  intros Hg Hok. destruct (evolve_interleaved a b w) as [r w4] eqn:Hrun.
  simpl in Hok. subst r. unfold evolve_interleaved in Hrun.
  apply bind_inv_ok in Hrun as (sta & w1 & Ha & Hrun).
  apply bind_inv_ok in Hrun as (stb & w2 & Hb & Hrun).
  apply bind_inv_ok in Hrun as ([] & w3 & Hwa & Hwb).
  destruct (evolve_read_inv a w g0 sta w1 Hg Ha) as [[= Hg1 Hs1] [ca ->]].
  rewrite Hg in Hg1.
  destruct (evolve_read_inv b w1 g0 stb w2 Hg1 Hb) as [[= Hg2 Hs2] [cb ->]].
  exists ca, cb. rewrite Ha. simpl. rewrite Hb. simpl.
  destruct (evolve_loop_spec ca g0) as [Hga Hfa], (evolve_loop_spec cb g0) as [Hgb Hfb].
  destruct (evolve_loop ca g0) as [ga fa], (evolve_loop cb g0) as [gb fb].
  simpl in Hga, Hfa, Hgb, Hfb.
  apply evolve_write_shared in Hwa as [= _ Hs3].
  apply evolve_write_shared in Hwb as [= Hg4 Hs4].
  split_and!; [done | done | by rewrite Hg4, Hgb |].
  by rewrite Hs4, Hs3, Hs2, Hs1, Hfa, Hfb.
Qed.

(** With the workers one after the other nothing is lost: the second
    worker reads the features the first has written, the file ends with
    the features of both merges, and the second worker adds only the
    inputs that are new after the first. *)
Theorem evolve_in_order_keeps_all a b w g0 :
  w_global w = Some g0 ->
  (evolve_in_order a b w).1 = Ok tt ->
  exists ca cb,
    (evolve_read a w).1 = Ok (evolve_loop ca g0) /\
    (evolve_read b (evolve_corpus a w).2).1
    = Ok (evolve_loop cb (g0 ∪ all_features (cf_entries ca))) /\
    w_global (evolve_in_order a b w).2
    = Some (g0 ∪ all_features (cf_entries ca) ∪ all_features (cf_entries cb)) /\
    w_shared (evolve_in_order a b w).2
    = w_shared w ∪ list_to_set (interesting (cf_entries ca) g0)
        ∪ list_to_set (interesting (cf_entries cb) (g0 ∪ all_features (cf_entries ca))).
Proof.
  intros Hg Hok. destruct (evolve_in_order a b w) as [r w2] eqn:Hrun.
  simpl in Hok. subst r. unfold evolve_in_order in Hrun.
  apply bind_inv_ok in Hrun as ([] & w1 & Ha & Hb).
  destruct (evolve_corpus_inv a w g0 w1 Hg Ha) as (ca & Hra & Hg1 & Hs1).
  destruct (evolve_corpus_inv b w1 _ w2 Hg1 Hb) as (cb & Hrb & Hg2 & Hs2).
  exists ca, cb. rewrite Ha. simpl. by rewrite Hg2, Hs2, Hs1.
Qed.

End InterleaveClaims.

(** ** Two workers on an example *)

(** The candidate of [work/1] covers the features 1, 2, 3 and 7, that of
    [work/2] the feature 9; the file holds 1 and 2. *)
Definition race_scenarios (dir : string) : Scenario :=
  if decide (dir = "work/2")
  then with_merge (Ok (Some (mkCorpora [("in_d", [9%N])]))) all_pass
  else all_pass.

Definition race_toolchain : Toolchain := routed_toolchain race_scenarios None.

Definition race_a : Path := mkPath "work/1" "1.cc".

Definition race_b : Path := mkPath "work/2" "2.cc".

Lemma pool_confined_witness :
  let c := @run_in_order demo_toolchain demo_paths demo_batch_world in
  c.1.*1 = demo_paths /\
  within (list_to_set (p_dir <$> demo_paths)) demo_batch_world c.2.
Proof.
  pose proof (@pool_confined demo_toolchain demo_paths demo_batch_world) as Hc.
  pose proof (@run_in_order_schedule demo_toolchain demo_paths demo_batch_world) as Hs.
  cbv zeta. destruct (@run_in_order demo_toolchain demo_paths demo_batch_world) as [ws w'].
  exact (Hc ws w' Hs).
Defined.


Lemma evolve_lost_update_witness :
  exists ca cb,
    (@evolve_read race_toolchain race_a demo_batch_world).1
    = Ok (evolve_loop ca ({[1; 2]}%N : GlobalFeature)) /\
    (@evolve_read race_toolchain race_b
       (@evolve_read race_toolchain race_a demo_batch_world).2).1
    = Ok (evolve_loop cb ({[1; 2]}%N : GlobalFeature)) /\
    w_global (@evolve_interleaved race_toolchain race_a race_b demo_batch_world).2
    = Some ({[1; 2]}%N ∪ all_features (cf_entries cb)) /\
    w_shared (@evolve_interleaved race_toolchain race_a race_b demo_batch_world).2
    = w_shared demo_batch_world ∪ list_to_set (interesting (cf_entries ca) {[1; 2]}%N)
        ∪ list_to_set (interesting (cf_entries cb) {[1; 2]}%N).
Proof.
  apply (@evolve_lost_update race_toolchain race_a race_b demo_batch_world {[1; 2]}%N).
  - reflexivity.
  - vm_compute. reflexivity.
Defined.

Lemma evolve_in_order_keeps_all_witness :
  exists ca cb,
    (@evolve_read race_toolchain race_a demo_batch_world).1
    = Ok (evolve_loop ca ({[1; 2]}%N : GlobalFeature)) /\
    (@evolve_read race_toolchain race_b
       (@evolve_corpus race_toolchain race_a demo_batch_world).2).1
    = Ok (evolve_loop cb ({[1; 2]}%N ∪ all_features (cf_entries ca))) /\
    w_global (@evolve_in_order race_toolchain race_a race_b demo_batch_world).2
    = Some ({[1; 2]}%N ∪ all_features (cf_entries ca) ∪ all_features (cf_entries cb)) /\
    w_shared (@evolve_in_order race_toolchain race_a race_b demo_batch_world).2
    = w_shared demo_batch_world ∪ list_to_set (interesting (cf_entries ca) {[1; 2]}%N)
        ∪ list_to_set (interesting (cf_entries cb)
                         ({[1; 2]}%N ∪ all_features (cf_entries ca))).
Proof.
  apply (@evolve_in_order_keeps_all race_toolchain race_a race_b demo_batch_world {[1; 2]}%N).
  - reflexivity.
  - vm_compute. reflexivity.
Defined.

(** On the example: feature 7 of the first writer is gone from the file,
    its input is in the shared corpus; in order, nothing is lost. *)
Example evolve_race_loses_feature :
  let raced := (@evolve_interleaved race_toolchain race_a race_b demo_batch_world).2 in
  let ordered := (@evolve_in_order race_toolchain race_a race_b demo_batch_world).2 in
  (7%N ∉ global_elems raced) /\ ("in_c" ∈ w_shared raced) /\
  global_elems ordered = {[1; 2; 3; 7; 9]}%N.
Proof.
  cbv zeta. split_and!; apply (bool_decide_unpack _); vm_compute; exact I.
Qed.
