(* ===== verification/EvolvePool.v ===== *)
(** * Any number of workers inside [evolve_corpus]
    (src/execution/sanitize.rs, lines 264-310)

    Every worker of a batch ends its coverage stage in [evolve_corpus]: it
    reads the feature file, parses the control file of its own merge, runs
    the loop in its memory, copies the interesting inputs to the shared
    corpus and writes the feature file back.  Nothing orders the workers
    between the read and the write, so a worker may write features computed
    from a file that others have replaced since.

    This file has the workers of a pool take these two steps in any order
    and shows what survives every order: the feature file never loses a
    feature it started with, and never holds a feature that no input of the
    shared corpus covers.  The second holds because the handler copies
    before it persists, and holds when copies fail.  The entries a worker
    has parsed stay with it after it has ended, as the history of the run. *)

From stdpp Require Import relations.
From S2P Require Import Prelude Loops Paths Float32 Feature World Fixture Evolve.

Local Open Scope string_scope.
Local Open Scope list_scope.

(** ** What the shared corpus witnesses *)

(** The features of the entries whose input is in the corpus [S]. *)
Definition witnessed (entries : list (string * list Feature)) (S : gset string) :
    gset Feature :=
  all_features (filter (fun e => e.1 ∈ S) entries).

(** ** The workers *)

(** Where a worker is in [evolve_corpus]: before line 265, after the loop
    with the features it read and the control data in memory, or at its end
    with the result of lines 304-309. *)
Inductive Phase : Type :=
| Reading
| Failed (e : fault)
| Holding (g : GlobalFeature) (c : CorporaFeatures)
| Wrote (g : GlobalFeature) (c : CorporaFeatures) (r : result unit).

#[export] Instance Phase_eq_dec : EqDecision Phase.
Proof. solve_decision. Defined.

(** The entries a worker has parsed. *)
Definition phase_entries (ph : Phase) : list (string * list Feature) :=
  match ph with
  | Holding _ c | Wrote _ c _ => cf_entries c
  | Reading | Failed _ => []
  end.

(** The steps a worker can still take. *)
Definition phase_left (ph : Phase) : nat :=
  match ph with
  | Reading => 2
  | Holding _ _ => 1
  | Failed _ | Wrote _ _ _ => 0
  end.

Definition EvolvePool : Type := list (Path * Phase) * World.

Definition evolve_pool_start (programs : list Path) : list (Path * Phase) :=
  (fun p => (p, Reading)) <$> programs.

Definition parsed (ws : list (Path * Phase)) : list (string * list Feature) :=
  ws ≫= (fun x => phase_entries x.2).

Definition evolve_pool_left (ws : list (Path * Phase)) : nat :=
  sum_list_with (fun x => phase_left x.2) ws.

Section Workers.
Context `{Toolchain}.

(** Lines 265-288: up to the parsed control file. *)
Definition evolve_parse (program_path : Path) : M World (GlobalFeature * CorporaFeatures) :=
  let work_dir := get_file_dirname program_path in
  let fuzzer_binary := with_extension program_path "evo.out" in
  do* compile program_path fuzzer_binary Minimize in
  let* global_featuers := load_global_feature fuzzer_binary in
  let corpus := path_join work_dir "corpus" in
  let control_file := path_join work_dir "merge_control_file" in
  do* minimize_by_control_file fuzzer_binary corpus control_file in
  let* control_exists := gets (path_exists control_file) in
  if negb control_exists then fail (Panic "merge_control_file does not exist!") else
  let* corpora_features := CorporaFeatures_parse control_file in
  ret (global_featuers, corpora_features).

(** The next step of one worker: the read with the loop, or the write. *)
Definition phase_step (p : Path) (ph : Phase) (w : World) : option (Phase * World) :=
  match ph with
  | Reading =>
      Some match evolve_parse p w with
           | (Ok (g, c), w') => (Holding g c, w')
           | (Err e, w') => (Failed e, w')
           end
  | Holding g c =>
      let run := evolve_write p (evolve_loop c g) w in
      Some (Wrote g c run.1, run.2)
  | Failed _ | Wrote _ _ _ => None
  end.

(** Any worker that has not ended may take its next step. *)
Inductive evolve_pool_step : relation EvolvePool :=
| evolve_pool_step_at i p ph ph' ws w w' :
    ws !! i = Some (p, ph) ->
    phase_step p ph w = Some (ph', w') ->
    evolve_pool_step (ws, w) (<[i := (p, ph')]> ws, w').

(** A schedule as the list of the workers that step, run from a pool. *)
Fixpoint evolve_pool_run (schedule : list nat) (c : EvolvePool) : EvolvePool :=
  match schedule with
  | [] => c
  | i :: rest =>
      match c.1 !! i with
      | Some (p, ph) =>
          match phase_step p ph c.2 with
          | Some (ph', w') => evolve_pool_run rest (<[i := (p, ph')]> c.1, w')
          | None => evolve_pool_run rest c
          end
      | None => evolve_pool_run rest c
      end
  end.

End Workers.

(** ** Facts about [witnessed] *)

Lemma elem_of_all_features entries fe :
  fe ∈ all_features entries <-> exists file fs, (file, fs) ∈ entries /\ fe ∈ fs.
Proof.
  unfold all_features. rewrite elem_of_union_list. split.
  - intros (X & [[file fs] [-> Hin]]%list_elem_of_fmap & Hfe).
    exists file, fs. split; [done | set_solver].
  - intros (file & fs & Hin & Hfe). exists (list_to_set fs). split; [|set_solver].
    apply list_elem_of_fmap. by exists (file, fs).
Qed.

Lemma elem_of_witnessed entries S fe :
  fe ∈ witnessed entries S <->
  exists file fs, (file, fs) ∈ entries /\ file ∈ S /\ fe ∈ fs.
Proof.
  unfold witnessed. rewrite elem_of_all_features. split.
  - intros (file & fs & [Hs Hin]%list_elem_of_filter & Hfe). by exists file, fs.
  - intros (file & fs & Hin & Hs & Hfe). exists file, fs. split; [|done].
    by apply list_elem_of_filter.
Qed.

Lemma witnessed_mono entries entries' S S' :
  entries ⊆ entries' -> S ⊆ S' -> witnessed entries S ⊆ witnessed entries' S'.
Proof.
  intros He Hs fe (file & fs & Hin & Hf & Hfe)%elem_of_witnessed.
  apply elem_of_witnessed. exists file, fs. split_and!; [by apply He | set_solver | done].
Qed.

Lemma witnessed_all_features entries S : witnessed entries S ⊆ all_features entries.
Proof.
  intros fe (file & fs & Hin & _ & Hfe)%elem_of_witnessed.
  apply elem_of_all_features. by exists file, fs.
Qed.

(** Every feature of the entries is in the store already or witnessed by
    an interesting input: the first one that has it. *)
Lemma all_features_witnessed entries G :
  all_features entries ⊆ G ∪ witnessed entries (list_to_set (interesting entries G)).
Proof.
  intros fe (file & fs & Hin & Hfe)%elem_of_all_features.
  destruct (decide (fe ∈ G)) as [|Hn]; [set_solver|]. apply elem_of_union_r.
  revert G Hn. induction entries as [|[f0 fs0] rest IH]; intros G Hn.
  { by apply elem_of_nil in Hin. }
  simpl. destruct (decide (fe ∈ fs0)) as [H0|H0].
  - apply elem_of_witnessed. exists f0, fs0. split_and!; [left | | done].
    rewrite decide_False by set_solver. set_solver.
  - apply elem_of_cons in Hin as [[= -> ->]|Hin]; [done|].
    eapply witnessed_mono; [| |apply (IH Hin (G ∪ list_to_set fs0)); set_solver].
    + set_solver.
    + rewrite list_to_set_app_L. set_solver.
Qed.

(** ** The steps of one worker *)

(** The shared corpus only gains files. *)
Definition shared_grows : relation World := fun w w' => w_shared w ⊆ w_shared w'.

#[export] Instance shared_grows_preorder : PreOrder shared_grows.
Proof. split; unfold shared_grows; [by intros ?|intros ???; set_solver]. Qed.

Section WorkerFacts.
Context `{Toolchain}.

Lemma evolve_read_parse p :
  evolve_read p ≡ (let* gc := evolve_parse p in ret (evolve_loop gc.2 gc.1)).
Proof.
  unfold evolve_read, evolve_parse.
  m_step. m_step as g. m_step. m_step as ex.
  destruct (negb ex); [by m_norm|]. by m_step as c.
Qed.

Lemma keeps_evolve_parse p : steps (keeps shared_state) (evolve_parse p).
Proof. unfold evolve_parse. pose proof keeps_load_global_feature. sm_steps. Qed.

(** A worker that finds the feature file holds what the file held. *)
Lemma evolve_parse_reads p w g0 g c w' :
  w_global w = Some g0 -> evolve_parse p w = (Ok (g, c), w') -> g = g0.
Proof.
  intros Hg Hrun. unfold evolve_parse in Hrun.
  apply bind_inv_ok in Hrun as ([] & w1 & Hc & Hrun).
  pose proof (keeps_compile p (with_extension p "evo.out") Minimize w) as Hk.
  rewrite Hc in Hk. injection Hk as Hg1 _. rewrite Hg in Hg1.
  apply bind_inv_ok in Hrun as (g1 & w1' & Hl & Hrun).
  unfold load_global_feature in Hl. rewrite Hg1 in Hl. injection Hl as <- <-.
  apply bind_inv_ok in Hrun as ([] & w2 & _ & Hrun).
  apply bind_inv_ok in Hrun as (ex & w2' & _ & Hrun).
  destruct (negb ex); [done|].
  apply bind_inv_ok in Hrun as (c' & w3 & _ & Hrun). by injection Hrun as <- _ _.
Qed.

Lemma shared_grows_evolve_write p st : steps shared_grows (evolve_write p st).
Proof.
  assert (forall A (m : M World A), steps (keeps shared_state) m -> steps shared_grows m) as Hk.
  { intros A m. apply steps_mono. intros w w' [= _ Hs]. unfold shared_grows. by rewrite Hs. }
  unfold evolve_write. destruct st as [g files].
  apply steps_bind; [apply _ | |intros _].
  { eapply steps_mono; [apply (stays_shared "")|apply steps_copy_file_to_shared_corpus]. }
  apply steps_bind; [apply _ | by apply steps_modify; intros w; unfold shared_grows |intros _].
  apply steps_bind; [apply _ | apply Hk, keeps_remove_file |intros _].
  apply Hk, keeps_TimeUsage_log.
Qed.

(** The two ends of a write: a copy failed and the feature file is as it
    was, or every input was copied and the file holds the features of the
    worker. *)
Lemma evolve_write_ends p g files w :
  let w' := (evolve_write p (g, files) w).2 in
  w_shared w ⊆ w_shared w' /\
  (w_global w' = w_global w \/
   (w_global w' = Some g /\ list_to_set files ⊆ w_shared w')).
Proof.
  cbv zeta. split; [apply shared_grows_evolve_write|].
  pose proof (evolve_write_global p g files w) as Hw. cbv zeta in Hw.
  set (w' := (evolve_write p (g, files) w).2) in *.
  destruct Hw as [[Hg _]|[= Hg Hs]]; [by left|right].
  split; [done|]. rewrite Hs. set_solver.
Qed.

(** The handler is the parse followed by the loop and the write. *)
Lemma evolve_corpus_parse p w :
  evolve_corpus p w =
  match evolve_parse p w with
  | (Ok (g, c), w1) => evolve_write p (evolve_loop c g) w1
  | (Err e, w1) => (Err e, w1)
  end.
Proof.
  rewrite (evolve_corpus_split p w). pose proof (evolve_read_parse p w) as Hr.
  destruct (evolve_parse p w) as [[[g c]|e] w1] eqn:Hp.
  - erewrite bind_ok in Hr by done. by erewrite bind_ok by done.
  - erewrite bind_err in Hr by done. by erewrite bind_err by done.
Qed.

End WorkerFacts.

(** ** What the workers of a pool have parsed *)

Lemma elem_of_parsed ws e :
  e ∈ parsed ws <-> exists i p ph, ws !! i = Some (p, ph) /\ e ∈ phase_entries ph.
Proof.
  unfold parsed. rewrite list_elem_of_bind. split.
  - intros ([p ph] & He & (i & Hi)%list_elem_of_lookup). by exists i, p, ph.
  - intros (i & p & ph & Hi & He). exists (p, ph). split; [done|].
    by eapply list_elem_of_lookup_2.
Qed.

(** A worker that moves on keeps what it has parsed. *)
Lemma parsed_insert ws i p ph ph' :
  ws !! i = Some (p, ph) -> phase_entries ph ⊆ phase_entries ph' ->
  parsed ws ⊆ parsed (<[i := (p, ph')]> ws).
Proof.
  intros Hi Hsub e (j & q & ph1 & Hj & He)%elem_of_parsed. apply elem_of_parsed.
  destruct (decide (i = j)) as [<-|Hne].
  - exists i, p, ph'. rewrite list_lookup_insert_eq by (by eapply lookup_lt_Some).
    split; [done|]. apply Hsub. congruence.
  - exists j, q, ph1. by rewrite list_lookup_insert_ne.
Qed.

Lemma parsed_at ws i p ph : ws !! i = Some (p, ph) -> phase_entries ph ⊆ parsed ws.
Proof. intros Hi e He. apply elem_of_parsed. by exists i, p, ph. Qed.

(** ** The invariant *)

(** The features [g] lie between the features [g0] of the start and what
    the shared corpus witnesses of the entries parsed so far. *)
Definition between (g0 : GlobalFeature) (c : EvolvePool) (g : GlobalFeature) : Prop :=
  g0 ⊆ g /\ g ⊆ g0 ∪ witnessed (parsed c.1) (w_shared c.2).

(** The feature file lies between, and so do the features every worker
    holds in memory. *)
Record pool_witnessed (g0 : GlobalFeature) (c : EvolvePool) : Prop := mkWitnessed {
  pw_file : exists g, w_global c.2 = Some g /\ between g0 c g;
  pw_held : forall i p g cf, c.1 !! i = Some (p, Holding g cf) -> between g0 c g;
}.

Lemma between_mono g0 c c' g :
  parsed c.1 ⊆ parsed c'.1 -> w_shared c.2 ⊆ w_shared c'.2 ->
  between g0 c g -> between g0 c' g.
Proof.
  intros He Hs [Hl Hu]. split; [done|].
  pose proof (witnessed_mono _ _ _ _ He Hs). set_solver.
Qed.

(** What a worker writes lies between when what it read did. *)
Lemma between_write g0 ws w i p g cf w' :
  ws !! i = Some (p, Holding g cf) ->
  w_shared w ∪ list_to_set (evolve_loop cf g).2 ⊆ w_shared w' ->
  between g0 (ws, w) g -> between g0 (ws, w') (evolve_loop cf g).1.
Proof.
  intros Hi Hs [Hl Hu]. destruct (evolve_loop_spec cf g) as [Hg Hf]. simpl in *.
  rewrite Hg, Hf in *.
  pose proof (all_features_witnessed (cf_entries cf) g) as Hw.
  assert (witnessed (cf_entries cf) (list_to_set (interesting (cf_entries cf) g))
            ⊆ witnessed (parsed ws) (w_shared w')) as Hnew.
  { apply witnessed_mono; [apply (parsed_at ws i p (Holding g cf) Hi) | set_solver]. }
  assert (witnessed (parsed ws) (w_shared w) ⊆ witnessed (parsed ws) (w_shared w')) as Hold.
  { apply witnessed_mono; set_solver. }
  split; [clear -Hl; set_solver|]. clear -Hu Hw Hnew Hold.
  apply union_subseteq. split; (etrans; [done|]); set_solver.
Qed.

Section Invariant.
Context `{Toolchain}.

Lemma pool_witnessed_start g0 programs w :
  w_global w = Some g0 -> pool_witnessed g0 (evolve_pool_start programs, w).
Proof.
  intros Hg. split; simpl.
  - exists g0. split; [done|]. split; set_solver.
  - intros i p g cf (q & [= _ ?] & _)%list_lookup_fmap_Some.
Qed.

Lemma pool_witnessed_read g0 ws w i p :
  ws !! i = Some (p, Reading) ->
  pool_witnessed g0 (ws, w) ->
  forall ph' w', phase_step p Reading w = Some (ph', w') ->
  pool_witnessed g0 (<[i := (p, ph')]> ws, w').
Proof.
  intros Hi [(g1 & Hg1 & Hb) Hheld] ph' w' Hstep. simpl in *.
  pose proof (keeps_evolve_parse p w) as Hk.
  assert (forall g, between g0 (ws, w) g -> between g0 (<[i := (p, ph')]> ws, w') g)
    as Hmono.
  { intros g. apply between_mono; simpl.
    - by apply (parsed_insert ws i p Reading); [|intros ? ?%elem_of_nil].
    - destruct (evolve_parse p w) as [[[]|] w1]; injection Hstep as <- <-;
        by injection Hk as _ ->. }
  split; simpl.
  - exists g1. split; [|by apply Hmono].
    destruct (evolve_parse p w) as [[[]|] w1]; injection Hstep as <- <-;
      injection Hk as Hg _; congruence.
  - intros j q g cf [(<- & [= <- Hph] & _)|[_ Hj]]%list_lookup_insert_Some;
      [|by eapply Hmono, Hheld].
    destruct (evolve_parse p w) as [[[g' c]|] w1] eqn:Hp;
      injection Hstep as <- _; [|done]. injection Hph as -> ->.
    apply (evolve_parse_reads p w g1) in Hp as ->; [|done]. by apply Hmono.
Qed.

Lemma pool_witnessed_write g0 ws w i p g cf :
  ws !! i = Some (p, Holding g cf) ->
  pool_witnessed g0 (ws, w) ->
  let run := evolve_write p (evolve_loop cf g) w in
  pool_witnessed g0 (<[i := (p, Wrote g cf run.1)]> ws, run.2).
Proof.
  intros Hi [(g1 & Hg1 & Hb) Hheld]. cbv zeta. simpl in *.
  destruct (evolve_loop cf g) as [g' files] eqn:Hloop.
  destruct (evolve_write_ends p g' files w) as [Hs Hend].
  set (run := evolve_write p (g', files) w) in *.
  assert (forall g2, between g0 (ws, w) g2 ->
            between g0 (<[i := (p, Wrote g cf run.1)]> ws, run.2) g2) as Hmono.
  { intros g2. apply between_mono; simpl; [|done].
    by apply (parsed_insert ws i p (Holding g cf)). }
  split; simpl.
  - destruct Hend as [Hg|[Hg Hf]].
    + exists g1. split; [congruence | by apply Hmono].
    + exists g'. split; [done|].
      apply (between_mono g0 (ws, run.2)); simpl;
        [by apply (parsed_insert ws i p (Holding g cf)) | done |].
      pose proof (between_write g0 ws w i p g cf run.2 Hi) as Hw.
      rewrite Hloop in Hw. apply Hw; [set_solver | by eapply Hheld].
  - intros j q g2 cf2 [(_ & [= _ ?] & _)|[_ Hj]]%list_lookup_insert_Some.
    by eapply Hmono, Hheld.
Qed.

Lemma pool_witnessed_step g0 c c' :
  evolve_pool_step c c' -> pool_witnessed g0 c -> pool_witnessed g0 c'.
Proof.
  intros [i p ph ph' ws w w' Hi Hstep] Hinv. destruct ph; try done.
  - by eapply pool_witnessed_read.
  - injection Hstep as <- <-. by apply pool_witnessed_write.
Qed.

Lemma pool_witnessed_rtc g0 c c' :
  rtc evolve_pool_step c c' -> pool_witnessed g0 c -> pool_witnessed g0 c'.
Proof. induction 1; eauto using pool_witnessed_step. Qed.

End Invariant.

(** ** Schedules *)

(** What a worker that has ended returned. *)
Definition phase_result (ph : Phase) : option (result unit) :=
  match ph with
  | Failed e => Some (Err e)
  | Wrote _ _ r => Some r
  | Reading | Holding _ _ => None
  end.

(** The schedule of Batch.v: every worker takes its two steps before the
    next one starts. *)
Definition in_order (n : nat) : list nat := seq 0 n ≫= (fun i => [i; i]).

Section Schedules.
Context `{Toolchain}.

(** The handler on the candidates one after the other, whatever each run
    returns: the results and the world they leave. *)
Fixpoint evolve_each (programs : list Path) (w : World) : list (result unit) * World :=
  match programs with
  | [] => ([], w)
  | p :: rest =>
      let run := evolve_corpus p w in
      let '(rs, w') := evolve_each rest run.2 in
      (run.1 :: rs, w')
  end.

Lemma evolve_pool_run_app s1 s2 c :
  evolve_pool_run (s1 ++ s2) c = evolve_pool_run s2 (evolve_pool_run s1 c).
Proof.
  revert c. induction s1 as [|i s1 IH]; intros [ws w]; simpl; [done|].
  destruct (ws !! i) as [[p ph]|]; [|apply IH].
  destruct (phase_step p ph w) as [[ph' w']|]; apply IH.
Qed.

(** A schedule of the workers behind the first leaves the first alone. *)
Lemma evolve_pool_run_tail x s ws w :
  evolve_pool_run (S <$> s) (x :: ws, w) =
  (x :: (evolve_pool_run s (ws, w)).1, (evolve_pool_run s (ws, w)).2).
Proof.
  revert ws w. induction s as [|i s IH]; intros ws w; simpl; [done|].
  destruct (ws !! i) as [[p ph]|]; [|apply IH].
  destruct (phase_step p ph w) as [[ph' w']|]; apply IH.
Qed.

(** Every run of a schedule is a sequence of steps of the pool. *)
Lemma evolve_pool_run_rtc s c : rtc evolve_pool_step c (evolve_pool_run s c).
Proof.
  revert c. induction s as [|i s IH]; intros [ws w]; simpl; [done|].
  destruct (ws !! i) as [[p ph]|] eqn:Hi; [|apply IH].
  destruct (phase_step p ph w) as [[ph' w']|] eqn:Hs; [|apply IH].
  eapply rtc_l; [by econstructor | apply IH].
Qed.

(** The first worker alone: its two steps are the handler. *)
Lemma evolve_pool_run_head p ws w :
  exists ph, phase_result ph = Some (evolve_corpus p w).1 /\
    evolve_pool_run [0; 0]%nat ((p, Reading) :: ws, w)
    = ((p, ph) :: ws, (evolve_corpus p w).2).
Proof.
  rewrite (evolve_corpus_parse p w). simpl.
  destruct (evolve_parse p w) as [[[g c]|e] w1]; simpl.
  - by exists (Wrote g c (evolve_write p (evolve_loop c g) w1).1).
  - by exists (Failed e).
Qed.

Lemma in_order_S n : in_order (S n) = [0; 0]%nat ++ (S <$> in_order n).
Proof.
  unfold in_order. simpl. do 2 f_equal. rewrite <- fmap_S_seq.
  induction (seq 0 n) as [|i l IH]; [done|]. csimpl. do 2 f_equal. exact IH.
Qed.

Lemma evolve_pool_steps_left c c' :
  evolve_pool_step c c' -> (evolve_pool_left c'.1 < evolve_pool_left c.1)%nat.
Proof.
  intros [i p ph ph' ws w w' Hi Hs]. unfold evolve_pool_left.
  pose proof (sum_list_with_insert (fun x => phase_left x.2) ws i (p, ph) (p, ph') Hi) as Hsum.
  cbn [fst snd] in *.
  assert (phase_left ph' < phase_left ph)%nat as Hph; [|lia].
  destruct ph; try done; simpl in Hs.
  - destruct (evolve_parse p w) as [[[]|] ?]; injection Hs as <- _; simpl; lia.
  - injection Hs as <- _. simpl. lia.
Qed.

End Schedules.

(** ** In order, nothing is lost *)

Section InOrder.
Context `{Toolchain}.

Lemma all_features_app (a b : list (string * list Feature)) :
  all_features (a ++ b) = all_features a ∪ all_features b.
Proof. unfold all_features. by rewrite fmap_app, union_list_app_L. Qed.

(** The first worker alone, when its handler succeeds: it wrote the
    features it read together with those it parsed. *)
Lemma evolve_pool_run_head_ok p ws w g0 :
  w_global w = Some g0 -> (evolve_corpus p w).1 = Ok tt ->
  exists c,
    evolve_pool_run [0; 0]%nat ((p, Reading) :: ws, w)
    = ((p, Wrote g0 c (Ok tt)) :: ws, (evolve_corpus p w).2) /\
    w_global (evolve_corpus p w).2 = Some (g0 ∪ all_features (cf_entries c)).
Proof.
  intros Hg. rewrite (evolve_corpus_parse p w). simpl.
  destruct (evolve_parse p w) as [[[g c]|e] w1] eqn:Hp; simpl; [|done]. intros Hok.
  apply (evolve_parse_reads p w g0) in Hp as ->; [|done].
  exists c. rewrite Hok. split; [done|].
  destruct (evolve_loop_spec c g0) as [Hl _].
  destruct (evolve_loop c g0) as [g' files].
  change (g' = g0 ∪ all_features (cf_entries c)) in Hl. rewrite <- Hl.
  destruct (evolve_write p (g', files) w1) as [r w2] eqn:Hw. simpl in Hok |- *. subst r.
  by apply evolve_write_shared in Hw as [= -> _].
Qed.

(** In order and without failures, the file ends with every feature that
    any worker has parsed. *)
Lemma evolve_pool_in_order_global programs w g0 :
  w_global w = Some g0 ->
  Forall (fun r => r = Ok tt) (evolve_each programs w).1 ->
  let c' := evolve_pool_run (in_order (length programs)) (evolve_pool_start programs, w) in
  w_global c'.2 = Some (g0 ∪ all_features (parsed c'.1)).
Proof.
  cbv zeta. revert w g0. induction programs as [|p ps IH]; intros w g0 Hg Hok.
  { simpl. rewrite Hg. f_equal. unfold parsed, all_features. simpl. set_solver. }
  change (evolve_pool_start (p :: ps)) with ((p, Reading) :: evolve_pool_start ps).
  cbn [length evolve_each] in *. rewrite in_order_S, evolve_pool_run_app.
  destruct (evolve_each ps (evolve_corpus p w).2) as [rs w'] eqn:He.
  apply Forall_cons in Hok as [Hp Hrs].
  destruct (evolve_pool_run_head_ok p (evolve_pool_start ps) w g0 Hg Hp) as (c & -> & Hg1).
  rewrite evolve_pool_run_tail. specialize (IH _ _ Hg1). rewrite He in IH.
  cbn [fst snd]. rewrite (IH Hrs). f_equal.
  change (parsed (?x :: ?l)) with (phase_entries x.2 ++ parsed l).
  rewrite all_features_app. simpl. set_solver.
Qed.

End InOrder.

(** ** What holds under every schedule *)

Section PoolClaims.
Context `{Toolchain}.

(** C9: However the workers of a pool interleave inside [evolve_corpus],
    and whichever of their tools and copies fail, the feature file keeps
    every feature it started with and holds no feature beyond those but
    features of parsed inputs that are in the shared corpus. *)
Theorem evolve_pool_witnessed programs w g0 c' :
  w_global w = Some g0 ->
  rtc evolve_pool_step (evolve_pool_start programs, w) c' ->
  exists g, w_global c'.2 = Some g /\ g0 ⊆ g /\
            g ⊆ g0 ∪ witnessed (parsed c'.1) (w_shared c'.2).
Proof.
  intros Hg Hrun.
  destruct (pool_witnessed_rtc g0 _ _ Hrun (pool_witnessed_start g0 programs w Hg))
    as [(g & Hg' & Hb) _].
  by exists g.
Qed.


(** C29: When the handlers run one after the other and none of them fails,
    nothing is lost: the feature file ends with the features it started
    with and every feature of every input that a worker parsed, which is
    the bound that holds under every schedule. *)
Theorem evolve_pool_in_order_keeps_all programs w g0 :
  w_global w = Some g0 ->
  Forall (fun r => r = Ok tt) (evolve_each programs w).1 ->
  let c' := evolve_pool_run (in_order (length programs)) (evolve_pool_start programs, w) in
  w_global c'.2 = Some (g0 ∪ all_features (parsed c'.1)) /\
  g0 ∪ witnessed (parsed c'.1) (w_shared c'.2) = g0 ∪ all_features (parsed c'.1).
Proof.
  intros Hg Hok. cbv zeta.
  pose proof (evolve_pool_in_order_global programs w g0 Hg Hok) as Hfile.
  cbv zeta in Hfile. split; [done|].
  destruct (pool_witnessed_rtc g0 _ _
              (evolve_pool_run_rtc (in_order (length programs)) _)
              (pool_witnessed_start g0 programs w Hg)) as [(g & Hg' & _ & Hu) _].
  rewrite Hfile in Hg'. injection Hg' as <-.
  pose proof (witnessed_all_features
                (parsed (evolve_pool_run (in_order (length programs))
                           (evolve_pool_start programs, w)).1)
                (w_shared (evolve_pool_run (in_order (length programs))
                             (evolve_pool_start programs, w)).2)) as Hsub.
  clear -Hu Hsub. set_solver.
Qed.

(** Every schedule ends: a pool of [n] workers takes at most [2 * n]
    steps. *)
Lemma evolve_pool_nsteps_left n c c' :
  nsteps evolve_pool_step n c c' -> (n + evolve_pool_left c'.1 <= evolve_pool_left c.1)%nat.
Proof.
  induction 1 as [|n c1 c2 c3 Hstep _ IH]; [simpl; lia|].
  apply evolve_pool_steps_left in Hstep. lia.
Qed.

Lemma evolve_pool_left_start programs :
  evolve_pool_left (evolve_pool_start programs) = (2 * length programs)%nat.
Proof.
  unfold evolve_pool_left, evolve_pool_start.
  induction programs as [|p ps IH]; [done|]. csimpl. rewrite IH. simpl. lia.
Qed.

Lemma evolve_pool_ends n programs w c' :
  nsteps evolve_pool_step n (evolve_pool_start programs, w) c' ->
  (n + evolve_pool_left c'.1 <= 2 * length programs)%nat.
Proof. intros Hrun%evolve_pool_nsteps_left. by rewrite <- evolve_pool_left_start. Qed.

End PoolClaims.

(** ** The example: three workers, the copy of the third fails *)

Definition pool_scenarios (dir : string) : Scenario :=
  if decide (dir = "work/2")
  then with_merge (Ok (Some (mkCorpora [("in_d", [9%N])]))) all_pass
  else if decide (dir = "work/3")
       then with_merge (Ok (Some (mkCorpora [("in_e", [11%N])]))) all_pass
       else all_pass.

Definition pool_toolchain : Toolchain :=
  with_copies (fun file _ => if decide (file = "in_e")
                             then Err (Report "No space left on device")
                             else Ok tt)
    (routed_toolchain pool_scenarios None).

(** All three read, then all three write. *)
Definition pool_raced : EvolvePool :=
  @evolve_pool_run pool_toolchain [0; 1; 2; 0; 1; 2]%nat
    (evolve_pool_start demo_paths, demo_batch_world).

Lemma evolve_pool_witnessed_witness :
  exists g, w_global pool_raced.2 = Some g /\ ({[1; 2]}%N : GlobalFeature) ⊆ g /\
            g ⊆ {[1; 2]}%N ∪ witnessed (parsed pool_raced.1) (w_shared pool_raced.2).
Proof.
  apply (@evolve_pool_witnessed pool_toolchain demo_paths demo_batch_world {[1; 2]}%N).
  - reflexivity.
  - apply evolve_pool_run_rtc.
Defined.

(** On the example: the second writer has replaced the features 3 and 7 of
    the first, whose inputs are in the shared corpus; the third worker could
    not copy its input, and its feature 11 is not in the file. *)
Example evolve_pool_race :
  global_elems pool_raced.2 = {[1; 2; 9]}%N /\
  w_shared pool_raced.2 = {["seed0"; "in_a"; "in_c"; "in_d"]} /\
  phase_result <$> pool_raced.1.*2
  = [Some (Ok tt); Some (Ok tt); Some (Err (Report "No space left on device"))] /\
  witnessed (parsed pool_raced.1) (w_shared pool_raced.2) = {[1; 2; 3; 7; 9]}%N.
Proof.
  split_and!; apply (bool_decide_unpack _); vm_compute; exact I.
Qed.

Definition pool_copying : Toolchain := routed_toolchain pool_scenarios None.

Lemma evolve_pool_in_order_keeps_all_witness :
  let c' := @evolve_pool_run pool_copying (in_order (length demo_paths))
              (evolve_pool_start demo_paths, demo_batch_world) in
  w_global c'.2 = Some ({[1; 2]}%N ∪ all_features (parsed c'.1)) /\
  {[1; 2]}%N ∪ witnessed (parsed c'.1) (w_shared c'.2)
  = {[1; 2]}%N ∪ all_features (parsed c'.1).
Proof.
  apply (@evolve_pool_in_order_keeps_all pool_copying demo_paths demo_batch_world
           {[1; 2]}%N).
  - reflexivity.
  - vm_compute. repeat constructor.
Defined.

(** In order nothing is lost of what was copied. *)
Example evolve_pool_in_order_demo :
  let c' := @evolve_pool_run pool_toolchain (in_order 3)
              (evolve_pool_start demo_paths, demo_batch_world) in
  global_elems c'.2 = {[1; 2; 3; 7; 9]}%N /\
  w_shared c'.2 = {["seed0"; "in_a"; "in_c"; "in_d"]}.
Proof.
  cbv zeta. split_and!; apply (bool_decide_unpack _); vm_compute; exact I.
Qed.
