(* ===== verification/Commute.v ===== *)
(** * Workers that do not disturb each other (src/execution/sanitize.rs, lines 27-105, 201-240)

    The workers of a batch run at the same time, each in its own work
    directory.  This file shows when the order of their steps does not
    matter: the stages before the coverage stage read and write the work
    directory of their candidate and read the shared state, so two of them
    in different directories commute, as long as the tools themselves look
    at nothing but the directory they are run in and the shared state.
    Worlds are compared up to the clock and the times in the cost logs,
    which do depend on the order. *)

From stdpp Require Import relations.
From S2P Require Import Prelude Loops Paths Float32 Feature World Fixture Evolve Stages.
From S2P Require Import Machine Interleave.

Local Open Scope string_scope.
Local Open Scope list_scope.

(** ** What a worker sees of the world *)

(** The entries of one work directory, the shared corpus and the feature
    file: not the other work directories, the cost logs or the clock. *)
Definition view (dir : string) (w : World) :
    option (gmap string node) * gset string * option GlobalFeature :=
  (wd_files <$> w_work w !! dir, w_shared w, w_global w).

Definition sees (dir : string) : relation World := fun w w' => view dir w = view dir w'.

(** The same files everywhere. *)
Definition alike : relation World := fun w w' => forall dir, sees dir w w'.

#[export] Instance sees_equivalence dir : Equivalence (sees dir).
Proof.
  split; [by intros w | by intros w w' Hw; unfold sees in * |
          by intros w1 w2 w3 H12 H23; unfold sees in *; congruence].
Qed.

#[export] Instance alike_equivalence : Equivalence alike.
Proof.
  split; [by intros w dir | by intros w w' Hw dir; symmetry |
          by intros w1 w2 w3 H12 H23 dir; etrans; [apply H12 | apply H23]].
Qed.

#[export] Instance view_proper dir : Proper (alike ==> (=)) (view dir).
Proof. intros w w' Hw. apply Hw. Qed.

#[export] Instance shared_state_proper : Proper (alike ==> (=)) shared_state.
Proof.
  intros w w' Hw. specialize (Hw ""). unfold sees, view, shared_state in *.
  injection Hw as _ Hs Hg. by rewrite Hs, Hg.
Qed.

(** The tools of the first four stages look only at the directory of the
    path they are given and at the shared state. *)
Class LocalTools `{Toolchain} : Prop := {
  local_syntax p w w' : sees (p_dir p) w w' -> tc_syntax p w = tc_syntax p w';
  local_dedup p w w' :
    sees (p_dir p) w w' ->
    tc_remove_duplicate_definition p w = tc_remove_duplicate_definition p w';
  local_compile profile p w w' :
    sees (p_dir p) w w' -> tc_compile profile p w = tc_compile profile p w';
  local_transformer p w w' :
    sees (p_dir p) w w' -> tc_transformer_new p w = tc_transformer_new p w';
  local_fd_sanitizer p w w' :
    sees (p_dir p) w w' -> tc_add_fd_sanitizer p w = tc_add_fd_sanitizer p w';
  local_preprocess p w w' :
    sees (p_dir p) w w' -> tc_preprocess p w = tc_preprocess p w';
  local_execute_pool p w w' :
    sees (p_dir p) w w' -> tc_execute_pool p w = tc_execute_pool p w';
  local_execute_fuzzer p w w' :
    sees (p_dir p) w w' -> tc_execute_fuzzer p w = tc_execute_fuzzer p w';
}.

(** ** The operations of a worker agree on what it sees *)

Section Primitives.
Context `{LocalTools}.
Implicit Types (dir : string) (p : Path) (w : World).

Lemma sees_tick dir w w' : sees dir w w' -> sees dir (tick w) (tick w').
Proof. done. Qed.

(** What [sees] says of the directory itself. *)
Lemma sees_dir dir w w' :
  sees dir w w' -> wd_files <$> w_work w !! dir = wd_files <$> w_work w' !! dir.
Proof. by intros [= ? ? ?]. Qed.

Lemma sees_entry p w w' : sees (p_dir p) w w' -> entry p w = entry p w'.
Proof.
  intros Hd%sees_dir. unfold entry.
  destruct (w_work w !! p_dir p), (w_work w' !! p_dir p); simplify_eq/=; [|done].
  by rewrite Hd.
Qed.

(** The entries of the directory are replaced in the same way on both
    sides. *)
Lemma sees_set_files dir f d d' w w' :
  sees dir w w' -> w_work w !! dir = Some d -> w_work w' !! dir = Some d' ->
  sees dir (set_work <[dir := set_files f d]> w) (set_work <[dir := set_files f d']> w').
Proof.
  intros Hs Hd Hd'. pose proof (sees_dir _ _ _ Hs) as Hf. rewrite Hd, Hd' in Hf.
  injection Hf as Hf. injection Hs as _ Hsh Hg.
  unfold sees, view. simpl. rewrite !lookup_insert_eq. simpl. by rewrite Hsh, Hg, Hf.
Qed.

Lemma agrees_tool {A} dir (f : World -> A) :
  (forall w w', sees dir w w' -> f w = f w') -> agrees (sees dir) (tool f).
Proof. intros Hf w w' Hs. unfold tool. simpl. by rewrite (Hf w w'). Qed.

Lemma agrees_tool_result {A} dir (f : World -> result A) :
  (forall w w', sees dir w w' -> f w = f w') -> agrees (sees dir) (tool_result f).
Proof. intros Hf w w' Hs. unfold tool_result. simpl. by rewrite (Hf w w'). Qed.

Lemma agrees_write_entry dir p n : p_dir p = dir -> agrees (sees dir) (write_entry p n).
Proof.
  intros <- w w' Hs. pose proof (sees_dir _ _ _ Hs) as Hd. unfold write_entry.
  destruct (w_work w !! p_dir p) eqn:E, (w_work w' !! p_dir p) eqn:E'; simplify_eq/=; [|done].
  split; [done|]. by apply sees_set_files.
Qed.

Lemma agrees_create_dir_if_nonexist dir p :
  p_dir p = dir -> agrees (sees dir) (create_dir_if_nonexist p).
Proof.
  intros <- w w' Hs. unfold create_dir_if_nonexist, path_exists.
  rewrite (sees_entry p w w' Hs). case_bool_decide; [done|].
  by apply agrees_write_entry.
Qed.

(** The time written to the cost log is not part of what is seen. *)
Lemma agrees_TimeUsage_log dir t key :
  tu_dir t = dir -> agrees (sees dir) (TimeUsage_log t key).
Proof.
  intros <- w w' Hs. pose proof (sees_dir _ _ _ Hs) as Hd.
  unfold TimeUsage_log, bind, tool. simpl.
  destruct (w_work w !! tu_dir t) eqn:E, (w_work w' !! tu_dir t) eqn:E'; simplify_eq/=; [|done].
  split; [done|]. injection Hs as _ Hsh Hg.
  unfold sees, view. simpl. rewrite !lookup_insert_eq. simpl. by rewrite Hsh, Hg, Hd.
Qed.

Lemma agrees_compile dir src out profile :
  p_dir src = dir -> p_dir out = dir -> agrees (sees dir) (compile src out profile).
Proof.
  intros Hsrc Hout. unfold compile. apply agrees_bind; [|intros _; by apply agrees_write_entry].
  apply agrees_tool_result. subst dir. apply local_compile.
Qed.

Lemma agrees_execute_pool dir binary :
  p_dir binary = dir -> agrees (sees dir) (execute_pool binary).
Proof. intros <-. apply agrees_tool, local_execute_pool. Qed.

Lemma agrees_add_to_dir dir p found : p_dir p = dir -> agrees (sees dir) (add_to_dir p found).
Proof.
  intros <- w w' Hs. unfold add_to_dir. rewrite (sees_entry p w w' Hs).
  destruct (entry p w') as [[]|]; try done. by apply agrees_write_entry.
Qed.

Lemma agrees_execute_fuzzer dir binary corpus_dir :
  p_dir binary = dir -> p_dir corpus_dir = dir ->
  agrees (sees dir) (execute_fuzzer binary corpus_dir).
Proof.
  intros Hb Hc. unfold execute_fuzzer.
  apply agrees_bind; [subst dir; apply agrees_tool, local_execute_fuzzer|].
  intros [res found]. apply agrees_bind; [by apply agrees_add_to_dir|].
  intros _. apply agrees_lift.
Qed.

Lemma agrees_copy_library_init_file dir :
  agrees (sees dir) (copy_library_init_file dir).
Proof.
  unfold copy_library_init_file. destruct tc_init_file; [|apply agrees_ret].
  by apply agrees_write_entry.
Qed.

End Primitives.

#[export] Hint Resolve agrees_write_entry agrees_create_dir_if_nonexist agrees_TimeUsage_log
  agrees_compile agrees_execute_pool agrees_execute_fuzzer agrees_copy_library_init_file : ag.
#[export] Hint Extern 1 (p_dir _ = _) => reflexivity : ag.
#[export] Hint Extern 1 (tu_dir _ = _) => reflexivity : ag.
#[export] Hint Extern 2 (agrees _ (tool _)) =>
  apply agrees_tool; first [apply local_syntax | apply local_execute_pool] : ag.
#[export] Hint Extern 2 (agrees _ (tool_result _)) =>
  apply agrees_tool_result;
  first [apply local_dedup | apply local_transformer | apply local_fd_sanitizer
        | apply local_preprocess] : ag.

(** ** The stages before coverage *)

Section StagesAgree.
Context `{LocalTools}.

Lemma agrees_syntax p : agrees (sees (p_dir p)) (is_program_syntax_correct p).
Proof. unfold is_program_syntax_correct, get_file_dirname. ag_steps. Qed.

Lemma agrees_link p : agrees (sees (p_dir p)) (is_program_link_correct p).
Proof. unfold is_program_link_correct, get_file_dirname. ag_steps. Qed.

Lemma agrees_execute p : agrees (sees (p_dir p)) (is_program_execute_correct p).
Proof. unfold is_program_execute_correct, get_file_dirname. ag_steps. Qed.

Lemma agrees_fuzz p : agrees (sees (p_dir p)) (is_program_fuzz_correct p).
Proof. unfold is_program_fuzz_correct, get_file_dirname. ag_steps. Qed.

End StagesAgree.

(** ** Local computations *)

(** A computation is local to a work directory when it reads nothing but
    what is seen from it, writes nothing but it, and leaves the shared
    state as it is. *)
Record local {A} `{Toolchain} (dir : string) (m : M World A) : Prop := mkLocal {
  local_agrees : agrees (sees dir) m;
  local_stays : steps (stays dir) m;
  local_keeps : steps (keeps shared_state) m;
}.

(** The stages that do not evolve the corpus. *)
Definition early (s : Stage) : Prop := s <> StCoverage.

#[export] Instance early_dec s : Decision (early s).
Proof. unfold early. apply _. Defined.

Section Local.
Context `{LocalTools}.

Lemma local_ret {A} dir (a : A) : local dir (ret a).
Proof. split; [apply agrees_ret | apply steps_ret; apply _ | apply steps_ret; apply _]. Qed.

Lemma local_bind {A B} dir (m : M World A) (k : A -> M World B) :
  local dir m -> (forall a, local dir (k a)) -> local dir (bind m k).
Proof.
  intros [Ha Hs Hk] Hcont. split.
  - apply agrees_bind; [done|]. intros a. apply Hcont.
  - apply steps_bind; [apply _ | done |]. intros a. apply Hcont.
  - apply steps_bind; [apply _ | done |]. intros a. apply Hcont.
Qed.

Lemma early_keeps_shared s p : early s -> steps (keeps shared_state) (run_stage s p).
Proof.
  intros Hs. destruct s; [..|done]; simpl;
    unfold is_program_syntax_correct, is_program_link_correct,
      is_program_execute_correct, is_program_fuzz_correct; sm_steps.
Qed.

Lemma run_stage_local s p : early s -> local (p_dir p) (run_stage s p).
Proof.
  intros Hs. split; [|apply run_stage_stays|by apply early_keeps_shared].
  destruct s; [..|done]; simpl;
    auto using agrees_syntax, agrees_link, agrees_execute, agrees_fuzz.
Qed.

(** The early stages of a candidate, one after the other. *)
Lemma pipeline_local stages p : Forall early stages -> local (p_dir p) (pipeline stages p).
Proof.
  induction 1 as [|s stages Hs _ IH]; simpl; [apply local_ret|].
  apply local_bind; [by apply run_stage_local|].
  intros [err|]; [apply local_ret | done].
Qed.

(** A local computation is not seen from another directory. *)
Lemma local_unseen {A} dir d (m : M World A) w :
  local dir m -> d <> dir -> sees d w (m w).2.
Proof.
  intros [_ Hst Hk] Hd. specialize (Hst w). specialize (Hk w). injection Hk as Hg Hsh.
  unfold sees, view. by rewrite (stays_other _ _ _ Hst d Hd), Hg, Hsh.
Qed.

(** It returns the same after a computation local to another directory as
    before it, and leaves its directory the same. *)
Lemma local_after {A B} da db (ma : M World A) (mb : M World B) w :
  da <> db -> local da ma -> local db mb ->
  (mb (ma w).2).1 = (mb w).1 /\ sees db (mb (ma w).2).2 (mb w).2.
Proof.
  intros Hab Ha Hb. assert (db <> da) as Hba by congruence.
  destruct (local_agrees _ _ Hb w (ma w).2 (local_unseen _ _ _ w Ha Hba)) as [Hr Hs].
  by split.
Qed.

End Local.

(** ** Two workers in turn *)

(** One computation after the other, whatever the first one returns: the
    two results and the final world. *)
Definition in_turn {A B} (m1 : M World A) (m2 : M World B) (w : World) :
    result A * result B * World :=
  let '(r1, w1) := m1 w in
  let '(r2, w2) := m2 w1 in
  (r1, r2, w2).

Section Commute.
Context `{LocalTools}.

(** Computations local to different directories commute, up to the clock
    and the times in the cost logs. *)
Lemma locals_commute {A B} da db (ma : M World A) (mb : M World B) w :
  da <> db -> local da ma -> local db mb ->
  let '(ra, rb, w2) := in_turn ma mb w in
  let '(rb', ra', w2') := in_turn mb ma w in
  ra = ra' /\ rb = rb' /\ alike w2 w2'.
Proof.
  intros Hab Ha Hb. assert (db <> da) as Hba by congruence.
  destruct (local_after da db ma mb w Hab Ha Hb) as [Hrb Hsb].
  destruct (local_after db da mb ma w Hba Hb Ha) as [Hra Hsa].
  pose proof (fun d => local_unseen da d ma w Ha) as Ha0.
  pose proof (fun d => local_unseen db d mb w Hb) as Hb0.
  pose proof (fun d => local_unseen db d mb (ma w).2 Hb) as Hb1.
  pose proof (fun d => local_unseen da d ma (mb w).2 Ha) as Ha1.
  unfold in_turn.
  destruct (ma w) as [ra w1], (mb w) as [rb' w1']. simpl in *.
  destruct (mb w1) as [rb w2], (ma w1') as [ra' w2']. simpl in *.
  split_and!; [done..|]. intros d.
  destruct (decide (d = da)) as [->|Hda]; [by rewrite <- (Hb1 _ Hab), Hsa|].
  destruct (decide (d = db)) as [->|Hdb]; [by rewrite Hsb, <- (Ha1 _ Hba)|].
  by rewrite <- (Hb1 _ Hdb), <- (Ha0 _ Hda), (Hb0 _ Hdb), (Ha1 _ Hda).
Qed.

(** What a worker gets from a stage does not depend on the early stages
    that workers in other directories ran before it. *)
Lemma run_stage_after sa sb a b w :
  p_dir a <> p_dir b -> early sa -> early sb ->
  (run_stage sb b (run_stage sa a w).2).1 = (run_stage sb b w).1.
Proof. intros Hab Ha Hb. eapply local_after; eauto using run_stage_local. Qed.

End Commute.

(** ** The pool, one worker at a time *)

(** Worker [i] takes its step. *)
Definition pool_fire `{Toolchain} (i : nat) (c : Pool) : option Pool :=
  '(p, st) ← c.1 !! i;
  '(st', w') ← step_fn p (st, c.2);
  Some (<[i := (p, st')]> c.1, w').

Section PoolCommute.
Context `{LocalTools}.

Lemma pool_fire_step i c c' : pool_fire i c = Some c' -> pool_step c c'.
Proof.
  destruct c as [ws w]. unfold pool_fire. simpl.
  destruct (ws !! i) as [[p st]|] eqn:Hi; [|done]. simpl.
  destruct (step_fn p (st, w)) as [[st' w']|] eqn:Hs; [|done]. simpl. intros [= <-].
  econstructor; [done|]. by apply step_fn_step.
Qed.

Lemma pool_fire_running i ws w p s :
  ws !! i = Some (p, Running s) ->
  pool_fire i (ws, w)
  = Some (<[i := (p, advance s (run_stage s p w).1)]> ws, (run_stage s p w).2).
Proof. intros Hi. unfold pool_fire. simpl. by rewrite Hi. Qed.

End PoolCommute.

(** ** Every schedule of the early stages *)

(** A relation in which every state has at most one successor reaches at
    most one state that has none. *)
Lemma rtc_nf_unique {A} (R : relation A) x y z :
  (forall a b c, R a b -> R a c -> b = c) ->
  rtc R x y -> rtc R x z -> nf R y -> nf R z -> y = z.
Proof.
  intros Hdet Hy. revert z. induction Hy as [x|x x1 y Hx1 _ IH]; intros z Hz Hny Hnz.
  - destruct Hz as [|x x2 z Hx2 _]; [done|]. destruct Hny. by exists x2.
  - destruct Hz as [|x x2 z Hx2 Hz]; [destruct Hnz; by exists x1|].
    apply IH; [|done..]. by rewrite (Hdet _ _ _ Hx1 Hx2).
Qed.

Section Schedules.
Context `{LocalTools}.
Implicit Types (c : Pool) (ws : list (Path * Status)) (w : World) (p : Path).

(** The machine of one candidate while it is at an early stage, and the
    pool in which only such steps are taken. *)
Definition estep (p : Path) : relation Conf :=
  fun x y => (exists s, x.1 = Running s /\ early s) /\ step p x y.

Inductive early_step : relation Pool :=
| early_step_at i p s st' ws w w' :
    ws !! i = Some (p, Running s) -> early s ->
    step p (Running s, w) (st', w') ->
    early_step (ws, w) (<[i := (p, st')]> ws, w').

(** Every worker is where its machine is when run alone from the first
    world, as far as its directory can tell; the directories of no worker
    are as they were. *)
Definition tracks (w0 : World) (c : Pool) : Prop :=
  (forall k p st, c.1 !! k = Some (p, st) ->
     exists v, rtc (estep p) (Running StSyntax, w0) (st, v) /\ sees (p_dir p) v c.2) /\
  (forall d, d ∉ pool_dirs c.1 -> sees d w0 c.2).

Lemma early_step_pool_step c c' : early_step c c' -> pool_step c c'.
Proof. intros [i p s st' ws w w' Hi _ Hs]. by econstructor. Qed.

Lemma estep_deterministic p (c c1 c2 : Conf) : estep p c c1 -> estep p c c2 -> c1 = c2.
Proof. intros [_ H1] [_ H2]. by eapply step_deterministic. Qed.

(** Whether the machine of a candidate is done with its early stages shows
    in its status. *)
Lemma estep_nf p st v :
  nf (estep p) (st, v) <-> forall s, st = Running s -> ~ early s.
Proof.
  split.
  - intros Hnf s -> Hs. destruct (step_progress p (Running s, v)) as [[]|[c' Hc]].
    apply Hnf. exists c'. split; [by exists s | done].
  - intros Hst [c' [(s & Hs & He) _]]. by eapply Hst.
Qed.

Lemma early_step_nf ws w k p st :
  nf early_step (ws, w) -> ws !! k = Some (p, st) -> forall v, nf (estep p) (st, v).
Proof.
  intros Hnf Hk v. apply estep_nf. intros s -> Hs.
  destruct (step_progress p (Running s, w)) as [[]|[[st' w'] Hc]].
  apply Hnf. eexists. by eapply early_step_at.
Qed.

Lemma tracks_start ps w : tracks w (pool_start ps, w).
Proof.
  split; [|done]. intros k p st Hk. exists w. split; [|done].
  unfold pool_start in Hk. simpl in Hk. rewrite list_lookup_fmap in Hk.
  destruct (ps !! k); simplify_eq/=. done.
Qed.

(** A worker in another directory does not notice the step. *)
Lemma early_step_unseen p s st' w w' d :
  early s -> step p (Running s, w) (st', w') -> d <> p_dir p -> sees d w w'.
Proof.
  intros Hs Hst Hd. pose proof (local_unseen _ d _ w (run_stage_local s p Hs) Hd) as Hu.
  apply step_fn_step in Hst. unfold step_fn in Hst. simpl in Hst. by simplify_eq.
Qed.

Lemma tracks_step w0 c c' :
  NoDup (p_dir <$> c.1.*1) -> tracks w0 c -> early_step c c' -> tracks w0 c'.
Proof.
  intros Hnd [Hw Ho] Hstep. destruct Hstep as [i p s st' ws w w' Hi Hs Hst]. simpl in *.
  pose proof (fun d => early_step_unseen p s st' w w' d Hs Hst) as Hu.
  split; simpl.
  - intros k q st Hk. destruct (decide (k = i)) as [->|Hki].
    + rewrite list_lookup_insert_eq in Hk by (by eapply lookup_lt_Some). simplify_eq.
      destruct (Hw i q (Running s) Hi) as (v & Hrun & Hv).
      pose proof (local_agrees _ _ (run_stage_local s q Hs) v w Hv) as [Hr Hv'].
      apply step_fn_step in Hst. unfold step_fn in Hst. simpl in Hst. simplify_eq.
      exists (run_stage s q v).2. split; [|done].
      eapply rtc_r; [done|]. split; [by exists s|].
      apply step_fn_step. unfold step_fn. simpl. by rewrite Hr.
    + rewrite list_lookup_insert_ne in Hk by done.
      destruct (Hw k q st Hk) as (v & Hrun & Hv). exists v. split; [done|].
      etrans; [done|]. apply Hu. intros Hd.
      apply Hki. eapply NoDup_lookup; [done|..]; rewrite !list_lookup_fmap.
      * by rewrite Hk.
      * rewrite Hi. simpl. by rewrite Hd.
  - intros d Hd.
    rewrite (pool_dirs_paths ws (<[i := (p, st')]> ws)) in Hd
      by (by eapply (pool_step_paths _ w _ w'), pool_step_at).
    etrans; [by apply Ho|]. apply Hu. intros ->. apply Hd.
    unfold pool_dirs. apply elem_of_list_to_set. rewrite list_elem_of_fmap.
    exists p. split; [done|]. apply list_elem_of_fmap. exists (p, Running s).
    split; [done|]. by eapply list_elem_of_lookup_2.
Qed.

Lemma tracks_rtc w0 c c' :
  NoDup (p_dir <$> c.1.*1) -> tracks w0 c -> rtc early_step c c' ->
  tracks w0 c' /\ c'.1.*1 = c.1.*1.
Proof.
  intros Hnd Ht Hrun. induction Hrun as [c|c c1 c2 Hs _ IH]; [done|].
  assert (c1.1.*1 = c.1.*1) as Hp.
  { destruct c, c1. by eapply pool_step_paths, early_step_pool_step. }
  destruct IH as [Ht2 Hp2]; [by rewrite Hp | by eapply tracks_step | ].
  split; [done | congruence].
Qed.

(** Two schedules that both went as far as the early stages go. *)
Lemma tracks_agree w0 ws1 w1 ws2 w2 :
  ws1.*1 = ws2.*1 ->
  tracks w0 (ws1, w1) -> tracks w0 (ws2, w2) ->
  nf early_step (ws1, w1) -> nf early_step (ws2, w2) ->
  ws1 = ws2 /\ forall p, p ∈ ws1.*1 -> sees (p_dir p) w1 w2.
Proof.
  intros Hp [T1 _] [T2 _] N1 N2.
  assert (forall k p st1 st2, ws1 !! k = Some (p, st1) -> ws2 !! k = Some (p, st2) ->
            st1 = st2 /\ sees (p_dir p) w1 w2) as Hk.
  { intros k p st1 st2 H1 H2.
    destruct (T1 k p st1 H1) as (v1 & R1 & S1), (T2 k p st2 H2) as (v2 & R2 & S2).
    pose proof (rtc_nf_unique _ _ _ _ (estep_deterministic p) R1 R2
                  (early_step_nf _ _ _ _ _ N1 H1 v1) (early_step_nf _ _ _ _ _ N2 H2 v2)) as E.
    injection E as -> ->. split; [done|]. by rewrite <- S1, S2. }
  assert (forall k, ws1 !! k = ws2 !! k) as Hl.
  { intros k. pose proof (f_equal (fun l => l !! k) Hp) as Hpk. simpl in Hpk.
    rewrite !list_lookup_fmap in Hpk.
    destruct (ws1 !! k) as [[p st1]|] eqn:E1, (ws2 !! k) as [[q st2]|] eqn:E2;
      simplify_eq/=; [|done].
    by destruct (Hk k q st1 st2 E1 E2) as [-> _]. }
  split; [by apply list_eq|].
  intros p ([q st] & -> & Hin)%list_elem_of_fmap. apply list_elem_of_lookup_1 in Hin as [k E1].
  pose proof E1 as E2. rewrite Hl in E2. by destruct (Hk k q st st E1 E2).
Qed.

(** A schedule as the list of the workers that step, in order; a worker
    that is not at an early stage is passed over. *)
Definition early_fire (i : nat) (c : Pool) : Pool :=
  match c.1 !! i with
  | Some (p, Running s) =>
      if decide (early s)
      then (<[i := (p, advance s (run_stage s p c.2).1)]> c.1, (run_stage s p c.2).2)
      else c
  | _ => c
  end.

Definition early_run (schedule : list nat) (c : Pool) : Pool :=
  foldl (fun c i => early_fire i c) c schedule.

(** No worker is at an early stage. *)
Definition early_done (ws : list (Path * Status)) : bool :=
  forallb (fun x => match x.2 with Running s => bool_decide (~ early s) | _ => true end) ws.

Lemma early_fire_rtc i c : rtc early_step c (early_fire i c).
Proof.
  destruct c as [ws w]. unfold early_fire. simpl.
  destruct (ws !! i) as [[p [s| |]]|] eqn:Hi; [|done..].
  case_decide; [|done]. apply rtc_once. econstructor; [done..|].
  apply step_fn_step. unfold step_fn. done.
Qed.

Lemma early_run_rtc schedule c : rtc early_step c (early_run schedule c).
Proof.
  revert c. induction schedule as [|i schedule IH]; intros c; [done|].
  simpl. etrans; [apply early_fire_rtc | apply IH].
Qed.

Lemma early_done_nf c : early_done c.1 = true -> nf early_step c.
Proof.
  intros Hd [c' Hs]. destruct Hs as [i p s st' ws w w' Hi Hs _]. simpl in Hd.
  unfold early_done in Hd. rewrite forallb_forall in Hd.
  apply list_elem_of_lookup_2, list_elem_of_In, Hd in Hi. simpl in Hi.
  by apply bool_decide_eq_true in Hi.
Qed.

End Schedules.

(** ** The contract *)

Section CommuteClaims.
Context `{LocalTools}.

(** Early stages of workers in different directories commute: in
    either order each stage returns the same verdict or error, and the two
    final worlds hold the same files, shared corpus and features. *)
Theorem early_stages_commute sa sb a b w :
  p_dir a <> p_dir b -> early sa -> early sb ->
  let '(ra, rb, w2) := in_turn (run_stage sa a) (run_stage sb b) w in
  let '(rb', ra', w2') := in_turn (run_stage sb b) (run_stage sa a) w in
  ra = ra' /\ rb = rb' /\ alike w2 w2'.
Proof.
  intros Hab Ha Hb. apply (locals_commute (p_dir a) (p_dir b)); auto using run_stage_local.
Qed.

(** The stages before coverage commute as wholes: checking two
    candidates up to the fuzz stage gives each the same verdict in either
    order, and the same files. *)
Theorem early_pipelines_commute a b w :
  p_dir a <> p_dir b ->
  let early_stages := [StSyntax; StLink; StExecute; StFuzz] in
  let '(ra, rb, w2) := in_turn (pipeline early_stages a) (pipeline early_stages b) w in
  let '(rb', ra', w2') := in_turn (pipeline early_stages b) (pipeline early_stages a) w in
  ra = ra' /\ rb = rb' /\ alike w2 w2'.
Proof.
  intros Hab. cbv zeta. apply (locals_commute (p_dir a) (p_dir b)); [done|..];
    apply pipeline_local; by repeat constructor.
Qed.

(** Two workers of a pool that are in different directories and at
    early stages may take their steps in either order: both orders are
    schedules of the pool, and they end with the same status for every
    worker and with the same files. *)
Theorem pool_steps_commute ws w i j a b sa sb :
  i <> j -> ws !! i = Some (a, Running sa) -> ws !! j = Some (b, Running sb) ->
  p_dir a <> p_dir b -> early sa -> early sb ->
  exists c1 c2 c12 c21,
    pool_step (ws, w) c1 /\ pool_step c1 c12 /\
    pool_step (ws, w) c2 /\ pool_step c2 c21 /\
    pool_fire i (ws, w) = Some c1 /\ pool_fire j c1 = Some c12 /\
    pool_fire j (ws, w) = Some c2 /\ pool_fire i c2 = Some c21 /\
    c12.1 = c21.1 /\ alike c12.2 c21.2.
Proof.
  intros Hij Hi Hj Hab Ha Hb.
  pose proof (locals_commute (p_dir a) (p_dir b) _ _ w Hab
                (run_stage_local sa a Ha) (run_stage_local sb b Hb)) as Hc.
  unfold in_turn in Hc.
  assert (<[i := (a, advance sa (run_stage sa a w).1)]> ws !! j = Some (b, Running sb))
    as Hj' by (by rewrite list_lookup_insert_ne).
  assert (<[j := (b, advance sb (run_stage sb b w).1)]> ws !! i = Some (a, Running sa))
    as Hi' by (by rewrite list_lookup_insert_ne).
  pose proof (pool_fire_running i ws w a sa Hi) as F1.
  pose proof (pool_fire_running j _ (run_stage sa a w).2 b sb Hj') as F12.
  pose proof (pool_fire_running j ws w b sb Hj) as F2.
  pose proof (pool_fire_running i _ (run_stage sb b w).2 a sa Hi') as F21.
  destruct (run_stage sa a w) as [ra w1], (run_stage sb b w) as [rb' w1']. simpl in *.
  destruct (run_stage sb b w1) as [rb w2], (run_stage sa a w1') as [ra' w2']. simpl in *.
  destruct Hc as (-> & -> & Hw).
  eexists (_, w1), (_, w1'), (_, w2), (_, w2').
  split_and!; [eapply pool_fire_step, F1 | eapply pool_fire_step, F12
              | eapply pool_fire_step, F2 | eapply pool_fire_step, F21
              | exact F1 | exact F12 | exact F2 | exact F21 | | done].
  simpl. by rewrite list_insert_insert_ne.
Qed.

(** C18: up to the coverage stage the outcome of a batch does not depend on
    the schedule.  For candidates in different work directories, any two
    schedules of early steps that both go on until no worker is at an early
    stage end with the same status for every worker, and with worlds that
    hold the same files, shared corpus and features. *)
Theorem early_schedule_independent programs w c1 c2 :
  NoDup (p_dir <$> programs) ->
  rtc early_step (pool_start programs, w) c1 -> nf early_step c1 ->
  rtc early_step (pool_start programs, w) c2 -> nf early_step c2 ->
  c1.1 = c2.1 /\ alike c1.2 c2.2.
Proof.
  intros Hnd R1 N1 R2 N2.
  assert ((pool_start programs).*1 = programs) as Hs.
  { unfold pool_start. rewrite <- list_fmap_compose. apply list_fmap_id. }
  destruct (tracks_rtc w (pool_start programs, w) c1) as [T1 P1];
    [by simpl; rewrite Hs | apply tracks_start | done |].
  destruct (tracks_rtc w (pool_start programs, w) c2) as [T2 P2];
    [by simpl; rewrite Hs | apply tracks_start | done |].
  destruct c1 as [ws1 w1], c2 as [ws2 w2]. simpl in *.
  destruct (tracks_agree w ws1 w1 ws2 w2) as [-> Hsee]; [congruence | done..|].
  split; [done|]. intros d.
  destruct (decide (d ∈ pool_dirs ws2)) as [Hd|Hd].
  - unfold pool_dirs in Hd. apply elem_of_list_to_set, list_elem_of_fmap in Hd as (p & -> & Hp).
    by apply Hsee.
  - destruct T1 as [_ O1], T2 as [_ O2]. by rewrite <- (O1 d Hd), (O2 d Hd).
Qed.

(** C34: what a candidate gets from its early stages in a batch is what it
    gets alone: when no worker is at an early stage any more, the status of
    every worker is the one its own machine reaches from the first world,
    whatever the other workers did in between. *)
Theorem early_outcome_as_alone programs w c k p st :
  NoDup (p_dir <$> programs) ->
  rtc early_step (pool_start programs, w) c -> nf early_step c ->
  c.1 !! k = Some (p, st) ->
  exists v, rtc (estep p) (Running StSyntax, w) (st, v) /\ nf (estep p) (st, v) /\
            sees (p_dir p) v c.2.
Proof.
  intros Hnd R N Hk.
  assert ((pool_start programs).*1 = programs) as Hs.
  { unfold pool_start. rewrite <- list_fmap_compose. apply list_fmap_id. }
  destruct (tracks_rtc w (pool_start programs, w) c) as [[T _] _];
    [by simpl; rewrite Hs | apply tracks_start | done |].
  destruct (T k p st Hk) as (v & Hrun & Hv). exists v. split_and!; [done| |done].
  destruct c. by eapply early_step_nf.
Qed.

End CommuteClaims.

(** ** On the example toolchains *)

(** The tools of the fixture answer by the directory of the path alone. *)
#[export] Instance scenario_local (s : Scenario) : @LocalTools (scenario_toolchain s).
Proof. by split. Qed.

#[export] Instance routed_local (f : string -> Scenario) (init : option string) :
  @LocalTools (routed_toolchain f init).
Proof. by split. Qed.

Lemma early_stages_commute_witness :
  let '(ra, rb, w2) :=
    in_turn (@run_stage demo_toolchain StLink (mkPath "work/1" "1.cc"))
            (@run_stage demo_toolchain StSyntax (mkPath "work/2" "2.cc")) demo_batch_world in
  let '(rb', ra', w2') :=
    in_turn (@run_stage demo_toolchain StSyntax (mkPath "work/2" "2.cc"))
            (@run_stage demo_toolchain StLink (mkPath "work/1" "1.cc")) demo_batch_world in
  ra = ra' /\ rb = rb' /\ alike w2 w2'.
Proof.
  apply (@early_stages_commute demo_toolchain (routed_local _ _) StLink StSyntax
           (mkPath "work/1" "1.cc") (mkPath "work/2" "2.cc") demo_batch_world); done.
Defined.

Lemma early_pipelines_commute_witness :
  let early_stages := [StSyntax; StLink; StExecute; StFuzz] in
  let '(ra, rb, w2) :=
    in_turn (@pipeline demo_toolchain early_stages (mkPath "work/1" "1.cc"))
            (@pipeline demo_toolchain early_stages (mkPath "work/3" "3.cc"))
            demo_batch_world in
  let '(rb', ra', w2') :=
    in_turn (@pipeline demo_toolchain early_stages (mkPath "work/3" "3.cc"))
            (@pipeline demo_toolchain early_stages (mkPath "work/1" "1.cc"))
            demo_batch_world in
  ra = ra' /\ rb = rb' /\ alike w2 w2'.
Proof.
  apply (@early_pipelines_commute demo_toolchain (routed_local _ _)
           (mkPath "work/1" "1.cc") (mkPath "work/3" "3.cc") demo_batch_world); done.
Defined.

Lemma pool_steps_commute_witness :
  exists c1 c2 c12 c21,
    @pool_step demo_toolchain (pool_start demo_paths, demo_batch_world) c1 /\
    @pool_step demo_toolchain c1 c12 /\
    @pool_step demo_toolchain (pool_start demo_paths, demo_batch_world) c2 /\
    @pool_step demo_toolchain c2 c21 /\
    @pool_fire demo_toolchain 0 (pool_start demo_paths, demo_batch_world) = Some c1 /\
    @pool_fire demo_toolchain 1 c1 = Some c12 /\
    @pool_fire demo_toolchain 1 (pool_start demo_paths, demo_batch_world) = Some c2 /\
    @pool_fire demo_toolchain 0 c2 = Some c21 /\
    c12.1 = c21.1 /\ alike c12.2 c21.2.
Proof.
  apply (@pool_steps_commute demo_toolchain (routed_local _ _) (pool_start demo_paths)
           demo_batch_world 0 1 (mkPath "work/1" "1.cc") (mkPath "work/2" "2.cc")
           StSyntax StSyntax); done.
Defined.

(** The coverage stage is not local.  Two candidates whose corpora hold
    different inputs with the same new feature: the one that evolves the
    corpus first has its input admitted, the other one not, so the shared
    corpus depends on the order. *)
Definition tie_scenarios (dir : string) : Scenario :=
  if decide (dir = "work/2")
  then with_merge (Ok (Some (mkCorpora [("in_b", [5%N])]))) all_pass
  else with_merge (Ok (Some (mkCorpora [("in_a", [5%N])]))) all_pass.

Definition tie_toolchain : Toolchain := routed_toolchain tie_scenarios None.

Example evolve_corpus_order_matters :
  let ab := (in_turn (@evolve_corpus tie_toolchain race_a) (@evolve_corpus tie_toolchain race_b)
               demo_batch_world).2 in
  let ba := (in_turn (@evolve_corpus tie_toolchain race_b) (@evolve_corpus tie_toolchain race_a)
               demo_batch_world).2 in
  w_shared ab = w_shared demo_batch_world ∪ {["in_a"]} /\
  w_shared ba = w_shared demo_batch_world ∪ {["in_b"]} /\
  w_global ab = w_global ba /\ ~ alike ab ba.
Proof.
  cbv zeta. split_and!; [by vm_compute..|].
  intros Ha. specialize (Ha ""). unfold sees, view in Ha. apply (f_equal (fun v => v.1.2)) in Ha as Hs. simpl in Hs.
  assert ("in_a" ∈ w_shared (in_turn (@evolve_corpus tie_toolchain race_b)
                               (@evolve_corpus tie_toolchain race_a) demo_batch_world).2)
    as Hin by (rewrite <- Hs; apply (bool_decide_unpack _); vm_compute; exact I).
  revert Hin. apply (bool_decide_unpack _). vm_compute. exact I.
Qed.

Lemma early_schedule_independent_witness :
  let c0 := (pool_start demo_paths, demo_batch_world) in
  let c1 := @early_run demo_toolchain [0; 0; 0; 0; 1; 2; 2; 2; 2]%nat c0 in
  let c2 := @early_run demo_toolchain [2; 1; 0; 2; 0; 2; 0; 2; 0]%nat c0 in
  c1.1 = c2.1 /\ alike c1.2 c2.2.
Proof.
  cbv zeta.
  apply (@early_schedule_independent demo_toolchain (routed_local _ _) demo_paths
           demo_batch_world);
    first [ apply early_run_rtc
          | apply early_done_nf; vm_compute; reflexivity
          | apply (bool_decide_unpack _); vm_compute; exact I ].
Defined.

Lemma early_outcome_as_alone_witness :
  exists v,
    rtc (@estep demo_toolchain (mkPath "work/2" "2.cc"))
      (Running StSyntax, demo_batch_world) (Finished (Some (Syntax "expected ';'")), v) /\
    nf (@estep demo_toolchain (mkPath "work/2" "2.cc"))
      (Finished (Some (Syntax "expected ';'")), v) /\
    sees "work/2" v
      (@early_run demo_toolchain [0; 0; 0; 0; 1; 2; 2; 2; 2]%nat
         (pool_start demo_paths, demo_batch_world)).2.
Proof.
  apply (@early_outcome_as_alone demo_toolchain (routed_local _ _) demo_paths
           demo_batch_world _ 1%nat (mkPath "work/2" "2.cc"));
    first [ apply early_run_rtc
          | apply early_done_nf; vm_compute; reflexivity
          | apply (bool_decide_unpack _); vm_compute; exact I
          | vm_compute; reflexivity ].
Defined.
