(* ===== verification/Supervisor.v ===== *)
(** * The supervisor of a round (src/execution/sanitize.rs, lines 157-192 and 342-395)

    [check_programs_are_correct] writes the candidates to their work
    directories, has them checked by [concurrent_check], reports the cost of
    the slowest one, and cleans up: every work directory is reduced to the
    files worth keeping, and the directory of a candidate rejected for
    anything but a hang or a fuzzer crash is removed. *)

From stdpp Require Import pretty.
From S2P Require Import Prelude Loops Paths Float32 Feature World Fixture Evolve Stages Batch.

Local Open Scope string_scope.
Local Open Scope list_scope.

(** ** Candidates and where they are written *)

(** program/mod.rs [Program], as far as the supervisor reads it. *)
Record Program : Type := mkProgram { id : N }.

(** [Deopt::get_work_seed_by_id]: the source file of candidate [seed_id] in
    its work directory, which is created when it does not exist. *)
Definition work_dir_of (seed_id : N) : string := "work/" +:+ pretty seed_id.

Definition seed_path (seed_id : N) : Path :=
  mkPath (work_dir_of seed_id) (pretty seed_id +:+ ".cc").

Definition get_work_seed_by_id (seed_id : N) : M World Path :=
  fun w =>
    let dir := work_dir_of seed_id in
    let path := seed_path seed_id in
    match w_work w !! dir with
    | Some _ => (Ok path, w)
    | None => (Ok path, set_work <[dir := mkWorkDir ∅ ∅]> w)
    end.

Definition out_of_bounds (len index : nat) : fault :=
  Panic ("index out of bounds: the len is " +:+ pretty len +:+
         " but the index is " +:+ pretty index).

(** [v[i]] *)
Definition index {S A} (v : list A) (i : nat) : M S A :=
  match v !! i with
  | Some x => ret x
  | None => fail (out_of_bounds (length v) i)
  end.

(** ** Cleaning a work directory (lines 378-394) *)

Definition retained (name : string) : bool :=
  match extension name with
  | Some ext =>
      bool_decide (ext = "log") || bool_decide (ext = "out") || bool_decide (ext = "cc")
      || bool_decide (ext = "profdata") || bool_decide (ext = "cost")
  | None => false
  end.

Definition cleanup_file (sanitize_dir : string) (file : string) : M World unit :=
  if retained file then ret tt
  else
    let path := mkPath sanitize_dir file in
    let* present := gets (entry path) in
    if (if present is Some n then is_dir n else false)
    then remove_dir_all path
    else remove_file path.

Definition cleanup_sanitize_dir (sanitize_dir : string) : M World unit :=
  let* files := read_sort_dir sanitize_dir in
  for_each (fun file => cleanup_file sanitize_dir file.1) files.

(** ** The cost of a round (lines 348-376) *)

(** [syntax + link + execution + fuzz + coverage + update] *)
Definition f32_sum6 (a b c d e f : f32) : f32 :=
  f32_add (f32_add (f32_add (f32_add (f32_add a b) c) d) e) f.

Section Supervisor.
Context `{Toolchain} `{Harness}.

(** Lines 351-371. *)
Fixpoint cost_loop (program_paths : list Path) (max_time : f32) (usage : list f32) :
    M World (f32 * list f32) :=
  match program_paths with
  | [] => ret (max_time, usage)
  | program_path :: rest =>
      let program_dir := get_file_dirname program_path in
      let time_logger := TimeUsage_new program_dir in
      let* syntax := TimeUsage_load time_logger "syntax" in
      let* link := TimeUsage_load time_logger "link" in
      let* execution := TimeUsage_load time_logger "execute" in
      let* fuzz := TimeUsage_load time_logger "fuzz" in
      let* coverage := TimeUsage_load time_logger "coverage" in
      let* update := TimeUsage_load time_logger "update" in
      let total := f32_sum6 syntax link execution fuzz coverage update in
      if f32_gt total max_time
      then cost_loop rest total [syntax; link; execution; fuzz; coverage; update]
      else cost_loop rest max_time usage
  end.

(** The six times handed to the log line and to the global time logger. *)
Definition print_san_cost (program_paths : list Path) : M World (list f32) :=
  let* '(max_time, usage) := cost_loop program_paths f32_zero [] in
  let* syntax := index usage 0 in
  let* link := index usage 1 in
  let* execution := index usage 2 in
  let* fuzz := index usage 3 in
  let* coverage := index usage 4 in
  let* update := index usage 5 in
  ret [syntax; link; execution; fuzz; coverage; update].

(** ** A round (lines 157-192) *)

(** Lines 162-170. *)
Fixpoint write_programs (programs : list Program) (program_paths : list Path) :
    M World (list Path) :=
  match programs with
  | [] => ret program_paths
  | program :: rest =>
      let* temp_path := get_work_seed_by_id (id program) in
      do* write_entry temp_path File in
      write_programs rest (program_paths ++ [temp_path])
  end.

(** Lines 176-190, one iteration. *)
Definition cleanup_verdict (program_paths : list Path)
    (item : nat * option ProgramError) : M World unit :=
  let '(i, has_err) := item in
  let* path := index program_paths i in
  let dir := get_file_dirname path in
  do* cleanup_sanitize_dir dir in
  match has_err with
  | Some (Hang _) => ret tt
  | Some (Fuzzer _) => ret tt
  | Some _ => remove_work_dir dir
  | None => ret tt
  end.

Definition check_programs_are_correct (cores : nat) (programs : list Program) :
    M World (list (option ProgramError)) :=
  let* program_paths := write_programs programs [] in
  let* res := concurrent_check program_paths cores in
  do* print_san_cost program_paths in
  do* for_each (cleanup_verdict program_paths) (zip (seq 0 (length res)) res) in
  ret res.

End Supervisor.

(** ** Reference definitions *)

(** Whether the work directory of a candidate with this verdict is kept. *)
Definition kept (has_err : option ProgramError) : bool :=
  match has_err with
  | None | Some (Hang _) | Some (Fuzzer _) => true
  | Some _ => false
  end.

(** A work directory after cleanup. *)
Definition cleaned (d : WorkDir) : WorkDir :=
  set_files (filter (fun kv => retained kv.1 = true)) d.

(** The entries left when the files of [l] that are not retained are
    deleted one by one. *)
Definition prune (l : list (string * node)) (F : gmap string node) : gmap string node :=
  foldl (fun F kv => if retained kv.1 then F else delete kv.1 F) F l.

(** The six records of a work directory, zero where there is none. *)
Definition costs_of (dir : string) (w : World) : option (list f32) :=
  d ← w_work w !! dir;
  Some ((fun key => default f32_zero (wd_cost d !! key)) <$>
          ["syntax"; "link"; "execute"; "fuzz"; "coverage"; "update"]).

Definition f32_total (usage : list f32) : f32 :=
  match usage with
  | [a; b; c; d; e; f] => f32_sum6 a b c d e f
  | _ => f32_zero
  end.

(** ** Cleanup keeps exactly the retained files *)

Lemma prune_lookup l F k :
  prune l F !! k = if bool_decide (k ∈ l.*1) && negb (retained k) then None else F !! k.
Proof.
  unfold prune. revert F. induction l as [|[k' n] l IH]; intros F; simpl; [done|].
  rewrite IH. destruct (retained k') eqn:Ek'; destruct (decide (k = k')) as [->|Hne];
    repeat case_bool_decide; simpl; rewrite ?Ek', ?lookup_delete_eq, ?lookup_delete_ne by done;
    simpl; try done; try set_solver; by destruct (retained k).
Qed.

Lemma prune_map_to_list (F : gmap string node) :
  prune (map_to_list F) F = filter (fun kv => retained kv.1 = true) F.
Proof.
  apply map_eq. intros k. rewrite prune_lookup.
  destruct (F !! k) as [n|] eqn:E.
  - rewrite bool_decide_eq_true_2
      by (apply list_elem_of_fmap; exists (k, n); by rewrite elem_of_map_to_list).
    destruct (retained k) eqn:Er; simpl; symmetry.
    + by apply map_lookup_filter_Some.
    + apply map_lookup_filter_None. right. intros n' _. simpl. congruence.
  - rewrite (map_lookup_filter_None_2 _ F k) by auto. by destruct (_ && _).
Qed.

Lemma cleanup_file_run dir d k n w :
  w_work w !! dir = Some d -> wd_files d !! k = Some n ->
  cleanup_file dir k w
  = (Ok tt, set_work <[dir := set_files (fun F => if retained k then F else delete k F) d]> w).
Proof.
  intros Hd Hk. unfold cleanup_file. destruct (retained k).
  - unfold ret. f_equal. destruct w as [W ? ? ?], d. unfold set_work, set_files. simpl in *.
    by rewrite insert_id.
  - unfold bind, gets, entry. simpl. rewrite Hd. simpl. rewrite Hk.
    destruct n; unfold remove_dir_all, remove_file; simpl; by rewrite Hd, Hk.
Qed.

Lemma cleanup_loop_run dir l d w :
  w_work w !! dir = Some d -> NoDup l.*1 ->
  (forall k n, (k, n) ∈ l -> wd_files d !! k = Some n) ->
  for_each (fun file => cleanup_file dir file.1) l w
  = (Ok tt, set_work <[dir := set_files (prune l) d]> w).
Proof.
  revert d w. induction l as [|[k n] l IH]; intros d w Hd Hnd Hl; simpl.
  { unfold ret. f_equal. destruct w, d. unfold set_work, set_files. simpl in *.
    by rewrite insert_id. }
  apply NoDup_cons in Hnd as [Hk Hnd].
  unfold bind. rewrite (cleanup_file_run dir d k n) by (done || apply Hl; set_solver).
  rewrite (IH (set_files (fun F => if retained k then F else delete k F) d)).
  - f_equal. destruct w. unfold set_work. simpl. by rewrite insert_insert_eq.
  - simpl. apply lookup_insert_eq.
  - done.
  - intros k' n' Hin. simpl. destruct (retained k); [apply Hl; set_solver|].
    rewrite lookup_delete_ne; [apply Hl; set_solver|].
    intros ->. apply Hk, list_elem_of_fmap. by exists (k', n').
Qed.

Lemma cleanup_sanitize_dir_run dir d w :
  w_work w !! dir = Some d ->
  cleanup_sanitize_dir dir w = (Ok tt, set_work <[dir := cleaned d]> w).
Proof.
  intros Hd. unfold cleanup_sanitize_dir, bind, read_sort_dir. rewrite Hd.
  rewrite (cleanup_loop_run dir _ d w Hd).
  - unfold cleaned, set_files. by rewrite prune_map_to_list.
  - apply NoDup_fst_map_to_list.
  - intros k n. apply elem_of_map_to_list.
Qed.

Lemma cleanup_sanitize_dir_missing dir w :
  w_work w !! dir = None -> cleanup_sanitize_dir dir w = (Err enoent, w).
Proof. intros Hd. unfold cleanup_sanitize_dir, bind, read_sort_dir. by rewrite Hd. Qed.

(** ** The cost report *)

Section CostFacts.
Context `{Toolchain} `{Harness}.

Lemma TimeUsage_load_run dir d key w :
  w_work w !! dir = Some d ->
  TimeUsage_load (TimeUsage_new dir) key w = (Ok (default f32_zero (wd_cost d !! key)), w).
Proof. intros Hd. unfold TimeUsage_load. simpl. by rewrite Hd. Qed.

Lemma cost_loop_cons p rest max_time usage w u :
  costs_of (p_dir p) w = Some u ->
  cost_loop (p :: rest) max_time usage w
  = if f32_gt (f32_total u) max_time then cost_loop rest (f32_total u) u w
    else cost_loop rest max_time usage w.
Proof.
  unfold costs_of. destruct (w_work w !! p_dir p) as [d|] eqn:Hd; [|done].
  intros [= <-]. simpl cost_loop. unfold get_file_dirname.
  do 6 (erewrite bind_ok; [|by apply TimeUsage_load_run]). simpl.
  by destruct (f32_gt _ _).
Qed.

Lemma cost_loop_missing p rest max_time usage w :
  costs_of (p_dir p) w = None ->
  cost_loop (p :: rest) max_time usage w = (Err enoent, w).
Proof.
  unfold costs_of. destruct (w_work w !! p_dir p) as [d|] eqn:Hd; [done|]. intros _.
  simpl. apply bind_err. unfold TimeUsage_load. simpl. unfold get_file_dirname.
  by rewrite Hd.
Qed.

(** What the loop hands over: the usage it started with, or the six
    records of one of the candidates. *)
Lemma cost_loop_inv paths max_time usage w r w' :
  cost_loop paths max_time usage w = (r, w') ->
  w' = w /\
  forall m u, r = Ok (m, u) ->
    (m = max_time /\ u = usage) \/
    (exists p, p ∈ paths /\ costs_of (p_dir p) w = Some u /\ m = f32_total u).
Proof.
  revert max_time usage. induction paths as [|p paths IH]; intros max_time usage.
  { intros [= <- <-]. split; [done|]. intros m u [= <- <-]. by left. }
  destruct (costs_of (p_dir p) w) as [u0|] eqn:E.
  - rewrite (cost_loop_cons _ _ _ _ _ _ E).
    destruct (f32_gt (f32_total u0) max_time) eqn:Hgt; intros [-> Hr]%IH; (split; [done|]);
      intros m u Hm; destruct (Hr m u Hm) as [[-> ->]|(q & Hq & Hc & ->)];
      first [by left | right; eexists; split_and!; [|done..]; set_solver].
  - rewrite cost_loop_missing by done. intros [= <- <-]. done.
Qed.

Lemma print_san_cost_nil paths w m :
  cost_loop paths f32_zero [] w = (Ok (m, []), w) ->
  print_san_cost paths w = (Err (out_of_bounds 0 0), w).
Proof. intros Hl. unfold print_san_cost, bind. by rewrite Hl. Qed.

Lemma print_san_cost_six paths w m u :
  cost_loop paths f32_zero [] w = (Ok (m, u), w) -> length u = 6%nat ->
  print_san_cost paths w = (Ok u, w).
Proof.
  intros Hl Hu. unfold print_san_cost, bind. rewrite Hl.
  by destruct u as [|a [|b [|c [|d [|e [|f [|g u]]]]]]].
Qed.

Lemma print_san_cost_state paths w : (print_san_cost paths w).2 = w.
Proof.
  destruct (cost_loop paths f32_zero [] w) as [r w'] eqn:E.
  destruct (cost_loop_inv _ _ _ _ _ _ E) as [-> Hr].
  destruct r as [[m u]|e]; [|by unfold print_san_cost, bind; rewrite E].
  unfold print_san_cost, bind. rewrite E.
  by destruct u as [|a [|b [|c [|d [|e [|f u]]]]]].
Qed.

Lemma costs_of_length dir w u : costs_of dir w = Some u -> length u = 6%nat.
Proof. unfold costs_of. destruct (w_work w !! dir); [|done]. by intros [= <-]. Qed.

(** [m] is the greatest total seen so far: it is the total the loop started
    with or one greater, and no candidate of the loop has a greater one. *)
Lemma cost_loop_max paths max_time usage w m u w' :
  cost_loop paths max_time usage w = (Ok (m, u), w') ->
  (m = max_time \/ f32_gt m max_time = true) /\
  forall p u0, p ∈ paths -> costs_of (p_dir p) w = Some u0 -> f32_gt (f32_total u0) m = false.
Proof.
  revert max_time usage. induction paths as [|p paths IH]; intros max_time usage.
  { intros [= <- <- <-]. split; [by left|]. intros p u0 Hp. by apply elem_of_nil in Hp. }
  destruct (costs_of (p_dir p) w) as [u1|] eqn:E; [|by rewrite cost_loop_missing].
  rewrite (cost_loop_cons _ _ _ _ _ _ E).
  destruct (f32_gt (f32_total u1) max_time) eqn:Hgt; intros [Hm Hrest]%IH.
  - split; [destruct Hm as [->|Hm]; eauto using f32_gt_trans|].
    intros q u0 [->|Hq]%elem_of_cons Hc; [|by eapply Hrest].
    rewrite E in Hc. injection Hc as <-.
    destruct Hm as [->|Hm]; [apply f32_gt_irrefl|].
    destruct (f32_gt (f32_total u1) m) eqn:Hc; [|done].
    by rewrite <- (f32_gt_irrefl m), <- (f32_gt_trans _ _ _ Hm Hc).
  - split; [done|].
    intros q u0 [->|Hq]%elem_of_cons Hc; [|by eapply Hrest].
    rewrite E in Hc. injection Hc as <-.
    destruct Hm as [->|Hm]; [done|].
    destruct (f32_gt (f32_total u1) m) eqn:Hc; [|done].
    by rewrite <- Hgt, <- (f32_gt_trans _ _ _ Hc Hm).
Qed.

End CostFacts.

(** ** The contract of the cost report and of cleanup *)

Section SupervisorClaims.
Context `{Toolchain} `{Harness}.

(** C35: [print_san_cost] reports the slowest candidate: when it returns,
    the world is unchanged, the six times it reports are the recorded times
    of one of the candidates, and no candidate has a greater total. *)
Theorem print_san_cost_reports_slowest paths w usage :
  (print_san_cost paths w).1 = Ok usage ->
  (print_san_cost paths w).2 = w /\
  (exists p, p ∈ paths /\ costs_of (p_dir p) w = Some usage) /\
  forall p u, p ∈ paths -> costs_of (p_dir p) w = Some u ->
    f32_gt (f32_total u) (f32_total usage) = false.
Proof.
  destruct (cost_loop paths f32_zero [] w) as [r w'] eqn:E.
  destruct (cost_loop_inv _ _ _ _ _ _ E) as [-> Hr].
  destruct r as [[m u]|e]; [|by unfold print_san_cost, bind; rewrite E].
  destruct (cost_loop_max _ _ _ _ _ _ _ E) as [_ Hmax].
  destruct (Hr m u eq_refl) as [[-> ->]|(p & Hp & Hc & ->)].
  - by rewrite (print_san_cost_nil _ _ _ E).
  - rewrite (print_san_cost_six _ _ _ _ E (costs_of_length _ _ _ Hc)).
    intros [= <-]. eauto.
Qed.

(** When no candidate has a recorded total above zero, and in
    particular when there is no candidate at all, [print_san_cost] panics
    on the first index of its empty usage vector. *)
Theorem print_san_cost_panics_without_cost paths w :
  Forall (fun p => exists u, costs_of (p_dir p) w = Some u /\
                             f32_gt (f32_total u) f32_zero = false) paths ->
  print_san_cost paths w = (Err (out_of_bounds 0 0), w).
Proof.
  intros Hall. apply (print_san_cost_nil _ _ f32_zero).
  induction Hall as [|p paths (u & Hu & Hgt) _ IH]; [done|].
  by rewrite (cost_loop_cons _ _ _ _ _ _ Hu), Hgt.
Qed.

(** A round without candidates does not return the empty list of
    verdicts: it panics in the cost report, whatever the number of cores. *)
Theorem check_programs_are_correct_empty_panics cores w :
  check_programs_are_correct cores [] w = (Err (out_of_bounds 0 0), w).
Proof. done. Qed.

(** [cleanup_sanitize_dir] on an existing work directory succeeds and
    leaves exactly the entries whose extension is [log], [out], [cc],
    [profdata] or [cost]; the cost log, the other work directories, the
    shared corpus and the feature file are as they were. *)
Theorem cleanup_retains_by_extension dir d w :
  w_work w !! dir = Some d ->
  exists w', cleanup_sanitize_dir dir w = (Ok tt, w') /\
    (forall name, entry (mkPath dir name) w'
                  = if retained name then wd_files d !! name else None) /\
    (forall key, has_cost dir key w' <-> has_cost dir key w) /\
    (forall d', d' <> dir -> w_work w' !! d' = w_work w !! d') /\
    w_shared w' = w_shared w /\ w_global w' = w_global w.
Proof.
  intros Hd. eexists. split; [by apply cleanup_sanitize_dir_run|].
  split_and!; try done.
  - intros name. unfold entry. simpl. rewrite lookup_insert_eq. simpl.
    destruct (retained name) eqn:E.
    + destruct (wd_files d !! name) as [n|] eqn:En.
      * by apply map_lookup_filter_Some.
      * apply map_lookup_filter_None. by left.
    + apply map_lookup_filter_None. right. intros ? _. simpl. congruence.
  - intros key. unfold has_cost. simpl. by rewrite lookup_insert_eq, Hd.
  - intros d' Hne. simpl. by rewrite lookup_insert_ne.
Qed.

(** The binaries the pipeline builds for a candidate, and the source
    itself, survive cleanup; the corpus directory and the merge-control file
    do not. *)
Theorem cleanup_keeps_binaries name :
  name <> "" ->
  retained (set_extension name "out") = true /\
  retained (set_extension name "cov.out") = true /\
  retained (set_extension name "evo.out") = true /\
  retained "corpus" = false /\ retained "merge_control_file" = false.
Proof.
  intros Hn. unfold retained.
  rewrite (extension_set_extension name "out") by done.
  rewrite (extension_set_extension_dotted name "cov" "out" Hn ltac:(done) eq_refl
           : extension (set_extension name "cov.out") = _).
  rewrite (extension_set_extension_dotted name "evo" "out" Hn ltac:(done) eq_refl
           : extension (set_extension name "evo.out") = _).
  done.
Qed.

End SupervisorClaims.

(** ** The cleanup policy of a round *)

Section RoundFacts.
Context `{Toolchain} `{Harness}.

Lemma work_dir_of_inj : Inj (=) (=) work_dir_of.
Proof. intros a b E. unfold work_dir_of in E. by simplify_eq. Qed.

Lemma write_program_run seed_id w :
  exists w1 w2,
    get_work_seed_by_id seed_id w = (Ok (seed_path seed_id), w1) /\
    write_entry (seed_path seed_id) File w1 = (Ok tt, w2) /\
    is_Some (w_work w2 !! work_dir_of seed_id) /\
    forall d, is_Some (w_work w !! d) -> is_Some (w_work w2 !! d).
Proof.
  assert (forall (W : gmap string WorkDir) dir x d,
            is_Some (W !! d) -> is_Some (<[dir := x]> W !! d)) as Hmono.
  { intros W dir x d Hd. destruct (decide (d = dir)) as [->|Hne];
      by rewrite ?lookup_insert_eq, ?lookup_insert_ne by done. }
  unfold get_work_seed_by_id, write_entry, seed_path. simpl.
  destruct (w_work w !! work_dir_of seed_id) as [d0|] eqn:E.
  - exists w. eexists. rewrite E. split_and!; [done..| |]; simpl.
    + by rewrite lookup_insert_eq.
    + auto.
  - eexists. eexists. split; [done|]. simpl. rewrite lookup_insert_eq.
    split_and!; [done| |]; simpl.
    + by rewrite lookup_insert_eq.
    + auto.
Qed.

Lemma write_programs_paths programs acc w paths w' :
  write_programs programs acc w = (Ok paths, w') ->
  paths = acc ++ (seed_path ∘ id <$> programs) /\
  (forall d, is_Some (w_work w !! d) -> is_Some (w_work w' !! d)) /\
  (forall p, p ∈ programs -> is_Some (w_work w' !! work_dir_of (id p))).
Proof.
  revert acc w. induction programs as [|p programs IH]; intros acc w; simpl.
  { intros [= <- <-]. rewrite app_nil_r. split_and!; [done..|]. by intros ? ?%elem_of_nil. }
  destruct (write_program_run (id p) w) as (w1 & w2 & Hp & Hw & Hd & Hm).
  rewrite (bind_ok _ _ _ _ _ Hp), (bind_ok _ _ _ _ _ Hw).
  intros (-> & Hmono & Hall)%IH. split_and!.
  - by rewrite <- app_assoc.
  - auto.
  - intros q [->|Hq]%elem_of_cons; auto.
Qed.

Lemma cleanup_verdict_inv paths i v w w1 :
  cleanup_verdict paths (i, v) w = (Ok tt, w1) ->
  exists p d, paths !! i = Some p /\ w_work w !! p_dir p = Some d /\
    w1 = set_work (fun W => if kept v then <[p_dir p := cleaned d]> W
                           else delete (p_dir p) W) w.
Proof.
  unfold cleanup_verdict, index. destruct (paths !! i) as [p|]; [|done].
  rewrite bind_ret_l. unfold get_file_dirname.
  destruct (w_work w !! p_dir p) as [d|] eqn:Hd.
  - rewrite (bind_ok _ _ _ _ _ (cleanup_sanitize_dir_run _ _ _ Hd)).
    intros Hv. exists p, d. split_and!; [done..|].
    destruct v as [[]|]; simpl in *; try (by injection Hv as <-);
      unfold remove_work_dir in Hv; simpl in Hv; rewrite lookup_insert_eq in Hv;
      injection Hv as <-; destruct w; unfold set_work; simpl; by rewrite delete_insert_eq.
  - by rewrite (bind_err _ _ _ _ _ (cleanup_sanitize_dir_missing _ _ Hd)).
Qed.

(** The cleanup loop over the verdicts from index [k] on: the directory
    of every candidate it visits is cleaned or removed according to its
    verdict, and no other directory changes. *)
Lemma cleanup_loop_inv paths k vs w w' :
  NoDup (p_dir <$> paths) ->
  for_each (cleanup_verdict paths) (zip (seq k (length vs)) vs) w = (Ok tt, w') ->
  (forall j p v, vs !! j = Some v -> paths !! (k + j)%nat = Some p ->
     w_work w' !! p_dir p
     = if kept v then cleaned <$> w_work w !! p_dir p else None) /\
  (forall d, (forall j p, (j < length vs)%nat -> paths !! (k + j)%nat = Some p -> p_dir p <> d) ->
     w_work w' !! d = w_work w !! d).
Proof.
  intros Hnd. revert k w. induction vs as [|v vs IH]; intros k w; simpl.
  { intros [= <-]. split; [by intros ? ? ? ?|done]. }
  intros ([] & w1 & (p & d & Hp & Hd & ->)%cleanup_verdict_inv & Hrest)%bind_inv_ok.
  apply IH in Hrest as [Hvis Hframe].
  assert (forall j q, paths !! (S k + j)%nat = Some q -> p_dir q <> p_dir p) as Hdist.
  { intros j q Hq E. pose proof (NoDup_lookup _ (S k + j)%nat k (p_dir p) Hnd) as Hi.
    rewrite !list_lookup_fmap, Hq, Hp in Hi. simpl in Hi. rewrite E in Hi.
    specialize (Hi eq_refl eq_refl). lia. }
  split.
  - intros [|j] q v' Hv Hq; simpl in Hv.
    + rewrite Nat.add_0_r, Hp in Hq. injection Hv as <-. injection Hq as <-.
      rewrite Hframe by (intros j q _ Hq; by eapply Hdist).
      simpl. rewrite Hd. destruct (kept v); simpl; [apply lookup_insert_eq|apply lookup_delete_eq].
    + rewrite <- Nat.add_succ_comm in Hq. rewrite (Hvis j q v' Hv Hq). simpl.
      assert (p_dir q <> p_dir p) by (by eapply Hdist).
      destruct (kept v); by rewrite ?lookup_insert_ne, ?lookup_delete_ne.
  - intros d' Hd'. rewrite Hframe.
    + assert (p_dir p <> d') by (apply (Hd' 0%nat); [lia|by rewrite Nat.add_0_r]).
      simpl. destruct (kept v); by rewrite ?lookup_insert_ne, ?lookup_delete_ne.
    + intros j q Hj Hq. apply (Hd' (S j)); [lia|]. by rewrite <- Nat.add_succ_comm.
Qed.

Lemma keeps_cleanup_sanitize_dir dir : steps (keeps shared_state) (cleanup_sanitize_dir dir).
Proof. unfold cleanup_sanitize_dir, cleanup_file. sm_steps. Qed.

Lemma keeps_get_work_seed_by_id seed_id :
  steps (keeps shared_state) (get_work_seed_by_id seed_id).
Proof. intros w. unfold get_work_seed_by_id. by destruct (w_work w !! _). Qed.

Lemma keeps_write_programs programs paths :
  steps (keeps shared_state) (write_programs programs paths).
Proof.
  revert paths. induction programs as [|program programs IH]; intros paths; simpl.
  - apply steps_ret; apply _.
  - pose proof keeps_get_work_seed_by_id. sm_steps.
Qed.

Lemma keeps_cleanup_verdict paths item :
  steps (keeps shared_state) (cleanup_verdict paths item).
Proof.
  unfold cleanup_verdict, index. pose proof keeps_cleanup_sanitize_dir.
  destruct item as [i v]. sm_steps.
Qed.

(** A round moves the shared state forward only. *)
Lemma steps_check_programs_are_correct cores programs :
  steps grows (check_programs_are_correct cores programs).
Proof.
  unfold check_programs_are_correct.
  apply steps_bind; [apply _ | apply steps_keeps_grows, keeps_write_programs | intros paths].
  apply steps_bind; [apply _ | | intros res].
  { eapply steps_mono; [|apply steps_concurrent_check]. by intros w w' [_ _ g s]. }
  apply steps_bind; [apply _ | | intros usage].
  { intros w. rewrite print_san_cost_state. done. }
  apply steps_bind; [apply _ | | intros []; apply steps_ret; apply _].
  apply steps_for_each; [apply _|]. intros item.
  apply steps_keeps_grows, keeps_cleanup_verdict.
Qed.

End RoundFacts.

Section RoundClaims.
Context `{Toolchain} `{Harness}.

(** C5: When a round over candidates with distinct ids returns, it returns
    one verdict per candidate, and the work directories follow the cleanup
    policy: the directory of a candidate that was accepted, hung or crashed
    the fuzzer is still there and holds only files with a retained
    extension; the directory of every other candidate is gone. *)
Theorem round_cleanup_policy cores programs w res :
  NoDup (id <$> programs) ->
  (check_programs_are_correct cores programs w).1 = Ok res ->
  let w' := (check_programs_are_correct cores programs w).2 in
  length res = length programs /\
  forall i program v, programs !! i = Some program -> res !! i = Some v ->
    if kept v
    then exists d, w_work w' !! work_dir_of (id program) = Some d /\
           forall name, is_Some (wd_files d !! name) -> retained name = true
    else w_work w' !! work_dir_of (id program) = None.
Proof.
  intros Hnd. destruct (check_programs_are_correct cores programs w) as [r w'] eqn:E.
  simpl. intros ->. unfold check_programs_are_correct in E.
  apply bind_inv_ok in E as (paths & w1 & (-> & _ & Hdirs)%write_programs_paths & E).
  simpl app in E. set (paths := seed_path ∘ id <$> programs) in *.
  apply bind_inv_ok in E as (res' & w2 & Hc & E).
  apply bind_inv_ok in E as (u & w3 & Hp & E).
  apply bind_inv_ok in E as ([] & w4 & Hl & [= -> ->]).
  pose proof (print_san_cost_state paths w2) as Hw3.
  rewrite Hp in Hw3. simpl in Hw3. subst w3.
  pose proof (concurrent_check_ok_length _ _ _ _ _ Hc) as Hlen.
  unfold paths in Hlen. rewrite length_fmap in Hlen. split; [done|].
  intros i program v Hi Hv.
  assert (NoDup (p_dir <$> paths)) as Hnd'.
  { unfold paths. rewrite <- list_fmap_compose.
    apply (NoDup_fmap_2 work_dir_of) in Hnd. by rewrite <- list_fmap_compose in Hnd. }
  destruct (cleanup_loop_inv _ 0 _ _ _ Hnd' Hl) as [Hvis _].
  specialize (Hvis i (seed_path (id program)) v Hv).
  change (0 + i)%nat with i in Hvis.
  unfold paths in Hvis. rewrite list_lookup_fmap, Hi in Hvis.
  specialize (Hvis eq_refl). simpl in Hvis. rewrite Hvis.
  destruct (kept v); [|done].
  destruct (steps_concurrent_check paths cores w1) as [_ Hd _ _].
  rewrite Hc in Hd. simpl in Hd.
  destruct (proj1 (Hd _) (Hdirs program (list_elem_of_lookup_2 _ _ _ Hi))) as [d2 Hd2].
  rewrite Hd2. exists (cleaned d2). split; [done|].
  intros name [n Hn]. simpl in Hn. by apply map_lookup_filter_Some in Hn as [_ ?].
Qed.

(** C10: the persisted features and the shared corpus are monotonic over
    rounds: after any number of rounds of [check_programs_are_correct],
    whatever the verdicts and also when a round ends with an error or a
    panic, every feature that was in the global feature file and every
    input that was in the shared corpus is still there. *)
Theorem rounds_grow_shared_state cores (rounds : list (list Program)) w :
  grows w (map_m (check_programs_are_correct cores) rounds w).2.
Proof. apply steps_map_m; [apply _|]. intros programs. apply steps_check_programs_are_correct. Qed.

End RoundClaims.

(** ** The supervisor on the running example *)

Definition demo_programs : list Program := [mkProgram 1; mkProgram 2; mkProgram 3].

(** No work directory yet, a shared corpus of one seed. *)
Definition demo_start : World := mkWorld ∅ {["seed0"]} (Some {[1%N; 2%N]}) 0.

(** A work directory after an interrupted run: source, binary, local
    corpus and control file. *)
Definition demo_litter : WorkDir :=
  mkWorkDir {[ "1.cc" := File; "1.out" := File; "corpus" := Dir {["in_a"]};
               "merge_control_file" := ControlFile demo_corpora ]}
            {[ "syntax" := f32_of_Z 2 ]}.

Definition demo_litter_world : World :=
  mkWorld {[ "work/1" := demo_litter ]} ∅ None 0.

Lemma print_san_cost_reports_slowest_witness :
  (print_san_cost [mkPath "work/1" "1.cc"] demo_litter_world).2
  = demo_litter_world /\
  (exists p, p ∈ [mkPath "work/1" "1.cc"] /\
     costs_of (p_dir p) demo_litter_world
     = Some [f32_of_Z 2; f32_zero; f32_zero; f32_zero; f32_zero; f32_zero]) /\
  forall p u, p ∈ [mkPath "work/1" "1.cc"] -> costs_of (p_dir p) demo_litter_world = Some u ->
    f32_gt (f32_total u)
      (f32_total [f32_of_Z 2; f32_zero; f32_zero; f32_zero; f32_zero; f32_zero]) = false.
Proof.
  apply print_san_cost_reports_slowest. vm_compute. reflexivity.
Defined.

Lemma print_san_cost_panics_without_cost_witness :
  print_san_cost demo_paths demo_batch_world
  = (Err (out_of_bounds 0 0), demo_batch_world).
Proof.
  apply print_san_cost_panics_without_cost.
  repeat constructor; eexists; (split; [reflexivity|]); vm_compute; reflexivity.
Defined.

Lemma cleanup_retains_by_extension_witness :
  exists w', cleanup_sanitize_dir "work/1" demo_litter_world = (Ok tt, w') /\
    (forall name, entry (mkPath "work/1" name) w'
                  = if retained name then wd_files demo_litter !! name else None) /\
    (forall key, has_cost "work/1" key w' <-> has_cost "work/1" key demo_litter_world) /\
    (forall d', d' <> "work/1" -> w_work w' !! d' = w_work demo_litter_world !! d') /\
    w_shared w' = w_shared demo_litter_world /\ w_global w' = w_global demo_litter_world.
Proof. apply (cleanup_retains_by_extension "work/1" demo_litter). reflexivity. Defined.

Lemma cleanup_keeps_binaries_witness :
  retained (set_extension "1.cc" "out") = true /\
  retained (set_extension "1.cc" "cov.out") = true /\
  retained (set_extension "1.cc" "evo.out") = true /\
  retained "corpus" = false /\ retained "merge_control_file" = false.
Proof. apply (cleanup_keeps_binaries "1.cc"). discriminate. Defined.

Lemma round_cleanup_policy_witness :
  let w' := (@check_programs_are_correct demo_toolchain (demo_harness true) 2
               demo_programs demo_start).2 in
  length demo_verdicts = length demo_programs /\
  forall i program v, demo_programs !! i = Some program -> demo_verdicts !! i = Some v ->
    if kept v
    then exists d, w_work w' !! work_dir_of (id program) = Some d /\
           forall name, is_Some (wd_files d !! name) -> retained name = true
    else w_work w' !! work_dir_of (id program) = None.
Proof.
  apply (@round_cleanup_policy demo_toolchain (demo_harness true) 2 demo_programs demo_start).
  - apply (bool_decide_unpack _). vm_compute. exact I.
  - vm_compute. reflexivity.
Defined.
