(* ===== verification/Round.v ===== *)
(** * A round over one candidate, end to end
    (src/execution/sanitize.rs, [check_programs_are_correct])

    What [check_programs_are_correct] returns and leaves on disk for a new
    candidate, in terms of what the external tools answer on it: the
    theorems of Stages (the pipeline), Batch (the worker and its error
    channel) and Supervisor (writing the candidate, the cost report, the
    cleanup) composed into one statement per scenario.

    The cost report decides how a round ends.  When the six recorded times of
    the candidate sum to more than zero the round returns the verdict and
    cleans the work directory; when they do not, [print_san_cost] panics on
    its empty vector after the candidate has been checked, and the work
    directory is left as the pipeline left it. *)

From stdpp Require Import pretty.
From S2P Require Import Prelude Loops Paths Float32 Feature World Fixture Evolve Stages.
From S2P Require Import Batch Supervisor.

Local Open Scope string_scope.
Local Open Scope list_scope.

(** ** The answers of the tools *)

Section Answers.
Context `{Toolchain}.

(** The tools let the candidate at [p] through to the coverage check:
    the compiler accepts it under the three profiles, it runs on the shared
    corpus, libFuzzer ends normally having found the inputs [found], the
    merge writes the control data [c], and the copies to the shared corpus
    succeed.  [uncovered] is what the coverage check answers and [summary]
    what the coverage dump prints. *)
Record reaches_coverage (p : Path) (found : gset string) (cov : CodeCoverage)
    (summary : string) (c : CorporaFeatures) (uncovered : bool) : Prop := {
  rc_syntax : exists stderr, forall w, tc_syntax p w = Some (mkOutput true stderr);
  rc_dedup : forall w, tc_remove_duplicate_definition p w = Ok tt;
  rc_link : forall w, tc_compile FUZZER p w = Ok tt;
  rc_transformer : forall w, tc_transformer_new p w = Ok tt;
  rc_fd_sanitizer : forall w, tc_add_fd_sanitizer p w = Ok tt;
  rc_preprocess : forall w, tc_preprocess p w = Ok tt;
  rc_execute : forall w, tc_execute_pool (with_extension p "out") w = None;
  rc_fuzz : forall w, tc_execute_fuzzer (with_extension p "out") w = (Ok tt, found);
  rc_cov_link : forall w, tc_compile COVERAGE p w = Ok tt;
  rc_collect : forall w, tc_collect_code_coverage (with_extension p "cov.out") w = Ok cov;
  rc_uncovered : forall w, tc_sanitize_by_fuzzer_coverage p cov w = Ok uncovered;
  rc_dump : forall w, tc_dump_fuzzer_coverage (with_extension p "cov.out") w = Ok summary;
  rc_min_link : forall w, tc_compile Minimize p w = Ok tt;
  rc_merge : forall w,
    tc_minimize (with_extension p "evo.out") (path_join (p_dir p) "corpus") w = Ok (Some c);
  rc_copy : forall file w, tc_copy file w = Ok tt;
}.

(** The store [evolve_corpus] starts from: the one in the feature file, or
    the one seeded from the shared corpus when there is no file. *)
Definition starts_from (p : Path) (G : option GlobalFeature) (g0 : GlobalFeature) : Prop :=
  G = Some g0 \/
  (G = None /\ forall w, tc_init_by_corpus (with_extension p "evo.out") w = Ok g0).

(** The entries of the work directory when the pipeline has run to its
    end: the source, the init file and the three binaries. *)
Definition checked_files (name : string) (F : gmap string node) : gmap string node :=
  delete "merge_control_file" (with_binaries name tc_init_file F).

(** The pipeline on such a candidate, whatever else its directory holds. *)
Lemma succeeds_pipeline dir name F K Sh G g0 found cov summary c uncovered :
  reaches_coverage (mkPath dir name) found cov summary c uncovered ->
  starts_from (mkPath dir name) G g0 ->
  F !! "corpus" = None -> tc_init_file <> Some "corpus" ->
  succeeds (at_dir dir F K Sh G) (check_program_is_correct (mkPath dir name))
    (fun r w => r = coverage_verdict uncovered summary /\
       at_dir dir (checked_files name F) (stage_keys 6 ∪ K)
         (Sh ∪ list_to_set (interesting (cf_entries c) g0))
         (Some (g0 ∪ all_features (cf_entries c))) w).
Proof.
  intros [[stderr Hsyn] ? ? ? ? ? ? ? ? ? ? ? ? ? ?] Hg HF Hi.
  by eapply (succeeds_check dir name F K Sh G HF Hi stderr).
Qed.

End Answers.

(** ** The round *)

(** The six records of a cost log, zero where there is none. *)
Definition six_costs (C : gmap string f32) : list f32 :=
  (fun key => default f32_zero (C !! key)) <$>
    ["syntax"; "link"; "execute"; "fuzz"; "coverage"; "update"].

(** Whether any time was recorded. *)
Definition timed (C : gmap string f32) : bool := f32_gt (f32_total (six_costs C)) f32_zero.

(** How a round over the one candidate of [dir] ends when the pipeline has
    returned the verdict [v] and left the entries [F] and cost records under
    the keys [K]: with the verdict and the directory cleaned or removed, or
    with the panic of the cost report and the directory as it was. *)
Definition round_ends (run : result (list (option ProgramError)) * World) (dir : string)
    (v : option ProgramError) (F : gmap string node) (K : gset string) : Prop :=
  exists C, dom C = K /\
    if timed C
    then run.1 = Ok [v] /\
         w_work run.2 !! dir = (if kept v then Some (cleaned (mkWorkDir F C)) else None)
    else run.1 = Err (out_of_bounds 0 0) /\
         w_work run.2 !! dir = Some (mkWorkDir F C).

(** The source file of a candidate is not the corpus directory. *)
Lemma seed_name_fresh seed_id :
  ({[p_name (seed_path seed_id) := File]} : gmap string node) !! "corpus" = None.
Proof.
  apply lookup_singleton_ne. intros E.
  pose proof (has_dot_app_dot (pretty seed_id) "cc") as Hd.
  unfold seed_path in E. simpl in E. change ("." +:+ "cc") with ".cc" in Hd.
  by rewrite E in Hd.
Qed.

Section Round.
Context `{Toolchain} `{Harness}.
Context (cores : nat) (program : Program).
Let dir := work_dir_of (id program).
Let p := seed_path (id program).

(** Writing a candidate that has no work directory yet. *)
Lemma write_programs_fresh w :
  w_work w !! dir = None ->
  exists w1,
    write_programs [program] [] w = (Ok [p], w1) /\
    at_dir dir {[p_name p := File]} ∅ (w_shared w) (w_global w) w1 /\
    forall d, d <> dir -> w_work w1 !! d = w_work w !! d.
Proof.
  intros Hd. eexists. split_and!.
  - simpl. unfold bind, get_work_seed_by_id, write_entry, ret. fold dir. rewrite Hd.
    simpl. by rewrite lookup_insert_eq.
  - split; [|done]. exists ∅. simpl. rewrite lookup_insert_eq. split; [|done].
    unfold set_files. simpl. by rewrite insert_empty.
  - intros d Hne. simpl. by rewrite !lookup_insert_ne.
Qed.

(** The cost report over one candidate. *)
Lemma print_san_cost_one F C w :
  w_work w !! dir = Some (mkWorkDir F C) ->
  print_san_cost [p] w
  = (if timed C then Ok (six_costs C) else Err (out_of_bounds 0 0), w).
Proof.
  intros Hd.
  assert (costs_of (p_dir p) w = Some (six_costs C)) as Hc.
  { unfold costs_of. simpl. fold dir. by rewrite Hd. }
  unfold timed. destruct (f32_gt _ _) eqn:Hgt.
  - apply (print_san_cost_six _ _ (f32_total (six_costs C))); [|done].
    by rewrite (cost_loop_cons _ _ _ _ _ _ Hc), Hgt.
  - apply (print_san_cost_nil _ _ f32_zero).
    by rewrite (cost_loop_cons _ _ _ _ _ _ Hc), Hgt.
Qed.

(** The cleanup after the verdict of the one candidate. *)
Lemma cleanup_one F C v w :
  w_work w !! dir = Some (mkWorkDir F C) ->
  for_each (cleanup_verdict [p]) (zip (seq 0 1) [v]) w
  = (Ok tt, set_work (fun W => if kept v then <[dir := cleaned (mkWorkDir F C)]> W
                               else delete dir W) w).
Proof.
  intros Hd. simpl for_each.
  assert (cleanup_verdict [p] (0%nat, v) w
          = (Ok tt, set_work (fun W => if kept v then <[dir := cleaned (mkWorkDir F C)]> W
                                       else delete dir W) w)) as Hrun.
  { unfold cleanup_verdict, index. simpl. rewrite bind_ret_l. unfold get_file_dirname.
    simpl. fold dir. rewrite (bind_ok _ _ _ _ _ (cleanup_sanitize_dir_run _ _ _ Hd)).
    destruct v as [[]|]; simpl; try done;
      unfold remove_work_dir; simpl; rewrite lookup_insert_eq;
      destruct w; unfold set_work; simpl; by rewrite delete_insert_eq. }
  by rewrite (bind_ok _ _ _ _ _ Hrun).
Qed.

(** A round over a new candidate whose pipeline returns the verdict [v]:
    the candidate is written and checked, and then the round ends in one
    of two ways, according to the times recorded. *)
Lemma round_one F1 K1 S1 G1 v w :
  (0 < cores)%nat ->
  w_work w !! dir = None ->
  (forall w, hs_spawn p w = true) ->
  succeeds (at_dir dir {[p_name p := File]} ∅ (w_shared w) (w_global w))
    (check_program_is_correct p) (fun r w' => r = v /\ at_dir dir F1 K1 S1 G1 w') ->
  exists w2 C,
    w_work w2 !! dir = Some (mkWorkDir F1 C) /\ dom C = K1 /\
    w_shared w2 = S1 /\ w_global w2 = G1 /\
    check_programs_are_correct cores [program] w
    = if timed C
      then (Ok [v], set_work (fun W => if kept v then <[dir := cleaned (mkWorkDir F1 C)]> W
                                       else delete dir W) w2)
      else (Err (out_of_bounds 0 0), w2).
Proof.
  intros Hc Hd Hs Hp.
  destruct (write_programs_fresh w Hd) as (w1 & Hw & Hw1 & _).
  destruct (succeeds_run_value _ _ _ _ (tick w1) Hp (at_dir_tick _ _ _ _ _ _ Hw1))
    as (w2 & Hrun & (C & Hd2 & HK) & HS & HG).
  exists w2, C. split_and!; [done..|].
  assert (concurrent_check [p] cores w1 = (Ok [v], w2)) as Hcheck.
  { rewrite (concurrent_check_spec [p] cores Hc w1). simpl map_m.
    by rewrite (bind_ok _ _ _ _ _ (check_one_run _ _ _ _ (Hs w1) Hrun)), !bind_ret_l. }
  unfold check_programs_are_correct.
  rewrite (bind_ok _ _ _ _ _ Hw), (bind_ok _ _ _ _ _ Hcheck).
  unfold bind at 1. rewrite (print_san_cost_one _ _ _ Hd2).
  destruct (timed C); [|done].
  by rewrite (bind_ok _ _ _ _ _ (cleanup_one _ _ v _ Hd2)).
Qed.

Lemma round_one_ends F1 K1 S1 G1 v w :
  (0 < cores)%nat ->
  w_work w !! dir = None ->
  (forall w, hs_spawn p w = true) ->
  succeeds (at_dir dir {[p_name p := File]} ∅ (w_shared w) (w_global w))
    (check_program_is_correct p) (fun r w' => r = v /\ at_dir dir F1 K1 S1 G1 w') ->
  let run := check_programs_are_correct cores [program] w in
  round_ends run dir v F1 K1 /\ w_shared run.2 = S1 /\ w_global run.2 = G1.
Proof.
  intros Hc Hd Hs Hp.
  destruct (round_one F1 K1 S1 G1 v w Hc Hd Hs Hp) as (w2 & C & Hd2 & HK & HS & HG & ->).
  cbv zeta. unfold round_ends.
  destruct (timed C) eqn:Ht; (split; [exists C; rewrite Ht|done]); (split; [done|]); simpl;
    [|done..].
  split; [done|]. destruct (kept v); [apply lookup_insert_eq | apply lookup_delete_eq].
Qed.

End Round.

(** ** The scenarios *)

Section RoundClaims.
Context `{Toolchain} `{Harness}.
Context (cores : nat) (program : Program).
Let dir := work_dir_of (id program).
Let p := seed_path (id program).
Let name := p_name p.

Context (one_core : (0 < cores)%nat).
Context (spawns : forall w, hs_spawn p w = true).
Context (init_not_corpus : tc_init_file <> Some "corpus").

(** C6: A round over a new candidate that the tools let through to the
    coverage check returns the verdict of that check: none, and the work
    directory is kept with the files cleanup retains, or [Coverage] with the
    dumped summary, and the work directory is removed.  Either way the
    shared corpus has gained the interesting inputs of the candidate and
    the feature file their features.  When no time was recorded the round
    panics in the cost report instead, after the candidate was checked. *)
Theorem round_at_coverage found cov summary c uncovered g0 w :
  w_work w !! dir = None ->
  reaches_coverage p found cov summary c uncovered ->
  starts_from p (w_global w) g0 ->
  let run := check_programs_are_correct cores [program] w in
  round_ends run dir (coverage_verdict uncovered summary)
    (checked_files name {[name := File]}) (stage_keys 6) /\
  w_shared run.2 = w_shared w ∪ list_to_set (interesting (cf_entries c) g0) /\
  w_global run.2 = Some (g0 ∪ all_features (cf_entries c)).
Proof.
  intros Hd Hrc Hg. rewrite <- (right_id_L ∅ (∪) (stage_keys 6)).
  apply round_one_ends; [done..|].
  apply (succeeds_pipeline dir name _ _ _ _ g0 found cov summary c uncovered); try done.
  apply seed_name_fresh.
Qed.

(** A round over a new candidate that does not parse returns the
    [Syntax] verdict with the compiler's diagnostics and removes the work
    directory; the shared corpus and the feature file are untouched. *)
Theorem round_rejects_at_syntax diagnostics w :
  w_work w !! dir = None ->
  (forall w, tc_syntax p w = Some (mkOutput false diagnostics)) ->
  let run := check_programs_are_correct cores [program] w in
  round_ends run dir (Some (Syntax diagnostics)) {[name := File]} (stage_keys 1) /\
  w_shared run.2 = w_shared w /\ w_global run.2 = w_global w.
Proof.
  intros Hd Hsyn. rewrite <- (right_id_L ∅ (∪) (stage_keys 1)).
  apply round_one_ends; [done..|]. apply succeeds_of_run. intros w1.
  by apply check_rejects_at_syntax.
Qed.

(** C28: A round over a new candidate that builds but fails on an input of
    the shared corpus returns the verdict of the run: the work directory of
    a candidate that hung is kept, with its source and its binary, and that
    of a candidate that crashed is removed. *)
Theorem round_rejects_at_execute stderr e w :
  w_work w !! dir = None ->
  (forall w, tc_syntax p w = Some (mkOutput true stderr)) ->
  (forall w, tc_remove_duplicate_definition p w = Ok tt) ->
  (forall w, tc_compile FUZZER p w = Ok tt) ->
  (forall w, tc_transformer_new p w = Ok tt) ->
  (forall w, tc_add_fd_sanitizer p w = Ok tt) ->
  (forall w, tc_preprocess p w = Ok tt) ->
  (forall w, tc_execute_pool (with_extension p "out") w = Some e) ->
  let run := check_programs_are_correct cores [program] w in
  round_ends run dir (Some e) (with_fuzzer name tc_init_file {[name := File]})
    (stage_keys 3) /\
  w_shared run.2 = w_shared w /\ w_global run.2 = w_global w.
Proof.
  intros Hd ? ? ? ? ? ? ?. rewrite <- (right_id_L ∅ (∪) (stage_keys 3)).
  apply round_one_ends; [done..|]. apply succeeds_of_run. intros w1 Hw1.
  destruct (check_rejects_at_execute dir name {[name := File]} ∅ (w_shared w) (w_global w)
              (seed_name_fresh _) init_not_corpus stderr
              ltac:(done) ltac:(done) ltac:(done) ltac:(done) ltac:(done) ltac:(done)
              e w1 ltac:(done) Hw1) as (w' & Hr & Hw' & _).
  eauto.
Qed.

End RoundClaims.

(** ** The scenarios on the running example *)

(** A library with a shared corpus of one seed, a feature file with two
    features, and no work directory yet. *)
Definition new_world : World := {|
  w_work := ∅;
  w_shared := {[ "seed0" ]};
  w_global := Some {[ 1%N; 2%N ]};
  w_clock := 0;
|}.

Definition new_program : Program := mkProgram 1.

Lemma all_pass_reaches_coverage uncovered :
  @reaches_coverage (scenario_toolchain (with_uncovered (Ok uncovered) all_pass))
    (seed_path 1) {["in_a"; "in_b"; "in_c"]} 0%N "coverage summary" demo_corpora uncovered.
Proof. split; try reflexivity. by eexists. Defined.

Lemma round_at_coverage_witness :
  let run := @check_programs_are_correct (scenario_toolchain (with_uncovered (Ok true) all_pass))
               (demo_harness true) 2 [new_program] new_world in
  round_ends run (work_dir_of 1)
    (coverage_verdict true "coverage summary")
    (@checked_files (scenario_toolchain (with_uncovered (Ok true) all_pass))
       (p_name (seed_path 1)) {[p_name (seed_path 1) := File]}) (stage_keys 6) /\
  w_shared run.2
  = w_shared new_world ∪ list_to_set (interesting (cf_entries demo_corpora) {[1; 2]}%N) /\
  w_global run.2 = Some ({[1; 2]}%N ∪ all_features (cf_entries demo_corpora)).
Proof.
  apply (@round_at_coverage (scenario_toolchain (with_uncovered (Ok true) all_pass))
           (demo_harness true) 2 new_program ltac:(lia) ltac:(done) ltac:(done)
           {["in_a"; "in_b"; "in_c"]} 0%N "coverage summary" demo_corpora true {[1; 2]}%N
           new_world).
  - reflexivity.
  - apply all_pass_reaches_coverage.
  - by left.
Defined.

Lemma round_rejects_at_syntax_witness :
  let tc := scenario_toolchain (with_syntax (Some (mkOutput false "expected ';'")) all_pass) in
  let run := @check_programs_are_correct tc (demo_harness true) 2 [new_program] new_world in
  round_ends run (work_dir_of 1) (Some (Syntax "expected ';'"))
    {[p_name (seed_path 1) := File]} (stage_keys 1) /\
  w_shared run.2 = w_shared new_world /\ w_global run.2 = w_global new_world.
Proof.
  apply (@round_rejects_at_syntax
           (scenario_toolchain (with_syntax (Some (mkOutput false "expected ';'")) all_pass))
           (demo_harness true) 2 new_program ltac:(lia) ltac:(done) "expected ';'" new_world).
  - reflexivity.
  - reflexivity.
Defined.

Lemma round_rejects_at_execute_witness :
  let tc := scenario_toolchain (with_execute (Some (true, "timeout")) all_pass) in
  let run := @check_programs_are_correct tc (demo_harness true) 2 [new_program] new_world in
  round_ends run (work_dir_of 1) (Some (Hang "timeout"))
    (with_fuzzer (p_name (seed_path 1)) None {[p_name (seed_path 1) := File]}) (stage_keys 3) /\
  w_shared run.2 = w_shared new_world /\ w_global run.2 = w_global new_world.
Proof.
  apply (@round_rejects_at_execute
           (scenario_toolchain (with_execute (Some (true, "timeout")) all_pass))
           (demo_harness true) 2 new_program ltac:(lia) ltac:(done) ltac:(done)
           "" (Hang "timeout") new_world); reflexivity.
Defined.

(** The accepted candidate of the example: the round returns no verdict
    and keeps the source and the three binaries. *)
Example round_accepts_demo :
  let run := @check_programs_are_correct (scenario_toolchain all_pass) (demo_harness true) 2
               [new_program] new_world in
  run.1 = Ok [None] /\
  (dom <$> (wd_files <$> w_work run.2 !! "work/1"))
  = Some {["1.cc"; "1.out"; "1.cov.out"; "1.evo.out"]}.
Proof. cbv zeta. split; apply (bool_decide_unpack _); vm_compute; exact I. Qed.

(** With a clock that does not advance no time is recorded, and the same
    round panics in its cost report: the candidate has been checked and
    merged, its directory is not cleaned, and no verdict is returned. *)
Example round_without_time_panics :
  let tc := with_elapsed (fun _ _ _ => f32_zero) (scenario_toolchain all_pass) in
  let run := @check_programs_are_correct tc (demo_harness true) 2 [new_program] new_world in
  run.1 = Err (out_of_bounds 0 0) /\
  w_global run.2 = Some {[1; 2; 3; 7]}%N /\
  (dom <$> (wd_files <$> w_work run.2 !! "work/1"))
  = Some {["1.cc"; "1.out"; "1.cov.out"; "1.evo.out"]}.
Proof. cbv zeta. split_and!; apply (bool_decide_unpack _); vm_compute; exact I. Qed.
