(* ===== verification/Recheck.v ===== *)
(** * Recheck (src/execution/sanitize.rs, [recheck_seed])

    After the first convergence of the fuzz loop every accepted seed is
    compiled and executed again on the shared corpus, which has grown since
    the seed was accepted.  A seed that now fails is moved to the error
    archive and leaves the directory of accepted seeds, the seed directory
    and the seed queue of the outer loop.

    The state is what the function reads and writes of the library's output
    directory: the accepted seeds as the sorted listing of their directory,
    the ids that have a file in the seed directory, the error archive, and
    the queue.  Compiling and executing are the two oracles of the section. *)

From S2P Require Import Prelude Loops World Supervisor.

Local Open Scope string_scope.

Record Library : Type := mkLibrary {
  succ_seeds : list (string * Program);
  seeds : gset N;
  err_seeds : gmap N ProgramError;
  seed_queue : list N;
}.

Definition no_such_file : fault := Report "No such file or directory (os error 2)".

(** [Program::load_from_path] on a file of the directory of accepted seeds. *)
Fixpoint lookup_file (path : string) (dir : list (string * Program)) : option Program :=
  match dir with
  | [] => None
  | e :: dir' => if decide (e.1 = path) then Some e.2 else lookup_file path dir'
  end.

Definition load_from_path (path : string) : M Library Program :=
  fun l => match lookup_file path (succ_seeds l) with
           | Some p => (Ok p, l)
           | None => (Err no_such_file, l)
           end.

Definition remove_entry (path : string) (dir : list (string * Program)) :
    list (string * Program) :=
  filter (fun e => e.1 <> path) dir.

(** [std::fs::remove_file] on an accepted seed. *)
Definition remove_succ_seed (path : string) : M Library unit :=
  fun l => match lookup_file path (succ_seeds l) with
           | Some _ => (Ok tt, mkLibrary (remove_entry path (succ_seeds l)) (seeds l)
                                 (err_seeds l) (seed_queue l))
           | None => (Err no_such_file, l)
           end.

(** [Deopt::save_err_program]: the program and its verdict, filed by id. *)
Definition save_err_program (p : Program) (err_msg : ProgramError) : M Library unit :=
  modify (fun l => mkLibrary (succ_seeds l) (seeds l) (<[id p := err_msg]> (err_seeds l))
                     (seed_queue l)).

(** [std::fs::remove_file] on a file of the seed directory that exists. *)
Definition remove_seed (seed_id : N) : M Library unit :=
  modify (fun l => mkLibrary (succ_seeds l) (seeds l ∖ {[seed_id]}) (err_seeds l)
                     (seed_queue l)).

(** [Deopt::delete_seed_from_queue] *)
Definition delete_seed_from_queue (p : Program) : M Library unit :=
  modify (fun l => mkLibrary (succ_seeds l) (seeds l) (err_seeds l)
                     (filter (fun i => i <> id p) (seed_queue l))).

Section Recheck.
(** [Executor::compile_seed] and [Executor::execute_pool] on the binary of
    a seed and the shared corpus as it is now. *)
Context (compile_seed : N -> result unit).
Context (execute_pool : N -> option ProgramError).

(** Lines 319-337: the body of the loop. *)
Definition recheck_one (succ_seed : string) : M Library unit :=
  let* seed_program := load_from_path succ_seed in
  let seed_id := id seed_program in
  do* lift (compile_seed seed_id) in
  let has_err := execute_pool seed_id in
  match has_err with
  | Some err_msg =>
      do* save_err_program seed_program err_msg in
      do* remove_succ_seed succ_seed in
      let* seed_exists := gets (fun l => bool_decide (seed_id ∈ seeds l)) in
      if seed_exists : bool then
        do* remove_seed seed_id in
        delete_seed_from_queue seed_program
      else ret tt
  | None => ret tt
  end.

(** Lines 314-339. *)
Definition recheck_seed : M Library unit :=
  let* succ_seeds := gets (fun l => (succ_seeds l).*1) in
  for_each recheck_one succ_seeds.

(** ** Reference: what one demotion does, and which seeds are demoted *)

Definition demote (e : string * Program) (err_msg : ProgramError) (l : Library) : Library :=
  mkLibrary (remove_entry e.1 (succ_seeds l))
            (seeds l ∖ {[id e.2]})
            (<[id e.2 := err_msg]> (err_seeds l))
            (if decide (id e.2 ∈ seeds l)
             then filter (fun i => i <> id e.2) (seed_queue l)
             else seed_queue l).

Definition recheck_entry (l : Library) (e : string * Program) : Library :=
  match execute_pool (id e.2) with
  | Some err_msg => demote e err_msg l
  | None => l
  end.

Definition passes (e : string * Program) : Prop := execute_pool (id e.2) = None.

#[global] Instance passes_dec e : Decision (passes e).
Proof. unfold passes. apply _. Defined.

End Recheck.

(** ** Facts *)

Lemma lookup_file_remove_ne (path q : string) dir :
  q <> path -> lookup_file q (remove_entry path dir) = lookup_file q dir.
Proof.
  intros Hq. unfold remove_entry. induction dir as [|e dir IH]; [done|].
  rewrite filter_cons. simpl. repeat case_decide; simpl; try case_decide; congruence.
Qed.

Lemma lookup_file_elem (e : string * Program) dir :
  NoDup dir.*1 -> e ∈ dir -> lookup_file e.1 dir = Some e.2.
Proof.
  induction dir as [|e' dir IH]; [by intros _ ?%elem_of_nil|].
  rewrite fmap_cons, NoDup_cons. intros [Hn Hd] [->|He]%elem_of_cons; simpl.
  - by rewrite decide_True.
  - rewrite decide_False; [by apply IH|].
    intros Heq. apply Hn. rewrite Heq. apply list_elem_of_fmap. by exists e.
Qed.

Section RecheckFacts.
Context (compile_seed : N -> result unit).
Context (execute_pool : N -> option ProgramError).


(** The names and the ids of the entries that fail. *)
Definition demoted (es : list (string * Program)) : list (string * Program) :=
  filter (fun e => ~ passes execute_pool e) es.

Lemma recheck_one_run (e : string * Program) (l : Library) :
  lookup_file e.1 (succ_seeds l) = Some e.2 -> compile_seed (id e.2) = Ok tt ->
  recheck_one compile_seed execute_pool e.1 l = (Ok tt, recheck_entry execute_pool l e).
Proof.
  intros Hl Hc.
  unfold recheck_one, recheck_entry.
  unfold load_from_path, bind at 1. rewrite Hl. unfold bind at 1, lift. rewrite Hc.
  destruct (execute_pool (id e.2)) as [msg|]; [|done].
  unfold bind, save_err_program, remove_succ_seed, remove_seed, delete_seed_from_queue,
    modify, gets, demote. simpl. rewrite Hl.
  case_bool_decide; [by rewrite decide_True by done | rewrite decide_False by done].
  by assert (seeds l ∖ {[id e.2]} = seeds l) as -> by set_solver.
Qed.

Lemma recheck_entry_lookup (e : string * Program) (q : string) (l : Library) :
  q <> e.1 ->
  lookup_file q (succ_seeds (recheck_entry execute_pool l e)) = lookup_file q (succ_seeds l).
Proof.
  intros Hq. unfold recheck_entry.
  destruct (execute_pool (id e.2)); [|done]. by apply lookup_file_remove_ne.
Qed.

Lemma recheck_loop_run (es : list (string * Program)) (l : Library) :
  NoDup es.*1 ->
  (forall e, e ∈ es -> lookup_file e.1 (succ_seeds l) = Some e.2) ->
  (forall e, e ∈ es -> compile_seed (id e.2) = Ok tt) ->
  for_each (recheck_one compile_seed execute_pool) es.*1 l
  = (Ok tt, foldl (recheck_entry execute_pool) l es).
Proof.
  revert l. induction es as [|e es IH]; intros l Hn Hl Hc; [done|].
  rewrite fmap_cons, NoDup_cons in Hn. destruct Hn as [Hn Hd]. simpl.
  erewrite bind_ok; [|apply recheck_one_run; [apply Hl | apply Hc]; by left].
  apply IH; [done| |intros; apply Hc; by right].
  intros e' He'. rewrite recheck_entry_lookup; [apply Hl; by right|].
  intros Heq. apply Hn. rewrite <- Heq. apply list_elem_of_fmap. by exists e'.
Qed.

End RecheckFacts.

Lemma filter_all {A} (P : A -> Prop) `{!forall x, Decision (P x)} (l : list A) :
  (forall x, x ∈ l -> P x) -> filter P l = l.
Proof.
  induction l as [|x l IH]; [done|]. intros Hx.
  rewrite filter_cons_True by (apply Hx; by left). f_equal. apply IH. intros; apply Hx; by right.
Qed.

Lemma filter_ext_elem {A} (P Q : A -> Prop)
    `{!forall x, Decision (P x), !forall x, Decision (Q x)} (l : list A) :
  (forall x, x ∈ l -> P x <-> Q x) -> filter P l = filter Q l.
Proof.
  induction l as [|x l IH]; [done|]. intros Hx.
  rewrite !filter_cons, IH by (intros; apply Hx; by right).
  apply decide_ext, Hx. by left.
Qed.

Section RecheckFold.
Context (execute_pool : N -> option ProgramError).

Lemma demoted_cons_fail (e : string * Program) es msg :
  execute_pool (id e.2) = Some msg ->
  demoted execute_pool (e :: es) = e :: demoted execute_pool es.
Proof.
  intros He. unfold demoted. rewrite filter_cons_True; [done|].
  unfold passes. by rewrite He.
Qed.

Lemma demoted_cons_pass (e : string * Program) es :
  execute_pool (id e.2) = None ->
  demoted execute_pool (e :: es) = demoted execute_pool es.
Proof. intros He. unfold demoted. rewrite filter_cons_False; [done|]. by intros []. Qed.

(** The ids of the entries that fail. *)
Definition demoted_ids (es : list (string * Program)) : list N :=
  (fun e => id e.2) <$> demoted execute_pool es.

Lemma recheck_fold_succ (es : list (string * Program)) (l : Library) :
  succ_seeds (foldl (recheck_entry execute_pool) l es)
  = filter (fun e' => e'.1 ∉ (demoted execute_pool es).*1) (succ_seeds l).
Proof.
  revert l. induction es as [|e es IH]; intros l; simpl.
  { symmetry. apply filter_all. intros x _. apply not_elem_of_nil. }
  rewrite IH. unfold recheck_entry. destruct (execute_pool (id e.2)) as [msg|] eqn:He.
  - rewrite (demoted_cons_fail _ _ _ He). simpl. unfold remove_entry.
    rewrite list_filter_filter. apply list_filter_iff. intros x.
    rewrite not_elem_of_cons. tauto.
  - by rewrite (demoted_cons_pass _ _ He).
Qed.

Lemma recheck_fold_seeds (es : list (string * Program)) (l : Library) :
  seeds (foldl (recheck_entry execute_pool) l es) = seeds l ∖ list_to_set (demoted_ids es).
Proof.
  revert l. induction es as [|e es IH]; intros l; simpl; [set_solver|].
  rewrite IH. unfold recheck_entry, demoted_ids.
  destruct (execute_pool (id e.2)) as [msg|] eqn:He.
  - rewrite (demoted_cons_fail _ _ _ He). simpl. set_solver.
  - by rewrite (demoted_cons_pass _ _ He).
Qed.

Lemma recheck_fold_err (e : string * Program) (msg : ProgramError) es (l : Library) :
  execute_pool (id e.2) = Some msg ->
  e ∈ es \/ err_seeds l !! id e.2 = Some msg ->
  err_seeds (foldl (recheck_entry execute_pool) l es) !! id e.2 = Some msg.
Proof.
  intros He. revert l. induction es as [|a es IH]; intros l Hin; simpl.
  { destruct Hin as [?%elem_of_nil|]; done. }
  apply IH. unfold recheck_entry.
  destruct Hin as [[->|Hin]%elem_of_cons|Hl]; [right| by left |right].
  - rewrite He. simpl. apply lookup_insert_eq.
  - destruct (execute_pool (id a.2)) as [msg'|] eqn:Ha; [|done]. simpl.
    destruct (decide (id a.2 = id e.2)) as [Heq|Hne].
    + rewrite Heq in *. simplify_eq. apply lookup_insert_eq.
    + by rewrite lookup_insert_ne.
Qed.

Lemma recheck_fold_queue (es : list (string * Program)) (l : Library) :
  seed_queue (foldl (recheck_entry execute_pool) l es)
  = filter (fun i => ~ (i ∈ seeds l /\ i ∈ demoted_ids es)) (seed_queue l).
Proof.
  revert l. induction es as [|e es IH]; intros l; simpl.
  { symmetry. apply filter_all. intros x _ [_ ?%elem_of_nil]. done. }
  rewrite IH. unfold recheck_entry, demoted_ids.
  destruct (execute_pool (id e.2)) as [msg|] eqn:He.
  - rewrite (demoted_cons_fail _ _ _ He). simpl. case_decide.
    + rewrite list_filter_filter. apply list_filter_iff. intros i.
      rewrite elem_of_cons, elem_of_difference, elem_of_singleton.
      destruct (decide (i = id e.2)); naive_solver.
    + apply list_filter_iff. intros i.
      rewrite elem_of_cons, elem_of_difference, elem_of_singleton. naive_solver.
  - by rewrite (demoted_cons_pass _ _ He).
Qed.

Lemma demoted_names_passes (dir : list (string * Program)) (e : string * Program) :
  NoDup dir.*1 -> e ∈ dir ->
  e.1 ∉ (demoted execute_pool dir).*1 <-> passes execute_pool e.
Proof.
  intros Hn He. rewrite list_elem_of_fmap. split.
  - intros Hd. destruct (decide (passes execute_pool e)) as [|Hf]; [done|].
    destruct Hd. exists e. split; [done|]. by apply list_elem_of_filter.
  - intros Hp (e' & Heq & [Hf He']%list_elem_of_filter). destruct Hf.
    assert (e' = e) as ->; [|done].
    assert (lookup_file e.1 dir = Some e'.2) as Hl by (rewrite Heq; by apply lookup_file_elem).
    rewrite (lookup_file_elem e) in Hl by done.
    destruct e, e'; simpl in *; congruence.
Qed.

End RecheckFold.

Lemma for_each_app {S A} (f : A -> M S unit) (xs ys : list A) (s : S) :
  for_each f (xs ++ ys) s = (do* for_each f xs in for_each f ys) s.
Proof.
  revert s. induction xs as [|x xs IH]; intros s; simpl; [done|].
  unfold bind in *. destruct (f x s) as [[[]|e] s']; [apply IH | done].
Qed.

Section RecheckClaims.
Context (compile_seed : N -> result unit).
Context (execute_pool : N -> option ProgramError).

Lemma recheck_seed_run (l : Library) :
  NoDup (succ_seeds l).*1 ->
  (forall e, e ∈ succ_seeds l -> compile_seed (id e.2) = Ok tt) ->
  recheck_seed compile_seed execute_pool l
  = (Ok tt, foldl (recheck_entry execute_pool) l (succ_seeds l)).
Proof.
  intros Hn Hc. unfold recheck_seed, bind at 1, gets.
  apply recheck_loop_run; [done | | done]. intros e He. by apply lookup_file_elem.
Qed.

(** C13: when every accepted seed compiles, [recheck_seed] succeeds, and
    afterwards the accepted seeds are exactly those that pass on the current
    corpus, in their order; every seed that fails is in the error archive
    with its message; the seed directory has lost the ids of the failing
    seeds; and the queue has lost those of them that had a seed file. *)
Theorem recheck_seed_demotes (l : Library) :
  NoDup (succ_seeds l).*1 ->
  (forall e, e ∈ succ_seeds l -> compile_seed (id e.2) = Ok tt) ->
  (recheck_seed compile_seed execute_pool l).1 = Ok tt /\
  let l' := (recheck_seed compile_seed execute_pool l).2 in
  succ_seeds l' = filter (passes execute_pool) (succ_seeds l) /\
  (forall e msg, e ∈ succ_seeds l -> execute_pool (id e.2) = Some msg ->
     err_seeds l' !! id e.2 = Some msg) /\
  seeds l' = seeds l ∖ list_to_set (demoted_ids execute_pool (succ_seeds l)) /\
  seed_queue l'
  = filter (fun i => ~ (i ∈ seeds l /\ i ∈ demoted_ids execute_pool (succ_seeds l)))
      (seed_queue l).
Proof.
  intros Hn Hc. rewrite (recheck_seed_run _ Hn Hc). simpl.
  split; [done|]. split; [|split; [|split]].
  - rewrite recheck_fold_succ. apply filter_ext_elem. intros e He.
    by apply demoted_names_passes.
  - intros e msg He Hm. apply recheck_fold_err; auto.
  - apply recheck_fold_seeds.
  - apply recheck_fold_queue.
Qed.

(** A failing seed whose file is missing from the seed directory
    stays in the queue of the outer loop, although it has left the accepted
    seeds and entered the error archive. *)
Theorem recheck_seed_queue_needs_seed_file (l : Library) (e : string * Program) (msg : ProgramError) :
  NoDup (succ_seeds l).*1 ->
  (forall e, e ∈ succ_seeds l -> compile_seed (id e.2) = Ok tt) ->
  e ∈ succ_seeds l -> execute_pool (id e.2) = Some msg ->
  id e.2 ∉ seeds l -> id e.2 ∈ seed_queue l ->
  let l' := (recheck_seed compile_seed execute_pool l).2 in
  (id e.2 ∈ seed_queue l') /\ (e ∉ succ_seeds l') /\ err_seeds l' !! id e.2 = Some msg.
Proof.
  intros Hn Hc He Hm Hs Hq. rewrite (recheck_seed_run _ Hn Hc). simpl.
  rewrite recheck_fold_queue, recheck_fold_succ, !list_elem_of_filter.
  split; [split; [tauto | done]|]. split; [|apply recheck_fold_err; auto].
  intros [Hd _]. apply Hd. apply list_elem_of_fmap. exists e. split; [done|].
  apply list_elem_of_filter. split; [|done]. unfold passes. by rewrite Hm.
Qed.

(** C38: the loop stops at the first seed that does not compile: the
    error is returned, the seeds before it have been rechecked, and the
    seeds after it are neither executed nor demoted. *)
Theorem recheck_seed_stops_at_compile_error (l : Library)
    (es1 : list (string * Program)) e es2 (f : fault) :
  NoDup (succ_seeds l).*1 ->
  succ_seeds l = (es1 ++ e :: es2)%list ->
  (forall e', e' ∈ es1 -> compile_seed (id e'.2) = Ok tt) ->
  compile_seed (id e.2) = Err f ->
  recheck_seed compile_seed execute_pool l
  = (Err f, foldl (recheck_entry execute_pool) l es1).
Proof.
  intros Hn Hl Hc He. unfold recheck_seed, bind at 1, gets. rewrite Hl in *.
  rewrite fmap_app, for_each_app. rewrite fmap_app in Hn. apply NoDup_app in Hn as (Hn1 & Hn12 & Hn2).
  assert (forall e', e' ∈ (es1 ++ e :: es2)%list -> lookup_file e'.1 (succ_seeds l) = Some e'.2) as Hlk.
  { intros e' He'. apply lookup_file_elem; rewrite Hl; [|done].
    rewrite fmap_app. by apply NoDup_app. }
  erewrite bind_ok; [|apply recheck_loop_run; [done | | done]].
  2:{ intros e' He'. apply Hlk. apply elem_of_app. by left. }
  simpl. erewrite bind_err; [done|].
  unfold recheck_one, load_from_path, bind at 1.
  assert (lookup_file e.1 (succ_seeds (foldl (recheck_entry execute_pool) l es1)) = Some e.2)
    as ->; [|unfold bind, lift; by rewrite He].
  rewrite recheck_fold_succ, Hl. apply lookup_file_elem.
  - eapply sublist_NoDup; [|apply fmap_sublist, sublist_filter].
    rewrite fmap_app. by apply NoDup_app.
  - apply list_elem_of_filter. split; [|apply elem_of_app; right; by left].
    intros (e' & Heq & [_ He']%list_elem_of_filter)%list_elem_of_fmap.
    apply (Hn12 e'.1); [apply list_elem_of_fmap; by exists e' | rewrite <- Heq; by left].
Qed.

End RecheckClaims.

(** ** A run on a concrete library *)

Definition demo_library : Library :=
  mkLibrary [("succ_seeds/1.cc", mkProgram 1); ("succ_seeds/2.cc", mkProgram 2);
             ("succ_seeds/3.cc", mkProgram 3)]
            {[ 1%N; 3%N ]} ∅ [1%N; 2%N; 3%N].

Definition demo_compile (bad : N) (seed_id : N) : result unit :=
  if decide (seed_id = bad) then Err (Report "compile failed") else Ok tt.

Definition demo_execute (seed_id : N) : option ProgramError :=
  if decide (seed_id = 2%N) then Some (Execute "heap-buffer-overflow") else None.

Lemma demo_library_NoDup : NoDup (succ_seeds demo_library).*1.
Proof. apply (bool_decide_unpack _). vm_compute. exact I. Qed.

Lemma recheck_seed_demotes_witness :
  (recheck_seed (demo_compile 0) demo_execute demo_library).1 = Ok tt /\
  let l' := (recheck_seed (demo_compile 0) demo_execute demo_library).2 in
  succ_seeds l' = filter (passes demo_execute) (succ_seeds demo_library) /\
  (forall e msg, e ∈ succ_seeds demo_library -> demo_execute (id e.2) = Some msg ->
     err_seeds l' !! id e.2 = Some msg) /\
  seeds l' = seeds demo_library ∖ list_to_set (demoted_ids demo_execute (succ_seeds demo_library)) /\
  seed_queue l'
  = filter (fun i => ~ (i ∈ seeds demo_library /\
                        i ∈ demoted_ids demo_execute (succ_seeds demo_library)))
      (seed_queue demo_library).
Proof.
  apply (recheck_seed_demotes (demo_compile 0) demo_execute demo_library demo_library_NoDup).
  intros e He. unfold demo_compile. apply decide_False.
  simpl in He. set_solver.
Defined.

Lemma recheck_seed_queue_needs_seed_file_witness :
  let l' := (recheck_seed (demo_compile 0) demo_execute demo_library).2 in
  (2%N ∈ seed_queue l') /\ (("succ_seeds/2.cc", mkProgram 2) ∉ succ_seeds l') /\
  err_seeds l' !! 2%N = Some (Execute "heap-buffer-overflow").
Proof.
  apply (recheck_seed_queue_needs_seed_file (demo_compile 0) demo_execute demo_library
           ("succ_seeds/2.cc", mkProgram 2) (Execute "heap-buffer-overflow") demo_library_NoDup).
  - intros e He. unfold demo_compile. apply decide_False. simpl in He. set_solver.
  - simpl. set_solver.
  - reflexivity.
  - simpl. set_solver.
  - simpl. set_solver.
Defined.

Lemma recheck_seed_stops_at_compile_error_witness :
  recheck_seed (demo_compile 2) demo_execute demo_library
  = (Err (Report "compile failed"),
     foldl (recheck_entry demo_execute) demo_library [("succ_seeds/1.cc", mkProgram 1)]).
Proof.
  apply (recheck_seed_stops_at_compile_error (demo_compile 2) demo_execute demo_library
           [("succ_seeds/1.cc", mkProgram 1)] ("succ_seeds/2.cc", mkProgram 2)
           [("succ_seeds/3.cc", mkProgram 3)] _ demo_library_NoDup).
  - reflexivity.
  - intros e' ->%list_elem_of_singleton. reflexivity.
  - reflexivity.
Defined.
