(* ===== verification/CodeWrapper.v ===== *)
(** * Unwrapping the model's answer (src/request/openai.rs, lines 324-355)

    [strip_code_wrapper] takes the text of a chat completion, cuts the
    Markdown code fence and its language tag away, and keeps what preceded
    the fence as a comment in front of the code.  Rust's [str] is a string
    of bytes here; [trim] removes the characters of Unicode's White_Space
    property in their UTF-8 encoding; [find] and [rfind] return byte
    offsets, and slicing is [str_take] and [str_drop]. *)

From S2P Require Import Prelude.

Local Open Scope string_scope.

(** ** Rust's string operations *)

(** [str::starts_with] *)
Fixpoint starts_with (pat s : string) : bool :=
  match pat, s with
  | EmptyString, _ => true
  | String a pat', String b s' => if Ascii.eqb a b then starts_with pat' s' else false
  | String _ _, EmptyString => false
  end.

(** [str::strip_prefix] *)
Fixpoint strip_prefix (pat s : string) : option string :=
  match pat, s with
  | EmptyString, _ => Some s
  | String a pat', String b s' => if Ascii.eqb a b then strip_prefix pat' s' else None
  | String _ _, EmptyString => None
  end.

(** [str::find]: the byte offset of the first occurrence. *)
Fixpoint find (pat s : string) : option nat :=
  if starts_with pat s then Some 0%nat
  else match s with
       | EmptyString => None
       | String _ s' => S <$> find pat s'
       end.

(** [str::rfind]: the byte offset of the last occurrence. *)
Fixpoint rfind (pat s : string) : option nat :=
  match s with
  | EmptyString => if starts_with pat s then Some 0%nat else None
  | String _ s' =>
      match rfind pat s' with
      | Some i => Some (S i)
      | None => if starts_with pat s then Some 0%nat else None
      end
  end.

(** [&s[..n]] and [&s[n..]] *)
Fixpoint str_take (n : nat) (s : string) : string :=
  match n, s with
  | S n', String c s' => String c (str_take n' s')
  | _, _ => EmptyString
  end.

Fixpoint str_drop (n : nat) (s : string) : string :=
  match n, s with
  | S n', String _ s' => str_drop n' s'
  | _, _ => s
  end.

Fixpoint str_rev_onto (s acc : string) : string :=
  match s with
  | EmptyString => acc
  | String c s' => str_rev_onto s' (String c acc)
  end.

Definition str_rev (s : string) : string := str_rev_onto s EmptyString.

(** The bytes of one White_Space character at the head of [s], read
    forwards ([rev = false]) or at the head of the reversed string: what is
    left after it. *)
Definition ws1 (c : ascii) : bool :=
  let n := nat_of_ascii c in
  ((9 <=? n) && (n <=? 13))%nat || (n =? 32)%nat.

Definition ws2 (a b : ascii) : bool :=
  (nat_of_ascii a =? 194)%nat && ((nat_of_ascii b =? 133)%nat || (nat_of_ascii b =? 160)%nat).

Definition ws3 (a b c : ascii) : bool :=
  let '(a, b, c) := (nat_of_ascii a, nat_of_ascii b, nat_of_ascii c) in
  ((a =? 225) && (b =? 154) && (c =? 128))%nat
  || ((a =? 226) && (b =? 128)
      && (((128 <=? c) && (c <=? 138)) || (c =? 168) || (c =? 169) || (c =? 175)))%nat
  || ((a =? 226) && (b =? 129) && (c =? 159))%nat
  || ((a =? 227) && (b =? 128) && (c =? 128))%nat.

Definition ws_head (rev : bool) (s : string) : option string :=
  match s with
  | String a s1 =>
      if ws1 a then Some s1
      else match s1 with
           | String b s2 =>
               if (if rev then ws2 b a else ws2 a b) then Some s2
               else match s2 with
                    | String c s3 =>
                        if (if rev then ws3 c b a else ws3 a b c) then Some s3 else None
                    | EmptyString => None
                    end
           | EmptyString => None
           end
  | EmptyString => None
  end.

Fixpoint trim_fuel (rev : bool) (fuel : nat) (s : string) : string :=
  match fuel with
  | O => s
  | S fuel' =>
      match ws_head rev s with
      | Some rest => trim_fuel rev fuel' rest
      | None => s
      end
  end.

(** [str::trim_start], [str::trim_end], [str::trim] *)
Definition trim_start (s : string) : string := trim_fuel false (String.length s) s.

Definition trim_end (s : string) : string :=
  str_rev (trim_fuel true (String.length s) (str_rev s)).

Definition trim (s : string) : string := trim_end (trim_start s).

(** ** The source *)

Definition fence : string := "```".

(** Lines 324-332. *)
Definition strip_code_prefix (input pat : string) : string :=
  let pat := fence +:+ pat in
  if starts_with pat input then
    match strip_prefix pat input with
    | Some p => p
    | None => input
    end
  else input.

(** Lines 335-355. *)
Definition strip_code_wrapper (input : string) : string :=
  let input := trim input in
  let '(event, input) :=
    match find fence input with
    | Some idx => (str_take idx input, str_drop idx input)
    | None => ("", input)
    end in
  let input := strip_code_prefix input "cpp" in
  let input := strip_code_prefix input "CPP" in
  let input := strip_code_prefix input "C++" in
  let input := strip_code_prefix input "c++" in
  let input := strip_code_prefix input "c" in
  let input := strip_code_prefix input "C" in
  let input := strip_code_prefix input newline in
  match rfind fence input with
  | Some idx =>
      let input := str_take idx input in
      "/*" +:+ event +:+ "*/" +:+ newline +:+ input
  | None => "/*" +:+ event +:+ "*/" +:+ newline +:+ input
  end.

(** ** Reference definitions *)

(** No backtick in the string. *)
Fixpoint no_backtick (s : string) : bool :=
  match s with
  | EmptyString => true
  | String c s' => negb (Ascii.eqb "`" c) && no_backtick s'
  end.

(** The seven calls of [strip_code_prefix] in a row. *)
Definition strip_tags (input : string) : string :=
  let input := strip_code_prefix input "cpp" in
  let input := strip_code_prefix input "CPP" in
  let input := strip_code_prefix input "C++" in
  let input := strip_code_prefix input "c++" in
  let input := strip_code_prefix input "c" in
  let input := strip_code_prefix input "C" in
  strip_code_prefix input newline.

(** The language tags the source knows. *)
Definition known_tags : list string := ["cpp"; "CPP"; "C++"; "c++"; "c"; "C"].

(** ** Facts on the string operations *)

Lemma ascii_eqb_refl c : Ascii.eqb c c = true.
Proof. by apply Ascii.eqb_eq. Qed.

Lemma starts_with_app pat r : starts_with pat (pat ++ r) = true.
Proof. induction pat as [|a pat IH]; simpl; [done|]. by rewrite ascii_eqb_refl. Qed.

Lemma starts_with_inv pat s : starts_with pat s = true -> exists r, s = pat ++ r.
Proof.
  revert s. induction pat as [|a pat IH]; intros s; simpl; [by exists s|].
  destruct s as [|b s]; [done|]. destruct (Ascii.eqb_spec a b) as [->|]; [|done].
  intros [r ->]%IH. by exists r.
Qed.

Lemma strip_prefix_app pat r : strip_prefix pat (pat ++ r) = Some r.
Proof. induction pat as [|a pat IH]; simpl; [done|]. by rewrite ascii_eqb_refl. Qed.

Lemma strip_prefix_starts_with pat s :
  is_Some (strip_prefix pat s) <-> starts_with pat s = true.
Proof.
  revert s. induction pat as [|a pat IH]; intros s; simpl; [by split; eauto|].
  destruct s as [|b s]; [split; [by intros []|done]|].
  destruct (Ascii.eqb a b); [apply IH|split; [by intros []|done]].
Qed.

Lemma str_take_drop n s : str_take n s ++ str_drop n s = s.
Proof.
  revert s. induction n as [|n IH]; intros [|c s]; simpl; try done.
  by rewrite string_app_cons, IH.
Qed.

Lemma str_take_app a b : str_take (String.length a) (a ++ b) = a.
Proof.
  induction a as [|c a IH]; simpl; [by destruct b|]. by rewrite ?string_app_cons, IH.
Qed.

Lemma str_drop_app a b : str_drop (String.length a) (a ++ b) = b.
Proof. induction a as [|c a IH]; simpl; [by destruct b|]. by rewrite ?string_app_cons. Qed.

Lemma str_drop_ge n s : (String.length s <= n)%nat -> str_drop n s = "".
Proof.
  revert s. induction n as [|n IH]; intros [|c s]; simpl; try done; try lia.
  intros ?. apply IH. lia.
Qed.

Lemma str_take_length n s : (String.length (str_take n s) <= n)%nat.
Proof. revert s. induction n as [|n IH]; intros [|c s]; simpl; try lia. specialize (IH s). lia. Qed.

(** ** Occurrences of the fence *)

Lemma starts_with_fence_backtick s :
  starts_with fence s = true -> exists r, s = String "`" r.
Proof. intros [r ->]%starts_with_inv. by eexists. Qed.

Lemma no_backtick_app a b : no_backtick (a ++ b) = no_backtick a && no_backtick b.
Proof.
  induction a as [|c a IH]; [done|]. rewrite string_app_cons. simpl.
  by rewrite IH, andb_assoc.
Qed.

Lemma no_backtick_starts_with s : no_backtick s = true -> starts_with fence s = false.
Proof.
  intros Hs. destruct (starts_with fence s) eqn:E; [|done].
  apply starts_with_fence_backtick in E as [r ->]. done.
Qed.

Lemma find_no_backtick s : no_backtick s = true -> find fence s = None.
Proof.
  induction s as [|c s IH]; [done|]. intros Hs.
  change (find fence (String c s))
    with (if starts_with fence (String c s) then Some 0%nat else S <$> find fence s).
  rewrite (no_backtick_starts_with _ Hs). simpl in Hs.
  apply andb_true_iff in Hs as [_ Hs]. by rewrite IH.
Qed.

Lemma rfind_no_backtick s : no_backtick s = true -> rfind fence s = None.
Proof.
  induction s as [|c s IH]; [done|]. intros Hs.
  change (rfind fence (String c s))
    with (match rfind fence s with
          | Some i => Some (S i)
          | None => if starts_with fence (String c s) then Some 0%nat else None
          end).
  rewrite (no_backtick_starts_with _ Hs). simpl in Hs.
  apply andb_true_iff in Hs as [_ Hs]. by rewrite IH.
Qed.

(** The first fence after a text without backticks is where the text
    ends. *)
Lemma find_fence_app a b :
  no_backtick a = true -> find fence (a ++ fence ++ b) = Some (String.length a).
Proof.
  intros Ha. induction a as [|c a IH].
  - rewrite string_app_nil_l. destruct b; done.
  - rewrite string_app_cons.
    change (find fence (String c (a ++ fence ++ b)))
      with (if starts_with fence (String c (a ++ fence ++ b)) then Some 0%nat
            else S <$> find fence (a ++ fence ++ b)).
    simpl in Ha. apply andb_true_iff in Ha as [Hc Ha]. rewrite IH by done.
    destruct (starts_with fence _) eqn:E; [|done].
    apply starts_with_fence_backtick in E as [r [= -> _]]. done.
Qed.

Lemma rfind_cons pat c s :
  rfind pat (String c s)
  = match rfind pat s with
    | Some i => Some (S i)
    | None => if starts_with pat (String c s) then Some 0%nat else None
    end.
Proof. done. Qed.

Lemma starts_with_cons a pat b s :
  starts_with (String a pat) (String b s) = if Ascii.eqb a b then starts_with pat s else false.
Proof. done. Qed.

Lemma no_backtick_cons c s :
  no_backtick (String c s) = true <-> Ascii.eqb "`" c = false /\ no_backtick s = true.
Proof. simpl. by rewrite andb_true_iff, negb_true_iff. Qed.

(** A fence cannot begin one or two backticks before a text without
    backticks. *)
Lemma starts_with_fence_short b :
  no_backtick b = true ->
  starts_with fence (String "`" b) = false /\
  starts_with fence (String "`" (String "`" b)) = false.
Proof.
  intros Hb. unfold fence. rewrite !starts_with_cons, !ascii_eqb_refl.
  destruct b as [|c b]; [done|]. apply no_backtick_cons in Hb as [Hc Hb].
  by rewrite !starts_with_cons, Hc.
Qed.

Lemma rfind_fence_head b : no_backtick b = true -> rfind fence (fence ++ b) = Some 0%nat.
Proof.
  intros Hb. change (fence ++ b) with (String "`" (String "`" (String "`" b))).
  destruct (starts_with_fence_short b Hb) as [H1 H2].
  rewrite !rfind_cons, (rfind_no_backtick b Hb), H1, H2.
  by rewrite (starts_with_app fence b : starts_with fence (String "`" _) = true).
Qed.

(** The last fence before a text without backticks is where that text
    begins. *)
Lemma rfind_fence_app a b :
  no_backtick b = true -> rfind fence (a ++ fence ++ b) = Some (String.length a).
Proof.
  intros Hb. induction a as [|c a IH].
  - rewrite string_app_nil_l. by apply rfind_fence_head.
  - rewrite string_app_cons, rfind_cons. by rewrite IH.
Qed.

(** ** Trimming cuts at both ends *)

Lemma ws_head_suffix rev s r :
  ws_head rev s = Some r -> exists l, s = l ++ r /\ (String.length r < String.length s)%nat.
Proof.
  unfold ws_head. destruct s as [|a [|b [|c s]]]; try done; repeat case_match; try done;
    intros [= <-];
    first [ by exists (String a EmptyString); simpl; split; [|lia]
          | by exists (String a (String b EmptyString)); simpl; split; [|lia]
          | by exists (String a (String b (String c EmptyString))); simpl; split; [|lia] ].
Qed.

Lemma trim_fuel_suffix rev fuel s : exists l, s = l ++ trim_fuel rev fuel s.
Proof.
  revert s. induction fuel as [|fuel IH]; intros s; simpl; [by exists ""|].
  destruct (ws_head rev s) as [r|] eqn:E; [|by exists ""].
  apply ws_head_suffix in E as (l & -> & _). destruct (IH r) as [l' Hl'].
  exists (l ++ l'). by rewrite <- string_app_assoc, <- Hl'.
Qed.

(** The fuel of [trim_start] and [trim_end] is enough: what is returned
    does not start with white space. *)
Lemma trim_fuel_done rev fuel s :
  (String.length s <= fuel)%nat -> ws_head rev (trim_fuel rev fuel s) = None.
Proof.
  revert s. induction fuel as [|fuel IH]; intros s Hlen; simpl.
  { destruct s; [done | simpl in Hlen; lia]. }
  destruct (ws_head rev s) as [r|] eqn:E; [|done].
  apply IH. apply ws_head_suffix in E as (l & -> & Hl).
  lia.
Qed.

Lemma str_rev_onto_app s acc : str_rev_onto s acc = str_rev s ++ acc.
Proof.
  unfold str_rev. revert acc. induction s as [|c s IH]; intros acc; simpl; [done|].
  rewrite (IH (String c acc)), (IH (String c "")). by rewrite <- string_app_assoc.
Qed.

Lemma str_rev_app a b : str_rev (a ++ b) = str_rev b ++ str_rev a.
Proof.
  induction a as [|c a IH]; [by rewrite string_app_nil_r|].
  rewrite string_app_cons. unfold str_rev. simpl.
  rewrite !(str_rev_onto_app _ (String c "")). fold (str_rev (a ++ b)).
  by rewrite IH, string_app_assoc.
Qed.

Lemma str_rev_involutive s : str_rev (str_rev s) = s.
Proof.
  induction s as [|c s IH]; [done|]. unfold str_rev at 2. simpl.
  rewrite str_rev_onto_app, str_rev_app, IH. done.
Qed.

(** [trim] returns a piece of its argument. *)
Lemma trim_infix s : exists l r, s = l ++ trim s ++ r.
Proof.
  unfold trim, trim_end. destruct (trim_fuel_suffix false (String.length s) s) as [l Hl].
  fold (trim_start s) in Hl. set (t := trim_start s) in *.
  destruct (trim_fuel_suffix true (String.length t) (str_rev t)) as [r Hr].
  exists l, (str_rev r). rewrite <- str_rev_app, <- Hr, str_rev_involutive. done.
Qed.

Lemma no_backtick_trim s : no_backtick s = true -> no_backtick (trim s) = true.
Proof.
  destruct (trim_infix s) as (l & r & Hs). rewrite Hs at 1.
  rewrite !no_backtick_app, !andb_true_iff. tauto.
Qed.

(** ** Stripping the language tag *)

Lemma starts_with_app_l p q s : starts_with (p ++ q) s = true -> starts_with p s = true.
Proof.
  intros [r ->]%starts_with_inv. rewrite <- string_app_assoc. apply starts_with_app.
Qed.

Lemma strip_code_prefix_no_fence s pat :
  starts_with fence s = false -> strip_code_prefix s pat = s.
Proof.
  intros Hs. unfold strip_code_prefix.
  destruct (starts_with (fence +:+ pat) s) eqn:E; [|done].
  apply starts_with_app_l in E. congruence.
Qed.

Lemma strip_code_prefix_other s pat :
  starts_with (fence ++ pat) s = false -> strip_code_prefix s pat = s.
Proof. intros Hs. unfold strip_code_prefix. by rewrite Hs. Qed.

Lemma strip_code_prefix_app pat r : strip_code_prefix (fence ++ pat ++ r) pat = r.
Proof.
  unfold strip_code_prefix. rewrite string_app_assoc.
  by rewrite starts_with_app, strip_prefix_app.
Qed.

Lemma strip_tags_no_fence s : starts_with fence s = false -> strip_tags s = s.
Proof.
  intros Hs. unfold strip_tags. cbv zeta.
  by rewrite !(strip_code_prefix_no_fence s) by done.
Qed.

Lemma strip_code_wrapper_unfold input :
  strip_code_wrapper input
  = let input := trim input in
    let '(event, input) :=
      match find fence input with
      | Some idx => (str_take idx input, str_drop idx input)
      | None => ("", input)
      end in
    let input := strip_tags input in
    "/*" +:+ event +:+ "*/" +:+ newline +:+
      match rfind fence input with Some idx => str_take idx input | None => input end.
Proof.
  unfold strip_code_wrapper, strip_tags. cbv zeta.
  destruct (find fence (trim input)); by destruct (rfind fence _).
Qed.

Lemma strip_tags_known tag rest :
  tag ∈ known_tags -> strip_tags (fence ++ tag ++ newline ++ rest) = newline ++ rest.
Proof.
  unfold known_tags. rewrite !elem_of_cons, elem_of_nil.
  intros [->|[->|[->|[->|[->|[->|[]]]]]]]; done.
Qed.

(** ** What [strip_code_wrapper] returns *)

(** C25: An answer whose fenced block opens with a known language tag and a
    line break and is closed, with backticks nowhere but in the two fences,
    is unwrapped to its code: the text before the fence becomes the comment,
    the code between the fences follows, and the text after the closing
    fence is dropped. *)
Theorem strip_code_wrapper_fenced input tag pre body post :
  tag ∈ known_tags ->
  no_backtick pre = true -> no_backtick body = true -> no_backtick post = true ->
  trim input = pre ++ fence ++ tag ++ newline ++ body ++ fence ++ post ->
  strip_code_wrapper input = "/*" ++ pre ++ "*/" ++ newline ++ newline ++ body.
Proof.
  intros Htag Hpre Hbody Hpost Hin. rewrite strip_code_wrapper_unfold, Hin. cbv zeta.
  rewrite find_fence_app, str_take_app, str_drop_app, strip_tags_known by done.
  unfold newline. str_simpl. rewrite rfind_fence_app by done.
  simpl. by rewrite str_take_app.
Qed.

(** An answer without any backtick is taken whole: the result is an
    empty comment followed by the trimmed answer. *)
Theorem strip_code_wrapper_plain input :
  no_backtick input = true ->
  strip_code_wrapper input = "/**/" ++ newline ++ trim input.
Proof.
  intros Hin%no_backtick_trim. rewrite strip_code_wrapper_unfold. cbv zeta.
  rewrite find_no_backtick, strip_tags_no_fence, rfind_no_backtick;
    auto using no_backtick_starts_with.
Qed.

Lemma starts_with_other_tag a pat c rest :
  a <> c -> starts_with (fence ++ String a pat) (fence ++ String c rest) = false.
Proof.
  intros Hne%Ascii.eqb_neq.
  change (fence ++ String a pat) with (String "`" (String "`" (String "`" (String a pat)))).
  change (fence ++ String c rest) with (String "`" (String "`" (String "`" (String c rest)))).
  by rewrite !starts_with_cons, !ascii_eqb_refl, Hne.
Qed.

(** C39: An answer that opens a fence with a tag the source does not know
    and never closes it loses all of its code: the opening fence is taken
    for the closing one and the result is an empty comment. *)
Theorem strip_code_wrapper_unclosed input c rest :
  trim input = fence ++ String c rest ->
  no_backtick (String c rest) = true ->
  c <> "c"%char -> c <> "C"%char -> c <> "010"%char ->
  strip_code_wrapper input = "/**/" ++ newline.
Proof.
  intros Hin Hrest Hc1 Hc2 Hc3. rewrite strip_code_wrapper_unfold, Hin. cbv zeta.
  rewrite (find_fence_app "" (String c rest) eq_refl
           : find fence (fence ++ String c rest) = Some 0%nat).
  simpl str_take. simpl str_drop.
  assert (strip_tags (fence ++ String c rest) = fence ++ String c rest) as ->.
  { unfold strip_tags. cbv zeta.
    by rewrite !(strip_code_prefix_other (fence ++ String c rest))
      by (apply starts_with_other_tag; congruence). }
  by rewrite rfind_fence_head.
Qed.

Lemma find_starts_with pat s idx :
  find pat s = Some idx -> starts_with pat (str_drop idx s) = true.
Proof.
  revert idx. induction s as [|c s IH]; intros idx.
  - simpl. destruct (starts_with pat "") eqn:E; [|done]. by intros [= <-].
  - change (find pat (String c s))
      with (if starts_with pat (String c s) then Some 0%nat else S <$> find pat s).
    destruct (starts_with pat (String c s)) eqn:E; [by intros [= <-]|].
    destruct (find pat s) as [i|]; [|done]. intros [= <-]. by apply IH.
Qed.

Lemma str_take_le n s : (String.length (str_take n s) <= String.length s)%nat.
Proof. revert s. induction n as [|n IH]; intros [|c s]; simpl; try lia. specialize (IH s). lia. Qed.

Lemma strip_prefix_length pat s r :
  strip_prefix pat s = Some r -> (String.length r <= String.length s)%nat.
Proof.
  revert s. induction pat as [|a pat IH]; intros s; simpl; [by intros [= <-]|].
  destruct s as [|b s]; [done|]. destruct (Ascii.eqb a b); [|done].
  intros ?%IH. simpl. lia.
Qed.

Lemma strip_code_prefix_length s pat :
  (String.length (strip_code_prefix s pat) <= String.length s)%nat.
Proof.
  unfold strip_code_prefix. destruct (starts_with _ s); [|done].
  destruct (strip_prefix _ s) eqn:E; [by eapply strip_prefix_length|done].
Qed.

Lemma strip_result_length rest :
  (String.length match rfind fence (strip_tags rest) with
                 | Some idx => str_take idx (strip_tags rest)
                 | None => strip_tags rest
                 end <= String.length rest)%nat.
Proof.
  assert (String.length (strip_tags rest) <= String.length rest)%nat as Ht.
  { unfold strip_tags. cbv zeta.
    repeat (etrans; [apply strip_code_prefix_length|]). done. }
  destruct (rfind fence (strip_tags rest)); [|done].
  etrans; [apply str_take_le|done].
Qed.

(** Whatever the answer, the result is a comment opener, a piece of
    the trimmed answer that ends before its first fence, a comment closer
    and a line break, followed by code no longer than the rest of the
    answer. *)
Theorem strip_code_wrapper_shape input :
  exists event rest code,
    trim input = event ++ rest /\
    strip_code_wrapper input = "/*" ++ event ++ "*/" ++ newline ++ code /\
    (event = "" \/ starts_with fence rest = true) /\
    (String.length code <= String.length rest)%nat.
Proof.
  rewrite strip_code_wrapper_unfold. cbv zeta.
  destruct (find fence (trim input)) as [idx|] eqn:Hfind.
  - exists (str_take idx (trim input)), (str_drop idx (trim input)). eexists.
    split_and!; [by rewrite str_take_drop|done|right; by eapply find_starts_with|].
    apply strip_result_length.
  - exists "", (trim input). eexists. split_and!; [done..|by left|].
    apply strip_result_length.
Qed.

(** The text before the fence is copied into the comment as it is: an
    answer whose preamble contains a comment closer ends the comment early
    and puts the rest of the preamble into the program. *)
Example strip_code_wrapper_comment_escapes :
  strip_code_wrapper ("*/ int evil; /*" ++ fence ++ "c" ++ newline ++ "x" ++ fence)
  = "/*" ++ "*/ int evil; /*" ++ "*/" ++ newline ++ newline ++ "x".
Proof. vm_compute. reflexivity. Qed.

(** ** Examples *)

Definition demo_answer : string :=
  "  Sure:" ++ newline ++ fence ++ "cpp" ++ newline ++ "int x;" ++ newline ++ fence
  ++ newline ++ "Bye  ".

Lemma strip_code_wrapper_fenced_witness :
  strip_code_wrapper demo_answer
  = "/*" ++ ("Sure:" ++ newline) ++ "*/" ++ newline ++ newline ++ ("int x;" ++ newline).
Proof.
  apply (strip_code_wrapper_fenced demo_answer "cpp" ("Sure:" ++ newline)
           ("int x;" ++ newline) (newline ++ "Bye")); try reflexivity.
  apply list_elem_of_here.
Defined.

Lemma strip_code_wrapper_plain_witness :
  strip_code_wrapper "  int x;  " = "/**/" ++ newline ++ trim "  int x;  ".
Proof. apply strip_code_wrapper_plain. reflexivity. Defined.

Lemma strip_code_wrapper_unclosed_witness :
  strip_code_wrapper (fence ++ "rust" ++ newline ++ "fn main(){}") = "/**/" ++ newline.
Proof.
  apply (strip_code_wrapper_unclosed _ "r" ("ust" ++ newline ++ "fn main(){}"));
    [reflexivity | reflexivity | discriminate..].
Defined.
