(* ===== verification/Billing.v ===== *)
(** * The token bill (src/request/openai.rs, lines 96-192)

    Module [openai_billing]: three process-wide counters (prompt tokens,
    completion tokens, dollars spent), loaded from and written to the file
    [openai_usage] as three fields separated by single spaces.  The token
    counters are [u32]: their additions wrap or panic, according to how the
    crate was built.  The dollars are an [f32]. *)

From stdpp Require Import pretty.
From S2P Require Import Prelude Loops Float32.

Local Open Scope string_scope.
Local Open Scope list_scope.

(** ** Numbers as text *)

Definition u32_max : N := 4294967295.

Definition digit (c : ascii) : option N :=
  let n := N_of_ascii c in
  if ((48 <=? n) && (n <=? 57))%N then Some (n - 48)%N else None.

Fixpoint parse_digits (s : string) (acc : N) : option N :=
  match s with
  | EmptyString => Some acc
  | String c s' => d ← digit c; parse_digits s' (10 * acc + d)%N
  end.

(** [str::parse::<u32>]: an optional plus sign and at least one digit, the
    value within range. *)
Definition parse_u32 (s : string) : option N :=
  let digits := match s with String "+" s' => s' | _ => s end in
  match digits with
  | EmptyString => None
  | _ => n ← parse_digits digits 0; if (n <=? u32_max)%N then Some n else None
  end.

(** [u32::to_string] *)
Definition u32_to_string (n : N) : string := pretty n.

(** [str::split(' ')] *)
Fixpoint split_space (s : string) : list string :=
  match s with
  | EmptyString => [EmptyString]
  | String c s' =>
      if Ascii.eqb c " " then EmptyString :: split_space s'
      else match split_space s' with
           | part :: parts => String c part :: parts
           | [] => [String c EmptyString]
           end
  end.

Fixpoint no_space (s : string) : bool :=
  match s with
  | EmptyString => true
  | String c s' => negb (Ascii.eqb c " ") && no_space s'
  end.

(** What the model assumes of the text form of an [f32]: parsing inverts
    printing, and a printed number has no space in it. *)
Class F32Text : Type := {
  f32_to_string : f32 -> string;
  f32_parse : string -> option f32;
  f32_parse_to_string x : f32_parse (f32_to_string x) = Some x;
  f32_to_string_no_space x : no_space (f32_to_string x) = true;
}.

(** ** State *)

Record Billing : Type := mkBilling {
  PROMPT_USAGE : N;
  COMPLETION_USAGE : N;
  QUOTA_COST : f32;
  (** the content of [openai_usage], when the file exists *)
  usage_log : option string;
}.

(** [response.usage] *)
Record Usage : Type := mkUsage {
  prompt_tokens : N;
  completion_tokens : N;
}.

Definition add_overflow : fault := Panic "attempt to add with overflow".

Section Billing.
Context `{F32Text}.
(** The two price cells of config.rs, unset until [init_openai_env] ran. *)
Context (OPENAI_INPUT_PRICE OPENAI_OUTPUT_PRICE : option (option f32)).
(** Whether [Deopt::new] and the path of the misc directory succeed. *)
Context (deopt : result unit).
(** Whether the crate is built with overflow checks. *)
Context (overflow_checks : bool).

(** [a += b] on [u32]. *)
Definition u32_add (a b : N) : result N :=
  if (a + b <=? u32_max)%N then Ok (a + b)%N
  else if overflow_checks then Err add_overflow
  else Ok ((a + b) mod 4294967296)%N.

(** Lines 101-103; no caller in the sources. *)
Definition _get_openai_base : string := "https://api.openai.com/v1".

(** Lines 111-121. *)
Definition get_prompt_token_usage : M Billing N := gets PROMPT_USAGE.

Definition get_completion_token_usage : M Billing N := gets COMPLETION_USAGE.

Definition get_quota_cost : M Billing f32 := gets QUOTA_COST.

(** Lines 123-128. *)
Definition get_usage_log_path : M Billing unit := lift deopt.

Definition parse_error : fault := Report "invalid digit found in string".

(** Lines 130-144. *)
Definition load_openai_usage : M Billing unit :=
  do* get_usage_log_path in
  let* log := gets usage_log in
  match log with
  | Some content =>
      let parts := split_space content in
      if bool_decide (length parts = 3%nat) then
        match parts with
        | [p0; p1; p2] =>
            match parse_u32 p0 with
            | None => fail parse_error
            | Some prompt_usage =>
                match parse_u32 p1 with
                | None => fail parse_error
                | Some completion_usage =>
                    match f32_parse p2 with
                    | None => fail (Report "invalid float literal")
                    | Some quota_cost =>
                        modify (fun b =>
                          mkBilling prompt_usage completion_usage quota_cost (usage_log b))
                    end
                end
            end
        | _ => ret tt
        end
      else fail (Panic "assertion `left == right` failed")
  | None => ret tt
  end.

(** Lines 172-191. *)
Definition count_billing (prompt_usage completion_usage : N) : M Billing unit :=
  let* input_price := unwrap OPENAI_INPUT_PRICE in
  let* output_price := unwrap OPENAI_OUTPUT_PRICE in
  match input_price, output_price with
  | Some input_price, Some output_price =>
      let curr_fee :=
        f32_add (f32_mul input_price (f32_of_Z (Z.of_N prompt_usage)))
                (f32_mul output_price (f32_of_Z (Z.of_N completion_usage))) in
      let curr_fee := f32_div curr_fee (f32_of_Z 1000) in
      modify (fun b =>
        mkBilling (PROMPT_USAGE b) (COMPLETION_USAGE b)
                  (f32_add (QUOTA_COST b) curr_fee) (usage_log b))
  | _, _ => ret tt
  end.

(** Lines 146-170. *)
Definition log_openai_usage (usage : option Usage) : M Billing unit :=
  match usage with
  | Some usage =>
      let prompt_token := prompt_tokens usage in
      let complete_token := completion_tokens usage in
      do* get_usage_log_path in
      let* old_prompt := gets PROMPT_USAGE in
      let* new_prompt := lift (u32_add old_prompt prompt_token) in
      do* modify (fun b =>
            mkBilling new_prompt (COMPLETION_USAGE b) (QUOTA_COST b) (usage_log b)) in
      let* old_completion := gets COMPLETION_USAGE in
      let* new_completion := lift (u32_add old_completion complete_token) in
      do* modify (fun b =>
            mkBilling (PROMPT_USAGE b) new_completion (QUOTA_COST b) (usage_log b)) in
      do* count_billing prompt_token complete_token in
      let* p := get_prompt_token_usage in
      let* c := get_completion_token_usage in
      let* q := get_quota_cost in
      let content :=
        String.concat "" [u32_to_string p; " "; u32_to_string c; " "; f32_to_string q] in
      modify (fun b =>
        mkBilling (PROMPT_USAGE b) (COMPLETION_USAGE b) (QUOTA_COST b) (Some content))
  | None => ret tt
  end.

End Billing.

(** ** Reference definitions *)

(** The dollars after a response with usage [u] was billed at prices [i]
    and [o] per thousand tokens. *)
Definition next_cost (i o : option f32) (q : f32) (u : Usage) : f32 :=
  match i, o with
  | Some i, Some o =>
      f32_add q
        (f32_div (f32_add (f32_mul i (f32_of_Z (Z.of_N (prompt_tokens u))))
                          (f32_mul o (f32_of_Z (Z.of_N (completion_tokens u)))))
                 (f32_of_Z 1000))
  | _, _ => q
  end.

(** The content of the usage file for the three counters. *)
Definition usage_text `{F32Text} (p c : N) (q : f32) : string :=
  String.concat "" [u32_to_string p; " "; u32_to_string c; " "; f32_to_string q].

(** The state of a process that has just started. *)
Definition restart (b : Billing) : Billing :=
  mkBilling 0 0 f32_zero (usage_log b).

(** ** Invariant *)

(** The token counters are within [u32]. *)
Definition in_range (b : Billing) : Prop :=
  (PROMPT_USAGE b <= u32_max)%N /\ (COMPLETION_USAGE b <= u32_max)%N.

(** ** Decimal text of a [u32] parses back *)

Lemma digit_pretty_N_char d : (d < 10)%N -> digit (pretty_N_char d) = Some d.
Proof.
  intros Hd.
  assert (d = 0 \/ d = 1 \/ d = 2 \/ d = 3 \/ d = 4 \/ d = 5 \/ d = 6 \/ d = 7 \/ d = 8
          \/ d = 9)%N as Hc by lia.
  repeat destruct Hc as [->|Hc]; try done. by subst.
Qed.

Lemma parse_digits_pretty_go x :
  exists k, forall acc s,
    parse_digits (pretty_N_go x s) acc = parse_digits s (acc * 10 ^ k + x)%N.
Proof.
  induction (N.lt_wf_0 x) as [x _ IH].
  destruct (decide (x = 0%N)) as [->|Hx].
  { exists 0%N. intros acc s. rewrite pretty_N_go_0. f_equal. lia. }
  destruct (IH (x `div` 10)%N) as [k Hk]; [apply N.div_lt; lia|].
  exists (k + 1)%N. intros acc s. rewrite pretty_N_go_step by lia. rewrite Hk. simpl.
  rewrite digit_pretty_N_char by (apply N.mod_lt; lia). simpl. f_equal.
  rewrite N.pow_add_r. pose proof (N.div_mod x 10 ltac:(lia)). lia.
Qed.

Lemma parse_digits_pretty x : x <> 0%N -> parse_digits (pretty_N_go x "") 0 = Some x.
Proof.
  intros _. destruct (parse_digits_pretty_go x) as [k Hk]. rewrite Hk. simpl. by f_equal.
Qed.

Lemma parse_u32_to_string n : (n <= u32_max)%N -> parse_u32 (u32_to_string n) = Some n.
Proof.
  intros Hn. unfold u32_to_string, pretty, pretty_N.
  destruct (decide (n = 0%N)) as [->|Hne]; [done|].
  pose proof (parse_digits_pretty n Hne) as Hp. unfold parse_u32.
  destruct (pretty_N_go n "") as [|c s] eqn:E.
  { injection Hp as <-. done. }
  assert (c <> "+"%char) as Hc by (intros ->; done).
  assert (match String c s with String "+" s' => s' | _ => String c s end = String c s) as ->.
  { destruct c as [[] [] [] [] [] [] [] []]; done. }
  rewrite Hp. simpl. by rewrite (proj2 (N.leb_le _ _) Hn).
Qed.

Lemma parse_u32_range s n : parse_u32 s = Some n -> (n <= u32_max)%N.
Proof.
  unfold parse_u32. destruct (match s with String "+" s' => s' | _ => s end); [done|].
  destruct (parse_digits _ _) as [m|]; [|done]. simpl.
  destruct (N.leb_spec m u32_max); [|done]. by intros [= <-].
Qed.

(** ** Fields and spaces *)

Lemma parse_digits_no_space s acc n : parse_digits s acc = Some n -> no_space s = true.
Proof.
  revert acc. induction s as [|c s IH]; intros acc; [done|]. simpl.
  destruct (digit c) as [d|] eqn:Hd; [|done]. simpl. intros ?%IH.
  by destruct (Ascii.eqb_spec c " ") as [->|].
Qed.

Lemma u32_to_string_no_space n : no_space (u32_to_string n) = true.
Proof.
  unfold u32_to_string, pretty, pretty_N. destruct (decide (n = 0%N)) as [->|Hne]; [done|].
  by eapply parse_digits_no_space, parse_digits_pretty.
Qed.

Lemma split_space_no_space s : no_space s = true -> split_space s = [s].
Proof.
  induction s as [|c s IH]; [done|]. simpl.
  destruct (Ascii.eqb c " "); [done|]. intros Hs. by rewrite IH.
Qed.

Lemma split_space_app a r :
  no_space a = true -> split_space (a ++ " " ++ r) = a :: split_space r.
Proof.
  induction a as [|c a IH]; [done|]. rewrite string_app_cons. simpl.
  destruct (Ascii.eqb c " "); [done|]. intros Hs. by rewrite IH.
Qed.

Lemma split_space_three a b c :
  no_space a = true -> no_space b = true -> no_space c = true ->
  split_space (String.concat "" [a; " "; b; " "; c]) = [a; b; c].
Proof.
  intros Ha Hb Hc. simpl. rewrite !string_app_nil_l.
  by rewrite !split_space_app, split_space_no_space.
Qed.

(** ** Runs of the handlers *)

Section BillingFacts.
Context `{F32Text}.
Context (ip op : option (option f32)) (deopt : result unit) (oc : bool).

Lemma u32_add_range a b n : u32_add oc a b = Ok n -> (n <= u32_max)%N.
Proof.
  unfold u32_add. destruct (N.leb_spec (a + b) u32_max); [by intros [= <-]|].
  destruct oc; [done|]. intros [= <-].
  pose proof (N.mod_lt (a + b) 4294967296 ltac:(done)). unfold u32_max. lia.
Qed.

Lemma u32_add_wrap a b n :
  u32_add oc a b = Ok n -> n = ((a + b) mod 4294967296)%N.
Proof.
  unfold u32_add. destruct (N.leb_spec (a + b) u32_max) as [Hle|]; [|by destruct oc; intros [= <-]].
  intros [= <-]. symmetry. apply N.mod_small. unfold u32_max in Hle. lia.
Qed.

Lemma log_openai_usage_run i o u b np nc :
  deopt = Ok tt -> ip = Some i -> op = Some o ->
  u32_add oc (PROMPT_USAGE b) (prompt_tokens u) = Ok np ->
  u32_add oc (COMPLETION_USAGE b) (completion_tokens u) = Ok nc ->
  log_openai_usage ip op deopt oc (Some u) b
  = (Ok tt, mkBilling np nc (next_cost i o (QUOTA_COST b) u)
              (Some (usage_text np nc (next_cost i o (QUOTA_COST b) u)))).
Proof.
  intros -> -> -> Hp Hc.
  unfold log_openai_usage, count_billing, unwrap,
    usage_text, next_cost, bind, lift, gets, modify.
  simpl. rewrite Hp. simpl. rewrite Hc. simpl. destruct i, o, u; reflexivity.
Qed.

Lemma load_openai_usage_run p c q b :
  deopt = Ok tt -> usage_log b = Some (usage_text p c q) ->
  (p <= u32_max)%N -> (c <= u32_max)%N ->
  load_openai_usage deopt b = (Ok tt, mkBilling p c q (usage_log b)).
Proof.
  intros -> Hlog Hp Hc. unfold load_openai_usage, bind, lift, gets. simpl. rewrite Hlog.
  unfold usage_text.
  rewrite split_space_three
    by auto using u32_to_string_no_space, f32_to_string_no_space.
  simpl. rewrite !parse_u32_to_string by done. rewrite f32_parse_to_string.
  unfold modify. by rewrite Hlog.
Qed.

(** Why [log_openai_usage] returned. *)
Lemma log_openai_usage_inv u b :
  (log_openai_usage ip op deopt oc (Some u) b).1 = Ok tt ->
  exists i o np nc,
    deopt = Ok tt /\ ip = Some i /\ op = Some o /\
    u32_add oc (PROMPT_USAGE b) (prompt_tokens u) = Ok np /\
    u32_add oc (COMPLETION_USAGE b) (completion_tokens u) = Ok nc.
Proof.
  unfold log_openai_usage, bind, lift, gets, modify, count_billing,
    unwrap, get_usage_log_path.
  destruct deopt as [[]|]; [|done]. simpl.
  destruct (u32_add oc (PROMPT_USAGE b) _) as [np|] eqn:Hp; [|done]. simpl.
  destruct (u32_add oc (COMPLETION_USAGE b) _) as [nc|] eqn:Hc; [|done]. simpl.
  destruct ip as [i|]; [|done]. destruct op as [o|]; [|done]. intros _.
  by exists i, o, np, nc.
Qed.

End BillingFacts.

(** ** The contract of the bill *)

Section BillingClaims.
Context `{F32Text}.
Context (ip op : option (option f32)) (deopt : result unit) (oc : bool).

(** C22: What [log_openai_usage] writes, [load_openai_usage] reads back: a
    process that starts with the usage file left by a successful
    [log_openai_usage] has, after loading, the three counters of the process
    that wrote it. *)
Theorem usage_log_roundtrip u b :
  (log_openai_usage ip op deopt oc (Some u) b).1 = Ok tt ->
  load_openai_usage deopt (restart (log_openai_usage ip op deopt oc (Some u) b).2)
  = (Ok tt, (log_openai_usage ip op deopt oc (Some u) b).2).
Proof.
  intros (i & o & np & nc & Hd & Hi & Ho & Hp & Hc)%log_openai_usage_inv.
  rewrite (log_openai_usage_run _ _ _ _ i o u b np nc) by done. simpl.
  by rewrite (load_openai_usage_run _ np nc (next_cost i o (QUOTA_COST b) u))
    by eauto using u32_add_range.
Qed.

(** Without overflow checks the token counters wrap: after a response
    is logged each counter is the sum of its old value and the tokens of the
    response, modulo 2^32, and the dollars grow by the price of the
    response. *)
Theorem log_openai_usage_wraps i o u b :
  deopt = Ok tt -> ip = Some i -> op = Some o -> oc = false ->
  let b' := (log_openai_usage ip op deopt oc (Some u) b).2 in
  (log_openai_usage ip op deopt oc (Some u) b).1 = Ok tt /\
  PROMPT_USAGE b' = ((PROMPT_USAGE b + prompt_tokens u) mod 4294967296)%N /\
  COMPLETION_USAGE b' = ((COMPLETION_USAGE b + completion_tokens u) mod 4294967296)%N /\
  QUOTA_COST b' = next_cost i o (QUOTA_COST b) u.
Proof.
  intros Hd Hi Ho ->.
  destruct (u32_add false (PROMPT_USAGE b) (prompt_tokens u)) as [np|] eqn:Hp;
    [|by unfold u32_add in Hp; destruct (_ <=? _)%N].
  destruct (u32_add false (COMPLETION_USAGE b) (completion_tokens u)) as [nc|] eqn:Hc;
    [|by unfold u32_add in Hc; destruct (_ <=? _)%N].
  rewrite (log_openai_usage_run _ _ _ _ i o u b np nc) by done. simpl.
  split_and!; eauto using u32_add_wrap.
Qed.

(** With overflow checks, a response that takes the prompt counter
    past [u32::MAX] makes [log_openai_usage] panic, and nothing is changed:
    neither the counters nor the usage file. *)
Theorem log_openai_usage_overflow u b :
  deopt = Ok tt -> oc = true ->
  (u32_max < PROMPT_USAGE b + prompt_tokens u)%N ->
  log_openai_usage ip op deopt oc (Some u) b = (Err add_overflow, b).
Proof.
  intros -> -> Hlt. unfold log_openai_usage, bind, lift, gets, u32_add. simpl.
  destruct (N.leb_spec (PROMPT_USAGE b + prompt_tokens u) u32_max); [lia|done].
Qed.

(** The token counters stay within [u32] whatever [log_openai_usage]
    and [load_openai_usage] do, failures included. *)
Theorem billing_in_range usage b :
  in_range b ->
  in_range (log_openai_usage ip op deopt oc usage b).2 /\
  in_range (load_openai_usage deopt b).2.
Proof.
  intros [Hp Hc]. split.
  - destruct usage as [u|]; [|done].
    unfold log_openai_usage, count_billing, unwrap, bind, lift, gets, modify.
    destruct deopt as [[]|]; [|done]. simpl.
    destruct (u32_add oc (PROMPT_USAGE b) _) as [np|] eqn:Ep; [|done].
    apply u32_add_range in Ep. simpl.
    destruct (u32_add oc (COMPLETION_USAGE b) _) as [nc|] eqn:Ec; [|done].
    apply u32_add_range in Ec. simpl.
    by destruct ip as [[i|]|], op as [[o|]|].
  - unfold load_openai_usage, bind, lift, gets, modify.
    destruct deopt as [[]|]; [|done]. simpl.
    destruct (usage_log b) as [content|]; [|done].
    case_bool_decide; [|done].
    destruct (split_space content) as [|p0 [|p1 [|p2 [|]]]]; try done.
    destruct (parse_u32 p0) as [p|] eqn:E0; [|done].
    destruct (parse_u32 p1) as [c|] eqn:E1; [|done].
    destruct (f32_parse p2); [|done]. split; simpl; by eapply parse_u32_range.
Qed.

(** A usage file that does not consist of exactly three fields makes
    [load_openai_usage] panic on its assertion; an absent file is not an
    error and leaves the counters as they are. *)
Theorem load_openai_usage_fields b :
  deopt = Ok tt ->
  match usage_log b with
  | None => load_openai_usage deopt b = (Ok tt, b)
  | Some content =>
      length (split_space content) <> 3%nat ->
      load_openai_usage deopt b = (Err (Panic "assertion `left == right` failed"), b)
  end.
Proof.
  intros ->. unfold load_openai_usage, bind, lift, gets. simpl.
  destruct (usage_log b) as [content|]; [|done]. intros Hlen.
  by rewrite bool_decide_eq_false_2.
Qed.

(** [count_billing] charges only when both prices are configured: with
    a price missing the dollars are unchanged, with both they grow by
    (input price x prompt tokens + output price x completion tokens) / 1000
    in [f32] arithmetic; with a price cell never initialised it panics. *)
Theorem count_billing_charge p c b :
  count_billing ip op p c b
  = match ip, op with
    | Some i, Some o =>
        (Ok tt, mkBilling (PROMPT_USAGE b) (COMPLETION_USAGE b)
                  (next_cost i o (QUOTA_COST b) (mkUsage p c)) (usage_log b))
    | _, _ => (Err unwrap_none, b)
    end.
Proof.
  unfold count_billing, unwrap, bind, modify.
  destruct ip as [[i|]|], op as [[o|]|]; simpl; try done; by destruct b.
Qed.

End BillingClaims.

(** ** The bill on an example *)

(** A text form of [f32] for the examples: a letter for the kind of
    number, the sign, and for a finite number its mantissa and exponent in
    decimal. *)
Fixpoint span_digits (s : string) : string * string :=
  match s with
  | EmptyString => (EmptyString, EmptyString)
  | String c s' =>
      if digit c is Some _ then let '(d, r) := span_digits s' in (String c d, r)
      else (EmptyString, s)
  end.

Definition demo_f32_to_string (x : f32) : string :=
  match x with
  | SpecFloat.S754_zero s => String "z" (if s then "-" else "+")
  | SpecFloat.S754_infinity s => String "i" (if s then "-" else "+")
  | SpecFloat.S754_nan => "n"
  | SpecFloat.S754_finite s m e =>
      String "f" ((if s then "-" else "+") +:+ u32_to_string (Npos m) +:+
                  (if (e <? 0)%Z then "m" else "p") +:+ u32_to_string (Z.abs_N e))
  end.

Definition demo_sign (c : ascii) : option bool :=
  if Ascii.eqb c "-" then Some true else if Ascii.eqb c "+" then Some false else None.

Definition demo_f32_parse (s : string) : option f32 :=
  match s with
  | String "n" EmptyString => Some SpecFloat.S754_nan
  | String "z" (String sg EmptyString) => SpecFloat.S754_zero <$> demo_sign sg
  | String "i" (String sg EmptyString) => SpecFloat.S754_infinity <$> demo_sign sg
  | String "f" (String sg rest) =>
      sign ← demo_sign sg;
      let '(mantissa, rest) := span_digits rest in
      match rest with
      | String es exponent =>
          m ← parse_digits mantissa 0;
          e ← parse_digits exponent 0;
          match m with
          | Npos m =>
              Some (SpecFloat.S754_finite sign m
                      (if Ascii.eqb es "m" then - Z.of_N e else Z.of_N e))
          | N0 => None
          end
      | EmptyString => None
      end
  | _ => None
  end.

Lemma span_digits_cons c s :
  span_digits (String c s)
  = if digit c is Some _ then let '(d, r) := span_digits s in (String c d, r)
    else (EmptyString, String c s).
Proof. done. Qed.

Lemma parse_digits_span s acc n c r :
  parse_digits s acc = Some n -> digit c = None ->
  span_digits (s ++ String c r) = (s, String c r).
Proof.
  revert acc. induction s as [|d s IH]; intros acc.
  - intros _ Hc. by rewrite string_app_nil_l, span_digits_cons, Hc.
  - intros Hs Hc. rewrite string_app_cons, span_digits_cons. simpl in Hs.
    destruct (digit d) eqn:Hd; [|done]. simpl in Hs. by rewrite (IH _ Hs Hc).
Qed.

Lemma parse_digits_u32_to_string n : parse_digits (u32_to_string n) 0 = Some n.
Proof.
  unfold u32_to_string, pretty, pretty_N. destruct (decide (n = 0%N)) as [->|Hne]; [done|].
  by apply parse_digits_pretty.
Qed.

Lemma no_space_app a b : no_space (a ++ b) = no_space a && no_space b.
Proof.
  induction a as [|c a IH]; [done|]. rewrite string_app_cons. simpl.
  by rewrite IH, andb_assoc.
Qed.

#[export] Program Instance demo_f32_text : F32Text := {|
  f32_to_string := demo_f32_to_string;
  f32_parse := demo_f32_parse;
|}.
Next Obligation.
  intros [[]|[]| |s m e]; try done. unfold demo_f32_to_string, demo_f32_parse.
  assert (demo_sign (if s then "-" else "+")%char = Some s) as Hs by (by destruct s).
  replace ((if s then "-" else "+") +:+ u32_to_string (Npos m) +:+
           (if (e <? 0)%Z then "m" else "p") +:+ u32_to_string (Z.abs_N e))
    with (String (if s then "-" else "+")%char
            (u32_to_string (Npos m) +:+
             String (if (e <? 0)%Z then "m" else "p")%char (u32_to_string (Z.abs_N e))))
    by (by destruct s, (e <? 0)%Z).
  rewrite Hs. simpl.
  rewrite (parse_digits_span _ 0 (Npos m)) by (apply parse_digits_u32_to_string || by destruct (e <? 0)%Z).
  rewrite !parse_digits_u32_to_string. simpl. f_equal. f_equal.
  destruct (Z.ltb_spec e 0); simpl; lia.
Qed.
Next Obligation.
  intros [[]|[]| |s m e]; try done. unfold demo_f32_to_string.
  change (no_space (String "f" ?x)) with (no_space x).
  rewrite !no_space_app, !u32_to_string_no_space. by destruct s, (e <? 0)%Z.
Qed.

Definition demo_usage : Usage := mkUsage 1200 300.

Definition demo_billing : Billing := mkBilling 4000 1000 (f32_of_Z 2) None.

Definition demo_price : option (option f32) := Some (Some (f32_of_Z 3)).

Lemma usage_log_roundtrip_witness :
  load_openai_usage (Ok tt)
    (restart (log_openai_usage demo_price demo_price (Ok tt) true (Some demo_usage)
                demo_billing).2)
  = (Ok tt, (log_openai_usage demo_price demo_price (Ok tt) true (Some demo_usage)
               demo_billing).2).
Proof. apply usage_log_roundtrip. vm_compute. reflexivity. Defined.

Lemma log_openai_usage_wraps_witness :
  let b' := (log_openai_usage demo_price demo_price (Ok tt) false
               (Some (mkUsage 4294967295 7)) demo_billing).2 in
  (log_openai_usage demo_price demo_price (Ok tt) false
     (Some (mkUsage 4294967295 7)) demo_billing).1 = Ok tt /\
  PROMPT_USAGE b' = ((4000 + 4294967295) mod 4294967296)%N /\
  COMPLETION_USAGE b' = ((1000 + 7) mod 4294967296)%N /\
  QUOTA_COST b'
  = next_cost (Some (f32_of_Z 3)) (Some (f32_of_Z 3)) (f32_of_Z 2) (mkUsage 4294967295 7).
Proof.
  apply (log_openai_usage_wraps demo_price demo_price (Ok tt) false
           (Some (f32_of_Z 3)) (Some (f32_of_Z 3)) (mkUsage 4294967295 7) demo_billing);
    reflexivity.
Defined.

Lemma log_openai_usage_overflow_witness :
  log_openai_usage demo_price demo_price (Ok tt) true (Some (mkUsage 4294967295 7))
    demo_billing
  = (Err add_overflow, demo_billing).
Proof. apply log_openai_usage_overflow; reflexivity. Defined.

Lemma billing_in_range_witness :
  in_range (log_openai_usage demo_price demo_price (Ok tt) false
              (Some (mkUsage 4294967295 7)) demo_billing).2 /\
  in_range (load_openai_usage (Ok tt) demo_billing).2.
Proof. apply billing_in_range. by vm_compute. Defined.

Lemma load_openai_usage_fields_witness :
  length (split_space "12 34") <> 3%nat ->
  load_openai_usage (Ok tt) (mkBilling 0 0 f32_zero (Some "12 34"))
  = (Err (Panic "assertion `left == right` failed"), mkBilling 0 0 f32_zero (Some "12 34")).
Proof.
  apply (load_openai_usage_fields (Ok tt) (mkBilling 0 0 f32_zero (Some "12 34"))).
  reflexivity.
Defined.
