(* ===== verification/Ledger.v ===== *)
(** * The bill against its ledger (src/request/openai.rs, lines 130-170)

    What [openai_billing] promises to the rest of the program, as a
    specification, and the proof that the counters, the usage file and the
    two functions that touch them implement it: over the life of a usage
    file, through any number of responses and restarts of the process, the
    counters are the tokens billed so far, as long as those fit in [u32];
    past that the counters are the tokens modulo 2^32 or the process panics,
    by build profile. *)

From S2P Require Import Prelude Loops Float32 Billing.

Local Open Scope string_scope.
Local Open Scope list_scope.
Local Open Scope N_scope.

(** ** Specification *)

(** What happens to the bill: a response is logged, or the process ends and
    a new one loads the usage file. *)
Inductive event : Type :=
| Logged (usage : option Usage)
| Restarted.

Module ledger.

(** Tokens and dollars billed since the usage file was created; the
    tokens are unbounded. *)
Record t : Type := mk {
  prompt : N;
  completion : N;
  cost : f32;
}.

Definition empty : t := mk 0 0 f32_zero.

Definition log (i o : option f32) (u : option Usage) (l : t) : t :=
  match u with
  | Some u => mk (prompt l + prompt_tokens u) (completion l + completion_tokens u)
                 (next_cost i o (cost l) u)
  | None => l
  end.

Definition record (i o : option f32) (e : event) (l : t) : t :=
  match e with
  | Logged u => log i o u l
  | Restarted => l
  end.

Definition replay (i o : option f32) (es : list event) (l : t) : t :=
  foldl (fun l e => record i o e l) l es.

(** The ledger can be held in two [u32] counters. *)
Definition fits (l : t) : Prop := prompt l <= u32_max /\ completion l <= u32_max.

#[export] Instance fits_dec l : Decision (fits l).
Proof. unfold fits. apply _. Defined.

End ledger.

(** ** Implementation *)

Section Implementation.
Context `{F32Text}.
Context (ip op : option (option f32)) (deopt : result unit) (oc : bool).

(** One event on the state of the process: [log_openai_usage] in
    [get_chat_response], or a new process, whose counters are zero until
    [OpenAIHanler::default] has called [load_openai_usage]. *)
Definition bill_step (e : event) : M Billing unit :=
  match e with
  | Logged u => log_openai_usage ip op deopt oc u
  | Restarted => do* modify restart in load_openai_usage deopt
  end.

Definition bill_run (es : list event) : M Billing unit := for_each bill_step es.

End Implementation.

(** ** Abstraction *)

(** The ledger a state stands for. *)
Definition absr (b : Billing) : ledger.t :=
  ledger.mk (PROMPT_USAGE b) (COMPLETION_USAGE b) (QUOTA_COST b).

(** The usage file holds the counters, or nothing was billed yet. *)
Definition synced `{F32Text} (b : Billing) : Prop :=
  match usage_log b with
  | Some content => content = usage_text (PROMPT_USAGE b) (COMPLETION_USAGE b) (QUOTA_COST b)
  | None => absr b = ledger.empty
  end.

(** The counters are the ledger modulo 2^32. *)
Definition wrapped (b : Billing) (l : ledger.t) : Prop :=
  PROMPT_USAGE b = ledger.prompt l mod 4294967296 /\
  COMPLETION_USAGE b = ledger.completion l mod 4294967296 /\
  QUOTA_COST b = ledger.cost l.

(** ** Lemmas *)

Lemma ledger_record_grows i o e l :
  ledger.prompt l <= ledger.prompt (ledger.record i o e l) /\
  ledger.completion l <= ledger.completion (ledger.record i o e l).
Proof. destruct e as [[u|]|]; simpl; lia. Qed.

Lemma ledger_replay_grows i o es l :
  ledger.prompt l <= ledger.prompt (ledger.replay i o es l) /\
  ledger.completion l <= ledger.completion (ledger.replay i o es l).
Proof.
  revert l. induction es as [|e es IH]; intros l; simpl; [lia|].
  pose proof (ledger_record_grows i o e l). pose proof (IH (ledger.record i o e l)). lia.
Qed.

Lemma ledger_fits_first i o e es l :
  ledger.fits (ledger.replay i o (e :: es) l) -> ledger.fits (ledger.record i o e l).
Proof.
  unfold ledger.fits. simpl. pose proof (ledger_replay_grows i o es (ledger.record i o e l)). lia.
Qed.

Section Simulation.
Context `{F32Text}.
Context (i o : option f32) (oc : bool).
Implicit Types (b : Billing) (l : ledger.t) (e : event) (es : list event).

Local Notation "'step'" := (bill_step (Some i) (Some o) (Ok tt) oc).
Local Notation "'run'" := (bill_run (Some i) (Some o) (Ok tt) oc).

Lemma u32_add_fits a n : a + n <= u32_max -> u32_add oc a n = Ok (a + n).
Proof. intros Hle. unfold u32_add. by rewrite (proj2 (N.leb_le _ _) Hle). Qed.

(** A restart is invisible: the process that loads the usage file has the
    counters of the process that wrote it. *)
Lemma bill_restart b :
  synced b -> in_range b -> step Restarted b = (Ok tt, b).
Proof.
  intros Hs [Hp Hc]. unfold bill_step, bind, modify, restart, synced, absr, ledger.empty in *.
  destruct (usage_log b) as [content|] eqn:Hlog; subst.
  - erewrite load_openai_usage_run; [|done..]. simpl. by destruct b; simplify_eq/=.
  - unfold load_openai_usage, bind, get_usage_log_path, lift, gets, ret. simpl.
    destruct b; by simplify_eq/=.
Qed.

(** One event that fits is simulated exactly, and leaves the file in step
    with the counters. *)
Lemma bill_step_simulates e b :
  synced b -> ledger.fits (ledger.record i o e (absr b)) ->
  exists b', step e b = (Ok tt, b') /\ absr b' = ledger.record i o e (absr b) /\ synced b'.
Proof.
  intros Hs [Hp Hc]. destruct e as [[u|]|].
  - eexists. split; [by eapply log_openai_usage_run; try apply u32_add_fits|]. done.
  - by exists b.
  - exists b. by rewrite bill_restart.
Qed.

(** A response that takes a counter past [u32::MAX]: the build with
    overflow checks panics before anything is written. *)
Lemma bill_step_overflow u b :
  oc = true -> ~ ledger.fits (ledger.log i o (Some u) (absr b)) ->
  step (Logged (Some u)) b = (Err add_overflow, b) \/
  exists np, step (Logged (Some u)) b
             = (Err add_overflow,
                mkBilling np (COMPLETION_USAGE b) (QUOTA_COST b) (usage_log b)).
Proof.
  intros -> Hfit. unfold ledger.fits in Hfit. simpl in *.
  unfold log_openai_usage, bind, lift, gets, modify, get_usage_log_path, u32_add. simpl.
  destruct (N.leb_spec (PROMPT_USAGE b + prompt_tokens u) u32_max); simpl; [|by left].
  destruct (N.leb_spec (COMPLETION_USAGE b + completion_tokens u) u32_max); simpl; [lia|eauto].
Qed.

(** Without overflow checks every response is logged, and the counters are
    the ledger modulo 2^32. *)
Lemma bill_step_wraps u b l :
  oc = false -> wrapped b l ->
  exists b', step (Logged u) b = (Ok tt, b') /\ wrapped b' (ledger.log i o u l).
Proof.
  intros -> (Hp & Hc & Hq). destruct u as [u|]; [|by exists b].
  destruct (u32_add false (PROMPT_USAGE b) (prompt_tokens u)) as [np|] eqn:Enp;
    [|by unfold u32_add in Enp; case_match].
  destruct (u32_add false (COMPLETION_USAGE b) (completion_tokens u)) as [nc|] eqn:Enc;
    [|by unfold u32_add in Enc; case_match].
  eexists. split; [by eapply log_openai_usage_run|].
  apply u32_add_wrap in Enp as ->, Enc as ->. unfold wrapped. simpl.
  rewrite Hp, Hc, Hq, !N.Div0.add_mod_idemp_l. done.
Qed.

Lemma wrapped_in_range b l : wrapped b l -> in_range b.
Proof.
  unfold in_range, u32_max. intros (-> & -> & _).
  pose proof (N.mod_lt (ledger.prompt l) 4294967296 ltac:(done)).
  pose proof (N.mod_lt (ledger.completion l) 4294967296 ltac:(done)). lia.
Qed.

Lemma bill_step_wraps_synced e b l :
  oc = false -> synced b -> wrapped b l ->
  exists b', step e b = (Ok tt, b') /\ wrapped b' (ledger.record i o e l) /\ synced b'.
Proof.
  intros Hoc Hs Hw. destruct e as [u|].
  - destruct (bill_step_wraps u b l Hoc Hw) as (b' & Hrun & Hw'). exists b'.
    split_and!; [done..|].
    destruct u as [u|]; [|by unfold bill_step, log_openai_usage, ret in Hrun; simplify_eq].
    apply (f_equal fst) in Hrun as Hok. apply log_openai_usage_inv in Hok
      as (? & ? & np & nc & _ & ? & ? & Hnp & Hnc). simplify_eq.
    unfold bill_step in Hrun. erewrite log_openai_usage_run in Hrun by done. by simplify_eq.
  - exists b. rewrite bill_restart; eauto using wrapped_in_range.
Qed.

(** With overflow checks, a sequence that does not fit panics at the first
    response that takes a counter past [u32::MAX]. *)
Lemma bill_run_overflow es b :
  oc = true -> synced b -> in_range b ->
  ~ ledger.fits (ledger.replay i o es (absr b)) ->
  (run es b).1 = Err add_overflow.
Proof.
  intros Hoc. revert b. induction es as [|e es IH]; intros b Hs Hr Hfit; [done|].
  unfold bill_run. simpl. unfold bind.
  destruct (decide (ledger.fits (ledger.record i o e (absr b)))) as [Hfe|Hfe].
  - destruct (bill_step_simulates e b Hs Hfe) as (b1 & -> & Habs & Hs1).
    apply IH; [done| by change (ledger.fits (absr b1)); rewrite Habs | by rewrite Habs].
  - destruct e as [[u|]|]; [|done..].
    by destruct (bill_step_overflow u b Hoc Hfe) as [->|[np ->]].
Qed.

End Simulation.

(** ** The contract *)

Section LedgerClaims.
Context `{F32Text}.
Context (i o : option f32) (oc : bool).

(** C16: the bill implements its ledger.  From a state whose usage file is
    in step with the counters, every sequence of logged responses and
    restarts whose tokens fit in [u32] runs without failure, and leaves the
    counters equal to the tokens and dollars of the ledger, and the usage
    file in step with them. *)
Theorem billing_refines_ledger es b :
  synced b -> ledger.fits (ledger.replay i o es (absr b)) ->
  exists b', bill_run (Some i) (Some o) (Ok tt) oc es b = (Ok tt, b') /\
             absr b' = ledger.replay i o es (absr b) /\ synced b'.
Proof.
  revert b. induction es as [|e es IH]; intros b Hs Hfit; [by exists b|].
  destruct (bill_step_simulates i o oc e b Hs (ledger_fits_first _ _ _ _ _ Hfit))
    as (b1 & Hrun & Habs & Hs1).
  simpl in Hfit. rewrite <- Habs in Hfit. destruct (IH b1 Hs1 Hfit) as (b' & Hrun' & Habs' & Hs').
  exists b'. unfold bill_run in *. simpl. erewrite bind_ok by done. by rewrite Hrun', Habs', Habs.
Qed.

(** C33: without overflow checks the bill never fails, and past [u32::MAX]
    it is the ledger modulo 2^32: after every sequence of logged responses
    and restarts, each counter is the tokens billed modulo 2^32, and the
    usage file holds those wrapped counters. *)
Theorem billing_wraps_ledger es b l :
  synced b -> wrapped b l ->
  exists b', bill_run (Some i) (Some o) (Ok tt) false es b = (Ok tt, b') /\
             wrapped b' (ledger.replay i o es l) /\ synced b'.
Proof.
  revert b l. induction es as [|e es IH]; intros b l Hs Hw; [by exists b|].
  destruct (bill_step_wraps_synced i o false e b l eq_refl Hs Hw) as (b1 & Hrun & Hw1 & Hs1).
  destruct (IH b1 _ Hs1 Hw1) as (b' & Hrun' & Hw' & Hs').
  exists b'. unfold bill_run in *. simpl. by erewrite bind_ok.
Qed.

(** With overflow checks the bill fails exactly when the ledger no
    longer fits: a sequence of logged responses and restarts runs to its
    end when the tokens billed fit in [u32], and panics on the addition
    otherwise. *)
Theorem billing_checked_iff es b :
  synced b -> in_range b ->
  (bill_run (Some i) (Some o) (Ok tt) true es b).1
  = if decide (ledger.fits (ledger.replay i o es (absr b))) then Ok tt else Err add_overflow.
Proof.
  intros Hs Hr. case_decide as Hfit; [|by apply bill_run_overflow].
  revert b Hs Hr Hfit. induction es as [|e es IH]; intros b Hs Hr Hfit; [done|].
  pose proof (ledger_fits_first _ _ _ _ _ Hfit) as Hfe.
  destruct (bill_step_simulates i o true e b Hs Hfe) as (b1 & Hrun & Habs & Hs1).
  unfold bill_run in *. simpl. unfold bind. rewrite Hrun. simpl in Hfit. rewrite <- Habs in Hfit, Hfe.
  by apply IH.
Qed.

End LedgerClaims.

(** ** The ledger on an example *)

Definition demo_events : list event :=
  [Logged (Some demo_usage); Restarted; Logged (Some demo_usage); Logged None].

(** A process that has never billed. *)
Definition demo_fresh : Billing := mkBilling 0 0 f32_zero None.

(** A process close to the end of its prompt counter, and its ledger. *)
Definition demo_full : Billing :=
  mkBilling 4294967000 10 (f32_of_Z 2)
    (Some (usage_text (H:=demo_f32_text) 4294967000 10 (f32_of_Z 2))).

Definition demo_ledger : ledger.t := ledger.mk 4294967000 10 (f32_of_Z 2).

Lemma billing_refines_ledger_witness :
  exists b', bill_run (H:=demo_f32_text) (Some (Some (f32_of_Z 3))) (Some (Some (f32_of_Z 3)))
               (Ok tt) true demo_events demo_fresh = (Ok tt, b') /\
             absr b' = ledger.replay (Some (f32_of_Z 3)) (Some (f32_of_Z 3)) demo_events
                         (absr demo_fresh) /\
             synced (H:=demo_f32_text) b'.
Proof.
  apply (billing_refines_ledger (H:=demo_f32_text)); [reflexivity|].
  apply (bool_decide_unpack _). vm_compute. exact I.
Defined.

Lemma billing_wraps_ledger_witness :
  exists b', bill_run (H:=demo_f32_text) (Some (Some (f32_of_Z 3))) (Some (Some (f32_of_Z 3)))
               (Ok tt) false [Logged (Some demo_usage)] demo_full = (Ok tt, b') /\
             wrapped b' (ledger.replay (Some (f32_of_Z 3)) (Some (f32_of_Z 3))
                           [Logged (Some demo_usage)] demo_ledger) /\
             synced (H:=demo_f32_text) b'.
Proof.
  apply (billing_wraps_ledger (H:=demo_f32_text)); [reflexivity|].
  unfold wrapped. by vm_compute.
Defined.

Lemma billing_checked_iff_witness :
  (bill_run (H:=demo_f32_text) (Some (Some (f32_of_Z 3))) (Some (Some (f32_of_Z 3)))
     (Ok tt) true [Logged (Some demo_usage)] demo_full).1
  = if decide (ledger.fits (ledger.replay (Some (f32_of_Z 3)) (Some (f32_of_Z 3))
                              [Logged (Some demo_usage)] (absr demo_full)))
    then Ok tt else Err add_overflow.
Proof.
  apply (billing_checked_iff (H:=demo_f32_text)); [reflexivity|].
  apply (bool_decide_unpack _). vm_compute. exact I.
Defined.

(** The counters after the response that wraps: 4294967000 + 1200 tokens
    are billed as 904. *)
Example billing_wraps_to_904 :
  PROMPT_USAGE
    (bill_run (H:=demo_f32_text) (Some (Some (f32_of_Z 3))) (Some (Some (f32_of_Z 3)))
       (Ok tt) false [Logged (Some demo_usage)] demo_full).2 = 904.
Proof. by vm_compute. Qed.
