(* ===== verification/Config.v ===== *)
(** * Configuration (src/config.rs)

    The constants and flag sets of the pipeline, the command-line [Config]
    and the per-library [LibConfig], the one-shot global cells that hold the
    settings of the LLM service, and the prompt templates.  A [OnceCell] is
    an [option]: empty until it is set, never set twice. *)

From S2P Require Import Prelude Loops Float32 CodeWrapper Billing.

Local Open Scope string_scope.
Local Open Scope list_scope.

(** The double quote, which a string literal cannot hold. *)
Definition dq : string := String "034"%char EmptyString.

(** ** Constants (lines 5-52) *)

Definition CONNECT_TIMEOUT : N := 1.
Definition INCODER_PATH : string := "src/extern/incoder.py".
Definition INCODER_MODEL : Z := 0.
Definition MUTATE_LINE : N := 3.
Definition MAX_TOKENS : N := 2048.
Definition MAX_INST_TOKENS : N := 256.
Definition MUTATE_SEED_ROUND : N := 0.
Definition RETRY_N : nat := 5.
Definition MAX_SAMPLE_LEN : N := 20.
Definition DEFAULT_COMB_LEN : N := 5.
Definition FDP_PATH : string := "src/extern".
Definition EXECUTION_TIMEOUT : N := 180.
Definition SANITIZATION_TIMEOUT : N := 1200.
Definition MIN_FUZZ_TIME : N := 60.
Definition MAX_FUZZ_TIME : N := 600.
Definition MAX_CONTEXT_APIS : N := 100.

(** ** Flag sets (lines 55-88) *)

Definition SANITIZER_FLAGS : list string := [
  "-fsanitize=fuzzer";
  "-g";
  "-O1";
  "-fsanitize=address,undefined";
  "-ftrivial-auto-var-init=zero";
  "-enable-trivial-auto-var-init-zero-knowing-it-will-be-removed-from-clang";
  "-fsanitize-trap=undefined";
  "-fno-sanitize-recover=undefined"
].

Definition FUZZER_FLAGS : list string := [
  "-fsanitize=fuzzer";
  "-O1";
  "-g";
  "-fsanitize=address,undefined";
  "-ftrivial-auto-var-init=zero";
  "-enable-trivial-auto-var-init-zero-knowing-it-will-be-removed-from-clang"
].

Definition COVERAGE_FLAGS : list string := [
  "-g";
  "-fsanitize=fuzzer";
  "-fprofile-instr-generate";
  "-fcoverage-mapping";
  "-Wl,--no-as-needed";
  "-Wl,-ldl";
  "-Wl,-lm";
  "-Wno-unused-command-line-argument";
  "-ftrivial-auto-var-init=zero";
  "-enable-trivial-auto-var-init-zero-knowing-it-will-be-removed-from-clang"
].

Definition ASAN_OPTIONS : list string := ["exitcode=168"; "alloc_dealloc_mismatch=0"].

(** ** The command line (lines 184-242) *)

Record Config : Type := mkConfig {
  target : string;
  n_sample : N;
  temperature : f32;
  disable_power_schedule : bool;
  fuzz_round_succ : N;
  fuzz_converge_round : N;
  query_budget : f32;
  cores : nat;
  max_cores : nat;
  exponent_branch : bool;
  recheck : bool;
  fuzzer_run : bool;
}.

(** The values [Config::init_test] and the defaults of the command line
    are given as decimal fractions; [f32_ratio n d] is the [f32] nearest to
    [n / d]. *)
Definition f32_ratio (n d : Z) : f32 := f32_div (f32_of_Z n) (f32_of_Z d).

(** ** Per-library settings (lines 244-286) *)

Record LibConfig : Type := mkLibConfig {
  project_name : string;
  static_lib_name : string;
  dyn_lib_name : string;
  ban : option (list string);
  null_term : option bool;
  extra_c_flags : option (list string);
  landmark : option bool;
  force_types : option (list string);
  fuzz_fork : option bool;
  desc : option string;
  spec : option string;
  init_file : option string;
  asan_option : option string;
  disable_fmemopen : option bool;
  rss_limit_mb : option N;
}.

(** Lines 278-285. *)
Definition should_terminate_with_null (self : LibConfig) : bool :=
  match null_term self with
  | Some term => term
  | None => false
  end.

(** ** Templates (lines 288-325) *)

Definition SYSTEM_GEN_TEMPLATE : string :=
  "Act as a C++ langauge Developer, write a fuzz driver that follow user's instructions." +:+
  newline +:+ "The prototype of fuzz dirver is: `extern " +:+ dq +:+ "C" +:+ dq +:+
  " int LLVMFuzzerTestOneInput(const uint8_t data, size_t size)`." +:+ newline +:+ newline.

Definition SYSTEM_INFILL_TEMPLATE : string :=
  "As a C++ language developer, you need to fill in the missing part of program provided by the user. The code that needs to be filled in is denoted as [INSERT]. Please ouput the text you filled in the location of [INSERT] and do no explain.".

Definition SYSTEM_CONTEXT_TEMPLATE : string :=
  newline +:+
  "The fuzz dirver should focus on the usage of the {project} library, and several essential aspects of the library are provided below." +:+
  newline +:+
  "Here are the system headers included in {project}. You can utilize the public elements of these headers:" +:+
  newline +:+ "----------------------" +:+ newline +:+ "{headers}" +:+ newline +:+
  "----------------------" +:+ newline +:+ newline +:+
  "Here are the APIs exported from {project}. You are encouraged to use any of the following APIs once you need to create, initialize or destory variables:" +:+
  newline +:+ "----------------------" +:+ newline +:+ "{APIs}" +:+ newline +:+
  "----------------------" +:+ newline +:+ newline +:+
  "Here are the custom types declared in {project}. Ensure that the variables you use do not violate declarations:" +:+
  newline +:+ "----------------------" +:+ newline +:+ "{context}" +:+ newline +:+
  "----------------------" +:+ newline.

Definition USER_GEN_TEMPLATE : string :=
  "Create a C++ language program step by step by using {project} library APIs and following the instructions below:" +:+
  newline +:+
  "1. Here are several APIs in {project}. Specific an event that those APIs could achieve together, if the input is a byte stream of {project}' output data." +:+
  newline +:+ "{combinations};" +:+ newline +:+
  "2. Complete the LLVMFuzzerTestOneInput function to achieve this event by using those APIs. Each API should be called at least once, if possible." +:+
  newline +:+
  "3. The input data and its size are passed as parameters of LLVMFuzzerTestOneInput: `const uint8_t *data` and `size_t size`. They must be consumed by the {project} APIs." +:+
  newline +:+
  "4. Once you need a `FILE *` variable to read the input data, using `FILE * in_file = fmemopen((void *)data, size, " +:+
  dq +:+ "rb" +:+ dq +:+ ")` to produce a `FILE *` variable." +:+ newline +:+
  "   Once you need a `FILE *` variable to write output data, using `FILE * out_file = fopen(" +:+
  dq +:+ "output_file" +:+ dq +:+ ", " +:+ dq +:+ "wb" +:+ dq +:+
  ")` to produce a `FILE *` variable." +:+ newline +:+
  "5. Once you need a `int` type file descriptor, using `fileno(in_file)` or `fileno(out_file)` to produce a file descriptor for reading or writing. " +:+
  newline +:+ "6. Once you just need a string of file name, directly using " +:+ dq +:+
  "input_file" +:+ dq +:+ " or " +:+ dq +:+ "output_file" +:+ dq +:+ " as the file name." +:+
  newline +:+ "7. Release all allocated resources before return." +:+ newline.

(** [str::replace] for a pattern that is not empty: the occurrences are
    taken from left to right and do not overlap. *)
Fixpoint replace_fuel (fuel : nat) (from to s : string) : string :=
  match fuel with
  | O => s
  | S fuel' =>
      if starts_with from s
      then to +:+ replace_fuel fuel' from to (str_drop (String.length from) s)
      else match s with
           | EmptyString => EmptyString
           | String c s' => String c (replace_fuel fuel' from to s')
           end
  end.

Definition replace (s from to : string) : string :=
  replace_fuel (S (String.length s)) from to s.

(** ** The global cells (lines 8-16, 38 and the statics of lines 154, 331, 336) *)

Record Globals : Type := mkGlobals {
  OPENAI_MODEL_NAME : option string;
  OPENAI_INPUT_PRICE : option (option f32);
  OPENAI_OUTPUT_PRICE : option (option f32);
  OPENAI_CONTEXT_LIMIT : option (option N);
  OPENAI_PROXY_BASE : option (option string);
  CONFIG_INSTANCE : option Config;
  MIN_FLAG : option string;
  TEMPLATE : option string;
  GTEMPLATE : option string;
}.

Definition no_globals : Globals :=
  mkGlobals None None None None None None None None None.

Definition set_MODEL_NAME v g := mkGlobals v (OPENAI_INPUT_PRICE g) (OPENAI_OUTPUT_PRICE g)
  (OPENAI_CONTEXT_LIMIT g) (OPENAI_PROXY_BASE g) (CONFIG_INSTANCE g) (MIN_FLAG g) (TEMPLATE g)
  (GTEMPLATE g).

Definition set_INPUT_PRICE v g := mkGlobals (OPENAI_MODEL_NAME g) v (OPENAI_OUTPUT_PRICE g)
  (OPENAI_CONTEXT_LIMIT g) (OPENAI_PROXY_BASE g) (CONFIG_INSTANCE g) (MIN_FLAG g) (TEMPLATE g)
  (GTEMPLATE g).

Definition set_OUTPUT_PRICE v g := mkGlobals (OPENAI_MODEL_NAME g) (OPENAI_INPUT_PRICE g) v
  (OPENAI_CONTEXT_LIMIT g) (OPENAI_PROXY_BASE g) (CONFIG_INSTANCE g) (MIN_FLAG g) (TEMPLATE g)
  (GTEMPLATE g).

Definition set_CONTEXT_LIMIT v g := mkGlobals (OPENAI_MODEL_NAME g) (OPENAI_INPUT_PRICE g)
  (OPENAI_OUTPUT_PRICE g) v (OPENAI_PROXY_BASE g) (CONFIG_INSTANCE g) (MIN_FLAG g) (TEMPLATE g)
  (GTEMPLATE g).

Definition set_PROXY_BASE v g := mkGlobals (OPENAI_MODEL_NAME g) (OPENAI_INPUT_PRICE g)
  (OPENAI_OUTPUT_PRICE g) (OPENAI_CONTEXT_LIMIT g) v (CONFIG_INSTANCE g) (MIN_FLAG g)
  (TEMPLATE g) (GTEMPLATE g).

Definition set_CONFIG_INSTANCE v g := mkGlobals (OPENAI_MODEL_NAME g) (OPENAI_INPUT_PRICE g)
  (OPENAI_OUTPUT_PRICE g) (OPENAI_CONTEXT_LIMIT g) (OPENAI_PROXY_BASE g) v (MIN_FLAG g)
  (TEMPLATE g) (GTEMPLATE g).

Definition set_MIN_FLAG v g := mkGlobals (OPENAI_MODEL_NAME g) (OPENAI_INPUT_PRICE g)
  (OPENAI_OUTPUT_PRICE g) (OPENAI_CONTEXT_LIMIT g) (OPENAI_PROXY_BASE g) (CONFIG_INSTANCE g) v
  (TEMPLATE g) (GTEMPLATE g).

Definition set_TEMPLATE v g := mkGlobals (OPENAI_MODEL_NAME g) (OPENAI_INPUT_PRICE g)
  (OPENAI_OUTPUT_PRICE g) (OPENAI_CONTEXT_LIMIT g) (OPENAI_PROXY_BASE g) (CONFIG_INSTANCE g)
  (MIN_FLAG g) v (GTEMPLATE g).

Definition set_GTEMPLATE v g := mkGlobals (OPENAI_MODEL_NAME g) (OPENAI_INPUT_PRICE g)
  (OPENAI_OUTPUT_PRICE g) (OPENAI_CONTEXT_LIMIT g) (OPENAI_PROXY_BASE g) (CONFIG_INSTANCE g)
  (MIN_FLAG g) (TEMPLATE g) v.

(** [cell.get().unwrap()] *)
Definition cell_get {A} (cell : Globals -> option A) : M Globals A :=
  fun g => unwrap (cell g) g.

(** [cell.set(v)]: whether the cell was empty. *)
Definition cell_set {A} (cell : Globals -> option A)
    (put : option A -> Globals -> Globals) (v : A) : M Globals bool :=
  fun g => match cell g with
           | None => (Ok true, put (Some v) g)
           | Some _ => (Ok false, g)
           end.

(** [cell.set(v).unwrap()] *)
Definition cell_set_unwrap {A} (cell : Globals -> option A)
    (put : option A -> Globals -> Globals) (v : A) : M Globals unit :=
  let* fresh := cell_set cell put v in
  if fresh : bool then ret tt else fail unwrap_err.

(** [cell.get_or_init(init)] *)
Definition cell_get_or_init {A} (cell : Globals -> option A)
    (put : option A -> Globals -> Globals) (init : M Globals A) : M Globals A :=
  fun g => match cell g with
           | Some v => (Ok v, g)
           | None => (let* v := init in do* modify (put (Some v)) in ret v) g
           end.

Section Config.
Context `{F32Text}.
(** The environment of the process. *)
Context (env : gmap string string).
(** The command line as clap parsed it, what [Deopt] finds on disk, and
    whether the logger could be started. *)
Context (cli : Config).
Context (deopt_new : result LibConfig).
Context (data_exists lib_exists : result bool).
Context (init_debug_logger : result unit).
Context (coverage_bl_file_name : result string).
Context (landmark_corpus : option string).

(** Lines 90-108. *)
Definition get_openai_model_name : M Globals string := cell_get OPENAI_MODEL_NAME.

Definition get_openai_input_price : M Globals (option f32) := cell_get OPENAI_INPUT_PRICE.

Definition get_openai_output_price : M Globals (option f32) := cell_get OPENAI_OUTPUT_PRICE.

Definition get_openai_context_limit : M Globals (option N) := cell_get OPENAI_CONTEXT_LIMIT.

Definition get_openai_proxy : M Globals (option string) := cell_get OPENAI_PROXY_BASE.

(** Lines 111-135. *)
Definition init_openai_env : M Globals unit :=
  let* model :=
    match env !! "OPENAI_MODEL_NAME" with
    | Some model => ret model
    | None => fail (Panic "OPENAI_MODEL not set")
    end in
  let input_price := env !! "OPENAI_INPUT_PRICE" ≫= f32_parse in
  let output_price := env !! "OPENAI_OUTPUT_PRICE" ≫= f32_parse in
  let context_limit := env !! "OPENAI_CONTEXT_LIMIT" ≫= parse_u32 in
  let proxy_base := env !! "OPENAI_PROXY_BASE" in
  do* cell_set_unwrap OPENAI_MODEL_NAME set_MODEL_NAME model in
  do* cell_set_unwrap OPENAI_INPUT_PRICE set_INPUT_PRICE input_price in
  do* cell_set_unwrap OPENAI_OUTPUT_PRICE set_OUTPUT_PRICE output_price in
  do* cell_set_unwrap OPENAI_CONTEXT_LIMIT set_CONTEXT_LIMIT context_limit in
  cell_set_unwrap OPENAI_PROXY_BASE set_PROXY_BASE proxy_base.

(** Lines 137-151. *)
Definition get_config : M Globals Config := cell_get CONFIG_INSTANCE.

Definition get_library_name : M Globals string :=
  let* config := cell_get CONFIG_INSTANCE in
  ret (target config).

Definition get_sample_num : M Globals N :=
  let* config := cell_get CONFIG_INSTANCE in
  ret (n_sample config).

(** Lines 153-161. *)
Definition get_minimize_compile_flag : M Globals string :=
  cell_get_or_init MIN_FLAG set_MIN_FLAG
    (match coverage_bl_file_name with
     | Ok bl_file => ret ("-fsanitize-coverage-ignorelist=" +:+ bl_file)
     | Err _ => fail unwrap_err
     end).

(** Lines 162-178. *)
Definition parse_config : M Globals unit :=
  let config := cli in
  do* cell_set_unwrap CONFIG_INSTANCE set_CONFIG_INSTANCE config in
  let* name := get_library_name in
  let* deopt := lift deopt_new in
  let* data := lift data_exists in
  if negb data then
    fail (Report ("Cannot find the entry " +:+ project_name deopt +:+
                  " in `data` dir, please prepare it in anvance."))
  else
  let* lib := lift lib_exists in
  if negb lib then
    fail (Report ("Cannot find the build library " +:+ project_name deopt +:+
                  " in `output/build` dir, please build it by build.sh in anvance."))
  else ret tt.

(** Lines 224-241.  A configuration that is already installed stays. *)
Definition init_test (target : string) : M Globals unit :=
  let config := {|
    target := target;
    n_sample := 10;
    temperature := f32_ratio 9 10;
    cores := 10;
    max_cores := 0;
    fuzz_round_succ := 1;
    fuzz_converge_round := 10;
    exponent_branch := false;
    recheck := false;
    fuzzer_run := false;
    disable_power_schedule := false;
    query_budget := f32_of_Z 5;
  |} in
  do* cell_set CONFIG_INSTANCE set_CONFIG_INSTANCE config in
  match init_debug_logger with
  | Ok _ => ret tt
  | Err _ => fail unwrap_err
  end.

(** Lines 327-330. *)
Definition get_sys_gen_template : M Globals string :=
  cell_get_or_init TEMPLATE set_TEMPLATE (ret SYSTEM_GEN_TEMPLATE).

(** Lines 332-339. *)
Definition get_user_gen_template : M Globals string :=
  cell_get_or_init GTEMPLATE set_GTEMPLATE
    (let* config := get_config in
     let template := USER_GEN_TEMPLATE in
     ret (replace template "{project}" (target config))).

(** Lines 341-360. *)
Definition get_user_chat_template : M Globals string :=
  let* library_name := get_library_name in
  let* deopt := match deopt_new with Ok d => ret d | Err _ => fail unwrap_err end in
  let* template := get_user_gen_template in
  let template :=
    match landmark_corpus with
    | Some landmark =>
        "The input data is: " +:+ landmark +:+ newline +:+ newline +:+ newline +:+ "."
        +:+ template
    | None => template
    end in
  let template :=
    match spec deopt with
    | Some init =>
        template +:+ newline +:+ "The begining of the fuzz driver is: " +:+ newline +:+ init
    | None => template
    end in
  let template :=
    match disable_fmemopen deopt with
    | Some true =>
        replace template ("fmemopen((void *)data, size, " +:+ dq +:+ "rb" +:+ dq +:+ ")")
          ("fopen(" +:+ dq +:+ "input_file" +:+ dq +:+ ", " +:+ dq +:+ "rb" +:+ dq +:+ ")")
    | _ => template
    end in
  ret template.

End Config.

(** ** Facts *)

Lemma starts_with_length (p s : string) :
  starts_with p s = true -> (String.length p <= String.length s)%nat.
Proof.
  revert s. induction p as [|c p IH]; intros [|d s]; simpl; try lia; try discriminate.
  destruct (Ascii.eqb c d); [|discriminate]. intros Hp. apply IH in Hp. lia.
Qed.

Lemma str_drop_length (n : nat) (s : string) :
  String.length (str_drop n s) = (String.length s - n)%nat.
Proof. revert s. induction n as [|n IH]; intros [|c s]; simpl; auto. Qed.

Lemma replace_fuel_enough (from to : string) (n m : nat) (s : string) :
  from <> EmptyString ->
  (String.length s < n)%nat -> (String.length s < m)%nat ->
  replace_fuel n from to s = replace_fuel m from to s.
Proof.
  intros Hne. revert m s. induction n as [|n IH]; intros [|m] s Hn Hm; try lia.
  simpl. destruct (starts_with from s) eqn:Hp.
  - apply starts_with_length in Hp. f_equal.
    assert (0 < String.length from)%nat by (destruct from; [done | simpl; lia]).
    apply IH; rewrite str_drop_length; lia.
  - destruct s as [|c s]; [done|]. f_equal. apply IH; simpl in *; lia.
Qed.

Lemma replace_fuel_S (n : nat) (from to s : string) :
  replace_fuel (S n) from to s =
  if starts_with from s
  then to +:+ replace_fuel n from to (str_drop (String.length from) s)
  else match s with
       | EmptyString => EmptyString
       | String c s' => String c (replace_fuel n from to s')
       end.
Proof. done. Qed.

Lemma replace_cons_skip (c : ascii) (s from to : string) :
  from <> EmptyString ->
  starts_with from (String c s) = false ->
  replace (String c s) from to = String c (replace s from to).
Proof. intros Hne Hp. unfold replace. by rewrite replace_fuel_S, Hp. Qed.

Lemma replace_hit (s from to : string) :
  from <> EmptyString ->
  replace (from +:+ s) from to = to +:+ replace s from to.
Proof.
  intros Hne. unfold replace.
  rewrite replace_fuel_S, starts_with_app, str_drop_app. f_equal.
  assert (0 < String.length from)%nat by (destruct from; [done | simpl; lia]).
  apply replace_fuel_enough; [done | rewrite string_length_app; lia | lia].
Qed.

Section ConfigFacts.
Context `{F32Text}.
Context (env : gmap string string).

Lemma cell_get_set {A} (cell : Globals -> option A) put (v : A) (g : Globals) :
  cell g = None -> (forall o g, cell (put o g) = o) ->
  cell_set_unwrap cell put v g = (Ok tt, put (Some v) g).
Proof. intros Hg _. unfold cell_set_unwrap, cell_set, bind. by rewrite Hg. Qed.

Lemma cell_set_full {A} (cell : Globals -> option A) put (v : A) (g : Globals) :
  is_Some (cell g) -> cell_set_unwrap cell put v g = (Err unwrap_err, g).
Proof. intros [x Hg]. unfold cell_set_unwrap, cell_set, bind. by rewrite Hg. Qed.

(** The globals after a successful [init_openai_env]. *)
Definition openai_env (model : string) (g : Globals) : Globals :=
  set_PROXY_BASE (Some (env !! "OPENAI_PROXY_BASE"))
    (set_CONTEXT_LIMIT (Some (env !! "OPENAI_CONTEXT_LIMIT" ≫= parse_u32))
      (set_OUTPUT_PRICE (Some (env !! "OPENAI_OUTPUT_PRICE" ≫= f32_parse))
        (set_INPUT_PRICE (Some (env !! "OPENAI_INPUT_PRICE" ≫= f32_parse))
          (set_MODEL_NAME (Some model) g)))).

(** Whether the five cells of the LLM service are all empty. *)
Definition openai_unset (g : Globals) : Prop :=
  OPENAI_MODEL_NAME g = None /\ OPENAI_INPUT_PRICE g = None /\
  OPENAI_OUTPUT_PRICE g = None /\ OPENAI_CONTEXT_LIMIT g = None /\
  OPENAI_PROXY_BASE g = None.

Lemma init_openai_env_run (model : string) (g : Globals) :
  env !! "OPENAI_MODEL_NAME" = Some model -> openai_unset g ->
  init_openai_env env g = (Ok tt, openai_env model g).
Proof.
  intros Hm (H1 & H2 & H3 & H4 & H5). unfold init_openai_env. rewrite Hm.
  unfold bind at 1, ret at 1.
  repeat (erewrite bind_ok; [|by apply cell_get_set]).
  by apply cell_get_set.
Qed.

Lemma cell_set_unwrap_inv {A B} (cell : Globals -> option A) put (v : A)
    (k : unit -> M Globals B) (g : Globals) (r : B) :
  (bind (cell_set_unwrap cell put v) k g).1 = Ok r ->
  cell g = None /\ bind (cell_set_unwrap cell put v) k g = k tt (put (Some v) g).
Proof.
  unfold cell_set_unwrap, cell_set, bind. by destruct (cell g).
Qed.

Lemma cell_set_unwrap_inv_last {A} (cell : Globals -> option A) put (v : A) (g : Globals) :
  (cell_set_unwrap cell put v g).1 = Ok tt -> cell g = None.
Proof. unfold cell_set_unwrap, cell_set, bind. by destruct (cell g). Qed.

Lemma init_openai_env_ok_inv (g : Globals) :
  (init_openai_env env g).1 = Ok tt ->
  exists model, env !! "OPENAI_MODEL_NAME" = Some model /\ openai_unset g.
Proof.
  unfold init_openai_env. destruct (env !! "OPENAI_MODEL_NAME") as [model|]; [|done].
  unfold bind at 1, ret at 1. intros Hok. exists model. split; [done|].
  repeat (destruct (cell_set_unwrap_inv _ _ _ _ _ _ Hok) as [? Heq];
          rewrite Heq in Hok; clear Heq).
  apply cell_set_unwrap_inv_last in Hok. by repeat split.
Qed.

(** C26: [init_openai_env] on empty cells with a model name in the
    environment succeeds; afterwards the five getters return the model name
    and what the other four variables parse to ([None] for a variable that is
    absent or does not parse), and the configuration cell is untouched. *)
Theorem init_openai_env_sets_cells (model : string) (g : Globals) :
  env !! "OPENAI_MODEL_NAME" = Some model -> openai_unset g ->
  (init_openai_env env g).1 = Ok tt /\
  let g' := (init_openai_env env g).2 in
  (get_openai_model_name g').1 = Ok model /\
  (get_openai_input_price g').1 = Ok (env !! "OPENAI_INPUT_PRICE" ≫= f32_parse) /\
  (get_openai_output_price g').1 = Ok (env !! "OPENAI_OUTPUT_PRICE" ≫= f32_parse) /\
  (get_openai_context_limit g').1 = Ok (env !! "OPENAI_CONTEXT_LIMIT" ≫= parse_u32) /\
  (get_openai_proxy g').1 = Ok (env !! "OPENAI_PROXY_BASE") /\
  CONFIG_INSTANCE g' = CONFIG_INSTANCE g.
Proof. intros Hm Hg. by rewrite (init_openai_env_run _ _ Hm Hg). Qed.

(** The environment is read once: a second [init_openai_env] after a
    successful one panics on the first cell and changes nothing. *)
Theorem init_openai_env_twice_panics (g : Globals) :
  (init_openai_env env g).1 = Ok tt ->
  init_openai_env env (init_openai_env env g).2 = (Err unwrap_err, (init_openai_env env g).2).
Proof.
  intros Hok. destruct (init_openai_env_ok_inv _ Hok) as (model & Hm & Hg).
  rewrite (init_openai_env_run _ _ Hm Hg). unfold init_openai_env. rewrite Hm.
  unfold bind at 1, ret at 1.
  erewrite bind_err; [done|]. by apply cell_set_full.
Qed.

(** Without [OPENAI_MODEL_NAME] in the environment [init_openai_env]
    panics before it sets any cell. *)
Theorem init_openai_env_without_model (g : Globals) :
  env !! "OPENAI_MODEL_NAME" = None ->
  init_openai_env env g = (Err (Panic "OPENAI_MODEL not set"), g).
Proof. intros Hm. unfold init_openai_env. by rewrite Hm. Qed.

(** The user prompt is built once: when [get_user_gen_template] has
    returned a prompt, it returns the same prompt from then on, whatever
    configuration is installed later. *)
Theorem get_user_gen_template_cached (g : Globals) (t : string) (c : option Config) :
  (get_user_gen_template g).1 = Ok t ->
  get_user_gen_template (set_CONFIG_INSTANCE c (get_user_gen_template g).2)
  = (Ok t, set_CONFIG_INSTANCE c (get_user_gen_template g).2).
Proof.
  unfold get_user_gen_template, cell_get_or_init.
  destruct (GTEMPLATE g) as [t0|] eqn:Hg.
  - simpl. rewrite Hg. by intros [= ->].
  - unfold get_config, cell_get, bind, ret, modify.
    destruct (CONFIG_INSTANCE g); [|done]. simpl. by intros [= ->].
Qed.

(** Before the command line is parsed there is no configuration: the
    library name cannot be read, and neither can the user prompt, which
    leaves its cell empty. *)
Theorem get_user_gen_template_needs_config (g : Globals) :
  CONFIG_INSTANCE g = None -> GTEMPLATE g = None ->
  get_library_name g = (Err unwrap_none, g) /\
  get_user_gen_template g = (Err unwrap_none, g).
Proof.
  intros Hc Hg.
  unfold get_library_name, get_user_gen_template, cell_get_or_init, get_config, cell_get, bind.
  by rewrite Hg, Hc.
Qed.

End ConfigFacts.

(** ** The cells that are filled on first use, and the command line *)

Section ConfigMore.
Context (cli : Config) (deopt_new : result LibConfig) (data_exists lib_exists : result bool).

(** A cell filled on first use keeps its first value, whatever would be
    computed for it later. *)
Lemma cell_get_or_init_memo {A} (cell : Globals -> option A) put (init init' : M Globals A)
    (g : Globals) (v : A) :
  (forall o g, cell (put o g) = o) ->
  (cell_get_or_init cell put init g).1 = Ok v ->
  cell_get_or_init cell put init' (cell_get_or_init cell put init g).2
  = (Ok v, (cell_get_or_init cell put init g).2).
Proof.
  intros Hput. unfold cell_get_or_init. destruct (cell g) as [v0|] eqn:Hc.
  - simpl. rewrite Hc. by intros [= ->].
  - unfold bind, modify, ret. destruct (init g) as [[a|e] g1]; [|done].
    simpl. rewrite Hput. by intros [= ->].
Qed.

(** The flag that names the coverage ignore list is computed once: after a
    call that returned it, every call returns it, also when [Deopt] would
    now name another file or none. *)
Theorem get_minimize_compile_flag_memo (file file' : result string) (g : Globals) flag :
  (get_minimize_compile_flag file g).1 = Ok flag ->
  get_minimize_compile_flag file' (get_minimize_compile_flag file g).2
  = (Ok flag, (get_minimize_compile_flag file g).2).
Proof. by apply cell_get_or_init_memo. Qed.

(** When the ignore list cannot be named the flag panics and its cell stays
    empty, so that the next call asks [Deopt] again. *)
Theorem get_minimize_compile_flag_unwrap (g : Globals) e :
  MIN_FLAG g = None ->
  get_minimize_compile_flag (Err e) g = (Err unwrap_err, g).
Proof.
  intros Hc. unfold get_minimize_compile_flag, cell_get_or_init. by rewrite Hc.
Qed.

(** [parse_config] installs the command line before it looks at the disk:
    on an empty cell the configuration is installed on every outcome. *)
Theorem parse_config_installs (g : Globals) :
  CONFIG_INSTANCE g = None ->
  (parse_config cli deopt_new data_exists lib_exists g).2 = set_CONFIG_INSTANCE (Some cli) g.
Proof.
  intros Hc. unfold parse_config, cell_set_unwrap, cell_set, get_library_name, cell_get,
    unwrap, bind, lift, ret, fail.
  rewrite Hc. simpl.
  destruct deopt_new as [d|]; [|done]. destruct data_exists as [[]|]; [|done..].
  simpl. by destruct lib_exists as [[]|].
Qed.

(** It succeeds exactly when [Deopt] can be built and both the data
    directory and the built library of the target are found. *)
Theorem parse_config_ok_iff (g : Globals) :
  CONFIG_INSTANCE g = None ->
  (parse_config cli deopt_new data_exists lib_exists g).1 = Ok tt
  <-> is_ok deopt_new = true /\ data_exists = Ok true /\ lib_exists = Ok true.
Proof.
  intros Hc. unfold parse_config, cell_set_unwrap, cell_set, get_library_name, cell_get,
    unwrap, bind, lift, ret, fail.
  rewrite Hc. simpl.
  destruct deopt_new as [d|]; [|naive_solver]. destruct data_exists as [[]|]; [|naive_solver..].
  simpl. destruct lib_exists as [[]|]; naive_solver.
Qed.

(** A missing data directory is reported with the name of the project, not
    of the target asked for on the command line. *)
Theorem parse_config_missing_data (g : Globals) deopt :
  CONFIG_INSTANCE g = None -> deopt_new = Ok deopt -> data_exists = Ok false ->
  (parse_config cli deopt_new data_exists lib_exists g).1
  = Err (Report ("Cannot find the entry " +:+ project_name deopt +:+
                 " in `data` dir, please prepare it in anvance.")).
Proof.
  intros Hc -> ->. unfold parse_config, cell_set_unwrap, cell_set, get_library_name, cell_get,
    unwrap, bind, lift, ret, fail.
  by rewrite Hc.
Qed.

(** The command line is parsed once per process: after [parse_config], also
    after one that failed, a second [parse_config] panics on its cell. *)
Theorem parse_config_twice_panics (g : Globals) cli' d' x' l' :
  CONFIG_INSTANCE g = None ->
  (parse_config cli' d' x' l' (parse_config cli deopt_new data_exists lib_exists g).2).1
  = Err unwrap_err.
Proof.
  intros Hc. rewrite parse_config_installs by done.
  unfold parse_config, cell_set_unwrap, cell_set, bind. by destruct g.
Qed.

(** Without a landmark input, an initial fragment or the switch that bans
    [fmemopen], the chat prompt is the user prompt. *)
Theorem get_user_chat_template_plain (g : Globals) cfg deopt :
  CONFIG_INSTANCE g = Some cfg ->
  spec deopt = None -> disable_fmemopen deopt <> Some true ->
  get_user_chat_template (Ok deopt) None g = get_user_gen_template g.
Proof.
  intros Hc Hs Hf. unfold get_user_chat_template, get_library_name, cell_get, unwrap, bind, ret.
  rewrite Hc, Hs. destruct (get_user_gen_template g) as [[t|e] g']; [|done].
  by destruct (disable_fmemopen deopt) as [[]|].
Qed.

End ConfigMore.

(** The fuzzing build is the sanitizer build without the two flags
    that trap on undefined behaviour; the coverage build links the fuzzer
    driver but none of the sanitizers; a sanitizer report exits with 168. *)
Theorem flag_sets :
  (FUZZER_FLAGS ⊆ SANITIZER_FLAGS) /\
  (forall f, f ∈ SANITIZER_FLAGS -> f ∉ FUZZER_FLAGS ->
     f = "-fsanitize-trap=undefined" \/ f = "-fno-sanitize-recover=undefined") /\
  ("-fsanitize=fuzzer" ∈ COVERAGE_FLAGS) /\
  ("-fsanitize=address,undefined" ∉ COVERAGE_FLAGS) /\
  ("exitcode=168" ∈ ASAN_OPTIONS).
Proof.
  unfold FUZZER_FLAGS, SANITIZER_FLAGS, COVERAGE_FLAGS, ASAN_OPTIONS.
  split; [set_solver|]. split; [|split; [set_solver | split; [|set_solver]]].
  - intros f Hf Hn. set_solver.
  - apply (bool_decide_unpack _). vm_compute. exact I.
Qed.

(** ** A run on a concrete environment *)

Definition demo_env : gmap string string :=
  {[ "OPENAI_MODEL_NAME" := "gpt-3.5-turbo"; "OPENAI_CONTEXT_LIMIT" := "4096";
     "OPENAI_INPUT_PRICE" := "1" ]}.

Definition demo_config : Config :=
  {| target := "cJSON"; n_sample := 10; temperature := f32_ratio 9 10;
     disable_power_schedule := false; fuzz_round_succ := 1; fuzz_converge_round := 10;
     query_budget := f32_of_Z 5; cores := 10; max_cores := 0; exponent_branch := false;
     recheck := false; fuzzer_run := false |}.

Lemma init_openai_env_sets_cells_witness :
  (init_openai_env (H:=demo_f32_text) demo_env no_globals).1 = Ok tt /\
  let g' := (init_openai_env (H:=demo_f32_text) demo_env no_globals).2 in
  (get_openai_model_name g').1 = Ok "gpt-3.5-turbo" /\
  (get_openai_input_price g').1 = Ok (demo_env !! "OPENAI_INPUT_PRICE" ≫= f32_parse) /\
  (get_openai_output_price g').1 = Ok (demo_env !! "OPENAI_OUTPUT_PRICE" ≫= f32_parse) /\
  (get_openai_context_limit g').1 = Ok (demo_env !! "OPENAI_CONTEXT_LIMIT" ≫= parse_u32) /\
  (get_openai_proxy g').1 = Ok (demo_env !! "OPENAI_PROXY_BASE") /\
  CONFIG_INSTANCE g' = CONFIG_INSTANCE no_globals.
Proof.
  apply (init_openai_env_sets_cells (H:=demo_f32_text) demo_env);
    [vm_compute; reflexivity | by repeat split].
Defined.

Lemma init_openai_env_twice_panics_witness :
  init_openai_env (H:=demo_f32_text) demo_env
    (init_openai_env (H:=demo_f32_text) demo_env no_globals).2
  = (Err unwrap_err, (init_openai_env (H:=demo_f32_text) demo_env no_globals).2).
Proof.
  apply (init_openai_env_twice_panics (H:=demo_f32_text) demo_env no_globals).
  vm_compute. reflexivity.
Defined.

Lemma init_openai_env_without_model_witness :
  init_openai_env (H:=demo_f32_text) ∅ no_globals = (Err (Panic "OPENAI_MODEL not set"), no_globals).
Proof. apply (init_openai_env_without_model (H:=demo_f32_text) ∅ no_globals). reflexivity. Defined.

Lemma get_user_gen_template_cached_witness :
  let g := (get_user_gen_template (set_CONFIG_INSTANCE (Some demo_config) no_globals)).2 in
  exists t, get_user_gen_template (set_CONFIG_INSTANCE None g) = (Ok t, set_CONFIG_INSTANCE None g).
Proof.
  eexists.
  apply (get_user_gen_template_cached (set_CONFIG_INSTANCE (Some demo_config) no_globals) _ None).
  vm_compute. reflexivity.
Defined.

Lemma get_user_gen_template_needs_config_witness :
  get_library_name no_globals = (Err unwrap_none, no_globals) /\
  get_user_gen_template no_globals = (Err unwrap_none, no_globals).
Proof. apply (get_user_gen_template_needs_config no_globals); reflexivity. Defined.
