(* ===== verification/Tests.v ===== *)
(** * The tests of the sanitizer (src/execution/sanitize.rs, lines 397-472)

    The three tests of the module [tests]: each installs the test
    configuration, builds the executor and drives [check_program_is_correct]
    or [evolve_corpus] on a work directory.  The state is the cells of
    config.rs together with the world; the programs of testsuites/ are
    files of the world, and what the tools say of them is the [Toolchain]. *)

From S2P Require Import Prelude Loops Paths Float32 Feature World Fixture Evolve Stages.
From S2P Require Import Batch Supervisor Round Billing Config.

Local Open Scope string_scope.
Local Open Scope list_scope.

(** ** State *)

Record TestProcess : Type := mkTestProcess {
  t_cells : Globals;
  t_world : World;
}.

Definition in_cells {A} (m : M Globals A) : M TestProcess A :=
  fun t => let '(r, g) := m (t_cells t) in (r, mkTestProcess g (t_world t)).

Definition in_world {A} (m : M World A) : M TestProcess A :=
  fun t => let '(r, w) := m (t_world t) in (r, mkTestProcess (t_cells t) w).

(** [assert!] *)
Definition assertion_failed (cond : string) : fault := Panic ("assertion failed: " +:+ cond).

Definition assert {S} (b : bool) (cond : string) : M S unit :=
  if b then ret tt else fail (assertion_failed cond).

(** [PathBuf] collected from components: the last one is the file name. *)
Definition collect (components : list string) : Path :=
  match reverse components with
  | [] => mkPath "" ""
  | name :: dirs => mkPath (String.concat "/" (reverse dirs)) name
  end.

(** [std::fs::copy]: the source is a file that exists. *)
Definition fs_copy (from to : Path) : M World unit :=
  let* e := gets (entry from) in
  match e with
  | Some (Dir _) => fail (Report "the source path is neither a regular file nor a symlink to a regular file")
  | Some n => write_entry to n
  | None => fail enoent
  end.

(** ** The tests *)

Section Tests.
Context `{Toolchain}.
(** Whether the logger, [Deopt::new] and [Executor::new] succeed, and the
    directory of the crate. *)
Context (init_debug_logger deopt_new executor_new : result unit).
Context (get_crate_dir : result string).

(** Lines 402-443. *)
Definition test_coverage_sanitize : M TestProcess unit :=
  do* in_cells (init_test init_debug_logger "cJSON") in
  do* lift deopt_new in
  do* lift executor_new in
  (* this should pass the sanitization. *)
  let* crate_dir := lift get_crate_dir in
  let cov_succ_program_path :=
    collect [crate_dir; "testsuites"; "sanitize"; "cjson_cov_succ.cc"] in
  let* work_path := in_world (get_work_seed_by_id 99999) in
  do* in_world (fs_copy cov_succ_program_path work_path) in
  let* has_err := in_world (check_program_is_correct work_path) in
  do* assert (bool_decide (has_err = None)) "has_err.is_none()" in
  (* this should be sanitized by coverage. *)
  let* crate_dir := lift get_crate_dir in
  let cov_fail_program_path :=
    collect [crate_dir; "testsuites"; "sanitize"; "cjson_cov_fail.cc"] in
  let* work_path := in_world (get_work_seed_by_id 888888) in
  do* in_world (fs_copy cov_fail_program_path work_path) in
  let* has_err := in_world (check_program_is_correct work_path) in
  do* assert (bool_decide (is_Some has_err)) "has_err.is_some()" in
  match has_err with
  | Some (Coverage _) => ret tt
  | Some _ => fail (Panic "Should not fail on other sanitization")
  | None => ret tt
  end.

(** Lines 445-459. *)
Definition test_sanitization_for_a_program : M TestProcess unit :=
  do* in_cells (init_test init_debug_logger "cJSON") in
  do* lift deopt_new in
  let* crate_dir := lift get_crate_dir in
  let program_path := collect [crate_dir; "testsuites"; "new_test.cc"] in
  let* work_path := in_world (get_work_seed_by_id 3) in
  do* in_world (fs_copy program_path work_path) in
  do* lift executor_new in
  let* res := in_world (check_program_is_correct work_path) in
  ret tt.

(** Lines 461-471. *)
Definition test_corpus_evoluation : M TestProcess unit :=
  do* in_cells (init_test init_debug_logger "cJSON") in
  do* lift deopt_new in
  let* work_path := in_world (get_work_seed_by_id 61) in
  do* lift executor_new in
  let* res := in_world (evolve_corpus work_path) in
  ret tt.

End Tests.

(** ** What the tests check *)

(** A candidate placed in its work directory: the directory is made and the
    program copied to it. *)
Definition place (seed_id : N) (program : Path) : M World Path :=
  let* work_path := get_work_seed_by_id seed_id in
  do* fs_copy program work_path in
  ret work_path.

Definition cov_succ (crate_dir : string) : Path :=
  collect [crate_dir; "testsuites"; "sanitize"; "cjson_cov_succ.cc"].

Definition cov_fail (crate_dir : string) : Path :=
  collect [crate_dir; "testsuites"; "sanitize"; "cjson_cov_fail.cc"].

Lemma assert_ok_iff {S} b cond (s : S) u s' :
  assert b cond s = (Ok u, s') <-> b = true /\ s' = s.
Proof. unfold assert, ret, fail. destruct b, u; naive_solver. Qed.

Lemma in_world_ok_iff {A} (m : M World A) t a t' :
  in_world m t = (Ok a, t') <->
  exists w', m (t_world t) = (Ok a, w') /\ t' = mkTestProcess (t_cells t) w'.
Proof. unfold in_world. destruct (m (t_world t)) as [r w]. naive_solver. Qed.

Lemma in_cells_ok_iff {A} (m : M Globals A) t a t' :
  in_cells m t = (Ok a, t') <->
  exists g', m (t_cells t) = (Ok a, g') /\ t' = mkTestProcess g' (t_world t).
Proof. unfold in_cells. destruct (m (t_cells t)) as [r g]. naive_solver. Qed.

(** The cells after [Config::init_test]. *)
Definition after_init_test (target : string) (g : Globals) : Globals :=
  (init_test (Ok tt) target g).2.

Lemma init_test_run logger target g :
  init_test logger target g
  = (match logger with Ok _ => Ok tt | Err _ => Err unwrap_err end, after_init_test target g).
Proof.
  unfold after_init_test, init_test, bind, cell_set.
  by destruct (CONFIG_INSTANCE g), logger.
Qed.

Lemma init_test_ok_iff logger target g u g' :
  init_test logger target g = (Ok u, g') <-> is_ok logger = true /\ g' = after_init_test target g.
Proof. rewrite init_test_run. destruct logger, u; naive_solver. Qed.

(** A configuration installed earlier in the process stays. *)
Lemma init_test_keeps_first target g cfg :
  CONFIG_INSTANCE g = Some cfg -> after_init_test target g = g.
Proof. intros Hc. unfold after_init_test, init_test, bind, cell_set. by rewrite Hc. Qed.

Lemma get_work_seed_by_id_ok seed_id w : (get_work_seed_by_id seed_id w).1 = Ok (seed_path seed_id).
Proof. unfold get_work_seed_by_id. by destruct (w_work w !! work_dir_of seed_id). Qed.

(** Takes a run that returned apart, call by call. *)
Ltac invert_binds E :=
  repeat (apply bind_ok_iff in E as (? & ? & ?%lift_ok_iff & E)
          || apply bind_ok_iff in E as (? & ? & ?%in_world_ok_iff & E)
          || apply bind_ok_iff in E as (? & ? & ?%in_cells_ok_iff & E)
          || apply bind_ok_iff in E as (? & ? & ?%assert_ok_iff & E)).

Ltac open_test E :=
  invert_binds E;
  repeat match goal with
         | H : _ /\ _ |- _ => destruct H
         | H : ex _ |- _ => destruct H
         end;
  match goal with H : init_test _ _ _ = _ |- _ => apply init_test_ok_iff in H as [? ->] end;
  simplify_eq/=;
  repeat match goal with u : unit |- _ => destruct u end.

(** Runs a test whose calls are known by hypotheses of the context. *)
Ltac run_test E :=
  unfold cov_succ, cov_fail in *;
  repeat match goal with
         | H : is_ok ?r = true |- _ => destruct r as [[]|]; [clear H|done]
         end;
  unfold bind, in_cells, in_world, lift in E;
  repeat first
    [ rewrite init_test_run in E
    | rewrite bool_decide_eq_true_2 in E by done
    | match goal with H : _ = (_, _) |- _ => assert_fails (constr_eq H E); rewrite H in E end
    | match goal with H : _ = Ok _ |- _ => rewrite H in E end
    | progress cbn [t_world t_cells assert ret] in E ];
  unfold ret in E; simplify_eq.

Section TestFacts.
Context `{Toolchain}.
Context (init_debug_logger deopt_new executor_new : result unit).
Context (get_crate_dir : result string).

Lemma place_ok_iff seed_id program w p w' :
  place seed_id program w = (Ok p, w') <->
  exists w1, get_work_seed_by_id seed_id w = (Ok p, w1) /\ fs_copy program p w1 = (Ok tt, w').
Proof.
  unfold place, bind, ret.
  destruct (get_work_seed_by_id seed_id w) as [[q|e] w1]; [|by split; [|intros (? & ? & ?)]].
  split.
  - destruct (fs_copy program q w1) as [[[]|e] w2] eqn:Hc; intros [= <- <-]. eauto.
  - intros (? & [= <- <-] & ->). done.
Qed.

(** [test_coverage_sanitize] passes exactly when the logger, the
    working directories and the executor can be set up, both programs of
    testsuites/sanitize can be copied to their work directories, the first
    is accepted by [check_program_is_correct], and the second, checked in
    the world the first check left, is rejected with the [Coverage]
    verdict. *)
Theorem test_coverage_sanitize_passes_iff t :
  (test_coverage_sanitize init_debug_logger deopt_new executor_new get_crate_dir t).1 = Ok tt
  <->
  is_ok init_debug_logger = true /\ is_ok deopt_new = true /\ is_ok executor_new = true /\
  exists dir p1 p2 w1 w2 w3 w4 msg,
    get_crate_dir = Ok dir /\
    place 99999 (cov_succ dir) (t_world t) = (Ok p1, w1) /\
    check_program_is_correct p1 w1 = (Ok None, w2) /\
    place 888888 (cov_fail dir) w2 = (Ok p2, w3) /\
    check_program_is_correct p2 w3 = (Ok (Some (Coverage msg)), w4).
Proof.
  destruct (test_coverage_sanitize _ _ _ _ t) as [r t'] eqn:E. cbn [fst].
  split.
  - intros ->. unfold test_coverage_sanitize in E. open_test E.
    repeat match goal with
           | H : bool_decide (_ = None) = true |- _ => apply bool_decide_eq_true in H as ->
           | H : match ?v with _ => _ end _ = _ |- _ => destruct v as [[]|]; try done
           end.
    repeat split; [done|]. do 8 eexists. rewrite !place_ok_iff. eauto 10.
  - intros (Hl & Hd & He & dir & p1 & p2 & w1 & w2 & w3 & w4 & msg & Hdir & Hp1 & Hc1 & Hp2 & Hc2).
    apply place_ok_iff in Hp1 as (w1' & Hg1 & Hf1), Hp2 as (w2' & Hg2 & Hf2).
    unfold test_coverage_sanitize in E. by run_test E.
Qed.

(** [test_sanitization_for_a_program] asserts nothing of the verdict: it
    passes exactly when the set-up succeeds and [check_program_is_correct]
    returns, whatever it returns. *)
Theorem test_sanitization_for_a_program_passes_iff t :
  (test_sanitization_for_a_program init_debug_logger deopt_new executor_new get_crate_dir t).1
  = Ok tt
  <->
  is_ok init_debug_logger = true /\ is_ok deopt_new = true /\ is_ok executor_new = true /\
  exists dir p w1 verdict w2,
    get_crate_dir = Ok dir /\
    place 3 (collect [dir; "testsuites"; "new_test.cc"]) (t_world t) = (Ok p, w1) /\
    check_program_is_correct p w1 = (Ok verdict, w2).
Proof.
  destruct (test_sanitization_for_a_program _ _ _ _ t) as [r t'] eqn:E. cbn [fst].
  split.
  - intros ->. unfold test_sanitization_for_a_program in E. open_test E.
    repeat split; [done|]. do 5 eexists. rewrite !place_ok_iff. eauto 10.
  - intros (Hl & Hd & He & dir & p & w1 & verdict & w2 & Hdir & Hp & Hc).
    apply place_ok_iff in Hp as (w1' & Hg & Hf).
    unfold test_sanitization_for_a_program in E. by run_test E.
Qed.

(** [test_corpus_evoluation] places no program and runs no fuzzer before it
    evolves the corpus: it passes exactly when [evolve_corpus] succeeds on
    whatever an earlier run left in the work directory of seed 61. *)
Theorem test_corpus_evoluation_passes_iff t :
  (test_corpus_evoluation init_debug_logger deopt_new executor_new t).1 = Ok tt
  <->
  is_ok init_debug_logger = true /\ is_ok deopt_new = true /\ is_ok executor_new = true /\
  exists w1 w2,
    get_work_seed_by_id 61 (t_world t) = (Ok (seed_path 61), w1) /\
    evolve_corpus (seed_path 61) w1 = (Ok tt, w2).
Proof.
  destruct (test_corpus_evoluation _ _ _ t) as [r t'] eqn:E. cbn [fst].
  split.
  - intros ->. unfold test_corpus_evoluation in E. open_test E.
    pose proof (get_work_seed_by_id_ok 61 (t_world t)) as Hp.
    match goal with Hg : get_work_seed_by_id 61 _ = _ |- _ => rewrite Hg in Hp end.
    simplify_eq/=. eauto 10.
  - intros (Hl & Hd & He & w1 & w2 & Hg & Hc).
    unfold test_corpus_evoluation in E. by run_test E.
Qed.

End TestFacts.

(** ** When the first test passes *)

Section TestsPass.
Context `{Toolchain}.

(** A program copied to the work directory of a candidate that has none
    yet. *)
Lemma place_fresh seed_id src w :
  entry src w = Some File -> w_work w !! work_dir_of seed_id = None ->
  exists w1, place seed_id src w = (Ok (seed_path seed_id), w1) /\
    at_dir (work_dir_of seed_id) {[p_name (seed_path seed_id) := File]} ∅
      (w_shared w) (w_global w) w1 /\
    (forall d, d <> work_dir_of seed_id -> w_work w1 !! d = w_work w !! d).
Proof.
  intros Hsrc Hd.
  assert (p_dir src <> work_dir_of seed_id) as Hne.
  { intros E. unfold entry in Hsrc. by rewrite E, Hd in Hsrc. }
  eexists. split_and!.
  - unfold place, bind, get_work_seed_by_id, fs_copy, bind, gets, ret. rewrite Hd.
    unfold entry in *. simpl. rewrite lookup_insert_ne by done.
    destruct (w_work w !! p_dir src) as [d|]; [|done]. simpl in *. rewrite Hsrc.
    unfold write_entry. simpl. by rewrite lookup_insert_eq.
  - split; [|done]. exists ∅. simpl. rewrite lookup_insert_eq. split; [|done].
    unfold set_files. simpl. by rewrite insert_empty.
  - intros d Hd'. simpl. by rewrite !lookup_insert_ne.
Qed.

(** C27: [test_coverage_sanitize] passes in a crate that holds the two
    programs of testsuites/sanitize and no work directory for them, when
    the set-up succeeds and the tools let both programs through to the
    coverage check, which finds the target of the first covered and that of
    the second not. *)
Theorem test_coverage_sanitize_passes_when crate
    found1 cov1 sum1 c1 g0 found2 cov2 sum2 c2 t :
  entry (cov_succ crate) (t_world t) = Some File ->
  entry (cov_fail crate) (t_world t) = Some File ->
  w_work (t_world t) !! work_dir_of 99999 = None ->
  w_work (t_world t) !! work_dir_of 888888 = None ->
  tc_init_file <> Some "corpus" ->
  reaches_coverage (seed_path 99999) found1 cov1 sum1 c1 false ->
  starts_from (seed_path 99999) (w_global (t_world t)) g0 ->
  reaches_coverage (seed_path 888888) found2 cov2 sum2 c2 true ->
  (test_coverage_sanitize (Ok tt) (Ok tt) (Ok tt) (Ok crate) t).1 = Ok tt.
Proof.
  intros Hs1 Hs2 Hd1 Hd2 Hi Hr1 Hg Hr2.
  destruct (place_fresh 99999 _ _ Hs1 Hd1) as (w1 & Hp1 & Hw1 & Hf1).
  destruct (succeeds_run_value _ _ _ _ w1
              (succeeds_pipeline _ _ _ _ _ _ g0 _ _ _ _ _ Hr1 Hg (seed_name_fresh _) Hi) Hw1)
    as (w2 & Hc1 & Hw2).
  change (check_program_is_correct (seed_path 99999) w1
          = (Ok (coverage_verdict false sum1), w2)) in Hc1.
  pose proof (steps_check_program_is_correct (seed_path 99999) w1) as [Ho _ _ _ _ _ _].
  rewrite Hc1 in Ho. simpl in Ho.
  assert (work_dir_of 888888 <> work_dir_of 99999) as Hne by (by intros ?%work_dir_of_inj).
  assert (entry (cov_fail crate) w2 = Some File) as Hs2'.
  { unfold entry in *. rewrite Ho, Hf1; [done|intros E..]; by rewrite E, Hd1 in Hs2. }
  assert (w_work w2 !! work_dir_of 888888 = None) as Hd2' by (by rewrite Ho, Hf1).
  destruct (place_fresh 888888 _ _ Hs2' Hd2') as (w3 & Hp2 & Hw3 & _).
  destruct Hw2 as (_ & _ & HG2).
  destruct (succeeds_run_value _ _ _ _ w3
              (succeeds_pipeline _ _ _ _ _ _ _ _ _ _ _ _ Hr2 (or_introl HG2)
                 (seed_name_fresh _) Hi) Hw3) as (w4 & Hc2 & _).
  apply test_coverage_sanitize_passes_iff. split_and!; [done..|].
  exists crate, (seed_path 99999), (seed_path 888888), w1, w2, w3, w4.
  eexists. split_and!; [done..|exact Hc2].
Qed.

End TestsPass.

(** ** The tests on an example *)

(** The crate with its three test programs, and tools under which the
    second program of testsuites/sanitize covers too little. *)
Definition test_world : World := {|
  w_work := {[ "./testsuites/sanitize" :=
                 mkWorkDir {[ "cjson_cov_succ.cc" := File; "cjson_cov_fail.cc" := File ]} ∅;
               "./testsuites" := mkWorkDir {[ "new_test.cc" := File ]} ∅ ]};
  w_shared := {[ "seed0" ]};
  w_global := None;
  w_clock := 0;
|}.

Definition test_scenarios (dir : string) : Scenario :=
  if decide (dir = work_dir_of 888888) then with_uncovered (Ok true) all_pass
  else all_pass.

Definition test_toolchain : Toolchain := routed_toolchain test_scenarios None.

Definition test_process : TestProcess := mkTestProcess no_globals test_world.

(** Under these tools the first test passes; both work directories are
    left behind, the inputs found are in the shared corpus, and the test
    configuration is installed. *)
Example test_coverage_sanitize_passes :
  let '(r, t) := @test_coverage_sanitize test_toolchain (Ok tt) (Ok tt) (Ok tt) (Ok ".")
                   test_process in
  r = Ok tt /\ w_shared (t_world t) = {[ "seed0"; "in_a"; "in_c" ]} /\
  is_Some (w_work (t_world t) !! work_dir_of 99999) /\
  is_Some (w_work (t_world t) !! work_dir_of 888888) /\
  (target <$> CONFIG_INSTANCE (t_cells t)) = Some "cJSON".
Proof. vm_compute. repeat split; eauto. Qed.

(** When the tools reject the second program earlier, at the fuzz stage, the
    test panics on its last match. *)
Example test_coverage_sanitize_other_verdict :
  (@test_coverage_sanitize
     (routed_toolchain (fun dir => if decide (dir = work_dir_of 888888)
                                   then with_fuzz (Err (Report "crash"), ∅) all_pass
                                   else all_pass) None)
     (Ok tt) (Ok tt) (Ok tt) (Ok ".") test_process).1
  = Err (Panic "Should not fail on other sanitization").
Proof. by vm_compute. Qed.

(** The other two tests pass whatever the verdict: here the program of
    [test_sanitization_for_a_program] is rejected by the compiler. *)
Example test_sanitization_for_a_program_rejected :
  (@test_sanitization_for_a_program
     (routed_toolchain (fun _ => with_syntax (Some (mkOutput false "error")) all_pass) None)
     (Ok tt) (Ok tt) (Ok tt) (Ok ".") test_process).1
  = Ok tt.
Proof. by vm_compute. Qed.

(** [test_corpus_evoluation] on a crate where no test ran before: the work
    directory of seed 61 is new and empty, and what the test does is up to
    the merge of libFuzzer on a corpus that does not exist; when it writes no
    control file, the test panics. *)
Example test_corpus_evoluation_fresh :
  (@test_corpus_evoluation
     (routed_toolchain (fun _ => with_merge (Ok None) all_pass) None)
     (Ok tt) (Ok tt) (Ok tt) test_process).1
  = Err (Panic "merge_control_file does not exist!").
Proof. by vm_compute. Qed.


Lemma test_coverage_sanitize_passes_iff_witness :
  is_ok (Ok tt : result unit) = true /\ is_ok (Ok tt : result unit) = true /\
  is_ok (Ok tt : result unit) = true /\
  exists dir p1 p2 w1 w2 w3 w4 msg,
    Ok "." = Ok dir /\
    place 99999 (cov_succ dir) (t_world test_process) = (Ok p1, w1) /\
    @check_program_is_correct test_toolchain p1 w1 = (Ok None, w2) /\
    place 888888 (cov_fail dir) w2 = (Ok p2, w3) /\
    @check_program_is_correct test_toolchain p2 w3 = (Ok (Some (Coverage msg)), w4).
Proof.
  apply (proj1 (@test_coverage_sanitize_passes_iff test_toolchain (Ok tt) (Ok tt) (Ok tt)
                  (Ok ".") test_process)).
  vm_compute. reflexivity.
Defined.

Lemma test_reaches_coverage_succ :
  @reaches_coverage test_toolchain (seed_path 99999) {["in_a"; "in_b"; "in_c"]} 0%N
    "coverage summary" demo_corpora false.
Proof. split; try (intros; vm_compute; reflexivity). by eexists. Defined.

Lemma test_reaches_coverage_fail :
  @reaches_coverage test_toolchain (seed_path 888888) {["in_a"; "in_b"; "in_c"]} 0%N
    "coverage summary" demo_corpora true.
Proof. split; try (intros; vm_compute; reflexivity). by eexists. Defined.

Lemma test_coverage_sanitize_passes_when_witness :
  (@test_coverage_sanitize test_toolchain (Ok tt) (Ok tt) (Ok tt) (Ok ".") test_process).1
  = Ok tt.
Proof.
  apply (@test_coverage_sanitize_passes_when test_toolchain "."
           {["in_a"; "in_b"; "in_c"]} 0%N "coverage summary" demo_corpora ∅
           {["in_a"; "in_b"; "in_c"]} 0%N "coverage summary" demo_corpora test_process).
  - reflexivity.
  - reflexivity.
  - reflexivity.
  - reflexivity.
  - done.
  - apply test_reaches_coverage_succ.
  - right. by split.
  - apply test_reaches_coverage_fail.
Defined.
