(* ===== verification/Request.v ===== *)
(** * Requests to the model (src/request/openai.rs, lines 24-94 and 194-322)

    The handler [OpenAIHanler] with its methods, the client cell, the retry
    loops [get_chat_response] and [get_complete_response], and the functions
    that turn the choices of a response into programs and infills.

    The state is the process: the global cells of config.rs, the bill of
    [openai_billing], the client cell of [get_client] and the number of
    requests sent so far.  The service is the [Backend] interface: the
    answer to the n-th request sent, and the classifier [is_critical_err]
    of the crate root. *)

From S2P Require Import Prelude Loops Float32 CodeWrapper Billing Config.

Local Open Scope string_scope.
Local Open Scope list_scope.

(** ** Data *)

(** crate root [Critical] *)
Inductive Critical : Type := Normal | NonCritical | CriticalErr.

(** [CreateChatCompletionRequest], as far as the sources set it. *)
Record ChatRequest : Type := mkChatRequest {
  rq_model : string;
  rq_messages : list string;
  rq_n : N;
  rq_temperature : f32;
  rq_stream : bool;
  rq_stop : option string;
}.

(** [CreateCompletionRequest] *)
Record CompletionRequest : Type := mkCompletionRequest {
  cq_model : string;
  cq_prompt : string;
  cq_suffix : string;
  cq_max_tokens : N;
  cq_n : N;
  cq_temperature : f32;
  cq_stream : bool;
}.

(** [CreateChatCompletionResponse] and [CreateCompletionResponse]: the usage
    and the text of every choice. *)
Record Response : Type := mkResponse {
  usage : option Usage;
  choices : list string;
}.

(** program/mod.rs [Program::new]: a program with these statements and no
    combination yet. *)
Record NewProgram : Type := mkNewProgram {
  statements : string;
  combination : list string;
}.

Definition Program_new (content : string) : NewProgram := mkNewProgram content [].

(** request/prompt.rs [Prompt], as far as the handler looks at it: its
    chat messages, the suffix when it is an infill prompt, and its
    combination of API functions. *)
Record Prompt : Type := mkPrompt {
  to_chatgpt_message : list string;
  infill_suffix : option string;
  get_combination : result (list string);
}.

Class Backend : Type := {
  (** the answer of the service to the n-th request sent *)
  chat_create : ChatRequest -> nat -> result Response;
  completion_create : CompletionRequest -> nat -> result Response;
  is_critical_err : result Response -> Critical;
}.

(** [async_openai::Client] as [get_client] configures it: the base of the
    API when a proxy is set, and the two timeouts in seconds. *)
Record ApiClient : Type := mkApiClient {
  api_base : option string;
  connect_timeout : N;
  request_timeout : N;
}.

(** Lines 24-27. *)
Record OpenAIHanler : Type := mkOpenAIHanler {
  _child : option unit;
  rt : unit;
}.

(** The process: the cells of config.rs, the bill, the cell [CLIENT] of
    [get_client], and the number of requests sent so far. *)
Record Process : Type := mkProcess {
  globals : Globals;
  bill : Billing;
  CLIENT : option ApiClient;
  sent : nat;
}.

(** A computation on the bill, and one on the cells, run in the process. *)
Definition on_bill {A} (m : M Billing A) : M Process A :=
  fun c => let '(r, b) := m (bill c) in (r, mkProcess (globals c) b (CLIENT c) (sent c)).

Definition on_globals {A} (m : M Globals A) : M Process A :=
  fun c => let '(r, g) := m (globals c) in (r, mkProcess g (bill c) (CLIENT c) (sent c)).

Definition retry_error (n : nat) : fault :=
  Report "Retry exceeds the limit".

Definition unimplemented (msg : string) : fault := Panic ("not implemented: " +:+ msg).

Section Request.
Context `{F32Text} `{Backend}.
(** The path of the usage file, how the crate was built, and whether the
    HTTP client and the async runtime can be built. *)
Context (deopt : result unit) (overflow_checks : bool).
Context (http_build runtime_build : result unit).

(** Lines 29-39: [OpenAIHanler::default]. *)
Definition OpenAIHanler_default : M Process OpenAIHanler :=
  let* rt :=
    match runtime_build with
    | Ok rt => ret rt
    | Err _ => fail (Panic "Unable to build the openai runtime.")
    end in
  let* loaded := attempt (on_bill (load_openai_usage deopt)) in
  match loaded with
  | Ok _ => ret (mkOpenAIHanler None rt)
  | Err _ => fail unwrap_err
  end.

(** Lines 77-94. *)
Definition get_client : M Process ApiClient :=
  fun c =>
    match CLIENT c with
    | Some client => (Ok client, c)
    | None =>
        (let* http_client :=
           match http_build with Ok b => ret b | Err _ => fail unwrap_err end in
         let* proxy := on_globals get_openai_proxy in
         let client := mkApiClient proxy 10 60 in
         do* modify (fun c => mkProcess (globals c) (bill c) (Some client) (sent c)) in
         ret client) c
    end.

(** [client.chat().create(request.clone()).await] *)
Definition send_chat (request : ChatRequest) : M Process (result Response) :=
  fun c => (Ok (chat_create request (sent c)),
            mkProcess (globals c) (bill c) (CLIENT c) (S (sent c))).

Definition send_completion (request : CompletionRequest) : M Process (result Response) :=
  fun c => (Ok (completion_create request (sent c)),
            mkProcess (globals c) (bill c) (CLIENT c) (S (sent c))).

(** Line 247: [log_openai_usage(&response)], with the prices read from
    their cells. *)
Definition bill_response (response : Response) : M Process unit :=
  fun c => on_bill (log_openai_usage (OPENAI_INPUT_PRICE (globals c))
                      (OPENAI_OUTPUT_PRICE (globals c)) deopt overflow_checks
                      (usage response)) c.

(** Lines 198-209: the loop with [retries] iterations left. *)
Fixpoint complete_loop (retries : nat) (request : CompletionRequest) : M Process Response :=
  match retries with
  | O => fail (retry_error RETRY_N)
  | S retries' =>
      let* response := send_completion request in
      match is_critical_err response with
      | Normal => lift response
      | NonCritical => complete_loop retries' request
      | CriticalErr =>
          match response with
          | Err e => fail e
          | Ok _ => fail unwrap_none
          end
      end
  end.

(** Lines 194-211. *)
Definition get_complete_response (request : CompletionRequest) : M Process Response :=
  let* client := get_client in
  complete_loop RETRY_N request.

(** Lines 214-231. *)
Definition create_chat_request (msgs : list string) (stop : option string) :
    M Process ChatRequest :=
  let* model := on_globals get_openai_model_name in
  let* n := on_globals get_sample_num in
  let* config := on_globals get_config in
  ret (mkChatRequest model msgs n (temperature config) false stop).

(** Lines 238-255: the loop with [retries] iterations left. *)
Fixpoint chat_loop (retries : nat) (request : ChatRequest) : M Process Response :=
  match retries with
  | O => fail (retry_error RETRY_N)
  | S retries' =>
      let* response := send_chat request in
      match is_critical_err response with
      | Normal =>
          let* response := lift response in
          do* bill_response response in
          ret response
      | NonCritical => chat_loop retries' request
      | CriticalErr =>
          match response with
          | Err e => fail e
          | Ok _ => fail unwrap_none
          end
      end
  end.

(** Lines 234-257. *)
Definition get_chat_response (request : ChatRequest) : M Process Response :=
  let* client := get_client in
  chat_loop RETRY_N request.

(** Lines 259-270. *)
Definition create_infill_request (prefix suffix : string) : M Process CompletionRequest :=
  let* model := on_globals get_openai_model_name in
  let* n := on_globals get_sample_num in
  let* config := on_globals get_config in
  ret (mkCompletionRequest model prefix suffix MAX_TOKENS n (temperature config) false).

(** Lines 273-289. *)
Definition generate_programs_by_chat (chat_msgs : list string) : M Process (list NewProgram) :=
  let* request := create_chat_request chat_msgs None in
  let* respond := get_chat_response request in
  ret (foldl (fun programs choice =>
               let content := strip_code_wrapper choice in
               programs ++ [Program_new content]) [] (choices respond)).

(** Lines 292-303. *)
Definition generate_infills_by_request (prefix suffix : string) : M Process (list string) :=
  let* request := create_infill_request prefix suffix in
  let* respond := get_complete_response request in
  ret (foldl (fun infills choice => infills ++ [choice]) [] (choices respond)).

(** Lines 306-322. *)
Definition generate_infills_by_chat (chat_msgs : list string) (stop : option string) :
    M Process (list string) :=
  let* request := create_chat_request chat_msgs stop in
  let* respond := get_chat_response request in
  ret (foldl (fun infills choice => infills ++ [strip_code_wrapper choice]) []
         (choices respond)).

(** [&s[..n]]: the first [n] bytes, when [s] has that many and byte [n]
    begins a character. *)
Definition is_char_boundary (s : string) (n : nat) : bool :=
  match str_drop n s with
  | EmptyString => bool_decide (n <= String.length s)%nat
  | String c _ => negb ((128 <=? nat_of_ascii c) && (nat_of_ascii c <=? 191))%nat
  end.

Definition slice_to (s : string) (n : nat) : result string :=
  if is_char_boundary s n then Ok (str_take n s)
  else Err (Panic "byte index is out of bounds or not a char boundary").

(** Lines 42-45. *)
Definition generate_by_str (prefix : string) : M Process (list NewProgram) :=
  fail (unimplemented "deprecated since no usage").

(** Lines 47-58. *)
Definition generate (prompt : Prompt) : M Process (list NewProgram) :=
  let chat_msgs := to_chatgpt_message prompt in
  let* programs := generate_programs_by_chat chat_msgs in
  map_m (fun program =>
           let* combination := lift (get_combination prompt) in
           ret (mkNewProgram (statements program) combination)) programs.

(** Lines 59-62. *)
Definition infill_by_str (prefix suffix : string) : M Process (list string) :=
  generate_infills_by_request prefix suffix.

(** Lines 64-73. *)
Definition infill (prompt : Prompt) : M Process (list string) :=
  let chat_msgs := to_chatgpt_message prompt in
  match infill_suffix prompt with
  | Some suffix =>
      let* stop := lift (slice_to suffix 10) in
      generate_infills_by_chat chat_msgs (Some stop)
  | None => generate_infills_by_chat chat_msgs None
  end.

End Request.

(** ** Reference: when the client can be had, and what it is *)

(** The client is in its cell, or it can be built: the HTTP client builds
    and the proxy cell has been set by [init_openai_env]. *)
Definition client_ready (http_build : result unit) (c : Process) : Prop :=
  is_Some (CLIENT c) \/
  (http_build = Ok tt /\ is_Some (OPENAI_PROXY_BASE (globals c))).

(** The process once the client has been asked for. *)
Definition with_client (c : Process) : Process :=
  match CLIENT c with
  | Some _ => c
  | None =>
      mkProcess (globals c) (bill c)
        (Some (mkApiClient (default None (OPENAI_PROXY_BASE (globals c))) 10 60)) (sent c)
  end.

(** ** The client cell and the retry loop *)

Section RequestFacts.
Context `{F32Text} `{Backend}.
Context (deopt : result unit) (oc : bool) (http_build : result unit).
Implicit Types (c : Process) (request : ChatRequest).

Lemma on_bill_sent {A} (m : M Billing A) c : sent (on_bill m c).2 = sent c.
Proof. unfold on_bill. by destruct (m (bill c)). Qed.

Lemma process_eta c : mkProcess (globals c) (bill c) (CLIENT c) (sent c) = c.
Proof. by destruct c. Qed.

Lemma get_client_run c :
  client_ready http_build c ->
  exists client, get_client http_build c = (Ok client, with_client c) /\
                 CLIENT (with_client c) = Some client.
Proof.
  unfold client_ready, get_client, with_client.
  destruct (CLIENT c) as [client|] eqn:Hc; [by eauto|].
  intros [[? [=]]|[-> [proxy Hp]]].
  unfold bind, on_globals, get_openai_proxy, cell_get, unwrap, modify, ret.
  rewrite Hp. simpl. eauto.
Qed.

Lemma get_client_unready c :
  CLIENT c = None -> http_build = Ok tt -> OPENAI_PROXY_BASE (globals c) = None ->
  get_client http_build c = (Err unwrap_none, c).
Proof.
  intros Hc -> Hp. unfold get_client. rewrite Hc.
  unfold bind, on_globals, get_openai_proxy, cell_get, unwrap, fail, ret.
  rewrite Hp. simpl. by rewrite process_eta.
Qed.

(** Asking for the client sends nothing and leaves the cells and the bill. *)
Lemma get_client_frame c :
  let c' := (get_client http_build c).2 in
  sent c' = sent c /\ bill c' = bill c /\ globals c' = globals c.
Proof.
  unfold get_client. destruct (CLIENT c); [done|].
  unfold bind, on_globals, get_openai_proxy, cell_get, unwrap, fail, ret, modify.
  destruct http_build; [|done].
  by destruct (OPENAI_PROXY_BASE (globals c)).
Qed.

Lemma chat_loop_sent retries request c r c' :
  chat_loop deopt oc retries request c = (r, c') ->
  (sent c <= sent c' <= sent c + retries)%nat /\ (0 < retries -> sent c < sent c')%nat.
Proof.
  revert c. induction retries as [|retries IH]; intros c; simpl.
  { intros [= <- <-]. lia. }
  unfold bind at 1. simpl.
  destruct (is_critical_err (chat_create request (sent c))).
  - destruct (chat_create request (sent c)) as [resp|e]; simpl; [|intros [= <- <-]; simpl; lia].
    unfold bind, bill_response. simpl.
    match goal with |- context [on_bill ?m ?c0] =>
      pose proof (on_bill_sent m c0) as Hs; destruct (on_bill m c0) as [[[]|e] c1] end;
      simpl in *; intros [= <- <-]; lia.
  - intros Hr%IH. simpl in Hr. lia.
  - destruct (chat_create request (sent c)); intros [= <- <-]; simpl; lia.
Qed.

(** Answers classified as non-critical only use up retries. *)
Lemma chat_loop_skip k retries request c :
  (forall j, (j < k)%nat ->
     is_critical_err (chat_create request (sent c + j)) = NonCritical) ->
  chat_loop deopt oc (k + retries) request c
  = chat_loop deopt oc retries request
      (mkProcess (globals c) (bill c) (CLIENT c) (sent c + k)).
Proof.
  revert c. induction k as [|k IH]; intros c Hk.
  { simpl. by rewrite Nat.add_0_r, process_eta. }
  pose proof (Hk 0%nat ltac:(lia)) as Hk0. rewrite Nat.add_0_r in Hk0.
  simpl. unfold bind at 1. simpl. rewrite Hk0.
  rewrite (IH (mkProcess (globals c) (bill c) (CLIENT c) (S (sent c))));
    [simpl; do 2 f_equal; lia|].
  intros j Hj. simpl. rewrite <- (Nat.add_succ_r (sent c) j). apply Hk. lia.
Qed.

Lemma chat_loop_normal retries request c r :
  chat_create request (sent c) = Ok r ->
  is_critical_err (Ok r) = Normal ->
  chat_loop deopt oc (S retries) request c
  = let '(res, b) := log_openai_usage (OPENAI_INPUT_PRICE (globals c))
                       (OPENAI_OUTPUT_PRICE (globals c)) deopt oc (usage r) (bill c) in
    (match res with Ok _ => Ok r | Err e => Err e end,
     mkProcess (globals c) b (CLIENT c) (S (sent c))).
Proof.
  intros Hr Hn. simpl. unfold bind at 1. simpl. rewrite Hr, Hn.
  unfold bind, lift, bill_response, on_bill. simpl.
  by destruct (log_openai_usage _ _ deopt oc (usage r) (bill c)) as [[[]|e] b].
Qed.

Lemma get_chat_response_ready request c :
  client_ready http_build c ->
  get_chat_response deopt oc http_build request c
  = chat_loop deopt oc RETRY_N request (with_client c).
Proof.
  intros (client & Hrun & _)%get_client_run. unfold get_chat_response, bind.
  by rewrite Hrun.
Qed.

Lemma with_client_frame c :
  sent (with_client c) = sent c /\ bill (with_client c) = bill c /\
  globals (with_client c) = globals c.
Proof. unfold with_client. by destruct (CLIENT c). Qed.

(** The first answer is a normal response, and billing it succeeds. *)
Lemma get_chat_response_first request c r :
  client_ready http_build c ->
  chat_create request (sent c) = Ok r ->
  is_critical_err (Ok r) = Normal ->
  (log_openai_usage (OPENAI_INPUT_PRICE (globals c)) (OPENAI_OUTPUT_PRICE (globals c))
     deopt oc (usage r) (bill c)).1 = Ok tt ->
  get_chat_response deopt oc http_build request c
  = (Ok r,
     mkProcess (globals c)
       (log_openai_usage (OPENAI_INPUT_PRICE (globals c)) (OPENAI_OUTPUT_PRICE (globals c))
          deopt oc (usage r) (bill c)).2
       (CLIENT (with_client c)) (S (sent c))).
Proof.
  intros Hready Hr Hn Hbill. rewrite get_chat_response_ready by done.
  destruct (with_client_frame c) as (Hs & Hb & Hg).
  change RETRY_N with (S 4). erewrite chat_loop_normal by (by rewrite ?Hs).
  rewrite Hs, Hb, Hg.
  destruct (log_openai_usage _ _ deopt oc (usage r) (bill c)) as [res b].
  simpl in Hbill. by subst res.
Qed.

(** The cells a request is built from. *)
Lemma on_globals_run {A} (m : M Globals A) c v :
  m (globals c) = (Ok v, globals c) -> on_globals m c = (Ok v, c).
Proof. intros Hm. unfold on_globals. by rewrite Hm, process_eta. Qed.

Lemma get_sample_num_run g cfg :
  CONFIG_INSTANCE g = Some cfg -> get_sample_num g = (Ok (n_sample cfg), g).
Proof. intros Hc. unfold get_sample_num, bind, cell_get, unwrap. by rewrite Hc. Qed.

Lemma cell_get_run {A} (cell : Globals -> option A) g v :
  cell g = Some v -> cell_get cell g = (Ok v, g).
Proof. intros Hc. unfold cell_get, unwrap. by rewrite Hc. Qed.

Lemma create_chat_request_run msgs stop c model cfg :
  OPENAI_MODEL_NAME (globals c) = Some model ->
  CONFIG_INSTANCE (globals c) = Some cfg ->
  create_chat_request msgs stop c
  = (Ok (mkChatRequest model msgs (n_sample cfg) (temperature cfg) false stop), c).
Proof.
  intros Hm Hc. unfold create_chat_request.
  erewrite bind_ok; [|by apply on_globals_run, cell_get_run].
  erewrite bind_ok; [|by apply on_globals_run, get_sample_num_run].
  erewrite bind_ok; [|by apply on_globals_run, cell_get_run]. done.
Qed.

Lemma foldl_push {A B} (f : A -> B) (l : list A) (acc : list B) :
  foldl (fun out x => out ++ [f x]) acc l = acc ++ (f <$> l).
Proof.
  revert acc. induction l as [|x l IH]; intros acc; simpl; [by rewrite app_nil_r|].
  by rewrite IH, <- app_assoc.
Qed.

Lemma map_m_ret {S A B} (f : A -> B) (l : list A) (s : S) :
  map_m (fun x => ret (f x)) l s = (Ok (f <$> l), s).
Proof.
  induction l as [|x l IH]; [done|]. simpl. unfold bind at 1, ret at 1.
  unfold bind. by rewrite IH.
Qed.

End RequestFacts.

(** ** The contract of the request layer *)

Section RequestClaims.
Context `{F32Text} `{Backend}.
Context (deopt : result unit) (oc : bool) (http_build runtime_build : result unit).
Implicit Types (c : Process) (request : ChatRequest).

(** C37: [get_chat_response] sends at most [RETRY_N] requests whatever the
    service answers, and at least one when the client can be had. *)
Theorem get_chat_response_bounded request c :
  let c' := (get_chat_response deopt oc http_build request c).2 in
  (sent c <= sent c' <= sent c + RETRY_N)%nat /\
  (client_ready http_build c -> (sent c < sent c')%nat).
Proof.
  cbv zeta. split.
  - unfold get_chat_response, bind.
    destruct (get_client_frame http_build c) as (Hs & _ & _).
    destruct (get_client http_build c) as [[client|e] c1]; cbn [snd] in *; [|lia].
    destruct (chat_loop deopt oc RETRY_N request c1) as [r c'] eqn:E.
    apply chat_loop_sent in E as [E _]. cbn [snd]. lia.
  - intros Hready. rewrite (get_chat_response_ready _ _ _ _ _ Hready).
    destruct (chat_loop deopt oc RETRY_N request (with_client c)) as [r c'] eqn:E.
    apply chat_loop_sent in E as [_ Hlt]. cbn [snd].
    destruct (with_client_frame c) as (Hs & _ & _).
    specialize (Hlt ltac:(unfold RETRY_N; lia)). lia.
Qed.

(** C23: answers classified as non-critical are retried: when the first
    [k] answers are non-critical and the next one is a response classified
    as normal, [get_chat_response] returns that response after [k + 1]
    requests, and its usage is billed exactly once, at the prices of the
    cells. *)
Theorem get_chat_response_after_retries request c k r :
  client_ready http_build c ->
  (k < RETRY_N)%nat ->
  (forall j, (j < k)%nat ->
     is_critical_err (chat_create request (sent c + j)) = NonCritical) ->
  chat_create request (sent c + k) = Ok r ->
  is_critical_err (Ok r) = Normal ->
  get_chat_response deopt oc http_build request c
  = let '(res, b) := log_openai_usage (OPENAI_INPUT_PRICE (globals c))
                       (OPENAI_OUTPUT_PRICE (globals c)) deopt oc (usage r) (bill c) in
    (match res with Ok _ => Ok r | Err e => Err e end,
     mkProcess (globals c) b (CLIENT (with_client c)) (S (sent c + k))).
Proof.
  intros Hready Hk Htransient Hr Hn. rewrite get_chat_response_ready by done.
  destruct (with_client_frame c) as (Hs & Hb & Hg).
  replace RETRY_N with (k + S (RETRY_N - S k))%nat by lia.
  rewrite chat_loop_skip by (by rewrite Hs).
  erewrite chat_loop_normal; simpl; rewrite ?Hs, ?Hb, ?Hg; done.
Qed.

(** When all [RETRY_N] answers are classified as non-critical,
    [get_chat_response] gives up with the retry error after [RETRY_N]
    requests and leaves the bill untouched. *)
Theorem get_chat_response_gives_up request c :
  client_ready http_build c ->
  (forall j, (j < RETRY_N)%nat ->
     is_critical_err (chat_create request (sent c + j)) = NonCritical) ->
  get_chat_response deopt oc http_build request c
  = (Err (retry_error RETRY_N),
     mkProcess (globals c) (bill c) (CLIENT (with_client c)) (sent c + RETRY_N)).
Proof.
  intros Hready Htransient. rewrite get_chat_response_ready by done.
  destruct (with_client_frame c) as (Hs & Hb & Hg).
  rewrite <- (Nat.add_0_r RETRY_N) at 1.
  rewrite chat_loop_skip by (by rewrite Hs). simpl. by rewrite Hs, Hb, Hg.
Qed.

(** C40: a request made before [init_openai_env] has set the proxy cell
    panics in [get_client], and nothing is sent. *)
Theorem request_before_init_panics request c :
  CLIENT c = None -> http_build = Ok tt -> OPENAI_PROXY_BASE (globals c) = None ->
  get_chat_response deopt oc http_build request c = (Err unwrap_none, c).
Proof.
  intros Hc Hb Hp. unfold get_chat_response, bind.
  by rewrite get_client_unready.
Qed.

(** [infill] on an infill prompt whose suffix has fewer than ten bytes
    panics on the slice that takes its stop sequence, before any request is
    built or sent. *)
Theorem infill_short_suffix_panics prompt suffix c :
  infill_suffix prompt = Some suffix ->
  (String.length suffix < 10)%nat ->
  infill deopt oc http_build prompt c
  = (Err (Panic "byte index is out of bounds or not a char boundary"), c).
Proof.
  intros Hsuffix Hlen. unfold infill. rewrite Hsuffix.
  unfold bind, lift, slice_to, is_char_boundary.
  rewrite str_drop_ge by lia. by rewrite bool_decide_eq_false_2 by lia.
Qed.

(** A new handler loads the bill: when the runtime builds,
    [OpenAIHanler::default] returns exactly when [load_openai_usage] does,
    with the bill it loaded, and a usage file that cannot be loaded makes it
    panic. *)
Theorem handler_default_loads_usage c :
  runtime_build = Ok tt ->
  OpenAIHanler_default deopt runtime_build c
  = match load_openai_usage deopt (bill c) with
    | (Ok _, b) => (Ok (mkOpenAIHanler None tt), mkProcess (globals c) b (CLIENT c) (sent c))
    | (Err (Report _), b) => (Err unwrap_err, mkProcess (globals c) b (CLIENT c) (sent c))
    | (Err (Panic msg), b) => (Err (Panic msg), mkProcess (globals c) b (CLIENT c) (sent c))
    end.
Proof.
  intros ->. unfold OpenAIHanler_default, bind, attempt, on_bill, ret. simpl.
  by destruct (load_openai_usage deopt (bill c)) as [[[]|[]] b].
Qed.

(** C24: [generate] turns the choices of the first normal response into
    programs: with the client at hand and the cells set, each choice is
    unwrapped by [strip_code_wrapper] and given the combination of the
    prompt, one request is sent, and the response is billed. *)
Theorem generate_unwraps_choices prompt c model cfg r comb :
  client_ready http_build c ->
  OPENAI_MODEL_NAME (globals c) = Some model ->
  CONFIG_INSTANCE (globals c) = Some cfg ->
  chat_create (mkChatRequest model (to_chatgpt_message prompt) (n_sample cfg)
                 (temperature cfg) false None) (sent c) = Ok r ->
  is_critical_err (Ok r) = Normal ->
  (log_openai_usage (OPENAI_INPUT_PRICE (globals c)) (OPENAI_OUTPUT_PRICE (globals c))
     deopt oc (usage r) (bill c)).1 = Ok tt ->
  get_combination prompt = Ok comb ->
  generate deopt oc http_build prompt c
  = (Ok ((fun choice => mkNewProgram (strip_code_wrapper choice) comb) <$> choices r),
     mkProcess (globals c)
       (log_openai_usage (OPENAI_INPUT_PRICE (globals c)) (OPENAI_OUTPUT_PRICE (globals c))
          deopt oc (usage r) (bill c)).2
       (CLIENT (with_client c)) (S (sent c))).
Proof.
  intros Hready Hm Hc Hr Hn Hbill Hcomb.
  unfold generate, generate_programs_by_chat.
  rewrite bind_assoc. erewrite bind_ok; [|by apply create_chat_request_run].
  rewrite bind_assoc.
  erewrite bind_ok; [|by apply (get_chat_response_first deopt oc http_build)].
  rewrite bind_ret_l, foldl_push. simpl.
  rewrite (map_m_ext _ (fun program => ret (mkNewProgram (statements program) comb))).
  2:{ intros x _ s. by rewrite Hcomb. }
  rewrite map_m_ret. by rewrite <- list_fmap_compose.
Qed.

End RequestClaims.

(** ** The other entry points *)

Section RequestMore.
Context `{F32Text} `{Backend}.
Context (deopt : result unit) (oc : bool) (http_build runtime_build : result unit).
Implicit Types (c : Process).

(** The completion loop sends and does nothing else. *)
Lemma complete_loop_frame retries request c r c' :
  complete_loop retries request c = (r, c') ->
  bill c' = bill c /\ globals c' = globals c /\ CLIENT c' = CLIENT c /\
  (sent c <= sent c' <= sent c + retries)%nat.
Proof.
  revert c. induction retries as [|retries IH]; intros c; simpl.
  { intros [= <- <-]. split_and!; [done..|lia|lia]. }
  unfold bind at 1. simpl.
  destruct (is_critical_err (completion_create request (sent c))).
  - unfold lift. intros [= <- <-]. simpl. split_and!; [done..|lia|lia].
  - intros (? & ? & ? & ?)%IH. simpl in *. split_and!; [done..|lia|lia].
  - destruct (completion_create request (sent c)); intros [= <- <-]; simpl;
      (split_and!; [done..|lia|lia]).
Qed.

(** Completions are not billed: [get_complete_response] sends at most
    [RETRY_N] requests and leaves the counters and the usage file as they
    are, whatever the usage of the response. *)
Theorem get_complete_response_not_billed request c :
  let c' := (get_complete_response http_build request c).2 in
  bill c' = bill c /\ (sent c <= sent c' <= sent c + RETRY_N)%nat.
Proof.
  cbv zeta. unfold get_complete_response, bind.
  destruct (get_client_frame http_build c) as (Hs & Hb & _).
  destruct (get_client http_build c) as [[client|e] c1]; cbn [snd] in *; [|split; [done|lia]].
  destruct (complete_loop RETRY_N request c1) as [r c'] eqn:E.
  apply complete_loop_frame in E as (Hb' & _ & _ & Hs'). cbn [snd].
  split; [congruence|lia].
Qed.

Lemma generate_infills_by_chat_run msgs stop c model cfg r :
  client_ready http_build c ->
  OPENAI_MODEL_NAME (globals c) = Some model ->
  CONFIG_INSTANCE (globals c) = Some cfg ->
  chat_create (mkChatRequest model msgs (n_sample cfg) (temperature cfg) false stop) (sent c) = Ok r ->
  is_critical_err (Ok r) = Normal ->
  (log_openai_usage (OPENAI_INPUT_PRICE (globals c)) (OPENAI_OUTPUT_PRICE (globals c))
     deopt oc (usage r) (bill c)).1 = Ok tt ->
  generate_infills_by_chat deopt oc http_build msgs stop c
  = (Ok (strip_code_wrapper <$> choices r),
     mkProcess (globals c)
       (log_openai_usage (OPENAI_INPUT_PRICE (globals c)) (OPENAI_OUTPUT_PRICE (globals c))
          deopt oc (usage r) (bill c)).2
       (CLIENT (with_client c)) (S (sent c))).
Proof.
  intros Hready Hm Hc Hr Hn Hbill. unfold generate_infills_by_chat.
  erewrite bind_ok; [|by apply create_chat_request_run].
  erewrite bind_ok; [|by apply (get_chat_response_first deopt oc http_build)].
  unfold ret. by rewrite foldl_push.
Qed.

(** [infill] stops the model at the first ten bytes of the suffix: for a
    suffix of at least ten bytes whose tenth byte ends a character, the
    request carries them as its stop sequence, and the infills are the
    unwrapped choices of the response. *)
Theorem infill_stops_at_suffix prompt suffix c model cfg r :
  infill_suffix prompt = Some suffix ->
  is_char_boundary suffix 10 = true ->
  client_ready http_build c ->
  OPENAI_MODEL_NAME (globals c) = Some model ->
  CONFIG_INSTANCE (globals c) = Some cfg ->
  chat_create (mkChatRequest model (to_chatgpt_message prompt) (n_sample cfg)
                 (temperature cfg) false (Some (str_take 10 suffix))) (sent c) = Ok r ->
  is_critical_err (Ok r) = Normal ->
  (log_openai_usage (OPENAI_INPUT_PRICE (globals c)) (OPENAI_OUTPUT_PRICE (globals c))
     deopt oc (usage r) (bill c)).1 = Ok tt ->
  (infill deopt oc http_build prompt c).1 = Ok (strip_code_wrapper <$> choices r).
Proof.
  intros Hsuffix Hb Hready Hm Hc Hr Hn Hbill. unfold infill, slice_to.
  rewrite Hsuffix, Hb. unfold bind, lift.
  by erewrite generate_infills_by_chat_run.
Qed.

(** The combination of the prompt is asked for once per program, after the
    response has been billed: when it cannot be had, [generate] fails
    although the response was paid for, unless the response has no choice. *)
Theorem generate_combination_error prompt c model cfg r e :
  client_ready http_build c ->
  OPENAI_MODEL_NAME (globals c) = Some model ->
  CONFIG_INSTANCE (globals c) = Some cfg ->
  chat_create (mkChatRequest model (to_chatgpt_message prompt) (n_sample cfg)
                 (temperature cfg) false None) (sent c) = Ok r ->
  is_critical_err (Ok r) = Normal ->
  (log_openai_usage (OPENAI_INPUT_PRICE (globals c)) (OPENAI_OUTPUT_PRICE (globals c))
     deopt oc (usage r) (bill c)).1 = Ok tt ->
  get_combination prompt = Err e ->
  generate deopt oc http_build prompt c
  = (match choices r with [] => Ok [] | _ => Err e end,
     mkProcess (globals c)
       (log_openai_usage (OPENAI_INPUT_PRICE (globals c)) (OPENAI_OUTPUT_PRICE (globals c))
          deopt oc (usage r) (bill c)).2
       (CLIENT (with_client c)) (S (sent c))).
Proof.
  intros Hready Hm Hc Hr Hn Hbill Hcomb.
  unfold generate, generate_programs_by_chat.
  rewrite bind_assoc. erewrite bind_ok; [|by apply create_chat_request_run].
  rewrite bind_assoc.
  erewrite bind_ok; [|by apply (get_chat_response_first deopt oc http_build)].
  rewrite bind_ret_l, foldl_push. simpl.
  destruct (choices r) as [|choice rest]; [done|].
  simpl. unfold bind, lift. by rewrite Hcomb.
Qed.

End RequestMore.

(** ** The request layer on an example *)

(** A service that gives the listed answers in turn; a timeout is worth a
    retry, every other error is not. *)
#[export] Instance demo_backend (answers : list (result Response)) : Backend := {|
  chat_create _ n := default (Err (Report "connection closed")) (answers !! n);
  completion_create _ n := default (Err (Report "connection closed")) (answers !! n);
  is_critical_err r :=
    match r with
    | Ok _ => Normal
    | Err e => if decide (e = Report "timeout") then NonCritical else CriticalErr
    end;
|}.

Definition demo_response : Response :=
  mkResponse (Some demo_usage) [demo_answer; "int y;"].

Definition demo_request : ChatRequest :=
  mkChatRequest "gpt" ["write a fuzz driver"] 2 (f32_of_Z 1) false None.

(** The cells after [init_openai_env] on the example environment and a
    parsed command line. *)
Definition demo_globals : Globals :=
  set_CONFIG_INSTANCE (Some demo_config)
    (init_openai_env (H:=demo_f32_text) demo_env no_globals).2.

Definition demo_process : Process := mkProcess demo_globals demo_billing None 0.

Definition demo_prompt : Prompt :=
  mkPrompt ["write a fuzz driver"] None (Ok ["cJSON_Parse"; "cJSON_Delete"]).

Definition timeout : result Response := Err (Report "timeout").

Lemma demo_ready : client_ready (Ok tt) demo_process.
Proof. right. split; [done|]. vm_compute. eauto. Qed.

Lemma get_chat_response_bounded_witness :
  let c' := (@get_chat_response demo_f32_text (demo_backend [timeout; Ok demo_response])
               (Ok tt) true (Ok tt) demo_request demo_process).2 in
  (sent demo_process <= sent c' <= sent demo_process + RETRY_N)%nat /\
  (client_ready (Ok tt) demo_process -> (sent demo_process < sent c')%nat).
Proof.
  apply (@get_chat_response_bounded demo_f32_text
           (demo_backend [timeout; Ok demo_response])).
Defined.

Lemma get_chat_response_after_retries_witness :
  @get_chat_response demo_f32_text (demo_backend [timeout; timeout; Ok demo_response])
    (Ok tt) true (Ok tt) demo_request demo_process
  = let '(res, b) := log_openai_usage (OPENAI_INPUT_PRICE (globals demo_process))
                       (OPENAI_OUTPUT_PRICE (globals demo_process)) (Ok tt) true
                       (usage demo_response) (bill demo_process) in
    (match res with Ok _ => Ok demo_response | Err e => Err e end,
     mkProcess (globals demo_process) b (CLIENT (with_client demo_process))
       (S (sent demo_process + 2))).
Proof.
  apply (@get_chat_response_after_retries demo_f32_text
           (demo_backend [timeout; timeout; Ok demo_response]));
    [exact demo_ready | unfold RETRY_N; lia | intros [|[|j]] Hj; [done..|lia] | done..].
Defined.

Lemma get_chat_response_gives_up_witness :
  @get_chat_response demo_f32_text (demo_backend (replicate 5 timeout))
    (Ok tt) true (Ok tt) demo_request demo_process
  = (Err (retry_error RETRY_N),
     mkProcess (globals demo_process) (bill demo_process)
       (CLIENT (with_client demo_process)) (sent demo_process + RETRY_N)).
Proof.
  apply (@get_chat_response_gives_up demo_f32_text (demo_backend (replicate 5 timeout)));
    [exact demo_ready|].
  intros [|[|[|[|[|j]]]]] Hj; [done..|unfold RETRY_N in Hj; lia].
Defined.

Lemma request_before_init_panics_witness :
  @get_chat_response demo_f32_text (demo_backend []) (Ok tt) true (Ok tt) demo_request
    (mkProcess no_globals demo_billing None 0)
  = (Err unwrap_none, mkProcess no_globals demo_billing None 0).
Proof. by apply request_before_init_panics. Defined.

Lemma infill_short_suffix_panics_witness :
  @infill demo_f32_text (demo_backend []) (Ok tt) true (Ok tt)
    (mkPrompt ["fill in"] (Some "}") (Ok [])) demo_process
  = (Err (Panic "byte index is out of bounds or not a char boundary"), demo_process).
Proof. apply (infill_short_suffix_panics _ _ _ _ "}"); [done | simpl; lia]. Defined.

Lemma handler_default_loads_usage_witness :
  @OpenAIHanler_default demo_f32_text (Ok tt) (Ok tt) demo_process
  = match load_openai_usage (Ok tt) (bill demo_process) with
    | (Ok _, b) =>
        (Ok (mkOpenAIHanler None tt),
         mkProcess (globals demo_process) b (CLIENT demo_process) (sent demo_process))
    | (Err (Report _), b) =>
        (Err unwrap_err,
         mkProcess (globals demo_process) b (CLIENT demo_process) (sent demo_process))
    | (Err (Panic msg), b) =>
        (Err (Panic msg),
         mkProcess (globals demo_process) b (CLIENT demo_process) (sent demo_process))
    end.
Proof. by apply handler_default_loads_usage. Defined.

Lemma generate_unwraps_choices_witness :
  @generate demo_f32_text (demo_backend [Ok demo_response]) (Ok tt) true (Ok tt)
    demo_prompt demo_process
  = (Ok ((fun choice =>
            mkNewProgram (strip_code_wrapper choice) ["cJSON_Parse"; "cJSON_Delete"])
           <$> choices demo_response),
     mkProcess (globals demo_process)
       (log_openai_usage (OPENAI_INPUT_PRICE (globals demo_process))
          (OPENAI_OUTPUT_PRICE (globals demo_process)) (Ok tt) true
          (usage demo_response) (bill demo_process)).2
       (CLIENT (with_client demo_process)) (S (sent demo_process))).
Proof.
  apply (@generate_unwraps_choices demo_f32_text (demo_backend [Ok demo_response])
           (Ok tt) true (Ok tt) demo_prompt demo_process "gpt-3.5-turbo" demo_config);
    first [exact demo_ready | reflexivity | vm_compute; reflexivity].
Defined.
